(* ===== verification/_CoqProject ===== *)
-Q . S2P
Prelude.v
Prog.v
GoStrings.v
Names.v
Semver.v
VersionText.v
Api.v
K8s.v
Json.v
JsonMerge.v
MergeSpec.v
Mounter.v
MounterProofs.v
Meta.v
Conditions.v
Webhook.v
CryptoPolicy.v
Rules.v
Rbac.v
ServiceAccount.v
Scc.v
CsiDriver.v
Prometheus.v
DaemonSet.v
Install.v
StoragePool.v
Pools.v
Controller.v
Permissions.v
Watches.v
Watched.v
Managed.v
Deployed.v
Steady.v
Deletion.v
Lifecycle.v
System.v
NoPanic.v
Scenario.v
GoTypes.v
DeepCopy.v
Isolation.v
GoJson.v
CrdSchema.v
CrdTypes.v
Informers.v
Clients.v
OpenApi.v
OpenApiTypes.v
Scanner.v
Generator.v
Marshaller.v
Csv.v
Metrics.v
Clientset.v
