(* ===== verification/Prelude.v ===== *)
(** * The hostpath-provisioner operator, as a Rocq library

    The operator (src/) watches one cluster-scoped HostPathProvisioner resource
    and deploys what the hostpath CSI driver needs: DaemonSets, service accounts,
    access control, storage pools and monitoring.  A second program, the mounter,
    runs in the pods of the storage pools and mounts their volumes on the host.
    The library models both as the sources have them and proves what makes them
    correct.  Paths below are relative to src/; "controller/" stands for
    pkg/controller/hostpathprovisioner/.

    ** Parts and files

    Foundations
    - Prelude.v: Go errors, results, tactics.
    - Prog.v: code that talks to its environment is a [prog], a tree of requests
      with a continuation for every answer; [run] executes it against a handler,
      [wp R G p Q] is its logic: while the answers obey the rely [R], every
      request obeys the guarantee [G] (which sees the history) and the end
      satisfies [Q].  [wp_run] and [wp_run_trace] connect the two.
    - GoStrings.v: what the code uses of strings, strconv, fmt and path/filepath.
    - Api.v: the Kubernetes structs and types.go of
      pkg/apis/hostpathprovisioner/v1beta1; [obj k] is an object of kind [k].
    - K8s.v: [kreq], the requests of the reconciler (client Get, List, Create,
      Update and Delete, events, the ready gauge, the clock, the order of a range
      over a map); [Server], the laws of an API server; [cluster_handler], an
      in-memory server that satisfies them; the environment ([Platform]).

    Pure components
    - Names.v: controller/util.go [getResourceNameWithMaxLength] and [hash], and
      the names storagepool.go and daemonset.go derive.
    - Semver.v: version/version.go, the vendored blang/semver, [canUpgrade] of
      controller/controller.go; VersionText.v: printing and parsing are inverse.
    - Json.v, JsonMerge.v: the vendored merge patches behind [mergeObject];
      MergeSpec.v: what a three-way merge promises, and that they keep it.
    - Webhook.v: the validators of hostpathprovisioner_webhook.go.
    - Rules.v: pkg/monitoring/rules; Metrics.v: pkg/monitoring/metrics and the tools
      that describe metrics.

    The reconciler (package controller/)
    - Meta.v: util.go and pkg/util/labels.go, owner references, and the
      create-or-update step of rbac.go that the other files repeat.
    - Conditions.v: cr.go and [ignoreHeartBeatTimestamp].
    - CryptoPolicy.v: pkg/util/cryptopolicy.
    - Rbac.v, ServiceAccount.v, Scc.v, CsiDriver.v, Prometheus.v, DaemonSet.v,
      StoragePool.v: the files of those names, objects and operations.
    - Controller.v: controller.go, from [Reconcile] down.
    - Managed.v, Pools.v, Deletion.v, Lifecycle.v, NoPanic.v: theorems about them.
    - Deployed.v: the objects a custom resource asks for, as a specification, and
      that a successful reconciliation has put them in place; Steady.v: that
      [Reconcile] leaves a settled cluster alone.
    - System.v: the operator and its cluster as a step relation: reconciliations
      start, make their requests one by one, end and crash, requests time out,
      answers get lost, and others act in between; an invariant of it by rule
      induction.
    - Scenario.v: [Reconcile] run from the creation of a resource to its end.

    The operator in its cluster
    - Watches.v: cmd/manager/main.go, [add] of controller.go and the event
      handlers of controller-runtime: how the operator starts and which changes
      lead to a reconciliation; Watched.v: that changes of created objects do.
    - Install.v: tools/helper and tools/csv-generator.go, what the operator is
      installed with (roles, Deployment, network policies); Permissions.v: the
      accesses the requests of [Reconcile] are, against these roles.

    The custom resource's types
    - GoTypes.v: types.go of pkg/apis/hostpathprovisioner/v1beta1 and the vendored
      API types its fields have, as data: names, struct tags, field types.
    - DeepCopy.v: zz_generated.deepcopy.go (and the vendored ones it calls) over a
      heap of variables, arrays and maps; Isolation.v: what of the heap a copy
      shares with its original.
    - GoJson.v: encoding/json on those types, and its round trip.
    - CrdSchema.v: tools/helper/crd_generated.go, the CustomResourceDefinition;
      CrdTypes.v: its schema against the Go types.
    - OpenApi.v: zz_generated.openapi.go, the OpenAPI definitions as data;
      OpenApiTypes.v: their references, and that they agree with the Go types and
      the CRD but for the fields they are too old for.

    The generated clients (pkg/client)
    - Informers.v: the informer factory, as threads that interleave at its mutex, its
      wait group and its goroutines.
    - Clients.v: the typed client over the request builder of client-go, and its
      fake; Clientset.v: how clients are made of a configuration, and the lister.

    The generators (tools/)
    - Scanner.v, Generator.v: tools/crd-generator, from the scanner that cuts the
      manifest into documents to the Go files it writes, over [greq], the requests
      to the file system.
    - Marshaller.v: tools/util/marshaller.go, how manifests are printed.
    - Csv.v: tools/csv-generator.go, the ClusterServiceVersion, made of Install.v's
      parts; tools/yaml-dumper.

    The mounter
    - Mounter.v: cmd/mounter/main.go and chroot.go, over [hreq], the commands and
      system calls it makes; MounterProofs.v: theorems about it.

    ** How state and operations correspond

    The reconciler keeps no state between calls: its state is the cluster's, seen
    only through [kreq].  A Go function [f] that uses the client is a program
    [f]; one that does not is a function.  A function that mutates the resource
    it is given returns the new one; a write replaces it with the answer of the
    server, as the client does.  Where two pointers alias and it matters
    ([reconcilePrometheusInfra]), the model has one object.  A Go error is
    [option goerror]: the class the code asks for and the text.  A panic and
    [os.Exit] are outcomes.  An integer that can wrap (the hash) is kept at its
    width; counters of pods and seconds are [Z].  A Go map is a [gmap]; where the
    code ranges over it the order is the answer of a [RangeOver] request.

    ** What the theorems show

    The specifications are written over histories, and the programs refine them:
    [torn_down] (Deletion.v), [ready_seen] and [upkeep] (Lifecycle.v),
    [deletes_unwanted] and [status_correct] (Pools.v), [merges] (MergeSpec.v),
    [commands_on_host] (MounterProofs.v), [deployed] (Deployed.v), [steady_objects]
    and [steady_status] (Steady.v).
    - The custom resource (Lifecycle.v): the finalizer goes last
      ([finalizer_safety]); version and conditions do not run ahead of the
      cluster ([status_follows_cluster]); writes come after the guards
      ([writes_are_gated], [Reconcile_footprint], [data_is_safe],
      [multiple_resources_refused], [downgrade_is_refused]); errors are shown
      ([failures_are_reported]); nothing panics ([reconcile_never_panics]).
    - The operator in its cluster: its start ([start_up_in_order]), what leads to
      a reconciliation ([created_objects_lead_back],
      [optional_kinds_are_watched]), what it may do ([requests_are_permitted],
      [leftovers_block_reconciliation]), which images it runs
      ([installed_images_reach_pods]).
    - Everything together: in the interleaved system no object is orphaned
      ([no_orphans]); no error means that all is deployed
      ([success_means_deployed]), and where all is deployed nothing changes
      ([settled_cluster_is_left_alone]).
    - Managed resources: convergence of the create-or-update step on any [Server]
      ([reconcile_converges], [daemonset_reconcile_converges]); roles before
      bindings, optional kinds, restarts ([bindings_follow_roles],
      [missing_kinds_are_skipped], [new_account_restarts_workloads]).
    - Storage pools (Pools.v): no wanted Deployment is deleted
      ([wanted_deployments_survive]), the status counts what was listed
      ([pool_status_correct]), and how far names identify pools.
    - The custom resource's types: a working copy shares nothing with the cached
      resource but the strings behind [SnapshotProvider]
      ([working_copy_is_isolated]); what the operator writes is admitted by the
      schema ([writes_are_admitted]), stored without loss
      ([stored_resource_is_what_was_written]) and, once admitted, read without an
      error ([admitted_documents_are_read]).  The OpenAPI definitions refer to each
      other without cycles ([references_end], [dependencies_are_references]) and
      describe the Go types and the CRD up to what [stale] and [crd_agrees] list.
    - The generated clients: the factory runs an informer once, shares it, shuts down
      for good and does not deadlock ([each_informer_runs_once],
      [informers_are_shared], [sync_answers_are_true], [shutdown_is_final],
      [calls_return]); a request reaches no path but that of the resource it names
      ([requests_stay_on_their_resource], [fake_records_what_is_sent]).
    - The generators: the documents of a manifest are found whatever the reads return
      ([documents_of_file]), the Go files hold them ([generator_writes],
      [variable_reads_back]), printing loses nothing else and is idempotent
      ([printed_elsewhere], [printed_once]), the parts of the ClusterServiceVersion
      fit each other and the operator ([csv_installs_the_operator],
      [example_is_accepted]).
    - Helpers: merge ([three_way_merge_refines]), labels, owner references,
      conditions, versions ([version_text_roundtrip]), names, validation, TLS,
      alerts.
    - The mounter: it acts on the host and comes back ([commands_run_on_host]),
      formats only blank devices, and its unmount loop ends ([unmount_ends]).
    Some theorems state what the code does where it is not what it means to do:
    [merge_never_prunes], [existing_rule_is_never_changed],
    [pool_names_are_ambiguous], [leftovers_block_reconciliation],
    [unmount_panics_without_findmnt], [snapshot_provider_is_shared],
    [families_are_untyped], [claims_lose_their_source].

    ** Bounds

    Only the mounter's two endless loops need fuel: [mount_rounds n] and
    [unmount_rounds n] make at most [n] rounds.  The safety theorems hold for every
    [n]; [unmount_ends] shows that as many rounds as there are mounts are enough.
    The scanner gets as many rounds as its file has bytes, which its theorem shows to
    be enough; references of OpenAPI models end within eight steps ([references_end]).
    Everything else is structural recursion; that the threads of Informers.v come to
    an end is a theorem about its step relation ([calls_return]).

    ** Parameters

    - [Codec] (Meta.v): encoding/json on the API structs, which generated code
      and struct tags drive; laws only where a theorem names them.
    - [Platform] (K8s.v): environment variables, the version and namespace
      files, label-selector parsing of apimachinery.
    - [CustomJson] (GoJson.v): the JSON methods of times, quantities and managed
      fields; [Formats] (CrdTypes.v): text formats and regular expressions.
    - [RequestCodec] (Clients.v): the parameter codec and serializers of a client.
    - [JsonReader] (Mounter.v): the JSON parser for findmnt and lsblk output.
    - [Yaml] (Marshaller.v) and [Manifests] (Generator.v): the YAML packages;
      [Transports] (Clientset.v): HTTP transports and addresses.
    - [RESTMapper] (Watches.v): the discovery of the API server.
    - [Authorizer] (Permissions.v): the API server's evaluation of RBAC rules, with
      the documented evaluation as its law.
    - [Server] and the relies ([holds], [shows], [go_answers], [faithful_updates]):
      the API server.  Scenario.v exhibits runs that satisfy them.

    ** Not modelled

    The manager itself (leader election, work queue, caches, servers: parts of
    controller-runtime); HTTP (TLS, retries, responses); the layout of YAML and of
    the documentation of metrics; log output.  In the theorems about the
    reconciler an object reads back as a [Server] says it does; the schema of the
    custom resource is the subject of CrdTypes.v.  The API server's checks that a
    role binding grants nothing its author lacks are not modelled.

    ** Left for extensions

    Laws of List in [Server], to connect the snapshots of Steady.v with the state
    a reconciliation leaves behind; the Kubernetes structs of the managed objects in
    the descriptions of GoTypes.v, to make [Codec] an instance of GoJson.v. *)

From stdpp Require Export base tactics list option strings pretty gmap fin_maps.
From Stdlib Require Export Ascii ZArith Lia.

#[global] Open Scope Z_scope.
#[global] Arguments String.append : simpl nomatch.

(** ** Go values: errors, results and nil-able data *)

Declare Scope go_scope.
Delimit Scope go_scope with go.

(** The classes of API errors the code tells apart ([errors.IsNotFound],
    [errors.IsAlreadyExists], [meta.IsNoMatchError], [cache.ErrCacheNotStarted]). *)
Inductive ErrKind :=
| KNotFound
| KAlreadyExists
| KNoMatch
| KCacheNotStarted
| KOther.

#[export] Instance ErrKind_eq_dec : EqDecision ErrKind.
Proof. solve_decision. Defined.

(** A non-nil Go error: its class and the text [err.Error()] prints. *)
Record goerror := GoError { err_kind : ErrKind; err_text : string }.

#[export] Instance goerror_eq_dec : EqDecision goerror.
Proof. solve_decision. Defined.

(** A Go [error]: nil or an error. *)
Abbreviation error := (option goerror).
Abbreviation nil_error := (@None goerror).

Definition IsNotFound (e : goerror) : bool := bool_decide (err_kind e = KNotFound).
Definition IsAlreadyExists (e : goerror) : bool := bool_decide (err_kind e = KAlreadyExists).
Definition IsNoMatchError (e : goerror) : bool := bool_decide (err_kind e = KNoMatch).

(** [fmt.Errorf(text)]: an error of no API class. *)
Definition Errorf (text : string) : goerror := GoError KOther text.

(** A Go [(T, error)] pair whose value is not looked at when the error is set. *)
Inductive result (A : Type) :=
| Ok (a : A)
| Err (e : goerror).
Arguments Ok {A} a.
Arguments Err {A} e.

Definition result_error {A} (r : result A) : error :=
  match r with Ok _ => None | Err e => Some e end.

Definition is_ok {A} (r : result A) : bool :=
  match r with Ok _ => true | Err _ => false end.

(** ** Tactics *)

(** Case analysis on every [match] and [if] of the goal. *)
Ltac cases :=
  repeat match goal with
  | |- context [match ?x with _ => _ end] => destruct x eqn:?; simplify_eq/=
  end.

(** Case analysis on every [match] and [if] of a hypothesis. *)
Ltac cases_in H :=
  repeat match type of H with
  | context [match ?x with _ => _ end] => destruct x eqn:?; simplify_eq/=
  end.

(** Turn the booleans the code computes into the propositions they decide. *)
Ltac bool_simpl :=
  repeat first
    [ progress rewrite ?bool_decide_eq_true, ?bool_decide_eq_false in *
    | progress rewrite ?andb_true_iff, ?andb_false_iff, ?orb_true_iff,
        ?orb_false_iff, ?negb_true_iff, ?negb_false_iff in *
    | progress rewrite ?Z.ltb_lt, ?Z.leb_le, ?Z.eqb_eq, ?Z.ltb_ge, ?Z.leb_gt, ?Z.eqb_neq in * ].

Create HintDb hpp discriminated.
#[export] Hint Constants Opaque : hpp.

(** ** Generic lemmas *)

Lemma is_ok_error {A} (r : result A) : is_ok r = true ↔ result_error r = None.
Proof. destruct r; naive_solver. Qed.
