(* ===== verification/Prog.v ===== *)
(** * Effectful Go code as programs over a request signature

    Code that talks to the API server or to the host is a [prog]: a tree of
    requests, each with a continuation for every answer.  [run] executes a
    program against a handler (an implementation of the requests); [wp] is the
    program logic: what the program guarantees whatever the answers are. *)
From S2P Require Import Prelude.

(** How a Go call ends: it returns, panics, or calls [os.Exit]. *)
Inductive outcome (A : Type) :=
| Returned (a : A)
| Panicked (msg : string)
| Exited (code : Z).
Arguments Returned {A} a.
Arguments Panicked {A} msg.
Arguments Exited {A} code.

Section Prog.
Context {E : Type → Type}.

Inductive prog (A : Type) : Type :=
| Ret (a : A)
| Panic (msg : string)
| Exit (code : Z)
| Do (T : Type) (r : E T) (k : T → prog A).

(** One request and the answer it received. *)
Inductive event :=
| Ev (T : Type) (r : E T) (x : T).

Definition trace := list event.
End Prog.

Arguments prog E A : clear implicits.
Arguments event E : clear implicits.
Arguments trace E : clear implicits.
Arguments Ret {E A} a.
Arguments Panic {E A} msg.
Arguments Exit {E A} code.
Arguments Do {E A T} r k.
Arguments Ev {E T} r x.

Fixpoint prog_bind {E A B} (f : A → prog E B) (p : prog E A) : prog E B :=
  match p with
  | Ret a => f a
  | Panic m => Panic m
  | Exit c => Exit c
  | Do r k => Do r (λ x, prog_bind f (k x))
  end.

#[export] Instance prog_mret E : MRet (prog E) := λ A a, Ret a.
#[export] Instance prog_mbind E : MBind (prog E) := λ A B f p, prog_bind f p.

(** Issue one request. *)
Definition request {E T} (r : E T) : prog E T := Do r Ret.

(** [if err := p; err != nil { return h err }; k] *)
Definition on_err {E B} (p : prog E error) (h : goerror → prog E B) (k : prog E B) : prog E B :=
  err ← p; match err with Some e => h e | None => k end.

(** [x, err := p; if err != nil { return h err }; k x] *)
Definition with_ok {E A B} (p : prog E (result A)) (h : goerror → prog E B)
    (k : A → prog E B) : prog E B :=
  r ← p; match r with Err e => h e | Ok a => k a end.

(** [for _, a := range l { if err := body a; err != nil { return err } }; return nil] *)
Fixpoint for_err {E A} (l : list A) (body : A → prog E error) : prog E error :=
  match l with
  | [] => mret None
  | a :: l => on_err (body a) (λ e, mret (Some e)) (for_err l body)
  end.

(** A loop that threads the local variables [s] through its iterations and
    stops at the first error. *)
Fixpoint for_state {E A S} (l : list A) (s : S) (body : S → A → prog E (result S)) :
    prog E (result S) :=
  match l with
  | [] => mret (Ok s)
  | a :: l => with_ok (body s a) (λ e, mret (Err e)) (λ s, for_state l s body)
  end.

(** ** Execution *)

(** A handler answers each request, reading and writing its own state. *)
Definition handler (E : Type → Type) (S : Type) := ∀ T, E T → S → T * S.

Fixpoint run {E S A} (h : handler E S) (p : prog E A) (s : S) : outcome A * S :=
  match p with
  | Ret a => (Returned a, s)
  | Panic m => (Panicked m, s)
  | Exit c => (Exited c, s)
  | Do r k => let '(x, s) := h _ r s in run h (k x) s
  end.

(** The requests a run makes, with their answers. *)
Fixpoint run_trace {E S A} (h : handler E S) (p : prog E A) (s : S) : trace E :=
  match p with
  | Ret _ | Panic _ | Exit _ => []
  | Do r k => let '(x, s) := h _ r s in Ev r x :: run_trace h (k x) s
  end.

(** ** The program logic *)

(** [R T r x]: [x] is an answer the environment may give to [r]. *)
Definition rely (E : Type → Type) := ∀ T, E T → T → Prop.
(** [G tr T r]: the program may issue [r] after the history [tr]. *)
Definition guarantee (E : Type → Type) := trace E → ∀ T, E T → Prop.

Definition any_answer {E} : rely E := λ _ _ _, True.
Definition any_request {E} : guarantee E := λ _ _ _, True.

(** [wp R G p Q tr]: started after history [tr] and as long as the answers obey
    [R], every request of [p] obeys [G], and [p] ends with a history and an
    outcome that satisfy [Q]. *)
Fixpoint wp {E A} (R : rely E) (G : guarantee E) (p : prog E A)
    (Q : trace E → outcome A → Prop) (tr : trace E) : Prop :=
  match p with
  | Ret a => Q tr (Returned a)
  | Panic m => Q tr (Panicked m)
  | Exit c => Q tr (Exited c)
  | Do r k => G tr _ r ∧ ∀ x, R _ r x → wp R G (k x) Q (tr ++ [Ev r x])
  end.

(** Every request of [p], whatever the answers, satisfies [P]. *)
Fixpoint footprint {E A} (P : ∀ T, E T → Prop) (p : prog E A) : Prop :=
  match p with
  | Ret _ | Panic _ | Exit _ => True
  | Do r k => P _ r ∧ ∀ x, footprint P (k x)
  end.

(** Continue with [Q] on the value a program returns; a panic or an exit of the
    first part is one of the whole. *)
Definition post_bind {E A B} (R : rely E) (G : guarantee E) (f : A → prog E B)
    (Q : trace E → outcome B → Prop) : trace E → outcome A → Prop :=
  λ tr o, match o with
          | Returned a => wp R G (f a) Q tr
          | Panicked m => Q tr (Panicked m)
          | Exited c => Q tr (Exited c)
          end.

(** ** Laws of the monad and of the logic *)

Section Laws.
Context {E : Type → Type}.
Implicit Types (R : rely E) (G : guarantee E).

Lemma bind_ret {A B} (a : A) (f : A → prog E B) : mret a ≫= f = f a.
Proof. done. Qed.

Lemma bind_do {A B T} (r : E T) (k : T → prog E A) (f : A → prog E B) :
  Do r k ≫= f = Do r (λ x, k x ≫= f).
Proof. done. Qed.

Lemma wp_bind {A B} R G (p : prog E A) (f : A → prog E B) Q tr :
  wp R G (p ≫= f) Q tr ↔ wp R G p (post_bind R G f Q) tr.
Proof.
  revert tr; induction p as [| | |T r k IH]; intros tr; simpl; [done..|].
  split; intros [? Hk]; split; try done; intros x Hx; by apply IH, Hk.
Qed.

Lemma wp_mono {A} R R' G G' (p : prog E A) (Q Q' : trace E → outcome A → Prop) tr :
  (∀ T (r : E T) x, R' T r x → R T r x) →
  (∀ tr T (r : E T), G tr T r → G' tr T r) →
  (∀ tr o, Q tr o → Q' tr o) →
  wp R G p Q tr → wp R' G' p Q' tr.
Proof.
  intros HR HG HQ; revert tr; induction p as [| | |T r k IH]; simpl; auto.
  intros tr [? Hk]; split; auto.
Qed.

Lemma wp_post {A} R G (p : prog E A) (Q Q' : trace E → outcome A → Prop) tr :
  wp R G p Q tr → (∀ tr o, Q tr o → Q' tr o) → wp R G p Q' tr.
Proof. intros; eapply wp_mono; eauto. Qed.

Lemma wp_conj {A} R G G' (p : prog E A) (Q Q' : trace E → outcome A → Prop) tr :
  wp R G p Q tr → wp R G' p Q' tr →
  wp R (λ tr T r, G tr T r ∧ G' tr T r) p (λ tr o, Q tr o ∧ Q' tr o) tr.
Proof.
  revert tr; induction p as [| | |T r k IH]; simpl; auto.
  intros tr [? Hk] [? Hk']; split; auto.
Qed.

(** A history invariant every request keeps holds when the program ends. *)
Lemma wp_invariant {A} R (P : ∀ T, E T → Prop) G (I : trace E → Prop) (p : prog E A) tr :
  footprint P p →
  (∀ tr T (r : E T), I tr → P T r → G tr T r) →
  (∀ tr T (r : E T) x, I tr → P T r → R T r x → I (tr ++ [Ev r x])) →
  I tr → wp R G p (λ tr _, I tr) tr.
Proof.
  intros HP HG HI; revert tr HP; induction p as [| | |T r k IH]; simpl; auto.
  intros tr [HPr HPk] Htr; split; eauto.
Qed.

Lemma footprint_bind {A B} (P : ∀ T, E T → Prop) (p : prog E A) (f : A → prog E B) :
  footprint P p → (∀ a, footprint P (f a)) → footprint P (p ≫= f).
Proof.
  intros Hp Hf; induction p as [| | |T r k IH]; simpl in *; auto.
  destruct Hp; split; [done | intros; by apply IH].
Qed.

Lemma footprint_mono {A} (P P' : ∀ T, E T → Prop) (p : prog E A) :
  footprint P p → (∀ T r, P T r → P' T r) → footprint P' p.
Proof. intros Hp HP; induction p; simpl in *; naive_solver. Qed.

Lemma footprint_any {A} (p : prog E A) : footprint (λ _ _, True) p.
Proof. by induction p. Qed.

Lemma footprint_on_err {B} (P : ∀ T, E T → Prop) (p : prog E error)
    (h : goerror → prog E B) k :
  footprint P p → (∀ e, footprint P (h e)) → footprint P k → footprint P (on_err p h k).
Proof. intros; apply footprint_bind; [done|]; intros [|]; auto. Qed.

Lemma footprint_with_ok {A B} (P : ∀ T, E T → Prop) (p : prog E (result A))
    (h : goerror → prog E B) (k : A → prog E B) :
  footprint P p → (∀ e, footprint P (h e)) → (∀ a, footprint P (k a)) →
  footprint P (with_ok p h k).
Proof. intros; apply footprint_bind; [done|]; intros [|]; auto. Qed.

Lemma footprint_for_err {A} (P : ∀ T, E T → Prop) (l : list A) body :
  (∀ a, a ∈ l → footprint P (body a)) → footprint P (for_err l body).
Proof.
  induction l as [|a l IH]; intros Hb; simpl; [done|].
  apply footprint_on_err; [apply Hb; left| done |].
  apply IH; intros; apply Hb; by right.
Qed.

Lemma footprint_for_state {A S} (P : ∀ T, E T → Prop) (l : list A) (s : S) body :
  (∀ s a, a ∈ l → footprint P (body s a)) → footprint P (for_state l s body).
Proof.
  revert s; induction l as [|a l IH]; intros s Hb; simpl; [done|].
  apply footprint_with_ok; [apply Hb; left| done |].
  intros s'; apply IH; intros; apply Hb; by right.
Qed.

(** A footprint is a guarantee that does not look at the history. *)
Lemma footprint_wp {A} R (P : ∀ T, E T → Prop) (p : prog E A) tr :
  footprint P p → wp R (λ _, P) p (λ _ _, True) tr.
Proof. intros; eapply (wp_invariant R P (λ _, P) (λ _, True)); auto. Qed.

(** ** Soundness: a run whose handler obeys the rely has the proved property. *)
Lemma wp_run {A S} R G (h : handler E S) (p : prog E A) Q s tr :
  (∀ T (r : E T) s, R T r (h T r s).1) →
  wp R G p Q tr →
  Q (tr ++ run_trace h p s) (run h p s).1.
Proof.
  intros Hh; revert s tr; induction p as [| | |T r k IH]; intros s tr; simpl.
  1-3: by rewrite app_nil_r.
  intros [_ Hk]. specialize (Hh T r s). destruct (h T r s) as [x s'] eqn:Hr; simpl in *.
  replace (tr ++ Ev r x :: run_trace h (k x) s')
    with ((tr ++ [Ev r x]) ++ run_trace h (k x) s') by (by rewrite <-app_assoc).
  by apply IH, Hk.
Qed.

(** A single run, whose handler need only obey the rely in the answers it gave,
    has the proved property, and each of its requests obeys the guarantee. *)
Definition answered R (ev : event E) : Prop := match ev with Ev r x => R _ r x end.
Definition asked G (tr : trace E) (ev : event E) : Prop := match ev with Ev r _ => G tr _ r end.

Lemma wp_run_trace {A S} R G (h : handler E S) (p : prog E A) Q s tr :
  Forall (answered R) (run_trace h p s) → wp R G p Q tr →
  Q (tr ++ run_trace h p s) (run h p s).1 ∧
  ∀ pre ev post, run_trace h p s = pre ++ ev :: post → asked G (tr ++ pre) ev.
Proof.
  revert s tr; induction p as [| | |T r k IH]; intros s tr; simpl.
  1-3: intros _ ?; (split; [by rewrite app_nil_r|]); by intros [|??] ???.
  intros Hall [Hg Hk]. destruct (h T r s) as [x s'] eqn:Hr.
  apply Forall_cons in Hall as [Hx Hall]. destruct (IH x s' (tr ++ [Ev r x])) as [HQ HG]; [done|by apply Hk|].
  rewrite <-app_assoc in HQ. split; [done|]. intros [|ev pre] ev' post; simpl; intros [= <- Htr].
  - simpl. by rewrite app_nil_r.
  - specialize (HG pre ev' post Htr). by rewrite <-app_assoc in HG.
Qed.

Lemma run_request {S T} (h : handler E S) (r : E T) s :
  run h (request r) s = (Returned (h _ r s).1, (h _ r s).2).
Proof. unfold request; simpl. by destruct (h T r s). Qed.

Lemma run_bind {A B S} (h : handler E S) (p : prog E A) (f : A → prog E B) s :
  run h (p ≫= f) s =
  match run h p s with
  | (Returned a, s') => run h (f a) s'
  | (Panicked m, s') => (Panicked m, s')
  | (Exited c, s') => (Exited c, s')
  end.
Proof.
  revert s; induction p as [| | |T r k IH]; intros s; simpl; [done..|].
  destruct (h T r s) as [x s']; apply IH.
Qed.
End Laws.

(** ** Histories only grow *)

Section Histories.
Context {E : Type → Type}.
Implicit Types (R : rely E) (G : guarantee E) (P : ∀ T, E T → Prop).

Lemma wp_extends {A} R G (p : prog E A) Q tr :
  wp R G p Q tr → wp R G p (λ tr' o, tr `prefix_of` tr' ∧ Q tr' o) tr.
Proof.
  assert (H : ∀ tr', tr `prefix_of` tr' → wp R G p Q tr' →
                     wp R G p (λ tr' o, tr `prefix_of` tr' ∧ Q tr' o) tr').
  { induction p as [| | |T r k IH]; simpl; auto. intros tr' Hp [? Hk]. split; [done|].
    intros x Hx. apply IH; [|by apply Hk]. by apply prefix_app_r. }
  intros. by apply H.
Qed.

Lemma wp_strengthen {A} R G (p : prog E A) (Q Q' : trace E → outcome A → Prop) tr :
  wp R G p Q tr → (∀ tr' o, tr `prefix_of` tr' → Q tr' o → Q' tr' o) → wp R G p Q' tr.
Proof. intros Hp%wp_extends HQ. eapply wp_post; [exact Hp|]. naive_solver. Qed.

(** The guarantee, too, may be weakened knowing that the history grew. *)
Lemma wp_guarantee {A} R P G (p : prog E A) Q tr :
  wp R (λ _, P) p Q tr →
  (∀ tr' T (r : E T), tr `prefix_of` tr' → P T r → G tr' T r) → wp R G p Q tr.
Proof.
  assert (H : ∀ tr', tr `prefix_of` tr' →
    (∀ tr' T (r : E T), tr `prefix_of` tr' → P T r → G tr' T r) →
    wp R (λ _, P) p Q tr' → wp R G p Q tr').
  { induction p as [| | |T r k IH]; simpl; auto. intros tr' Hp HG [? Hk]. split; [auto|].
    intros x Hx. apply IH; [|auto..]. by apply prefix_app_r. }
  intros. by apply H.
Qed.

(** A part of which only the footprint is known may return anything. *)
Lemma wp_footprint {A} R P G (p : prog E A) Q tr :
  footprint P p → (∀ tr' T (r : E T), tr `prefix_of` tr' → P T r → G tr' T r) →
  (∀ tr' o, tr `prefix_of` tr' → Q tr' o) → wp R G p Q tr.
Proof.
  intros Hp HG HQ. eapply wp_guarantee; [|exact HG].
  eapply wp_strengthen; [by apply footprint_wp|]. auto.
Qed.

Definition post_on_err {B} R G (h : goerror → prog E B) (k : prog E B)
    (Q : trace E → outcome B → Prop) : trace E → outcome error → Prop :=
  λ tr o, match o with
          | Returned None => wp R G k Q tr
          | Returned (Some e) => wp R G (h e) Q tr
          | Panicked m => Q tr (Panicked m)
          | Exited c => Q tr (Exited c)
          end.

Lemma wp_on_err {B} R G (p : prog E error) h (k : prog E B) Q tr :
  wp R G p (post_on_err R G h k Q) tr → wp R G (on_err p h k) Q tr.
Proof. intros Hp. apply wp_bind. eapply wp_post; [exact Hp|]. by intros tr' [[]| |]. Qed.

Definition post_with_ok {A B} R G (h : goerror → prog E B) (k : A → prog E B)
    (Q : trace E → outcome B → Prop) : trace E → outcome (result A) → Prop :=
  λ tr o, match o with
          | Returned (Ok a) => wp R G (k a) Q tr
          | Returned (Err e) => wp R G (h e) Q tr
          | Panicked m => Q tr (Panicked m)
          | Exited c => Q tr (Exited c)
          end.

Lemma wp_with_ok {A B} R G (p : prog E (result A)) h (k : A → prog E B) Q tr :
  wp R G p (post_with_ok R G h k Q) tr → wp R G (with_ok p h k) Q tr.
Proof. intros Hp. apply wp_bind. eapply wp_post; [exact Hp|]. by intros tr' [[]| |]. Qed.

(** The rule of a loop that threads state: [Inv] speaks of the elements done. *)
Lemma wp_for_state {A S} R G (l : list A) (s : S) body (Inv : list A → trace E → S → Prop) tr :
  Inv [] tr s →
  (∀ past a rest tr s, l = past ++ a :: rest → Inv past tr s →
     wp R G (body s a) (λ tr' o, ∀ s', o = Returned (Ok s') → Inv (past ++ [a]) tr' s') tr) →
  wp R G (for_state l s body) (λ tr' o, ∀ s', o = Returned (Ok s') → Inv l tr' s') tr.
Proof.
  intros Hinit Hbody.
  assert (H : ∀ rest past tr s, l = past ++ rest → Inv past tr s →
    wp R G (for_state rest s body) (λ tr' o, ∀ s', o = Returned (Ok s') → Inv l tr' s') tr).
  { induction rest as [|a rest IH]; intros past tr' s' Hl HI; cbn [for_state].
    - rewrite app_nil_r in Hl. subst. by intros s'' [= <-].
    - apply wp_with_ok. eapply wp_post; [by eapply Hbody|].
      intros tr2 [[s2|e]| |] H2; cbn [post_with_ok]; [|done..].
      apply (IH (past ++ [a])); [by rewrite <-app_assoc|by apply H2]. }
  by apply (H l []).
Qed.

Lemma wp_for_err {A} R G (l : list A) body (Inv : trace E → Prop) tr :
  Inv tr →
  (∀ a tr, a ∈ l → Inv tr → wp R G (body a) (λ tr' _, Inv tr') tr) →
  wp R G (for_err l body) (λ tr' _, Inv tr') tr.
Proof.
  revert tr. induction l as [|a l IH]; intros tr HI Hb; [done|]. cbn [for_err]. apply wp_on_err.
  eapply wp_post; [apply Hb; [left|done]|]. intros tr' [[e|]| |] H; cbn [post_on_err]; try done.
  apply IH; [done|]. intros. apply Hb; [by right|done].
Qed.

(** ** Promises: what a step has achieved when it reports no error *)

Definition monotone (Φ : trace E → Prop) : Prop := ∀ tr tr', tr `prefix_of` tr' → Φ tr → Φ tr'.

(** [ensures P p Φ]: [p] only makes requests of [P], and when it returns nil
    the history satisfies [Φ], whatever the answers were. *)
Definition ensures P (p : prog E error) (Φ : trace E → Prop) : Prop :=
  ∀ R tr, wp R (λ _, P) p (λ tr' o, o = Returned None → Φ tr') tr.

Lemma ensures_footprint P p : footprint P p → ensures P p (λ _, True).
Proof. intros Hp R tr. by apply (wp_footprint R P (λ _, P)). Qed.

Lemma ensures_mono P p (Φ Ψ : trace E → Prop) : ensures P p Φ → (∀ tr, Φ tr → Ψ tr) → ensures P p Ψ.
Proof. intros Hp HΦ R tr. eapply wp_post; [apply Hp|]. naive_solver. Qed.

Lemma ensures_on_err P p k (Φ Ψ : trace E → Prop) :
  ensures P p Φ → ensures P k Ψ → monotone Φ →
  ensures P (on_err p (λ e, mret (Some e)) k) (λ tr, Φ tr ∧ Ψ tr).
Proof.
  intros Hp Hk HΦ R tr. apply wp_on_err. eapply wp_post; [apply Hp|].
  intros tr1 [[e|]| |] H1; simpl; try done. specialize (H1 eq_refl).
  eapply wp_strengthen; [apply Hk|]. intros tr2 o Hpre H2 ->. eauto.
Qed.

Lemma ensures_for_err {A} P (l : list A) body (Φ : A → trace E → Prop) :
  (∀ a, a ∈ l → ensures P (body a) (Φ a)) → (∀ a, monotone (Φ a)) →
  ensures P (for_err l body) (λ tr, ∀ a, a ∈ l → Φ a tr).
Proof.
  intros Hb HΦ. induction l as [|a l IH]; simpl.
  - intros R tr _ a Ha. by apply elem_of_nil in Ha.
  - eapply ensures_mono; [apply ensures_on_err; [apply Hb; left|apply IH; intros; apply Hb; by right|done]|].
    intros tr [Ha Hl] a' [->|?]%elem_of_cons; auto.
Qed.

Lemma last_event {T} (r : E T) x (tr : trace E) : Ev r x ∈ tr ++ [Ev r x].
Proof. apply elem_of_app. right. by left. Qed.

Lemma elem_of_monotone (ev : event E) : monotone (λ tr, ev ∈ tr).
Proof. intros tr tr' [l ->] H. apply elem_of_app. by left. Qed.

Lemma ensures_weaken P P' p (Φ : trace E → Prop) :
  ensures P p Φ → (∀ T r, P T r → P' T r) → ensures P' p Φ.
Proof. intros Hp HP R tr. eapply wp_mono; [..|apply Hp]; naive_solver. Qed.

(** [gives P p Φ]: the same of a program that returns a value or an error *)
Definition gives {A} P (p : prog E (result A)) (Φ : A → trace E → Prop) : Prop :=
  ∀ R tr, wp R (λ _, P) p (λ tr' o, ∀ a, o = Returned (Ok a) → Φ a tr') tr.

Lemma gives_mono {A} P (p : prog E (result A)) (Φ Ψ : A → trace E → Prop) :
  gives P p Φ → (∀ a tr, Φ a tr → Ψ a tr) → gives P p Ψ.
Proof. intros Hp HΦ R tr. eapply wp_post; [apply Hp|]. naive_solver. Qed.

Lemma gives_footprint {A} P (p : prog E (result A)) : footprint P p → gives P p (λ _ _, True).
Proof. intros Hp R tr. by apply (wp_footprint R P (λ _, P)). Qed.

Lemma gives_ret {A} P (r : result A) Φ :
  (∀ a tr, r = Ok a → Φ a tr) → gives P (mret r) Φ.
Proof. intros HΦ R tr a [= Ha]. auto. Qed.

Lemma gives_request {A} P (r : E (result A)) :
  P _ r → gives P (request r) (λ a tr, Ev r (Ok a) ∈ tr).
Proof. intros HP R tr. split; [done|]. intros x _ a [= ->]. apply last_event. Qed.

Lemma ensures_with_ok {A} P (p : prog E (result A)) k (Φ : A → trace E → Prop) (Ψ : A → trace E → Prop) :
  gives P p Φ → (∀ a, ensures P (k a) (Ψ a)) → (∀ a, monotone (Φ a)) →
  ensures P (with_ok p (λ e, mret (Some e)) k) (λ tr, ∃ a, Φ a tr ∧ Ψ a tr).
Proof.
  intros Hp Hk HΦ R tr. apply wp_with_ok. eapply wp_post; [apply Hp|].
  intros tr1 [[a|e]| |] H1; cbn [post_with_ok]; try done.
  eapply wp_strengthen; [apply Hk|]. intros tr2 o Hpre H2 ->. exists a. split; [by eapply HΦ, H1|by apply H2].
Qed.

Lemma gives_with_ok {A B} P (p : prog E (result A)) (k : A → prog E (result B)) (Φ : A → trace E → Prop)
    (Ψ : A → B → trace E → Prop) :
  gives P p Φ → (∀ a, gives P (k a) (Ψ a)) → (∀ a, monotone (Φ a)) →
  gives P (with_ok p (λ e, mret (Err e)) k) (λ b tr, ∃ a, Φ a tr ∧ Ψ a b tr).
Proof.
  intros Hp Hk HΦ R tr. apply wp_with_ok. eapply wp_post; [apply Hp|].
  intros tr1 [[a|e]| |] H1; cbn [post_with_ok]; try done.
  eapply wp_strengthen; [apply Hk|]. intros tr2 o Hpre H2 b ->. exists a. split; [by eapply HΦ, H1|by apply H2].
Qed.

Lemma gives_on_err {B} P p (k : prog E (result B)) (Φ : trace E → Prop) (Ψ : B → trace E → Prop) :
  ensures P p Φ → gives P k Ψ → monotone Φ →
  gives P (on_err p (λ e, mret (Err e)) k) (λ b tr, Φ tr ∧ Ψ b tr).
Proof.
  intros Hp Hk HΦ R tr. apply wp_on_err. eapply wp_post; [apply Hp|].
  intros tr1 [[e|]| |] H1; cbn [post_on_err]; try done.
  eapply wp_strengthen; [apply Hk|]. intros tr2 o Hpre H2 b ->. split; [by eapply HΦ, H1|by apply H2].
Qed.

(** Each iteration of a loop achieves its [Φ]. *)
Lemma gives_for_state {A S} P (l : list A) (s : S) body (Φ : A → trace E → Prop) :
  (∀ s a, a ∈ l → gives P (body s a) (λ _, Φ a)) → (∀ a, monotone (Φ a)) →
  gives P (for_state l s body) (λ _ tr, ∀ a, a ∈ l → Φ a tr).
Proof.
  intros Hb HΦ R tr. eapply wp_post; [apply (wp_for_state _ _ l s body (λ past tr _, ∀ a, a ∈ past → Φ a tr))|naive_solver].
  - intros a Ha. by apply elem_of_nil in Ha.
  - intros past a rest tr1 s1 -> Hpast. eapply wp_strengthen; [apply Hb; apply elem_of_app; right; left|].
    intros tr2 o Hp H s2 Ho a' [Ha| ->%list_elem_of_singleton]%elem_of_app; [eapply HΦ; eauto|by eapply H].
Qed.

Lemma ensures_bind {A} P (p : prog E A) (k : A → prog E error) (Φ : trace E → Prop) :
  footprint P p → (∀ a, ensures P (k a) Φ) → ensures P (p ≫= k) Φ.
Proof.
  intros Hp Hk R tr. apply wp_bind. apply (wp_footprint R P (λ _, P)); [done|auto|].
  intros tr1 [a| |] _; cbn [post_bind]; [apply Hk|done..].
Qed.

(** A read, and what the program achieves with each answer *)
Lemma ensures_read {T} P (r : E T) (k : T → prog E error) (Φ : trace E → Prop) :
  P _ r → (∀ x, ensures P (k x) (λ tr, Ev r x ∈ tr → Φ tr)) → ensures P (x ← request r; k x) Φ.
Proof.
  intros HP Hk R tr. apply wp_bind. cbn [wp request]. split; [done|]. intros x _. cbn [post_bind].
  eapply wp_strengthen; [apply Hk|]. intros tr' o Hp H Ho. apply H; [done|].
  eapply elem_of_monotone; [exact Hp|apply last_event].
Qed.

Lemma wp_ensures R P G p Φ Q tr :
  ensures P p Φ → (∀ tr' T (r : E T), tr `prefix_of` tr' → P T r → G tr' T r) →
  (∀ tr' e, tr `prefix_of` tr' → Q tr' (Returned (Some e))) →
  (∀ tr', tr `prefix_of` tr' → Φ tr' → Q tr' (Returned None)) →
  (∀ tr' m, Q tr' (Panicked m)) → (∀ tr' c, Q tr' (Exited c)) →
  wp R G p Q tr.
Proof.
  intros Hp HG He Hn Hm Hc. eapply wp_guarantee; [|exact HG].
  eapply wp_strengthen; [apply Hp|]. intros tr' [[e|]| |]; auto.
Qed.

End Histories.
#[export] Hint Resolve footprint_bind footprint_on_err footprint_with_ok
  footprint_for_err footprint_for_state : hpp.

(** ** Triples

    [triple total R P p Φ]: as long as the answers obey [R], every request of [p]
    satisfies [P], and the value [p] returns satisfies [Φ]; a [total] one neither
    panics nor exits. *)

(** A property of the value of a result, if it has one *)
Definition ok_sat {A} (Φ : A → Prop) (r : result A) : Prop := match r with Ok a => Φ a | Err _ => True end.
Definition always {A} : A → Prop := λ _, True.

Lemma ok_always {A} (r : result A) : ok_sat always r.
Proof. by destruct r. Qed.
#[export] Hint Resolve ok_always : hpp.

Definition ends (total : bool) {A} (Φ : A → Prop) (o : outcome A) : Prop :=
  match o with Returned a => Φ a | Panicked _ | Exited _ => total = false end.

Section Triples.
Context {E : Type → Type} (total : bool) (R : rely E) (P : ∀ T, E T → Prop).

Definition triple {A} (p : prog E A) (Φ : A → Prop) : Prop :=
  ∀ tr, wp R (λ _, P) p (λ _, ends total Φ) tr.

Lemma triple_ret {A} (a : A) (Φ : A → Prop) : Φ a → triple (mret a) Φ.
Proof. by intros Ha tr. Qed.

Lemma triple_mono {A} (p : prog E A) (Φ Ψ : A → Prop) : triple p Φ → (∀ a, Φ a → Ψ a) → triple p Ψ.
Proof. intros Hp HΦ tr. eapply wp_post; [apply Hp|]. intros _ []; simpl; auto. Qed.

Lemma triple_request {T} (r : E T) (Φ : T → Prop) : P T r → (∀ x, R T r x → Φ x) → triple (request r) Φ.
Proof. intros HP Hr tr. split; [done|]. intros x Hx. simpl. auto. Qed.

Lemma triple_bind {A B} (p : prog E A) (f : A → prog E B) (Φ : A → Prop) (Ψ : B → Prop) :
  triple p Φ → (∀ a, Φ a → triple (f a) Ψ) → triple (p ≫= f) Ψ.
Proof.
  intros Hp Hf tr. apply wp_bind. eapply wp_post; [apply Hp|]. intros tr' [a| |] Ha; [|done..]. by apply Hf.
Qed.

Lemma triple_on_err {B} (p : prog E error) h (k : prog E B) (Ψ : B → Prop) :
  triple p always → (∀ e, triple (h e) Ψ) → triple k Ψ → triple (on_err p h k) Ψ.
Proof. intros Hp Hh Hk. eapply triple_bind; [exact Hp|]. by intros [e|] _. Qed.

Lemma triple_with_ok {A B} (p : prog E (result A)) h (k : A → prog E B) (Φ : A → Prop) (Ψ : B → Prop) :
  triple p (ok_sat Φ) → (∀ e, triple (h e) Ψ) → (∀ a, Φ a → triple (k a) Ψ) → triple (with_ok p h k) Ψ.
Proof. intros Hp Hh Hk. eapply triple_bind; [exact Hp|]. intros [a|e] Ha; auto. Qed.

Lemma triple_for_err {A} (l : list A) body :
  (∀ a, a ∈ l → triple (body a) always) → triple (for_err l body) always.
Proof.
  induction l as [|a l IH]; intros Hb; cbn [for_err]; [by apply triple_ret|].
  apply triple_on_err; [apply Hb; left|intros; by apply triple_ret|].
  apply IH. intros. apply Hb. by right.
Qed.

Lemma triple_for_state {A S} (l : list A) (s : S) body (Φ : S → Prop) :
  Φ s → (∀ s a, a ∈ l → Φ s → triple (body s a) (ok_sat Φ)) → triple (for_state l s body) (ok_sat Φ).
Proof.
  revert s. induction l as [|a l IH]; intros s Hs Hb; cbn [for_state]; [by apply triple_ret|].
  eapply triple_with_ok; [apply Hb; [left|done]|intros; by apply triple_ret|].
  intros s' Hs'. apply IH; [done|]. intros. apply Hb; [by right|done].
Qed.

Lemma triple_always {A} (p : prog E (result A)) : triple p always → triple p (ok_sat always).
Proof. intros Hp. eapply triple_mono; [exact Hp|]. intros. apply ok_always. Qed.
End Triples.

(** The triples of a program that returns, whatever its requests *)
Abbreviation yields R p Φ := (triple true R (λ _ _, True) p Φ).

(** Prove a triple by the structure of the program.  [req] proves that a request
    is one of those allowed, [call] solves the triples of functions called. *)
Ltac triple_solve_with req call :=
  let rec go :=
    lazymatch goal with
    | |- triple _ _ _ (mret _) _ => apply triple_ret; first [exact I | apply ok_always]
    | |- triple _ _ _ (match ?x with _ => _ end) _ => destruct x; go
    | |- triple _ _ _ (let _ := _ in _) _ => cbv zeta; go
    | |- triple _ _ _ (request _) _ => apply triple_request; [req|intros; first [exact I | apply ok_always]]
    | |- triple _ _ _ (on_err _ _ _) _ => apply triple_on_err; [|intros ?|]; go
    | |- triple _ _ _ (with_ok _ _ _) _ =>
        apply (triple_with_ok _ _ _ _ _ _ always); [apply triple_always|intros ?|intros ? _]; go
    | |- triple _ _ _ (for_err _ _) _ => apply triple_for_err; intros ? _; go
    | |- triple _ _ _ (for_state _ _ _) _ =>
        eapply triple_mono; [apply (triple_for_state _ _ _ _ _ _ always);
          [exact I|intros ? ? _ _; apply triple_always; go]|intros; first [exact I | apply ok_always]]
    | |- triple _ _ _ (_ ≫= _) _ => apply (triple_bind _ _ _ _ _ always); [|intros ? _]; go
    | |- triple _ _ _ _ _ => try solve [call]
    | _ => idtac
    end in go.
