(* ===== verification/GoStrings.v ===== *)
(** * Go strings

    A Go string is its sequence of bytes: a Rocq [string].  This file has what
    the code uses of package [strings], of [fmt] and [strconv], and of
    [path/filepath], with the lemmas the naming and validation proofs share. *)
From S2P Require Import Prelude.

Section Strings.
Implicit Types (s t u : string).

(** [len(s)] *)
Definition len s : Z := Z.of_nat (String.length s).

Fixpoint str_take (n : nat) s : string :=
  match n, s with
  | S n, String c s => String c (str_take n s)
  | _, _ => ""
  end.

Fixpoint str_drop (n : nat) s : string :=
  match n, s with
  | S n, String _ s => str_drop n s
  | _, _ => s
  end.

(** [s[0:n]]: out of range is a panic ([None]). *)
Definition slice_to s (n : Z) : option string :=
  if (0 <=? n) && (n <=? len s) then Some (str_take (Z.to_nat n) s) else None.

(** [strings.HasPrefix] *)
Fixpoint HasPrefix s (pre : string) : bool :=
  match pre, s with
  | EmptyString, _ => true
  | String p pre, String c s => Ascii.eqb p c && HasPrefix s pre
  | String _ _, EmptyString => false
  end.

(** [strings.ReplaceAll] for a byte *)
Fixpoint replace_byte s (a b : Ascii.ascii) : string :=
  match s with
  | EmptyString => EmptyString
  | String c s => String (if Ascii.eqb c a then b else c) (replace_byte s a b)
  end.

(** [strings.ToLower], of ASCII text *)
Definition lower (c : Ascii.ascii) : Ascii.ascii :=
  let n := Ascii.nat_of_ascii c in
  if ((65 <=? n) && (n <=? 90))%nat then Ascii.ascii_of_nat (n + 32) else c.
Fixpoint ToLower s : string :=
  match s with "" => "" | String c s => String (lower c) (ToLower s) end.

(** [strings.TrimPrefix] *)
Definition TrimPrefix s (pre : string) : string :=
  if HasPrefix s pre then str_drop (String.length pre) s else s.

(** [strings.Contains] *)
Fixpoint Contains s (sub : string) : bool :=
  HasPrefix s sub ||
  match s with EmptyString => false | String _ s => Contains s sub end.

(** [strings.Compare(a, b) == -1]: byte-wise lexicographic order *)
Fixpoint str_lt s t : bool :=
  match s, t with
  | _, EmptyString => false
  | EmptyString, String _ _ => true
  | String a s, String b t =>
      if Ascii.eqb a b then str_lt s t
      else N.ltb (Ascii.N_of_ascii a) (Ascii.N_of_ascii b)
  end.

(** [strings.Split(s, sep)] for a one-byte separator *)
Fixpoint Split s (sep : Ascii.ascii) : list string :=
  match s with
  | EmptyString => [""]
  | String c s =>
      if Ascii.eqb c sep then "" :: Split s sep
      else match Split s sep with
           | hd :: tl => String c hd :: tl
           | [] => [String c ""]
           end
  end.

(** [strings.SplitN(s, sep, n)] for a one-byte separator and [n > 0]: at most
    [n] parts, the last one unsplit *)
Fixpoint SplitN s (sep : Ascii.ascii) (n : nat) : list string :=
  match n with
  | O => []
  | S O => [s]
  | S n =>
      (fix go s :=
         match s with
         | EmptyString => [""]
         | String c s' =>
             if Ascii.eqb c sep then "" :: SplitN s' sep n
             else match go s' with
                  | hd :: tl => String c hd :: tl
                  | [] => [String c ""]
                  end
         end) s
  end.

(** [strings.Join] *)
Fixpoint Join (l : list string) (sep : string) : string :=
  match l with
  | [] => ""
  | [s] => s
  | s :: l => s +:+ sep +:+ Join l sep
  end.

(** [strings.IndexRune] for an ASCII rune *)
Fixpoint IndexRune s (c : Ascii.ascii) : option nat :=
  match s with
  | EmptyString => None
  | String d s => if Ascii.eqb c d then Some O else S <$> IndexRune s c
  end.

(** Every byte of [s] is one of [set]. *)
Fixpoint containsOnly s (set : string) : bool :=
  match s with
  | EmptyString => true
  | String c s => match IndexRune set c with
                  | Some _ => containsOnly s set
                  | None => false
                  end
  end.

(** [strings.TrimSpace] for the ASCII white space *)
Definition is_space (c : Ascii.ascii) : bool :=
  let n := Ascii.N_of_ascii c in
  bool_decide (n ∈ [9; 10; 11; 12; 13; 32]%N).

Fixpoint trim_left s : string :=
  match s with
  | String c s' => if is_space c then trim_left s' else s
  | EmptyString => ""
  end.

Fixpoint trim_right s : string :=
  match s with
  | EmptyString => ""
  | String c s =>
      match trim_right s with
      | EmptyString => if is_space c then "" else String c ""
      | r => String c r
      end
  end.

Definition TrimSpace s : string := trim_right (trim_left s).
End Strings.

Arguments Split s%_string sep%_char.
Arguments SplitN s%_string sep%_char n%_nat.
Arguments IndexRune s%_string c%_char.

(** ** Numbers *)

Definition hex_digit (n : N) : Ascii.ascii :=
  Ascii.ascii_of_N (if (n <? 10)%N then 48 + n else 87 + n).

(** The [k] low hexadecimal digits of [n], most significant first. *)
Fixpoint hex_digits (k : nat) (n : N) : string :=
  match k with
  | O => ""
  | S k => hex_digits k (n / 16) +:+ String (hex_digit (n mod 16)) ""
  end.

(** [fmt.Sprintf("%08x", n)] for a [uint32] *)
Definition sprintf_08x (n : N) : string := hex_digits 8 n.

(** [fmt.Sprintf("%d", n)] *)
Definition sprintf_d (n : Z) : string := pretty n.

Definition digit_value (c : Ascii.ascii) : option N :=
  let n := Ascii.N_of_ascii c in
  if ((48 <=? n) && (n <=? 57))%N then Some (n - 48)%N else None.

Fixpoint parse_digits (s : string) (acc : N) : option N :=
  match s with
  | EmptyString => Some acc
  | String c s => match digit_value c with
                  | Some d => parse_digits s (10 * acc + d)%N
                  | None => None
                  end
  end.

(** [strconv.ParseUint(s, 10, 64)]: [None] is any of its errors *)
Definition ParseUint64 (s : string) : option N :=
  match s with
  | EmptyString => None
  | _ => n ← parse_digits s 0; if (n <? 2 ^ 64)%N then Some n else None
  end.

(** [strconv.Atoi]: [None] is any of its errors *)
Definition Atoi (s : string) : option Z :=
  let check (n : Z) := if (- 2 ^ 63 <=? n) && (n <? 2 ^ 63) then Some n else None in
  match s with
  | EmptyString => None
  | String c t =>
      let digits (u : string) := match u with EmptyString => None | _ => parse_digits u 0 end in
      if Ascii.eqb c "-"%char then n ← digits t; check (- Z.of_N n)
      else if Ascii.eqb c "+"%char then n ← digits t; check (Z.of_N n)
      else n ← digits s; check (Z.of_N n)
  end.

(** [strconv.FormatBool] *)
Definition FormatBool (b : bool) : string := if b then "true" else "false".

(** ** Strings in JSON *)

Definition dquote : string := String (Ascii.ascii_of_nat 34) "".

(** What [encoding/json] writes for one byte of a string; bytes of valid UTF-8
    sequences past ASCII are written as they are. *)
Definition json_escape (c : Ascii.ascii) : string :=
  let n := Ascii.nat_of_ascii c in
  if bool_decide (n = 34)%nat then "\" +:+ dquote
  else if bool_decide (n = 92)%nat then "\\"
  else if bool_decide (n = 8)%nat then "\b"
  else if bool_decide (n = 9)%nat then "\t"
  else if bool_decide (n = 10)%nat then "\n"
  else if bool_decide (n = 12)%nat then "\f"
  else if bool_decide (n = 13)%nat then "\r"
  else if bool_decide (n < 32 ∨ n = 38 ∨ n = 60 ∨ n = 62)%nat then
    "\u00" +:+ hex_digits 2 (Ascii.N_of_ascii c)
  else String c "".

Fixpoint json_escape_all (s : string) : string :=
  match s with
  | EmptyString => ""
  | String c s => json_escape c +:+ json_escape_all s
  end.

Definition json_quote (s : string) : string := dquote +:+ json_escape_all s +:+ dquote.

(** ** [path/filepath] on Unix *)

(** The components of the cleaned path, last first; [rooted] drops a leading
    [..]. *)
Fixpoint clean_components (rooted : bool) (parts : list string) (acc : list string) : list string :=
  match parts with
  | [] => acc
  | p :: parts =>
      if bool_decide (p = "") || bool_decide (p = ".") then clean_components rooted parts acc
      else if bool_decide (p = "..") then
        match acc with
        | [] => clean_components rooted parts (if rooted then [] else [".."])
        | q :: acc' =>
            if bool_decide (q = "..") then clean_components rooted parts (".." :: acc)
            else clean_components rooted parts acc'
        end
      else clean_components rooted parts (p :: acc)
  end.

(** [filepath.Clean] *)
Definition Clean (path : string) : string :=
  let rooted := HasPrefix path "/" in
  let body := Join (reverse (clean_components rooted (Split path "/") [])) "/" in
  if rooted then "/" +:+ body
  else if bool_decide (body = "") then "." else body.

(** [filepath.Join]: empty elements are ignored, the rest is cleaned *)
Definition filepath_Join (elems : list string) : string :=
  let elems := filter (λ e, e ≠ "") elems in
  match elems with
  | [] => ""
  | _ => Clean (Join elems "/")
  end.

Example Join_ex1 : filepath_Join ["/var/hpvolumes"; "csi"] = "/var/hpvolumes/csi".
Proof. reflexivity. Qed.
Example Join_ex2 : filepath_Join ["/a/./b/../c//"; ""; "csi"] = "/a/c/csi".
Proof. vm_compute. reflexivity. Qed.
Example Clean_ex : Clean "../../a/../b" = "../../b".
Proof. vm_compute. reflexivity. Qed.
Example SplitN_ex : SplitN "1.2.3-rc.1" "." 3 = ["1"; "2"; "3-rc.1"].
Proof. reflexivity. Qed.
Example sprintf_08x_ex : sprintf_08x 2166136261 = "811c9dc5".
Proof. vm_compute. reflexivity. Qed.

(** ** Lemmas *)

Section StringLemmas.
Implicit Types (s t u : string).

Lemma length_append s t : String.length (s +:+ t) = (String.length s + String.length t)%nat.
Proof. induction s; simpl; congruence. Qed.

Lemma len_append s t : len (s +:+ t) = len s + len t.
Proof. unfold len; rewrite length_append; lia. Qed.

Lemma len_nonneg s : 0 <= len s.
Proof. unfold len; lia. Qed.

Lemma len_cons c s : len (String c s) = 1 + len s.
Proof. unfold len; simpl; lia. Qed.

Lemma len_0 s : len s = 0 → s = "".
Proof. destruct s; [done|]. rewrite len_cons. pose proof (len_nonneg s). lia. Qed.

Lemma append_assoc s t u : (s +:+ t) +:+ u = s +:+ (t +:+ u).
Proof. induction s; simpl; congruence. Qed.

Lemma append_nil_r s : s +:+ "" = s.
Proof. induction s; simpl; congruence. Qed.

Lemma append_inj_l s t u : s +:+ t = s +:+ u → t = u.
Proof. induction s; simpl; naive_solver. Qed.

Lemma append_inj s t s' t' :
  String.length s = String.length s' → s +:+ t = s' +:+ t' → s = s' ∧ t = t'.
Proof. revert s'; induction s as [|c s IH]; intros [|d s'] Hl H; simpl in *; simplify_eq; [done|]. destruct (IH s'); naive_solver. Qed.

Lemma append_inj_r s t u : s +:+ u = t +:+ u → s = t.
Proof.
  intros H. refine (proj1 (append_inj _ _ _ _ _ H)).
  apply (f_equal String.length) in H; rewrite !length_append in H; lia.
Qed.

Lemma length_take n s : String.length (str_take n s) = Nat.min n (String.length s).
Proof. revert s; induction n; intros [|]; simpl; auto. Qed.

Lemma len_take n s : len (str_take n s) = Z.min (Z.of_nat n) (len s).
Proof. unfold len; rewrite length_take; lia. Qed.

Lemma str_take_all n s : (String.length s <= n)%nat → str_take n s = s.
Proof. revert s; induction n; intros [|] H; simpl in *; try done; [lia|]. rewrite IHn; [done|lia]. Qed.

Lemma str_drop_append s t : str_drop (String.length s) (s +:+ t) = t.
Proof. induction s; simpl; [by destruct t|done]. Qed.

Lemma slice_to_ok s n : 0 <= n → n <= len s → slice_to s n = Some (str_take (Z.to_nat n) s).
Proof. intros. unfold slice_to. rewrite (proj2 (Z.leb_le _ _)), (proj2 (Z.leb_le _ _)) by done. done. Qed.

Lemma HasPrefix_append s t : HasPrefix (s +:+ t) s = true.
Proof. induction s; simpl; [by destruct t|]. by rewrite Ascii.eqb_refl. Qed.

Lemma HasPrefix_spec s pre : HasPrefix s pre = true ↔ ∃ t, s = pre +:+ t.
Proof.
  split.
  - revert s; induction pre as [|c pre IH]; intros [|d s]; simpl; try done; eauto.
    rewrite andb_true_iff. intros [->%Ascii.eqb_eq [t ->]%IH]. by exists t.
  - intros [t ->]; apply HasPrefix_append.
Qed.

Lemma TrimPrefix_append s t : TrimPrefix (s +:+ t) s = t.
Proof. unfold TrimPrefix; rewrite HasPrefix_append; apply str_drop_append. Qed.

Lemma hex_digits_length k n : String.length (hex_digits k n) = k.
Proof. revert n; induction k; intros n; simpl; [done|]. rewrite length_append, IHk; simpl; lia. Qed.

Lemma Split_ne s sep : Split s sep ≠ [].
Proof. induction s as [|c s IH]; simpl; [done|]. destruct (Ascii.eqb c sep); [done|]. by destruct (Split s sep). Qed.

Lemma Join_cons_cons a b l sep : Join (a :: b :: l) sep = a +:+ sep +:+ Join (b :: l) sep.
Proof. done. Qed.

(** Splitting and joining again gives the string back. *)
Lemma Join_Split s sep : Join (Split s sep) (String sep "") = s.
Proof.
  induction s as [|c s IH]; simpl; [done|].
  destruct (Ascii.eqb c sep) eqn:Hc.
  - apply Ascii.eqb_eq in Hc; subst. pose proof (Split_ne s sep).
    destruct (Split s sep) as [|a l] eqn:Hs; [done|].
    rewrite Join_cons_cons, IH; done.
  - pose proof (Split_ne s sep). destruct (Split s sep) as [|a [|b l]] eqn:Hs; [done|..]; simpl in *; congruence.
Qed.
End StringLemmas.

#[export] Hint Rewrite @len_append @len_cons @len_take : strlen.
