(* ===== verification/Names.v ===== *)
(** * Names of the managed resources

    [getResourceNameWithMaxLength] and [hash] of
    pkg/controller/hostpathprovisioner/util.go, and the names the storage pool
    code (storagepool.go) and the DaemonSet code (daemonset.go) derive from
    them.  [None] is a Go slice-bounds panic; [resource_name_total] shows there
    is none. *)
From S2P Require Import Prelude GoStrings.

(** ** Constants (common.go, storagepool.go, daemonset.go, csidriver.go) *)

Definition OperatorServiceAccountName := "hostpath-provisioner-operator".
Definition ProvisionerServiceAccountName := "hostpath-provisioner-admin".
Definition ProvisionerServiceAccountNameCsi := "hostpath-provisioner-admin-csi".
Definition MultiPurposeHostPathProvisionerName := "hostpath-provisioner".
Definition csi_name := MultiPurposeHostPathProvisionerName +:+ "-csi".
Definition driverName := "kubevirt.io.hostpath-provisioner".
Definition hppPoolPrefix := "hpp-pool".
Definition maxNameLength : Z := 63.
Definition maxMountNameLength : Z := 63.
Definition legacyStoragePoolName := "legacy".

(** ** FNV-1a, 32 bits ([hash/fnv.New32a]) *)

Definition fnv_offset : N := 2166136261.
Definition fnv_prime : N := 16777619.

Definition fnv1a_step (h : N) (c : ascii) : N :=
  ((N.lxor h (N_of_ascii c)) * fnv_prime) mod 2 ^ 32.

Fixpoint fnv1a (h : N) (s : string) : N :=
  match s with
  | EmptyString => h
  | String c s => fnv1a (fnv1a_step h c) s
  end.

(** [hash]: the 8 hexadecimal digits of the FNV-1a hash. *)
Definition hash (s : string) : string := sprintf_08x (fnv1a fnv_offset s).

(** ** [getResourceNameWithMaxLength] *)

Definition getResourceNameWithMaxLength (base suffix : string) (maxLength : Z) : option string :=
  if maxLength <=? 0 then Some ""
  else
    let name := base +:+ "-" +:+ suffix in
    if len name <=? maxLength then Some name
    else
      let baseLength := maxLength - 10 - len suffix in
      if baseLength <? 0 then
        prefix ← slice_to base (Z.min (len base) (Z.max 0 (maxLength - 9)));
        let shortName := prefix +:+ "-" +:+ hash name in
        slice_to shortName (Z.min maxLength (len shortName))
      else
        prefix ← slice_to base baseLength;
        Some (prefix +:+ "-" +:+ hash base +:+ "-" +:+ suffix).

(** The name as the callers use it; [resource_name_total] shows the default is
    never taken. *)
Definition resource_name (base suffix : string) (maxLength : Z) : string :=
  default "" (getResourceNameWithMaxLength base suffix maxLength).

(** [getStoragePoolPVCName] *)
Definition getStoragePoolPVCName (poolName nodeName : string) : string :=
  resource_name hppPoolPrefix (poolName +:+ "-" +:+ nodeName) maxNameLength.

(** [getSharedStoragePoolPVCName] *)
Definition getSharedStoragePoolPVCName (poolName : string) : string :=
  resource_name hppPoolPrefix (poolName +:+ "-shared") maxNameLength.

(** The name of the Deployment that mounts a pool on a node
    (storagePoolDeploymentByNode). *)
Definition storagePoolDeploymentName (poolName nodeName : string) : string :=
  resource_name hppPoolPrefix (poolName +:+ "-" +:+ nodeName) maxNameLength.

(** The value of the storage pool label (and the pod template's name). *)
Definition storagePoolLabelValue (poolName : string) : string :=
  resource_name poolName "hpp" maxNameLength.

(** The name of the cleanup Job of a pool on a node (createCleanupJobForNode). *)
Definition cleanupJobName (poolName nodeName : string) : string :=
  resource_name "cleanup-pool" (poolName +:+ "-" +:+ nodeName) maxNameLength.

(** [getMountNameFromStoragePool] *)
Definition getMountNameFromStoragePool (poolName : string) : string :=
  let poolName := if bool_decide (poolName = "") then "csi" else poolName in
  resource_name poolName "data-dir" maxMountNameLength.

Example hash_ex1 : hash "" = "811c9dc5".
Proof. vm_compute. reflexivity. Qed.
Example hash_ex2 : hash "a" = "e40c292c".
Proof. vm_compute. reflexivity. Qed.
Example hash_ex3 : hash "foobar" = "bf9cf968".
Proof. vm_compute. reflexivity. Qed.
Example name_ex : getStoragePoolPVCName "local" "node1" = "hpp-pool-local-node1".
Proof. vm_compute. reflexivity. Qed.

(** ** Lemmas *)

Lemma hash_length s : String.length (hash s) = 8%nat.
Proof. apply hex_digits_length. Qed.

Lemma len_hash s : len (hash s) = 8.
Proof. unfold len. by rewrite hash_length. Qed.

#[global] Arguments hash : simpl never.
#[export] Hint Rewrite len_hash : strlen.

Ltac strlen := autorewrite with strlen; change (len "-") with 1; change (len "") with 0.

Ltac len_pos :=
  repeat match goal with
  | |- context [len ?s] => lazymatch goal with H : 0 <= len s |- _ => fail | _ => pose proof (len_nonneg s) end
  end.

(** The three shapes of a resource name. *)
Inductive resource_name_case (base suffix : string) (maxLength : Z) : string → Prop :=
| rn_none : maxLength <= 0 → resource_name_case base suffix maxLength ""
| rn_fits :
    0 < maxLength → len base + 1 + len suffix <= maxLength →
    resource_name_case base suffix maxLength (base +:+ "-" +:+ suffix)
| rn_hashed_name :
    0 < maxLength → maxLength < len base + 1 + len suffix → maxLength - 10 < len suffix →
    resource_name_case base suffix maxLength
      (let short := str_take (Z.to_nat (Z.max 0 (maxLength - 9))) base +:+ "-" +:+
                    hash (base +:+ "-" +:+ suffix) in
       str_take (Z.to_nat maxLength) short)
| rn_hashed_base :
    0 < maxLength → maxLength < len base + 1 + len suffix → len suffix <= maxLength - 10 →
    resource_name_case base suffix maxLength
      (str_take (Z.to_nat (maxLength - 10 - len suffix)) base +:+ "-" +:+ hash base +:+ "-" +:+ suffix).

Lemma take_min_len n s : str_take (Z.to_nat (Z.min (len s) n)) s = str_take (Z.to_nat n) s.
Proof.
  destruct (Z.le_gt_cases n (len s)); [by rewrite Z.min_r by lia|].
  rewrite Z.min_l, !str_take_all; unfold len in *; auto; lia.
Qed.

Lemma take_min_len' n s : str_take (Z.to_nat (Z.min n (len s))) s = str_take (Z.to_nat n) s.
Proof. rewrite Z.min_comm. apply take_min_len. Qed.

(** The function returns, and its result has one of the shapes. *)
Lemma resource_name_shape base suffix maxLength :
  ∃ s, getResourceNameWithMaxLength base suffix maxLength = Some s ∧
       resource_name_case base suffix maxLength s.
Proof.
  unfold getResourceNameWithMaxLength. pose proof (len_nonneg base). pose proof (len_nonneg suffix).
  destruct (Z.leb_spec maxLength 0); [eexists; split; [done|by constructor]|].
  assert (Hn : len (base +:+ "-" +:+ suffix) = len base + 1 + len suffix) by (strlen; lia).
  rewrite Hn. destruct (Z.leb_spec (len base + 1 + len suffix) maxLength).
  { eexists; split; [done|by constructor]. }
  destruct (Z.ltb_spec (maxLength - 10 - len suffix) 0).
  - rewrite slice_to_ok by lia; simpl. rewrite take_min_len.
    rewrite slice_to_ok by (len_pos; lia). rewrite take_min_len'.
    eexists; split; [done|]. apply rn_hashed_name; lia.
  - rewrite slice_to_ok by lia; simpl. eexists; split; [done|]. apply rn_hashed_base; lia.
Qed.

Lemma resource_name_cases base suffix maxLength :
  resource_name_case base suffix maxLength (resource_name base suffix maxLength).
Proof. unfold resource_name. by destruct (resource_name_shape base suffix maxLength) as (s & -> & ?). Qed.

Lemma resource_name_fits base suffix maxLength :
  0 < maxLength → len base + 1 + len suffix <= maxLength →
  resource_name base suffix maxLength = base +:+ "-" +:+ suffix.
Proof. intros. destruct (resource_name_cases base suffix maxLength); auto; lia. Qed.

(** Closed form of the PVC and Deployment names: the pool and the node are in
    the name as long as it fits; past that, the name is a hash of both. *)
Lemma pool_node_name pool node :
  storagePoolDeploymentName pool node =
  if len pool + len node <=? 53 then "hpp-pool-" +:+ pool +:+ "-" +:+ node
  else "hpp-pool-" +:+ hash ("hpp-pool-" +:+ pool +:+ "-" +:+ node).
Proof.
  unfold storagePoolDeploymentName, hppPoolPrefix, maxNameLength.
  pose proof (resource_name_cases "hpp-pool" (pool +:+ "-" +:+ node) 63) as Hc.
  revert Hc. generalize (resource_name "hpp-pool" (pool +:+ "-" +:+ node) 63); intros n Hc.
  assert (Hl : len (pool +:+ "-" +:+ node) = len pool + 1 + len node) by (strlen; lia).
  destruct Hc as [|? Hf|? Hf Hs|? Hf Hs]; rewrite ?Hl in *; change (len "hpp-pool") with 8 in *; try lia.
  - by rewrite (proj2 (Z.leb_le _ _)) by lia.
  - rewrite (proj2 (Z.leb_gt _ _)) by lia.
    cbv zeta. rewrite (str_take_all _ "hpp-pool") by (vm_compute; lia).
    rewrite str_take_all; [done|]. rewrite !length_append, hash_length. vm_compute; lia.
Qed.

(** ** Properties *)

(** C38: [getResourceNameWithMaxLength] never panics on its slices, for any
    arguments, and the name it returns is at most [maxLength] bytes (empty for a
    non-positive limit): every generated name fits the Kubernetes limit the
    caller passes. *)
Theorem resource_name_total (base suffix : string) (maxLength : Z) :
  ∃ name, getResourceNameWithMaxLength base suffix maxLength = Some name ∧
          len name <= Z.max 0 maxLength.
Proof.
  destruct (resource_name_shape base suffix maxLength) as (s & Hs & Hc).
  exists s; split; [done|].
  destruct Hc; simpl; strlen; len_pos; lia.
Qed.
