(* ===== verification/Semver.v ===== *)
(** * Versions

    version/version.go and the part of the vendored package
    github.com/blang/semver it uses ([Parse] and [Compare]), translated from
    src/vendor/github.com/blang/semver/semver.go.  Error texts of [Parse] are
    not kept: the callers only test for nil. *)
From S2P Require Import Prelude GoStrings.

Definition numbers := "0123456789".
Definition alphanum := "abcdefghijklmnopqrstuvwxyzABCDEFGHIJKLMNOPQRSTUVWXYZ-0123456789".

(** ** Data *)

(** A pre-release identifier: a number or an alphanumeric string. *)
Record PRVersion := { VersionStr : string; VersionNum : N; IsNum : bool }.

Record Version := {
  Major : N; Minor : N; Patch : N;
  Pre : list PRVersion;
  Build : list string }.

#[export] Instance PRVersion_eq_dec : EqDecision PRVersion.
Proof. solve_decision. Defined.
#[export] Instance Version_eq_dec : EqDecision Version.
Proof. solve_decision. Defined.

(** ** Parsing *)

Definition hasLeadingZeroes (s : string) : bool :=
  match s with
  | String c (String _ _) => Ascii.eqb c "0"%char
  | _ => false
  end.

(** A component of the version core: digits, no leading zeroes, a [uint64]. *)
Definition parse_core (s : string) : option N :=
  if negb (containsOnly s numbers) then None
  else if hasLeadingZeroes s then None
  else ParseUint64 s.

Definition NewPRVersion (s : string) : option PRVersion :=
  if bool_decide (s = "") then None
  else if containsOnly s numbers then
    if hasLeadingZeroes s then None
    else n ← ParseUint64 s; Some {| VersionStr := ""; VersionNum := n; IsNum := true |}
  else if containsOnly s alphanum then
    Some {| VersionStr := s; VersionNum := 0; IsNum := false |}
  else None.

Definition parse_build (s : string) : option string :=
  if bool_decide (s = "") then None
  else if containsOnly s alphanum then Some s else None.

(** Cut [s] at the first [c]: what is before it, and the dot-separated parts
    after it (none without [c]). *)
Definition cut_parts (s : string) (c : ascii) : string * list string :=
  match IndexRune s c with
  | Some i => (str_take i s, Split (str_drop (S i) s) "."%char)
  | None => (s, [])
  end.

Definition Parse (s : string) : option Version :=
  if bool_decide (s = "") then None
  else
    match SplitN s "." 3 with
    | [major; minor; patchStr] =>
        major ← parse_core major;
        minor ← parse_core minor;
        let '(patchStr, build) := cut_parts patchStr "+"%char in
        let '(patchStr, prerelease) := cut_parts patchStr "-"%char in
        patch ← parse_core patchStr;
        pre ← mapM NewPRVersion prerelease;
        build ← mapM parse_build build;
        Some {| Major := major; Minor := minor; Patch := patch; Pre := pre; Build := build |}
    | _ => None
    end.

(** ** Comparison *)

Definition compare_N (a b : N) : Z := if (a =? b)%N then 0 else if (b <? a)%N then 1 else -1.

(** [PRVersion.Compare] *)
Definition PR_Compare (v o : PRVersion) : Z :=
  if IsNum v && negb (IsNum o) then -1
  else if negb (IsNum v) && IsNum o then 1
  else if IsNum v && IsNum o then compare_N (VersionNum v) (VersionNum o)
  else if bool_decide (VersionStr v = VersionStr o) then 0
  else if str_lt (VersionStr o) (VersionStr v) then 1 else -1.

(** The loop of [Version.Compare] over the pre-release identifiers. *)
Fixpoint compare_pre (v o : list PRVersion) : Z :=
  match v, o with
  | [], [] => 0
  | [], _ :: _ => -1
  | _ :: _, [] => 1
  | a :: v, b :: o =>
      let comp := PR_Compare a b in
      if comp =? 0 then compare_pre v o else if comp =? 1 then 1 else -1
  end.

(** [Version.Compare] *)
Definition Compare (v o : Version) : Z :=
  if negb (Major v =? Major o)%N then (if (Major o <? Major v)%N then 1 else -1)
  else if negb (Minor v =? Minor o)%N then (if (Minor o <? Minor v)%N then 1 else -1)
  else if negb (Patch v =? Patch o)%N then (if (Patch o <? Patch v)%N then 1 else -1)
  else match Pre v, Pre o with
       | [], [] => 0
       | [], _ :: _ => 1
       | _ :: _, [] => -1
       | _, _ => compare_pre (Pre v) (Pre o)
       end.

(** ** [Version.String] *)

Definition PR_String (v : PRVersion) : string :=
  if IsNum v then pretty (VersionNum v) else VersionStr v.

Definition Version_String (v : Version) : string :=
  pretty (Major v) +:+ "." +:+ pretty (Minor v) +:+ "." +:+ pretty (Patch v) +:+
  (match Pre v with [] => "" | _ => "-" +:+ Join (PR_String <$> Pre v) "." end) +:+
  (match Build v with [] => "" | _ => "+" +:+ Join (Build v) "." end).

(** ** version/version.go *)

(** [GetVersionFromString]: a leading [v] is dropped. *)
Definition GetVersionFromString (versionString : string) : option Version :=
  Parse (TrimPrefix versionString "v").

Example parse_ex1 :
  Version_String <$> GetVersionFromString "v1.2.3-rc.1+b7" = Some "1.2.3-rc.1+b7".
Proof. vm_compute. reflexivity. Qed.
Example parse_ex2 : GetVersionFromString "1.2" = None.
Proof. vm_compute. reflexivity. Qed.
Example parse_ex3 : GetVersionFromString "1.02.3" = None.
Proof. vm_compute. reflexivity. Qed.

(** ** canUpgrade (controller.go) *)

Definition downgrade_error (current target : Version) : goerror :=
  Errorf ("operator downgraded from " +:+ Version_String current +:+ " to " +:+
          Version_String target +:+ ", will not reconcile").

Definition canUpgrade (current target : string) : result bool :=
  if bool_decide (current = "") then Ok false
  else if bool_decide (target = current) then Ok false
  else
    match GetVersionFromString target, GetVersionFromString current with
    | Some targetSemver, Some currentSemver =>
        if Compare targetSemver currentSemver <? 0
        then Err (downgrade_error currentSemver targetSemver)
        else if Compare targetSemver currentSemver =? 0 then Ok false
        else Ok true
    | _, _ => Ok true
    end.

Example canUpgrade_ex1 : canUpgrade "v1.2.3" "v1.10.0" = Ok true.
Proof. vm_compute. reflexivity. Qed.
Example canUpgrade_ex2 : is_ok (canUpgrade "v1.2.3" "v1.2.3-rc.1") = false.
Proof. vm_compute. reflexivity. Qed.
Example canUpgrade_ex3 : canUpgrade "v1.2.3" "1.2.3" = Ok false.
Proof. vm_compute. reflexivity. Qed.

(** ** Three-way comparisons

    What a three-way comparison has to satisfy to be a total preorder, and the
    lexicographic combination that all of [Compare] is built from. *)

Class TotalCmp {A} (cmp : A → A → Z) : Prop := {
  cmp_range x y : cmp x y = -1 ∨ cmp x y = 0 ∨ cmp x y = 1;
  cmp_flip x y : cmp y x = - cmp x y;
  cmp_eq_l x y z : cmp x y = 0 → cmp x z = cmp y z;
  cmp_gt_trans x y z : cmp x y = 1 → cmp y z = 1 → cmp x z = 1 }.

Definition lex {A} (c1 c2 : A → A → Z) (x y : A) : Z :=
  if c1 x y =? 0 then c2 x y else c1 x y.

Section TotalCmp.
Context {A : Type} (cmp : A → A → Z) `{!TotalCmp cmp}.

Lemma cmp_refl x : cmp x x = 0.
Proof. pose proof (cmp_flip x x). lia. Qed.

Lemma cmp_eq_r x y z : cmp x y = 0 → cmp z x = cmp z y.
Proof. intros H. rewrite (cmp_flip x z), (cmp_flip y z). by rewrite (cmp_eq_l x y z H). Qed.
End TotalCmp.

#[export] Instance lex_total {A} (c1 c2 : A → A → Z) :
  TotalCmp c1 → TotalCmp c2 → TotalCmp (lex c1 c2).
Proof.
  intros H1 H2; unfold lex; split.
  - intros x y. destruct (Z.eqb_spec (c1 x y) 0); apply cmp_range.
  - intros x y. rewrite (cmp_flip (cmp:=c1) x y).
    destruct (Z.eqb_spec (c1 x y) 0), (Z.eqb_spec (- c1 x y) 0); try lia; auto using cmp_flip.
  - intros x y z. destruct (Z.eqb_spec (c1 x y) 0) as [He|]; [|done].
    intros He2. by rewrite (cmp_eq_l x y z He), (cmp_eq_l x y z He2).
  - intros x y z.
    destruct (Z.eqb_spec (c1 x y) 0) as [He|], (Z.eqb_spec (c1 y z) 0) as [He'|]; intros Ha Hb.
    + rewrite (cmp_eq_l x y z He). rewrite He'; simpl. by eapply cmp_gt_trans.
    + rewrite (cmp_eq_l x y z He). by destruct (Z.eqb_spec (c1 y z) 0).
    + rewrite <-(cmp_eq_r c1 y z x He'). by destruct (Z.eqb_spec (c1 x y) 0).
    + rewrite (cmp_gt_trans x y z Ha Hb). done.
Qed.

#[export] Instance project_total {A B} (f : A → B) (cmp : B → B → Z) :
  TotalCmp cmp → TotalCmp (λ x y, cmp (f x) (f y)).
Proof.
  split; intros; [apply cmp_range|apply cmp_flip|by apply cmp_eq_l|by eapply cmp_gt_trans].
Qed.

Lemma total_ext {A} (c1 c2 : A → A → Z) :
  (∀ x y, c1 x y = c2 x y) → TotalCmp c2 → TotalCmp c1.
Proof.
  intros He H; split; intros *; rewrite !He;
    [apply cmp_range|apply cmp_flip|apply cmp_eq_l|apply cmp_gt_trans].
Qed.

#[export] Instance compare_N_total : TotalCmp compare_N.
Proof.
  unfold compare_N; split; intros *;
    repeat match goal with
    | |- context [(?a =? ?b)%N] => destruct (N.eqb_spec a b)
    | |- context [(?a <? ?b)%N] => destruct (N.ltb_spec a b)
    end; lia.
Qed.

(** Byte-wise string order as a three-way comparison. *)
Definition str_cmp (s t : string) : Z :=
  if bool_decide (s = t) then 0 else if str_lt t s then 1 else -1.

Lemma str_lt_cons a b s t :
  str_lt (String a s) (String b t) =
  if Ascii.eqb a b then str_lt s t else N.ltb (N_of_ascii a) (N_of_ascii b).
Proof. done. Qed.

Lemma N_of_ascii_inj a b : N_of_ascii a = N_of_ascii b → a = b.
Proof. intros H. by rewrite <-(ascii_N_embedding a), <-(ascii_N_embedding b), H. Qed.

Lemma str_cmp_cons a b s t :
  str_cmp (String a s) (String b t) =
  if compare_N (N_of_ascii a) (N_of_ascii b) =? 0 then str_cmp s t
  else compare_N (N_of_ascii a) (N_of_ascii b).
Proof.
  unfold str_cmp, compare_N. rewrite str_lt_cons, Ascii.eqb_sym.
  destruct (Ascii.eqb_spec a b) as [->|Hne].
  - rewrite N.eqb_refl; simpl. case_bool_decide; case_bool_decide; naive_solver.
  - rewrite bool_decide_eq_false_2 by congruence.
    destruct (N.eqb_spec (N_of_ascii a) (N_of_ascii b)) as [?%N_of_ascii_inj|]; [done|].
    by destruct (N.ltb_spec (N_of_ascii b) (N_of_ascii a)).
Qed.

#[export] Instance str_cmp_total : TotalCmp str_cmp.
Proof.
  split.
  - intros x y; unfold str_cmp; case_bool_decide; [auto|]. destruct (str_lt y x); auto.
  - intros x. induction x as [|a x IH]; intros [|b y]; try done.
    rewrite !str_cmp_cons, (cmp_flip (cmp:=compare_N) (N_of_ascii a)), IH.
    destruct (Z.eqb_spec (compare_N (N_of_ascii a) (N_of_ascii b)) 0);
      destruct (Z.eqb_spec (- compare_N (N_of_ascii a) (N_of_ascii b)) 0); lia.
  - intros x y z; unfold str_cmp at 1. case_bool_decide; [by subst|]. by destruct (str_lt y x).
  - intros x. induction x as [|a x IH]; intros [|b y] [|c z]; try done.
    rewrite !str_cmp_cons.
    set (cx := N_of_ascii a); set (cy := N_of_ascii b); set (cz := N_of_ascii c).
    destruct (Z.eqb_spec (compare_N cx cy) 0) as [He|], (Z.eqb_spec (compare_N cy cz) 0) as [He'|];
      intros Ha Hb.
    + rewrite (cmp_eq_l cx cy cz He). rewrite He'; simpl. by eapply IH.
    + rewrite (cmp_eq_l cx cy cz He). by destruct (Z.eqb_spec (compare_N cy cz) 0).
    + rewrite <-(cmp_eq_r compare_N cy cz cx He'). by destruct (Z.eqb_spec (compare_N cx cy) 0).
    + by rewrite (cmp_gt_trans cx cy cz Ha Hb).
Qed.

(** Numeric identifiers are below alphanumeric ones. *)
Definition kind_cmp (v o : PRVersion) : Z :=
  compare_N (if IsNum v then 0 else 1)%N (if IsNum o then 0 else 1)%N.

Definition pr_num (v : PRVersion) : N := if IsNum v then VersionNum v else 0.
Definition pr_str (v : PRVersion) : string := if IsNum v then "" else VersionStr v.

Lemma PR_Compare_lex v o :
  PR_Compare v o =
  lex kind_cmp (lex (λ v o, compare_N (pr_num v) (pr_num o))
                    (λ v o, str_cmp (pr_str v) (pr_str o))) v o.
Proof.
  unfold PR_Compare, lex, kind_cmp, pr_num, pr_str.
  destruct (IsNum v), (IsNum o); simpl; try done.
  by destruct (Z.eqb_spec (compare_N (VersionNum v) (VersionNum o)) 0).
Qed.

#[export] Instance PR_Compare_total : TotalCmp PR_Compare.
Proof.
  eapply total_ext; [apply PR_Compare_lex|].
  apply lex_total; [unfold kind_cmp|apply lex_total]; apply (project_total _ _ _).
Qed.

Lemma compare_pre_cons a b v o :
  compare_pre (a :: v) (b :: o) =
  if PR_Compare a b =? 0 then compare_pre v o else PR_Compare a b.
Proof.
  simpl. destruct (Z.eqb_spec (PR_Compare a b) 0); [done|].
  destruct (Z.eqb_spec (PR_Compare a b) 1); [done|].
  destruct (cmp_range a b) as [|[|]]; congruence.
Qed.

#[export] Instance compare_pre_total : TotalCmp compare_pre.
Proof.
  split.
  - intros x; induction x as [|a x IH]; intros [|b y]; simpl; auto.
    destruct (_ =? 0); auto. destruct (_ =? 1); auto.
  - intros x; induction x as [|a x IH]; intros [|b y]; try done.
    rewrite !compare_pre_cons, (cmp_flip a b), IH.
    destruct (Z.eqb_spec (PR_Compare a b) 0), (Z.eqb_spec (- PR_Compare a b) 0); lia.
  - intros x; induction x as [|a x IH]; intros [|b y] [|c z]; try done.
    rewrite !compare_pre_cons. destruct (Z.eqb_spec (PR_Compare a b) 0) as [He|]; [|done].
    intros He'. by rewrite (cmp_eq_l a b c He), (IH y z He').
  - intros x; induction x as [|a x IH]; intros [|b y] [|c z]; try done.
    rewrite !compare_pre_cons.
    destruct (Z.eqb_spec (PR_Compare a b) 0) as [He|], (Z.eqb_spec (PR_Compare b c) 0) as [He'|];
      intros Ha Hb.
    + rewrite (cmp_eq_l a b c He). rewrite He'; simpl. by eapply IH.
    + rewrite (cmp_eq_l a b c He). by destruct (Z.eqb_spec (PR_Compare b c) 0).
    + rewrite <-(cmp_eq_r PR_Compare b c a He'). by destruct (Z.eqb_spec (PR_Compare a b) 0).
    + by rewrite (cmp_gt_trans a b c Ha Hb).
Qed.

(** A release is above its pre-releases. *)
Definition release_cmp (v o : Version) : Z :=
  compare_N (match Pre v with [] => 1 | _ => 0 end)%N (match Pre o with [] => 1 | _ => 0 end)%N.

Lemma Compare_lex v o :
  Compare v o =
  lex (λ v o, compare_N (Major v) (Major o))
    (lex (λ v o, compare_N (Minor v) (Minor o))
      (lex (λ v o, compare_N (Patch v) (Patch o))
        (lex release_cmp (λ v o, compare_pre (Pre v) (Pre o))))) v o.
Proof.
  unfold Compare, lex, release_cmp, compare_N.
  destruct (N.eqb_spec (Major v) (Major o)); simpl;
    [|by destruct (N.ltb_spec (Major o) (Major v))].
  destruct (N.eqb_spec (Minor v) (Minor o)); simpl;
    [|by destruct (N.ltb_spec (Minor o) (Minor v))].
  destruct (N.eqb_spec (Patch v) (Patch o)); simpl;
    [|by destruct (N.ltb_spec (Patch o) (Patch v))].
  by destruct (Pre v), (Pre o).
Qed.

#[export] Instance Compare_total : TotalCmp Compare.
Proof.
  eapply total_ext; [apply Compare_lex|].
  repeat (apply lex_total; [apply (project_total _ _ _)|]). apply (project_total _ _ _).
Qed.

(** ** The upgrade decision *)

Definition parses (s : string) (v : Version) : Prop := GetVersionFromString s = Some v.

Lemma canUpgrade_parsed c t vc vt :
  c ≠ "" → t ≠ c → parses c vc → parses t vt →
  canUpgrade c t =
  if Compare vt vc <? 0 then Err (downgrade_error vc vt)
  else if Compare vt vc =? 0 then Ok false else Ok true.
Proof.
  unfold parses, canUpgrade; intros Hc Ht -> ->.
  rewrite !bool_decide_eq_false_2 by done. done.
Qed.


(** Upgrades are acyclic: if going from [a] to [b] is an upgrade, for two
    semantic versions, then going back from [b] to [a] is refused; and upgrades
    compose. *)
Theorem canUpgrade_order (a b c : string) (va vb vc : Version) :
  a ≠ "" → b ≠ "" → parses a va → parses b vb → parses c vc →
  canUpgrade a b = Ok true →
  (∃ e, canUpgrade b a = Err e) ∧ (canUpgrade b c = Ok true → canUpgrade a c = Ok true).
Proof.
  intros Ha Hb Pa Pb Pc Hab.
  assert (Hup : ∀ x y vx vy, parses x vx → parses y vy → canUpgrade x y = Ok true →
                  x ≠ "" ∧ y ≠ x ∧ Compare vy vx = 1).
  { clear Hab. intros x y vx vy Px Py. unfold canUpgrade, parses in *. rewrite Px, Py.
    case_bool_decide; [done|]. case_bool_decide; [done|].
    intros H'; split; [done|]; split; [done|]; revert H'.
    by destruct (cmp_range vy vx) as [->|[->| ->]]. }
  destruct (Hup a b va vb) as (_ & Hne & Hgt); auto.
  split.
  - rewrite (canUpgrade_parsed b a vb va), (cmp_flip (cmp:=Compare) vb va), Hgt by auto.
    simpl; eauto.
  - intros Hbc. destruct (Hup b c vb vc) as (_ & _ & Hgt'); auto.
    assert (Hca : Compare vc va = 1) by (by apply (cmp_gt_trans vc vb va)).
    rewrite (canUpgrade_parsed a c va vc), Hca; auto; [].
    intros ->. assert (va = vc) as -> by (unfold parses in *; congruence).
    rewrite (cmp_refl Compare vc) in Hca. done.
Qed.

Lemma canUpgrade_order_witness :
  (∃ e, canUpgrade "v1.2.0" "v1.1.0" = Err e) ∧
  (canUpgrade "v1.2.0" "v1.2.1" = Ok true → canUpgrade "v1.1.0" "v1.2.1" = Ok true).
Proof.
  eapply (canUpgrade_order "v1.1.0" "v1.2.0" "v1.2.1"); try done; vm_compute; reflexivity.
Defined.
