(* ===== verification/VersionText.v ===== *)
(** * Versions as text

    [Parse] and [Version.String] of the vendored semver package (Semver.v) are
    inverse: [Parse] accepts exactly the texts of well-formed versions. *)
From S2P Require Import Prelude GoStrings Semver.

(** ** Decimal numbers *)

Lemma pretty_N_go_app n s t : pretty_N_go n (s +:+ t) = pretty_N_go n s +:+ t.
Proof.
  revert s. induction (N.lt_wf_0 n) as [n _ IH]; intros s.
  destruct (decide (n = 0)%N) as [->|]; [done|]. rewrite !(pretty_N_go_step n) by lia.
  rewrite <-IH; [done|]. apply N.div_lt; lia.
Qed.

Lemma pretty_snoc n d :
  (0 < n)%N → (d < 10)%N → pretty (10 * n + d)%N = pretty n +:+ String (pretty_N_char d) "".
Proof.
  intros Hn Hd. unfold pretty, pretty_N. rewrite !decide_False by lia.
  rewrite pretty_N_go_step by lia.
  replace ((10 * n + d) `div` 10)%N with n by (rewrite N.mul_comm, N.div_add_l, N.div_small; lia).
  replace ((10 * n + d) `mod` 10)%N with d
    by (rewrite N.add_comm, N.mul_comm, N.Div0.mod_add, N.mod_small; lia).
  apply (pretty_N_go_app n "").
Qed.

Lemma pretty_digit d : (d < 10)%N → pretty d = String (pretty_N_char d) "".
Proof.
  intros Hd. assert (d = 0 ∨ d = 1 ∨ d = 2 ∨ d = 3 ∨ d = 4 ∨ d = 5 ∨ d = 6 ∨ d = 7 ∨ d = 8 ∨ d = 9)%N by lia.
  naive_solver.
Qed.

Lemma digit_value_char c d : digit_value c = Some d → (d < 10)%N ∧ c = pretty_N_char d.
Proof.
  unfold digit_value. destruct (N.leb_spec 48 (N_of_ascii c)), (N.leb_spec (N_of_ascii c) 57); try done.
  intros [= <-]. split; [lia|]. rewrite <-(ascii_N_embedding c) at 1.
  assert (∃ d, N_of_ascii c = 48 + d ∧ d < 10)%N as (d & -> & Hd) by (exists (N_of_ascii c - 48)%N; lia).
  replace (48 + d - 48)%N with d by lia.
  assert (d = 0 ∨ d = 1 ∨ d = 2 ∨ d = 3 ∨ d = 4 ∨ d = 5 ∨ d = 6 ∨ d = 7 ∨ d = 8 ∨ d = 9)%N by lia.
  naive_solver.
Qed.

Lemma digit_value_pretty d : (d < 10)%N → digit_value (pretty_N_char d) = Some d.
Proof.
  intros Hd. assert (d = 0 ∨ d = 1 ∨ d = 2 ∨ d = 3 ∨ d = 4 ∨ d = 5 ∨ d = 6 ∨ d = 7 ∨ d = 8 ∨ d = 9)%N by lia.
  naive_solver.
Qed.

Lemma parse_digits_app s t n : parse_digits (s +:+ t) n = parse_digits s n ≫= parse_digits t.
Proof.
  revert n. induction s as [|c s IH]; intros n; [done|]. simpl. destruct (digit_value c); [apply IH|done].
Qed.

(** Induction on the decimal digits of a number *)
Lemma decimal_ind (P : N → Prop) :
  (∀ d, (d < 10)%N → P d) → (∀ n d, (0 < n)%N → (d < 10)%N → P n → P (10 * n + d)%N) → ∀ n, P n.
Proof.
  intros Hd Hs n. induction (N.lt_wf_0 n) as [n _ IH]. destruct (N.lt_ge_cases n 10); [by apply Hd|].
  rewrite (N.div_mod n 10) by lia. apply Hs.
  - apply N.div_str_pos. lia.
  - apply N.mod_lt. lia.
  - apply IH, N.div_lt; lia.
Qed.

Lemma parse_pretty n : parse_digits (pretty n) 0 = Some n.
Proof.
  induction n as [d Hd|n d Hn Hd IH] using decimal_ind.
  - rewrite pretty_digit by done. cbn [parse_digits]. rewrite digit_value_pretty by done. done.
  - rewrite pretty_snoc, parse_digits_app, IH by done. cbn [mbind option_bind parse_digits].
    by rewrite digit_value_pretty.
Qed.

(** A number that is read from digits prints as those digits, when it does not
    start with a zero. *)
Lemma pretty_parse_from s acc n :
  (0 < acc)%N → parse_digits s acc = Some n → pretty n = pretty acc +:+ s.
Proof.
  revert acc. induction s as [|c s IH]; intros acc Ha; [by intros [= ->]; rewrite append_nil_r|].
  cbn [parse_digits]. destruct (digit_value c) as [d|] eqn:Hc; [|done].
  apply digit_value_char in Hc as [Hd ->]. intros Hn.
  rewrite (IH (10 * acc + d)%N), pretty_snoc, append_assoc by (done || lia). done.
Qed.

Lemma pretty_parse s n :
  s ≠ "" → hasLeadingZeroes s = false → parse_digits s 0 = Some n → pretty n = s.
Proof.
  destruct s as [|c s]; [done|]. intros _ Hz. cbn [parse_digits].
  destruct (digit_value c) as [d|] eqn:Hc; [|done]. apply digit_value_char in Hc as [Hd ->].
  replace (10 * 0 + d)%N with d by lia. destruct (decide (d = 0)%N) as [->|]; intros Hn.
  - destruct s; [by injection Hn as <-|done].
  - rewrite (pretty_parse_from s d n), pretty_digit by (done || lia). done.
Qed.

Lemma pretty_no_leading_zero (n : N) : hasLeadingZeroes (pretty n) = false.
Proof.
  assert (H : (0 < n)%N → ∃ d s, (0 < d < 10)%N ∧ pretty n = String (pretty_N_char d) s).
  { induction n as [d Hd|n d Hn Hd IH] using decimal_ind; intros H.
    - exists d, "". by rewrite pretty_digit.
    - destruct (IH Hn) as (d' & s & Hd' & Hs). exists d', (s +:+ String (pretty_N_char d) ""). 
      rewrite pretty_snoc, Hs by done. done. }
  destruct (decide (n = 0)%N) as [->|]; [done|]. destruct H as (d & s & Hd & ->); [lia|].
  assert (d = 1 ∨ d = 2 ∨ d = 3 ∨ d = 4 ∨ d = 5 ∨ d = 6 ∨ d = 7 ∨ d = 8 ∨ d = 9)%N by lia.
  destruct s; naive_solver.
Qed.

(** ** Alphabets *)

Lemma containsOnly_app s t set : containsOnly (s +:+ t) set = containsOnly s set && containsOnly t set.
Proof. induction s as [|c s IH]; [done|]. simpl. by destruct (IndexRune set c). Qed.

Lemma containsOnly_digit d : (d < 10)%N → containsOnly (String (pretty_N_char d) "") numbers = true.
Proof.
  intros Hd. assert (d = 0 ∨ d = 1 ∨ d = 2 ∨ d = 3 ∨ d = 4 ∨ d = 5 ∨ d = 6 ∨ d = 7 ∨ d = 8 ∨ d = 9)%N by lia.
  naive_solver.
Qed.

Lemma containsOnly_pretty (n : N) : containsOnly (pretty n) numbers = true.
Proof.
  induction n as [d Hd|n d Hn Hd IH] using decimal_ind.
  - rewrite pretty_digit by done. by apply containsOnly_digit.
  - rewrite pretty_snoc, containsOnly_app, IH by done. by apply containsOnly_digit.
Qed.

Lemma pretty_nonempty (n : N) : pretty n ≠ "".
Proof. intros H. pose proof (parse_pretty n) as Hp. rewrite H in Hp. injection Hp as <-. by vm_compute in H. Qed.

(** A character outside the alphabet does not occur. *)
Lemma containsOnly_absent s set c : containsOnly s set = true → IndexRune set c = None → IndexRune s c = None.
Proof.
  intros Hs Hc. induction s as [|d s IH]; [done|]. simpl in *. destruct (IndexRune set d) eqn:Hd; [|done].
  destruct (Ascii.eqb_spec c d) as [->|]; [congruence|]. by rewrite IH.
Qed.

Lemma IndexRune_app_None s t c : IndexRune s c = None → IndexRune (s +:+ t) c = (Nat.add (String.length s)) <$> IndexRune t c.
Proof.
  induction s as [|d s IH]; simpl; [by destruct (IndexRune t c)|]. destruct (Ascii.eqb c d); [done|].
  destruct (IndexRune s c); [done|]. intros _. rewrite IH by done. by destruct (IndexRune t c).
Qed.

Lemma str_take_append s t : str_take (String.length s) (s +:+ t) = s.
Proof. induction s as [|c s IH]; [by destruct t|]. simpl. by rewrite IH. Qed.

(** ** Splitting *)

Lemma absent_cons c s sep : IndexRune (String c s) sep = None ↔ Ascii.eqb c sep = false ∧ IndexRune s sep = None.
Proof. simpl. rewrite Ascii.eqb_sym. destruct (Ascii.eqb c sep), (IndexRune s sep); naive_solver. Qed.

Lemma Split_app s t sep : IndexRune s sep = None → Split (s +:+ String sep t) sep = s :: Split t sep.
Proof.
  induction s as [|c s IH]; [by simpl; rewrite Ascii.eqb_refl|]. intros [Hc Hs]%absent_cons. simpl.
  by rewrite Hc, IH.
Qed.

Lemma Split_single s sep : IndexRune s sep = None → Split s sep = [s].
Proof. induction s as [|c s IH]; [done|]. intros [Hc Hs]%absent_cons. simpl. by rewrite Hc, IH. Qed.

Lemma Split_Join l sep :
  l ≠ [] → Forall (λ s, IndexRune s sep = None) l → Split (Join l (String sep "")) sep = l.
Proof.
  induction l as [|s [|t l] IH]; intros Hne Hl; [done| |]; apply Forall_cons in Hl as [Hs Hl].
  - by apply Split_single.
  - rewrite Join_cons_cons. change (String sep "" +:+ Join (t :: l) (String sep "")) with (String sep (Join (t :: l) (String sep ""))).
    rewrite Split_app by done. by rewrite IH.
Qed.

Lemma SplitN_cons c s sep n :
  SplitN (String c s) sep (S (S n)) =
  if Ascii.eqb c sep then "" :: SplitN s sep (S n)
  else match SplitN s sep (S (S n)) with hd :: tl => String c hd :: tl | [] => [String c ""] end.
Proof. by destruct s. Qed.

Lemma SplitN_1 s sep : SplitN s sep 1 = [s].
Proof. by destruct s. Qed.

Lemma SplitN_app s t sep n :
  IndexRune s sep = None → SplitN (s +:+ String sep t) sep (S (S n)) = s :: SplitN t sep (S n).
Proof.
  induction s as [|c s IH].
  - intros _. change ("" +:+ String sep t) with (String sep t). by rewrite SplitN_cons, Ascii.eqb_refl.
  - intros [Hc Hs]%absent_cons. change (String c s +:+ String sep t) with (String c (s +:+ String sep t)).
    by rewrite SplitN_cons, Hc, IH.
Qed.

Lemma SplitN_join s sep n a b l :
  SplitN s sep (S (S n)) = a :: b :: l → ∃ t, s = a +:+ String sep t ∧ SplitN t sep (S n) = b :: l.
Proof.
  revert a. induction s as [|c s IH]; intros a H; [done|]. rewrite SplitN_cons in H.
  destruct (Ascii.eqb_spec c sep) as [->|Hc].
  - injection H as <- H. by exists s.
  - destruct (SplitN s sep (S (S n))) as [|hd tl] eqn:Hs; [done|]. injection H as <- ->.
    destruct (IH hd eq_refl) as (t & -> & Ht). by exists t.
Qed.

Lemma cut_parts_none s c : IndexRune s c = None → cut_parts s c = (s, []).
Proof. unfold cut_parts. by intros ->. Qed.

Lemma cut_parts_app s t c : IndexRune s c = None → cut_parts (s +:+ String c t) c = (s, Split t ".").
Proof.
  intros Hs. assert (Hi : IndexRune (s +:+ String c t) c = Some (String.length s)).
  { rewrite IndexRune_app_None by done. simpl. by rewrite Ascii.eqb_refl; simpl; rewrite Nat.add_0_r. }
  assert (Hd : ∀ u, str_drop (S (String.length s)) (s +:+ String c u) = u).
  { clear. intros u. induction s as [|d s IH]; [by destruct u|exact IH]. }
  unfold cut_parts. by rewrite Hi, str_take_append, Hd.
Qed.

(** What a cut came from *)
Lemma cut_parts_inv s c a l :
  cut_parts s c = (a, l) →
  s = a +:+ match l with [] => "" | _ => String c (Join l ".") end ∧ IndexRune a c = None.
Proof.
  unfold cut_parts. destruct (IndexRune s c) as [i|] eqn:Hi; intros [<- <-]%pair_equal_spec.
  - assert (Hs : s = str_take i s +:+ String c (str_drop (S i) s) ∧ IndexRune (str_take i s) c = None).
    { clear -Hi. revert i Hi. induction s as [|d s IH]; intros i Hi; [done|]. cbn [IndexRune] in Hi.
      destruct (Ascii.eqb_spec c d) as [->|Hne]; [by injection Hi as <-|].
      destruct (IndexRune s c) as [j|] eqn:Hj; [|done]. injection Hi as <-.
      destruct (IH j eq_refl) as [H1 H2]. cbn [str_take str_drop IndexRune].
      destruct (Ascii.eqb_spec c d); [done|]. rewrite H2. split; [|done]. simpl. by rewrite H1 at 1. }
    destruct Hs as [Hs Hn]. split; [|done].
    pose proof (Split_ne (str_drop (S i) s) ".") as Hne. pose proof (Join_Split (str_drop (S i) s) ".") as Hj.
    destruct (Split (str_drop (S i) s) "."); [done|]. cbv iota. by rewrite Hj.
  - split; [by rewrite append_nil_r|done].
Qed.

(** ** The identifiers *)

Definition core_ok (n : N) : Prop := (n < 2 ^ 64)%N.

(** A numeric identifier is a [uint64]; any other one has a letter or a hyphen. *)
Definition pre_ok (p : PRVersion) : Prop :=
  if IsNum p then VersionStr p = "" ∧ core_ok (VersionNum p)
  else VersionNum p = 0%N ∧ VersionStr p ≠ "" ∧ containsOnly (VersionStr p) alphanum = true ∧
       containsOnly (VersionStr p) numbers = false.

Definition build_ok (s : string) : Prop := s ≠ "" ∧ containsOnly s alphanum = true.

Definition version_ok (v : Version) : Prop :=
  core_ok (Major v) ∧ core_ok (Minor v) ∧ core_ok (Patch v) ∧ Forall pre_ok (Pre v) ∧ Forall build_ok (Build v).

Lemma ParseUint64_iff s n : ParseUint64 s = Some n ↔ s ≠ "" ∧ parse_digits s 0 = Some n ∧ core_ok n.
Proof.
  unfold ParseUint64, core_ok. destruct s as [|c s]; [naive_solver|].
  destruct (parse_digits (String c s) 0) as [m|]; cbn [mbind option_bind]; [|naive_solver].
  destruct (N.ltb_spec m (2 ^ 64)); naive_solver lia.
Qed.

Lemma parse_core_iff s n : parse_core s = Some n ↔ core_ok n ∧ s = pretty n.
Proof.
  unfold parse_core. split.
  - destruct (containsOnly s numbers); [|done]. destruct (hasLeadingZeroes s) eqn:Hz; [done|]. cbn [negb].
    intros (Hne & Hp & Hn)%ParseUint64_iff. by rewrite (pretty_parse s n).
  - intros [Hn ->]. rewrite containsOnly_pretty, pretty_no_leading_zero. apply ParseUint64_iff.
    split_and!; [apply pretty_nonempty|apply parse_pretty|done].
Qed.

Lemma NewPRVersion_iff s p : NewPRVersion s = Some p ↔ pre_ok p ∧ s = PR_String p.
Proof.
  unfold NewPRVersion, pre_ok, PR_String. split.
  - case_bool_decide as Hne; [done|]. destruct (containsOnly s numbers) eqn:Hd.
    + destruct (hasLeadingZeroes s) eqn:Hz; [done|]. destruct (ParseUint64 s) as [n|] eqn:Hp; [|done].
      intros [= <-]. simpl. apply ParseUint64_iff in Hp as (_ & Hp & Hn). by rewrite (pretty_parse s n).
    + destruct (containsOnly s alphanum) eqn:Ha; [|done]. by intros [= <-].
  - destruct p as [str n []]; simpl; intros [Hp ->].
    + destruct Hp as [-> Hn]. rewrite bool_decide_eq_false_2 by apply pretty_nonempty.
      rewrite containsOnly_pretty, pretty_no_leading_zero.
      assert (ParseUint64 (pretty n) = Some n) as ->; [|done].
      apply ParseUint64_iff. split_and!; [apply pretty_nonempty|apply parse_pretty|done].
    + destruct Hp as (-> & Hne & Ha & Hd). by rewrite bool_decide_eq_false_2, Hd, Ha by done.
Qed.

Lemma parse_build_iff s t : parse_build s = Some t ↔ build_ok t ∧ s = t.
Proof.
  unfold parse_build, build_ok. split.
  - case_bool_decide; [done|]. destruct (containsOnly s alphanum) eqn:Ha; [|done]. by intros [= <-].
  - intros [[Hne Ha] ->]. by rewrite bool_decide_eq_false_2, Ha.
Qed.

Lemma parse_all_iff {A} (f : string → option A) (ok : A → Prop) (g : A → string) l r :
  (∀ s a, f s = Some a ↔ ok a ∧ s = g a) → mapM f l = Some r ↔ Forall ok r ∧ l = g <$> r.
Proof.
  intros Hf. rewrite mapM_Some. split.
  - induction 1 as [|s a l r Ha _ [IH1 IH2]]; [done|]. apply Hf in Ha as [Ha ->].
    split; [by constructor|]. simpl. by rewrite IH2.
  - intros [Hr ->]. induction Hr as [|a r Ha _ IH]; simpl; constructor; [by apply Hf|done].
Qed.

(** ** The texts of versions *)

Lemma alphanum_absent s c : containsOnly s alphanum = true → IndexRune alphanum c = None → IndexRune s c = None.
Proof. apply containsOnly_absent. Qed.

Lemma numbers_alphanum s : containsOnly s numbers = true → containsOnly s alphanum = true.
Proof.
  induction s as [|c s IH]; [done|]. cbn [containsOnly]. destruct (IndexRune numbers c) eqn:Hc; [|done].
  intros Hs. assert (∃ i, IndexRune alphanum c = Some i) as [i ->]; [|by apply IH].
  revert Hc. clear. unfold numbers, alphanum. simpl.
  repeat match goal with |- context [Ascii.eqb c ?d] => destruct (Ascii.eqb c d) end; try done; eauto.
Qed.

Lemma PR_String_alphanum p : pre_ok p → containsOnly (PR_String p) alphanum = true.
Proof.
  unfold pre_ok, PR_String. destruct (IsNum p); [|by intros (_ & _ & ? & _)].
  intros _. apply numbers_alphanum, containsOnly_pretty.
Qed.

Lemma Join_alphanum l c :
  Forall (λ s, containsOnly s alphanum = true) l → IndexRune alphanum c = None → c ≠ "."%char →
  IndexRune (Join l ".") c = None.
Proof.
  intros Hl Hc Hd. induction Hl as [|s l Hs Hl IH]; [done|]. destruct l as [|t l]; [by apply alphanum_absent|].
  rewrite Join_cons_cons, IndexRune_app_None by by apply alphanum_absent. 
  change ("." +:+ Join (t :: l) ".") with (String "." (Join (t :: l) ".")).
  assert (IndexRune (String "." (Join (t :: l) ".")) c = None) as ->; [|done].
  apply absent_cons. split; [|done]. apply Ascii.eqb_neq. congruence.
Qed.

(** The text of an optional part, and cutting it off again *)
Definition part_text (c : ascii) (l : list string) : string :=
  match l with [] => "" | _ => String c (Join l ".") end.

Lemma cut_part a c l :
  IndexRune a c = None → Forall (λ s, containsOnly s alphanum = true) l → cut_parts (a +:+ part_text c l) c = (a, l).
Proof.
  intros Ha Hl. destruct l as [|s l]; unfold part_text.
  - rewrite append_nil_r. by apply cut_parts_none.
  - rewrite cut_parts_app by done. f_equal. apply Split_Join; [done|].
    eapply Forall_impl; [exact Hl|]. intros t Ht. by apply alphanum_absent.
Qed.

Lemma part_absent c d l :
  Forall (λ s, containsOnly s alphanum = true) l → IndexRune alphanum d = None → d ≠ "."%char → c ≠ d →
  IndexRune (part_text c l) d = None.
Proof.
  intros Hl Hd Hdot Hc. destruct l as [|s l]; [done|]. unfold part_text. apply absent_cons.
  split; [by apply Ascii.eqb_neq|by apply Join_alphanum].
Qed.

Lemma Version_String_parts v :
  Version_String v =
  pretty (Major v) +:+ String "." (pretty (Minor v) +:+ String "."
    ((pretty (Patch v) +:+ part_text "-" (PR_String <$> Pre v)) +:+ part_text "+" (Build v))).
Proof.
  unfold Version_String. rewrite append_assoc. by destruct (Pre v), (Build v).
Qed.

Lemma pretty_absent (n : N) c : IndexRune numbers c = None → IndexRune (pretty n) c = None.
Proof. apply containsOnly_absent, containsOnly_pretty. Qed.

Lemma Parse_text v : version_ok v → Parse (Version_String v) = Some v.
Proof.
  intros (Hma & Hmi & Hpa & Hpre & Hbuild). rewrite Version_String_parts. unfold Parse.
  assert (Hp : Forall (λ s, containsOnly s alphanum = true) (PR_String <$> Pre v)).
  { apply Forall_fmap. eapply Forall_impl; [exact Hpre|]. apply PR_String_alphanum. }
  assert (Hb : Forall (λ s, containsOnly s alphanum = true) (Build v)).
  { eapply Forall_impl; [exact Hbuild|]. by intros s []. }
  rewrite bool_decide_eq_false_2.
  2: { pose proof (pretty_nonempty (Major v)). by destruct (pretty (Major v)). }
  rewrite !SplitN_app by by apply pretty_absent. rewrite SplitN_1.
  rewrite (proj2 (parse_core_iff _ _) (conj Hma eq_refl)), (proj2 (parse_core_iff _ _) (conj Hmi eq_refl)).
  cbn [mbind option_bind]. rewrite cut_part; [|rewrite IndexRune_app_None by (by apply pretty_absent)|done].
  2: { by rewrite part_absent. }
  rewrite cut_part; [|by apply pretty_absent|done].
  rewrite (proj2 (parse_core_iff _ _) (conj Hpa eq_refl)).
  rewrite (proj2 (parse_all_iff NewPRVersion pre_ok PR_String _ (Pre v) NewPRVersion_iff)) by done.
  rewrite (proj2 (parse_all_iff parse_build build_ok id _ (Build v) parse_build_iff)) by (by rewrite list_fmap_id).
  cbn [mbind option_bind]. by destruct v.
Qed.

Lemma Parse_inv s v : Parse s = Some v → version_ok v ∧ s = Version_String v.
Proof.
  unfold Parse. case_bool_decide; [done|]. rewrite Version_String_parts.
  destruct (SplitN s "." 3) as [|major [|minor [|rest [|]]]] eqn:Hs; try done.
  apply SplitN_join in Hs as (t & -> & Ht). apply SplitN_join in Ht as (u & -> & Hu).
  rewrite SplitN_1 in Hu. injection Hu as ->. intros Hparse.
  destruct (parse_core major) as [ma|] eqn:Hma; [|done]. destruct (parse_core minor) as [mi|] eqn:Hmi; [|done].
  cbn [mbind option_bind] in Hparse.
  destruct (cut_parts rest "+") as [patch build] eqn:Hb. destruct (cut_parts patch "-") as [core pre] eqn:Hp.
  destruct (parse_core core) as [pa|] eqn:Hpa; [|done]. cbn [mbind option_bind] in Hparse.
  destruct (mapM NewPRVersion pre) as [pre'|] eqn:Hpre; [|done].
  destruct (mapM parse_build build) as [build'|] eqn:Hbuild; [|done]. injection Hparse as <-.
  apply parse_core_iff in Hma as [Hma ->], Hmi as [Hmi ->], Hpa as [Hpa ->].
  apply (parse_all_iff _ _ _ _ _ NewPRVersion_iff) in Hpre as [Hpre ->].
  apply (parse_all_iff _ _ id _ _ parse_build_iff) in Hbuild as [Hbuild ->]. rewrite list_fmap_id in Hb.
  apply cut_parts_inv in Hb as [-> _], Hp as [-> _]. done.
Qed.

(** C35: versions round trip.  [Parse] accepts a text exactly when it is the text
    of a well-formed version, and gives that version: numbers are [uint64]
    without leading zeros, identifiers are not empty and of the semver alphabet,
    a numeric pre-release identifier is a number.  So printing a parsed version
    gives the text back, and parsing a printed version the version. *)
Theorem version_text_roundtrip s v : Parse s = Some v ↔ version_ok v ∧ s = Version_String v.
Proof. split; [apply Parse_inv|]. intros [Hv ->]. by apply Parse_text. Qed.
