(* ===== verification/Api.v ===== *)
(** * The Kubernetes objects the operator handles

    The structs the code builds or reads, with the fields it names.  A field
    ending in [_rest] stands for the remaining fields of a struct whose values
    come from outside (the API server or the user): the operator never looks
    inside, it only copies, drops or compares them; it is [""] (all zero) in the
    objects the operator builds.  A nil-able Go map is an [option] of a [gmap],
    so that [reflect.DeepEqual] is equality; a nil-able slice whose nil-ness the
    code can observe is an [option] of a list. *)
From S2P Require Import Prelude.

(** [map[string]string], nil or not *)
Abbreviation gomap := (option (gmap string string)).

(** [m[k]] on a possibly nil map *)
Definition map_get (m : gomap) (k : string) : option string := m ≫= (.!! k).

(** ** Metadata *)

Record OwnerReference := {
  owner_APIVersion : string;
  owner_Kind : string;
  owner_Name : string;
  owner_UID : string;
  owner_Controller : option bool;
  owner_BlockOwnerDeletion : option bool }.

Record ObjectMeta := {
  Name : string;
  Namespace : string;
  UID : string;
  ResourceVersion : string;
  Labels : gomap;
  Annotations : gomap;
  OwnerReferences : list OwnerReference;
  Finalizers : list string;
  DeletionTimestamp : option Z;
  CreationTimestamp : option Z;
  meta_rest : string }.

Record TypeMeta := { APIVersion : string; Kind : string }.

Definition no_type : TypeMeta := {| APIVersion := ""; Kind := "" |}.

(** [metav1.ObjectMeta{Name: n, Namespace: ns, Labels: l}] *)
Definition object_meta (n ns : string) (l : gomap) : ObjectMeta :=
  {| Name := n; Namespace := ns; UID := ""; ResourceVersion := ""; Labels := l;
     Annotations := None; OwnerReferences := []; Finalizers := [];
     DeletionTimestamp := None; CreationTimestamp := None; meta_rest := "" |}.

Definition set_Labels (l : gomap) (m : ObjectMeta) : ObjectMeta :=
  {| Name := Name m; Namespace := Namespace m; UID := UID m;
     ResourceVersion := ResourceVersion m; Labels := l; Annotations := Annotations m;
     OwnerReferences := OwnerReferences m; Finalizers := Finalizers m;
     DeletionTimestamp := DeletionTimestamp m; CreationTimestamp := CreationTimestamp m;
     meta_rest := meta_rest m |}.

Definition set_Annotations (a : gomap) (m : ObjectMeta) : ObjectMeta :=
  {| Name := Name m; Namespace := Namespace m; UID := UID m;
     ResourceVersion := ResourceVersion m; Labels := Labels m; Annotations := a;
     OwnerReferences := OwnerReferences m; Finalizers := Finalizers m;
     DeletionTimestamp := DeletionTimestamp m; CreationTimestamp := CreationTimestamp m;
     meta_rest := meta_rest m |}.

Definition set_OwnerReferences (r : list OwnerReference) (m : ObjectMeta) : ObjectMeta :=
  {| Name := Name m; Namespace := Namespace m; UID := UID m;
     ResourceVersion := ResourceVersion m; Labels := Labels m; Annotations := Annotations m;
     OwnerReferences := r; Finalizers := Finalizers m;
     DeletionTimestamp := DeletionTimestamp m; CreationTimestamp := CreationTimestamp m;
     meta_rest := meta_rest m |}.

Definition set_Finalizers (f : list string) (m : ObjectMeta) : ObjectMeta :=
  {| Name := Name m; Namespace := Namespace m; UID := UID m;
     ResourceVersion := ResourceVersion m; Labels := Labels m; Annotations := Annotations m;
     OwnerReferences := OwnerReferences m; Finalizers := f;
     DeletionTimestamp := DeletionTimestamp m; CreationTimestamp := CreationTimestamp m;
     meta_rest := meta_rest m |}.

Definition set_CreationTimestamp (t : option Z) (m : ObjectMeta) : ObjectMeta :=
  {| Name := Name m; Namespace := Namespace m; UID := UID m;
     ResourceVersion := ResourceVersion m; Labels := Labels m; Annotations := Annotations m;
     OwnerReferences := OwnerReferences m; Finalizers := Finalizers m;
     DeletionTimestamp := DeletionTimestamp m; CreationTimestamp := t;
     meta_rest := meta_rest m |}.

(** ** Pods *)

Record NodeSelectorRequirement := { req_Key : string; req_Operator : string; req_Values : list string }.
Record NodeSelectorTerm := {
  MatchExpressions : list NodeSelectorRequirement; term_rest : string }.
Record NodeAffinity := {
  (** [RequiredDuringSchedulingIgnoredDuringExecution]: nil or the terms *)
  RequiredTerms : option (list NodeSelectorTerm);
  node_affinity_rest : string }.
Record Affinity := { affinity_Node : option NodeAffinity; affinity_rest : string }.

Record Toleration := {
  tol_Key : string; tol_Operator : string; tol_Value : string; tol_Effect : string;
  tol_Seconds : option Z }.

(** [EnvVar]: a value, or a [FieldRef] (API version and field path) *)
Record EnvVar := {
  env_Name : string; env_Value : string; env_FieldRef : option (string * string);
  env_rest : string }.

Record VolumeMount := {
  vm_Name : string; MountPath : string; MountPropagation : option string; vm_rest : string }.
Record VolumeDevice := { vd_Name : string; DevicePath : string }.

Inductive VolumeSource :=
| HostPath (path : string) (type : option string)
| PersistentVolumeClaimSource (claimName : string)
| OtherVolumeSource (rest : string).
Record Volume := { vol_Name : string; vol_Source : VolumeSource }.

Record SecurityContext := {
  Privileged : option bool; RunAsUser : option Z; sec_rest : string }.
Record ContainerPort := { port_Name : string; port_Number : Z; port_Protocol : string }.
(** A liveness probe: an HTTP GET and its timings *)
Record Probe := {
  probe_Path : string; probe_Port : Z; probe_Scheme : string;
  FailureThreshold : Z; InitialDelaySeconds : Z; TimeoutSeconds : Z; PeriodSeconds : Z;
  SuccessThreshold : Z }.

Record Container := {
  c_Name : string; Image : string; ImagePullPolicy : string;
  Command : list string; Args : list string; Env : list EnvVar;
  (** [Resources.Requests]: quantities as written *)
  Requests : list (string * string);
  Ports : list ContainerPort; LivenessProbe : option Probe;
  c_SecurityContext : option SecurityContext;
  VolumeMounts : list VolumeMount; VolumeDevices : list VolumeDevice;
  TerminationMessagePath : string; TerminationMessagePolicy : string;
  c_rest : string }.

Record PodSpec := {
  ServiceAccountName : string; DeprecatedServiceAccount : string;
  RestartPolicy : string; SchedulerName : string; DNSPolicy : string;
  TerminationGracePeriodSeconds : option Z;
  (** [&corev1.PodSecurityContext{}] is [Some ""] *)
  PodSecurityContext : option string;
  Containers : list Container; Volumes : list Volume;
  NodeSelector : gomap; Tolerations : list Toleration; pod_Affinity : option Affinity;
  NodeName : string;
  pod_rest : string }.

Record PodTemplateSpec := { template_Meta : ObjectMeta; template_Spec : PodSpec }.

(** ** Workloads *)

(** [IntOrString] *)
Inductive IntOrString := IntVal (n : Z) | StrVal (s : string).
(** [MaxUnavailable] and [MaxSurge] of a rolling update *)
Record RollingUpdate := { MaxUnavailable : option IntOrString; MaxSurge : option IntOrString }.
Record UpdateStrategy := { strategy_Type : string; strategy_Rolling : option RollingUpdate }.

(** A label selector; a workload always has one (the API requires it). *)
Record LabelSelector := { MatchLabels : gomap; selector_rest : string }.

Definition match_labels (m : gmap string string) : LabelSelector :=
  {| MatchLabels := Some m; selector_rest := "" |}.

Record DaemonSetSpec := {
  ds_Selector : LabelSelector;
  ds_Template : PodTemplateSpec;
  ds_UpdateStrategy : UpdateStrategy;
  ds_RevisionHistoryLimit : option Z;
  ds_rest : string }.
Record DaemonSetStatus := {
  NumberReady : Z; DesiredNumberScheduled : Z; NumberAvailable : Z; ds_status_rest : string }.

Record DeploymentSpec := {
  dep_Selector : LabelSelector;
  dep_Replicas : option Z;
  dep_Strategy : UpdateStrategy;
  dep_ProgressDeadlineSeconds : option Z;
  dep_RevisionHistoryLimit : option Z;
  dep_Template : PodTemplateSpec;
  dep_rest : string }.
Record DeploymentStatus := { ReadyReplicas : Z; dep_status_rest : string }.

Record JobSpec := { job_Template : PodTemplateSpec; job_rest : string }.
Record JobStatus := { Succeeded : Z; job_status_rest : string }.

(** ** Storage *)

Record PersistentVolumeClaimSpec := {
  AccessModes : option (list string);
  VolumeMode : option string;
  pvc_rest : string }.
Record PersistentVolumeClaimStatus := { pvc_Phase : string; pvc_status_rest : string }.

Record StorageClass := {
  Provisioner : string; ReclaimPolicy : option string; VolumeBindingMode : option string;
  Parameters : gmap string string; sc_rest : string }.

Record CSIDriverSpec := {
  AttachRequired : option bool;
  FSGroupPolicy : option string;
  VolumeLifecycleModes : list string;
  PodInfoOnMount : option bool;
  StorageCapacity : option bool;
  RequiresRepublish : option bool;
  csi_rest : string }.

(** ** Access control *)

Record PolicyRule := {
  APIGroups : list string; Resources : list string; ResourceNames : list string; Verbs : list string }.
Record Subject := { subject_Kind : string; subject_Name : string; subject_Namespace : string }.
Record RoleRef := { ref_APIGroup : string; ref_Kind : string; ref_Name : string }.
Record Binding := { Subjects : list Subject; binding_RoleRef : RoleRef }.

Record SecurityContextConstraints := {
  Groups : list string; Users : list string;
  AllowPrivilegedContainer : bool; AllowHostDirVolumePlugin : bool;
  RequiredDropCapabilities : list string;
  scc_RunAsUser : string; scc_SELinuxContext : string; scc_FSGroup : string;
  scc_SupplementalGroups : string;
  scc_Volumes : list string;
  scc_rest : string }.

(** ** Monitoring *)

Record ServicePort := { sp_Name : string; sp_Port : Z; sp_TargetPort : IntOrString; sp_Protocol : string }.
Record ServiceSpec := { svc_Selector : gomap; svc_Ports : list ServicePort; svc_rest : string }.

Record ServiceMonitorSpec := {
  sm_Selector : gomap;
  sm_NamespaceNames : list string;
  (** port, scheme, [InsecureSkipVerify], minimum TLS version *)
  sm_Endpoints : list (string * option string * option bool * option string);
  sm_rest : string }.

(** One rule of a PrometheusRule: a recording rule ([rule_Record]) or an alert
    ([rule_Alert]) *)
Record Rule := {
  rule_Record : string; rule_Alert : string; rule_Expr : string; rule_For : option string;
  rule_Labels : gomap; rule_Annotations : gomap; rule_rest : string }.
Record RuleGroup := { group_Name : string; Rules : list Rule; group_rest : string }.

(** ** The TLS profile of the cluster's APIServer object (openshift/api) *)

Record TLSProfileSpec := { Ciphers : list string; MinTLSVersion : string }.
Record TLSSecurityProfile := { profile_Type : string; profile_Custom : option TLSProfileSpec }.

(** ** Status conditions (openshift/custom-resource-status) *)

Record Condition := {
  cond_Type : string; cond_Status : string; Reason : string; Message : string;
  LastHeartbeatTime : Z; LastTransitionTime : Z }.

(** ** The HostPathProvisioner custom resource (types.go) *)

Record PathConfig := { pc_Path : string; UseNamingPrefix : bool }.

Record NodePlacement := {
  place_NodeSelector : gomap; place_Affinity : option Affinity;
  place_Tolerations : list Toleration }.

Record StoragePool := {
  pool_Name : string;
  PVCTemplate : option PersistentVolumeClaimSpec;
  pool_Path : string;
  SnapshotProvider : option string;
  OverlayClassName : string }.

Record HostPathProvisionerSpec := {
  cr_ImagePullPolicy : string;
  cr_PathConfig : option PathConfig;
  Workload : NodePlacement;
  FeatureGates : list string;
  StoragePools : list StoragePool }.

Record ClaimStatus := { claim_Name : string; claim_Status : PersistentVolumeClaimStatus }.

Record StoragePoolStatus := {
  ps_Name : string; Phase : string; DesiredReady : Z; CurrentReady : Z;
  (** nil or a slice: an empty slice and nil are not [DeepEqual] *)
  ClaimStatuses : option (list ClaimStatus) }.

Definition StoragePoolReady := "Ready".

Record HostPathProvisionerStatus := {
  Conditions : list Condition;
  OperatorVersion : string;
  TargetVersion : string;
  ObservedVersion : string;
  StoragePoolStatuses : option (list StoragePoolStatus) }.

(** ** Kinds *)

Inductive kind :=
| KHostPathProvisioner | KDaemonSet | KDeployment | KPod | KNode | KJob
| KServiceAccount | KClusterRole | KClusterRoleBinding | KRole | KRoleBinding
| KCSIDriver | KStorageClass | KPersistentVolumeClaim | KSecurityContextConstraints
| KPrometheusRule | KServiceMonitor | KService | KAPIServer.

#[export] Instance kind_eq_dec : EqDecision kind.
Proof. solve_decision. Defined.

(** What an object of each kind holds besides its metadata. *)
Definition body (k : kind) : Type :=
  match k with
  | KHostPathProvisioner => HostPathProvisionerSpec * HostPathProvisionerStatus
  | KDaemonSet => DaemonSetSpec * DaemonSetStatus
  | KDeployment => DeploymentSpec * DeploymentStatus
  | KPod => PodSpec
  | KNode => string
  | KJob => JobSpec * JobStatus
  | KServiceAccount => string
  | KClusterRole | KRole => list PolicyRule
  | KClusterRoleBinding | KRoleBinding => Binding
  | KCSIDriver => CSIDriverSpec
  | KStorageClass => StorageClass
  | KPersistentVolumeClaim => PersistentVolumeClaimSpec * PersistentVolumeClaimStatus
  | KSecurityContextConstraints => SecurityContextConstraints
  | KPrometheusRule => list RuleGroup
  | KServiceMonitor => ServiceMonitorSpec
  | KService => ServiceSpec
  | KAPIServer => option TLSSecurityProfile
  end.

Record obj (k : kind) := Obj { o_type : TypeMeta; o_meta : ObjectMeta; o_body : body k }.
Arguments Obj {k} o_type o_meta o_body.
Arguments o_type {k} o.
Arguments o_meta {k} o.
Arguments o_body {k} o.

Abbreviation HostPathProvisioner := (obj KHostPathProvisioner).
Abbreviation DaemonSet := (obj KDaemonSet).
Abbreviation Deployment := (obj KDeployment).
Abbreviation Node := (obj KNode).

Definition o_name {k} (o : obj k) : string := Name (o_meta o).
Definition o_namespace {k} (o : obj k) : string := Namespace (o_meta o).
Definition with_meta {k} (f : ObjectMeta → ObjectMeta) (o : obj k) : obj k :=
  Obj (o_type o) (f (o_meta o)) (o_body o).

(** The namespace and name an object is stored under. *)
Definition ObjectKey := (string * string)%type.
Definition ObjectKeyFromObject {k} (o : obj k) : ObjectKey := (o_namespace o, o_name o).

(** Spec and status of the custom resource *)
Definition cr_Spec (cr : HostPathProvisioner) : HostPathProvisionerSpec := fst (o_body cr).
Definition cr_Status (cr : HostPathProvisioner) : HostPathProvisionerStatus := snd (o_body cr).
Definition with_Status (f : HostPathProvisionerStatus → HostPathProvisionerStatus)
    (cr : HostPathProvisioner) : HostPathProvisioner :=
  Obj (k:=KHostPathProvisioner) (o_type cr) (o_meta cr) (cr_Spec cr, f (cr_Status cr)).

Definition set_Conditions (c : list Condition) (s : HostPathProvisionerStatus) :=
  {| Conditions := c; OperatorVersion := OperatorVersion s; TargetVersion := TargetVersion s;
     ObservedVersion := ObservedVersion s; StoragePoolStatuses := StoragePoolStatuses s |}.
Definition set_Versions (operator target : string) (s : HostPathProvisionerStatus) :=
  {| Conditions := Conditions s; OperatorVersion := operator; TargetVersion := target;
     ObservedVersion := ObservedVersion s; StoragePoolStatuses := StoragePoolStatuses s |}.
Definition set_ObservedVersion (v : string) (s : HostPathProvisionerStatus) :=
  {| Conditions := Conditions s; OperatorVersion := OperatorVersion s;
     TargetVersion := TargetVersion s; ObservedVersion := v;
     StoragePoolStatuses := StoragePoolStatuses s |}.
Definition set_StoragePoolStatuses (l : list StoragePoolStatus) (s : HostPathProvisionerStatus) :=
  {| Conditions := Conditions s; OperatorVersion := OperatorVersion s;
     TargetVersion := TargetVersion s; ObservedVersion := ObservedVersion s;
     StoragePoolStatuses := Some l |}.

Definition cr_Conditions (cr : HostPathProvisioner) : list Condition := Conditions (cr_Status cr).

Definition ds_Spec (ds : DaemonSet) : DaemonSetSpec := fst (o_body ds).
Definition ds_Status (ds : DaemonSet) : DaemonSetStatus := snd (o_body ds).
Definition dep_Spec (d : Deployment) : DeploymentSpec := fst (o_body d).
Definition dep_Status (d : Deployment) : DeploymentStatus := snd (o_body d).

Definition isLegacy (cr : HostPathProvisioner) : bool :=
  match cr_PathConfig (cr_Spec cr) with Some _ => true | None => false end.

(** The Go type name [%T] prints. *)
Definition go_type (k : kind) : string :=
  match k with
  | KHostPathProvisioner => "*v1beta1.HostPathProvisioner"
  | KDaemonSet => "*v1.DaemonSet" | KDeployment => "*v1.Deployment" | KPod => "*v1.Pod"
  | KNode => "*v1.Node" | KJob => "*v1.Job" | KServiceAccount => "*v1.ServiceAccount"
  | KClusterRole => "*v1.ClusterRole" | KClusterRoleBinding => "*v1.ClusterRoleBinding"
  | KRole => "*v1.Role" | KRoleBinding => "*v1.RoleBinding"
  | KCSIDriver => "*v1.CSIDriver" | KStorageClass => "*v1.StorageClass"
  | KPersistentVolumeClaim => "*v1.PersistentVolumeClaim"
  | KSecurityContextConstraints => "*v1.SecurityContextConstraints"
  | KPrometheusRule => "*v1.PrometheusRule" | KServiceMonitor => "*v1.ServiceMonitor"
  | KService => "*v1.Service" | KAPIServer => "*v1.APIServer"
  end.

(** ** Decidable equality ([reflect.DeepEqual]) *)

#[export] Instance OwnerReference_eq_dec : EqDecision OwnerReference.
Proof. solve_decision. Defined.
#[export] Instance ObjectMeta_eq_dec : EqDecision ObjectMeta.
Proof. solve_decision. Defined.
#[export] Instance TypeMeta_eq_dec : EqDecision TypeMeta.
Proof. solve_decision. Defined.
#[export] Instance NodeSelectorRequirement_eq_dec : EqDecision NodeSelectorRequirement.
Proof. solve_decision. Defined.
#[export] Instance NodeSelectorTerm_eq_dec : EqDecision NodeSelectorTerm.
Proof. solve_decision. Defined.
#[export] Instance NodeAffinity_eq_dec : EqDecision NodeAffinity.
Proof. solve_decision. Defined.
#[export] Instance Affinity_eq_dec : EqDecision Affinity.
Proof. solve_decision. Defined.
#[export] Instance Toleration_eq_dec : EqDecision Toleration.
Proof. solve_decision. Defined.
#[export] Instance EnvVar_eq_dec : EqDecision EnvVar.
Proof. solve_decision. Defined.
#[export] Instance VolumeMount_eq_dec : EqDecision VolumeMount.
Proof. solve_decision. Defined.
#[export] Instance VolumeDevice_eq_dec : EqDecision VolumeDevice.
Proof. solve_decision. Defined.
#[export] Instance VolumeSource_eq_dec : EqDecision VolumeSource.
Proof. solve_decision. Defined.
#[export] Instance Volume_eq_dec : EqDecision Volume.
Proof. solve_decision. Defined.
#[export] Instance SecurityContext_eq_dec : EqDecision SecurityContext.
Proof. solve_decision. Defined.
#[export] Instance ContainerPort_eq_dec : EqDecision ContainerPort.
Proof. solve_decision. Defined.
#[export] Instance Probe_eq_dec : EqDecision Probe.
Proof. solve_decision. Defined.
#[export] Instance Container_eq_dec : EqDecision Container.
Proof. solve_decision. Defined.
#[export] Instance PodSpec_eq_dec : EqDecision PodSpec.
Proof. solve_decision. Defined.
#[export] Instance PodTemplateSpec_eq_dec : EqDecision PodTemplateSpec.
Proof. solve_decision. Defined.
#[export] Instance IntOrString_eq_dec : EqDecision IntOrString.
Proof. solve_decision. Defined.
#[export] Instance RollingUpdate_eq_dec : EqDecision RollingUpdate.
Proof. solve_decision. Defined.
#[export] Instance UpdateStrategy_eq_dec : EqDecision UpdateStrategy.
Proof. solve_decision. Defined.
#[export] Instance LabelSelector_eq_dec : EqDecision LabelSelector.
Proof. solve_decision. Defined.
#[export] Instance DaemonSetSpec_eq_dec : EqDecision DaemonSetSpec.
Proof. solve_decision. Defined.
#[export] Instance DaemonSetStatus_eq_dec : EqDecision DaemonSetStatus.
Proof. solve_decision. Defined.
#[export] Instance DeploymentSpec_eq_dec : EqDecision DeploymentSpec.
Proof. solve_decision. Defined.
#[export] Instance DeploymentStatus_eq_dec : EqDecision DeploymentStatus.
Proof. solve_decision. Defined.
#[export] Instance JobSpec_eq_dec : EqDecision JobSpec.
Proof. solve_decision. Defined.
#[export] Instance JobStatus_eq_dec : EqDecision JobStatus.
Proof. solve_decision. Defined.
#[export] Instance PersistentVolumeClaimSpec_eq_dec : EqDecision PersistentVolumeClaimSpec.
Proof. solve_decision. Defined.
#[export] Instance PersistentVolumeClaimStatus_eq_dec : EqDecision PersistentVolumeClaimStatus.
Proof. solve_decision. Defined.
#[export] Instance StorageClass_eq_dec : EqDecision StorageClass.
Proof. solve_decision. Defined.
#[export] Instance CSIDriverSpec_eq_dec : EqDecision CSIDriverSpec.
Proof. solve_decision. Defined.
#[export] Instance PolicyRule_eq_dec : EqDecision PolicyRule.
Proof. solve_decision. Defined.
#[export] Instance Subject_eq_dec : EqDecision Subject.
Proof. solve_decision. Defined.
#[export] Instance RoleRef_eq_dec : EqDecision RoleRef.
Proof. solve_decision. Defined.
#[export] Instance Binding_eq_dec : EqDecision Binding.
Proof. solve_decision. Defined.
#[export] Instance SecurityContextConstraints_eq_dec : EqDecision SecurityContextConstraints.
Proof. solve_decision. Defined.
#[export] Instance ServicePort_eq_dec : EqDecision ServicePort.
Proof. solve_decision. Defined.
#[export] Instance ServiceSpec_eq_dec : EqDecision ServiceSpec.
Proof. solve_decision. Defined.
#[export] Instance ServiceMonitorSpec_eq_dec : EqDecision ServiceMonitorSpec.
Proof. solve_decision. Defined.
#[export] Instance Rule_eq_dec : EqDecision Rule.
Proof. solve_decision. Defined.
#[export] Instance RuleGroup_eq_dec : EqDecision RuleGroup.
Proof. solve_decision. Defined.
#[export] Instance TLSProfileSpec_eq_dec : EqDecision TLSProfileSpec.
Proof. solve_decision. Defined.
#[export] Instance TLSSecurityProfile_eq_dec : EqDecision TLSSecurityProfile.
Proof. solve_decision. Defined.
#[export] Instance Condition_eq_dec : EqDecision Condition.
Proof. solve_decision. Defined.
#[export] Instance PathConfig_eq_dec : EqDecision PathConfig.
Proof. solve_decision. Defined.
#[export] Instance NodePlacement_eq_dec : EqDecision NodePlacement.
Proof. solve_decision. Defined.
#[export] Instance StoragePool_eq_dec : EqDecision StoragePool.
Proof. solve_decision. Defined.
#[export] Instance HostPathProvisionerSpec_eq_dec : EqDecision HostPathProvisionerSpec.
Proof. solve_decision. Defined.
#[export] Instance ClaimStatus_eq_dec : EqDecision ClaimStatus.
Proof. solve_decision. Defined.
#[export] Instance StoragePoolStatus_eq_dec : EqDecision StoragePoolStatus.
Proof. solve_decision. Defined.
#[export] Instance HostPathProvisionerStatus_eq_dec : EqDecision HostPathProvisionerStatus.
Proof. solve_decision. Defined.

#[export] Instance body_eq_dec k : EqDecision (body k).
Proof. destruct k; simpl; apply _. Defined.

#[export] Instance obj_eq_dec k : EqDecision (obj k).
Proof. solve_decision. Defined.

(** [reflect.DeepEqual] on two objects of one kind *)
Definition DeepEqual {k} (a b : obj k) : bool := bool_decide (a = b).

(** ** Lemmas *)

Lemma with_Status_id cr : with_Status id cr = cr.
Proof. by destruct cr as [? ? []]. Qed.

Lemma obj_eta {k} (o : obj k) : Obj (o_type o) (o_meta o) (o_body o) = o.
Proof. by destruct o. Qed.

Lemma with_meta_id {k} (f : ObjectMeta → ObjectMeta) (o : obj k) :
  f (o_meta o) = o_meta o → with_meta f o = o.
Proof. destruct o; unfold with_meta; simpl. by intros ->. Qed.
