(* ===== verification/K8s.v ===== *)
(** * The requests the operator makes, and API servers

    [kreq] is the signature of everything the reconciler asks of its
    environment: the controller-runtime client (the API server), the event
    recorder, the readiness gauge, the clock, and the order in which Go ranges
    over a map.  The API server is not part of the repository: theorems
    quantify over its answers, or over the [Server] interface, whose laws are the
    documented behaviour of the API server.  [cluster_handler] is an in-memory
    server that satisfies the interface; witnesses run the code against it. *)
From S2P Require Import Prelude GoStrings Prog Api.

(** ** Requests *)

(** A label selector: every key has one of the listed values. *)
Record Requirement := { sel_Key : string; sel_Values : list string }.
Definition Selector := list Requirement.

Definition requirement_matches (labels : gomap) (r : Requirement) : bool :=
  match map_get labels (sel_Key r) with
  | Some v => bool_decide (v ∈ sel_Values r)
  | None => false
  end.

Definition selector_matches (s : Selector) (labels : gomap) : bool :=
  forallb (requirement_matches labels) s.

(** [client.ListOptions]; an empty namespace is every namespace *)
Record ListOptions := { lo_Selector : Selector; lo_Namespace : string }.

(** [r.recorder.Event(cr, type, reason, message)] *)
Record EventRecord := { ev_type : string; ev_reason : string; ev_message : string }.

Inductive kreq : Type → Type :=
| Get (k : kind) (key : ObjectKey) : kreq (result (obj k))
| ListObjs (k : kind) (opts : ListOptions) : kreq (result (list (obj k)))
| Create (k : kind) (o : obj k) : kreq (result (obj k))
| Update (k : kind) (o : obj k) : kreq (result (obj k))
| Delete (k : kind) (key : ObjectKey) (propagation : option string) : kreq error
| Event (about : ObjectKey) (e : EventRecord) : kreq unit
| SetReadyGaugeValue (v : Z) : kreq unit
| Now : kreq Z
| RangeOver (keys : list string) : kreq (list string).

Abbreviation kprog := (prog kreq).
Abbreviation ktrace := (trace kreq).

(** What a nil pointer dereference panics with. *)
Definition nil_dereference := "runtime error: invalid memory address or nil pointer dereference".

(** Answers no environment can avoid: ranging over a map visits its keys, in
    some order. *)
Definition go_answers : rely kreq := λ T r,
  match r in kreq T return T → Prop with
  | RangeOver ks => λ ks', ks' ≡ₚ ks
  | _ => λ _, True
  end.

(** Requests that change objects of the API server *)
Definition is_write {T} (r : kreq T) : bool :=
  match r with
  | Create _ _ | Update _ _ | Delete _ _ _ => true
  | _ => false
  end.

(** The kind a request reads or writes *)
Definition req_kind {T} (r : kreq T) : option kind :=
  match r with
  | Get k _ | ListObjs k _ | Create k _ | Update k _ | Delete k _ _ => Some k
  | _ => None
  end.

Definition no_writes : ∀ T, kreq T → Prop := λ T r, is_write r = false.

(** Writes only on the kinds of [ks]. *)
Definition writes_only (ks : list kind) : ∀ T, kreq T → Prop := λ T r,
  is_write r = true → ∃ k, req_kind r = Some k ∧ k ∈ ks.

(** ** What the process has besides the API server *)

(** The environment of the operator process, and the functions of libraries
    outside the repository's own code: label-selector parsing of
    k8s.io/apimachinery. *)
Class Platform := {
  (** [os.LookupEnv]: [None] when the variable is not set *)
  LookupEnv : string → option string;
  (** the content of version.txt *)
  version_file : result string;
  (** the content of /var/run/secrets/kubernetes.io/serviceaccount/namespace *)
  namespace_file : result string;
  (** [labels.Parse] *)
  labels_Parse : string → result Selector;
  (** [metav1.LabelSelectorAsSelector] on match labels *)
  LabelSelectorAsSelector : gmap string string → result Selector }.

(** [os.Getenv] *)
Definition getenv `{PL : Platform} (v : string) : string := default "" (LookupEnv v).

(** A platform that answers with given environment variables; label values are
    not validated. *)
Definition simple_platform (env : gmap string string) (version ns : string) : Platform := {|
  LookupEnv v := env !! v;
  version_file := Ok version;
  namespace_file := Ok ns;
  labels_Parse s := Ok [];
  LabelSelectorAsSelector m :=
    Ok ((λ '(k, v), {| sel_Key := k; sel_Values := [v] |}) <$> map_to_list m) |}.

(** The first line a [bufio.Scanner] finds: without its end, and empty when it is
    longer than the scanner's buffer *)
Definition max_token : Z := 65536.

Fixpoint until_newline (s : string) : string :=
  match s with
  | EmptyString => ""
  | String c s => if Ascii.eqb c "010" then "" else String c (until_newline s)
  end.

(** A carriage return at the end of a line is dropped with it. *)
Fixpoint drop_cr (s : string) : string :=
  match s with
  | EmptyString => ""
  | String c EmptyString => if Ascii.eqb c "013" then "" else s
  | String c s => String c (drop_cr s)
  end.

Definition first_line (content : string) : string :=
  let line := until_newline content in
  if len line <? max_token then drop_cr line else "".

(** [GetStringFromFile] (version.go), on the content of the file *)
Definition GetStringFromFile (file : result string) : result string :=
  match file with
  | Ok content => Ok (first_line content)
  | Err err => Err err
  end.

(** [VersionStringFunc] (version.go) *)
Definition VersionStringFunc `{PL : Platform} : result string := GetStringFromFile version_file.

Example first_line_ex : first_line ("v1.2.3" +:+ String "013" (String "010" "rest")) = "v1.2.3".
Proof. reflexivity. Qed.

(** [getNamespace] (util.go): the namespace the pod runs in *)
Definition getNamespace `{PL : Platform} : string :=
  match namespace_file with
  | Ok data =>
      let ns := TrimSpace data in
      if 0 <? len ns then ns else "hostpath-provisioner"
  | Err _ => "hostpath-provisioner"
  end.

(** ** The API server interface *)

Definition not_found (k : kind) (key : ObjectKey) : goerror :=
  GoError KNotFound (go_type k +:+ " " +:+ key.2 +:+ " not found").
Definition already_exists (k : kind) (key : ObjectKey) : goerror :=
  GoError KAlreadyExists (go_type k +:+ " " +:+ key.2 +:+ " already exists").

(** [lookup s k key] is the object a server in state [s] stores under [key].
    The laws are the documented behaviour of a reachable API server that
    neither defaults nor mutates objects on admission, with no other writer. *)
Class Server {S} (h : handler kreq S) (lookup : S → ∀ k, ObjectKey → option (obj k)) : Prop := {
  server_get s k key :
    (h _ (Get k key) s).1 =
      match lookup s k key with Some o => Ok o | None => Err (not_found k key) end ∧
    lookup (h _ (Get k key) s).2 = lookup s;
  server_create s k (o : obj k) :
    lookup s k (ObjectKeyFromObject o) = None →
    (h _ (Create k o) s).1 = Ok o ∧
    lookup (h _ (Create k o) s).2 k (ObjectKeyFromObject o) = Some o;
  server_create_other s k (o : obj k) k' key' :
    (k', key') ≠ (k, ObjectKeyFromObject o) →
    lookup (h _ (Create k o) s).2 k' key' = lookup s k' key';
  server_update s k (o : obj k) :
    is_Some (lookup s k (ObjectKeyFromObject o)) → DeletionTimestamp (o_meta o) = None →
    (h _ (Update k o) s).1 = Ok o ∧
    lookup (h _ (Update k o) s).2 k (ObjectKeyFromObject o) = Some o;
  server_update_other s k (o : obj k) k' key' :
    (k', key') ≠ (k, ObjectKeyFromObject o) →
    lookup (h _ (Update k o) s).2 k' key' = lookup s k' key';
  server_delete s k key p :
    (∀ o, lookup s k key = Some o → Finalizers (o_meta o) = []) →
    lookup (h _ (Delete k key p) s).2 k key = None;
  server_delete_other s k key p k' key' :
    (k', key') ≠ (k, key) → lookup (h _ (Delete k key p) s).2 k' key' = lookup s k' key';
  server_event s key e : lookup (h _ (Event key e) s).2 = lookup s;
  server_now s : lookup (h _ Now s).2 = lookup s;
  server_gauge s v : lookup (h _ (SetReadyGaugeValue v) s).2 = lookup s }.

(** ** An in-memory API server *)

Record cluster := {
  store : ∀ k, gmap ObjectKey (obj k);
  clock : Z;
  gauge : option Z;
  recorded : list EventRecord }.

Definition empty_cluster : cluster :=
  {| store := λ _, ∅; clock := 0; gauge := None; recorded := [] |}.

(** Replace the objects of one kind. *)
Definition set_kind {k} (m : gmap ObjectKey (obj k)) (st : ∀ k, gmap ObjectKey (obj k)) :
    ∀ k, gmap ObjectKey (obj k) :=
  λ k', match decide (k = k') with
        | left e => eq_rect k (λ k, gmap ObjectKey (obj k)) m k' e
        | right _ => st k'
        end.

Definition with_store (f : (∀ k, gmap ObjectKey (obj k)) → ∀ k, gmap ObjectKey (obj k))
    (c : cluster) : cluster :=
  {| store := f (store c); clock := clock c; gauge := gauge c; recorded := recorded c |}.

Definition put {k} (o : obj k) (c : cluster) : cluster :=
  with_store (λ st, set_kind (<[ObjectKeyFromObject o := o]> (st k)) st) c.
Definition remove (k : kind) (key : ObjectKey) (c : cluster) : cluster :=
  with_store (λ st, set_kind (delete key (st k)) st) c.

Definition mark_deleted (t : Z) (m : ObjectMeta) : ObjectMeta :=
  {| Name := Name m; Namespace := Namespace m; UID := UID m;
     ResourceVersion := ResourceVersion m; Labels := Labels m; Annotations := Annotations m;
     OwnerReferences := OwnerReferences m; Finalizers := Finalizers m;
     DeletionTimestamp := match DeletionTimestamp m with None => Some t | t' => t' end;
     CreationTimestamp := CreationTimestamp m; meta_rest := meta_rest m |}.

Definition listed {k} (opts : ListOptions) (o : obj k) : bool :=
  selector_matches (lo_Selector opts) (Labels (o_meta o)) &&
  (bool_decide (lo_Namespace opts = "") || bool_decide (lo_Namespace opts = o_namespace o)).

(** An object with finalizers is only marked for deletion, and goes away with
    the update that removes the last one. *)
Definition cluster_handler : handler kreq cluster := λ T r,
  match r in kreq T return cluster → T * cluster with
  | Get k key => λ c,
      (match store c k !! key with Some o => Ok o | None => Err (not_found k key) end, c)
  | ListObjs k opts => λ c,
      (Ok (filter (λ o, listed opts o = true) ((map_to_list (store c k)).*2)), c)
  | Create k o => λ c,
      match store c k !! ObjectKeyFromObject o with
      | Some _ => (Err (already_exists k (ObjectKeyFromObject o)), c)
      | None => (Ok o, put o c)
      end
  | Update k o => λ c,
      match store c k !! ObjectKeyFromObject o with
      | None => (Err (not_found k (ObjectKeyFromObject o)), c)
      | Some _ =>
          if bool_decide (DeletionTimestamp (o_meta o) ≠ None ∧ Finalizers (o_meta o) = [])
          then (Ok o, remove k (ObjectKeyFromObject o) c)
          else (Ok o, put o c)
      end
  | Delete k key _ => λ c,
      match store c k !! key with
      | None => (Some (not_found k key), c)
      | Some o =>
          if bool_decide (Finalizers (o_meta o) = []) then (None, remove k key c)
          else (None, with_store (λ st,
                        set_kind (<[key := with_meta (mark_deleted (clock c)) o]> (st k)) st) c)
      end
  | Event _ e => λ c,
      (tt, {| store := store c; clock := clock c; gauge := gauge c; recorded := recorded c ++ [e] |})
  | SetReadyGaugeValue v => λ c,
      (tt, {| store := store c; clock := clock c; gauge := Some v; recorded := recorded c |})
  | Now => λ c,
      (clock c, {| store := store c; clock := clock c + 1; gauge := gauge c; recorded := recorded c |})
  | RangeOver ks => λ c, (ks, c)
  end.

Definition cluster_lookup (c : cluster) (k : kind) (key : ObjectKey) : option (obj k) :=
  store c k !! key.

(** ** Lemmas *)

Lemma set_kind_same {k} (m : gmap ObjectKey (obj k)) st : set_kind m st k = m.
Proof.
  unfold set_kind. destruct (decide (k = k)) as [e|]; [|done].
  by rewrite (proof_irrel e eq_refl).
Qed.

Lemma set_kind_other {k} (m : gmap ObjectKey (obj k)) st k' : k' ≠ k → set_kind m st k' = st k'.
Proof. intros. unfold set_kind. by destruct (decide (k = k')). Qed.

Lemma lookup_set_kind_other {k} (m : gmap ObjectKey (obj k)) st k' key key' :
  (k', key') ≠ (k, key) → (∀ i, i ≠ key → m !! i = st k !! i) →
  set_kind m st k' !! key' = st k' !! key'.
Proof.
  intros Hne Hm. destruct (decide (k' = k)) as [->|]; [|by rewrite set_kind_other].
  rewrite set_kind_same. apply Hm. congruence.
Qed.

Lemma go_answers_cluster T (r : kreq T) c : go_answers T r (cluster_handler T r c).1.
Proof. destruct r; simpl; done. Qed.

(** The in-memory server has the behaviour the interface promises. *)
#[export] Instance cluster_server : Server cluster_handler cluster_lookup.
Proof.
  unfold cluster_lookup; split; simpl.
  - done.
  - intros s k o Ho. rewrite Ho; simpl. by rewrite set_kind_same, lookup_insert_eq.
  - intros s k o k' key' Hne. destruct (store s k !! _); [done|]; simpl.
    eapply lookup_set_kind_other; [done|]. intros; by rewrite lookup_insert_ne.
  - intros s k o [o' Ho] Hd. rewrite Ho, bool_decide_eq_false_2 by naive_solver; simpl.
    by rewrite set_kind_same, lookup_insert_eq.
  - intros s k o k' key' Hne. destruct (store s k !! _); [|done].
    case_bool_decide; simpl; (eapply lookup_set_kind_other; [done|]); intros;
      [by rewrite lookup_delete_ne|by rewrite lookup_insert_ne].
  - intros s k key _ Hf. destruct (store s k !! key) as [o|] eqn:Ho; [|done].
    rewrite bool_decide_eq_true_2 by auto; simpl. by rewrite set_kind_same, lookup_delete_eq.
  - intros s k key _ k' key' Hne. destruct (store s k !! key); [|done].
    case_bool_decide; simpl; (eapply lookup_set_kind_other; [done|]); intros;
      [by rewrite lookup_delete_ne|by rewrite lookup_insert_ne].
  - done.
  - done.
  - done.
Qed.

(** ** Footprints of requests *)

(** [ks] has all the kinds of [ks']: decided by computation. *)
Definition kinds_in (ks' ks : list kind) : bool := forallb (λ k, bool_decide (k ∈ ks)) ks'.

Lemma kinds_in_subseteq ks' ks : kinds_in ks' ks = true → ks' ⊆ ks.
Proof.
  unfold kinds_in. rewrite List.forallb_forall. intros H k Hk%list_elem_of_In%H.
  by apply bool_decide_eq_true in Hk.
Qed.

Lemma no_writes_writes_only ks T (r : kreq T) : no_writes T r → writes_only ks T r.
Proof. unfold no_writes, writes_only. congruence. Qed.

Lemma writes_only_mono ks ks' T (r : kreq T) : ks ⊆ ks' → writes_only ks T r → writes_only ks' T r.
Proof. unfold writes_only. set_solver. Qed.

Lemma footprint_writes_mono {A} ks' ks (p : kprog A) :
  footprint (writes_only ks') p → kinds_in ks' ks = true → footprint (writes_only ks) p.
Proof. intros Hp Hk%kinds_in_subseteq. eapply footprint_mono; [exact Hp|]. intros. by eapply writes_only_mono. Qed.

(** Footprints of parts are found in the hint database [fp], whose lemmas have
    the form [footprint (writes_only ks) p]. *)
Create HintDb fp discriminated.

