(* ===== verification/Json.v ===== *)
(** * JSON documents and the three-way merge

    [mergeObject] (util.go) works on JSON documents: it computes the three-way
    merge patch between the last applied, the desired and the current document
    and applies it to the current one.  This file translates the vendored
    functions it calls: k8s.io/apimachinery/pkg/util/jsonmergepatch/patch.go,
    k8s.io/apimachinery/pkg/util/mergepatch/util.go and
    github.com/evanphx/json-patch/merge.go, all under src/vendor (patch.go
    itself imports gopkg.in/evanphx/json-patch.v4, whose merge.go has the same
    functions).  Documents are values, not bytes; numbers are integers, which is all the objects the
    operator merges have. *)
From S2P Require Import Prelude.

Inductive json :=
| JNull
| JBool (b : bool)
| JNum (n : Z)
| JStr (s : string)
| JArr (l : list json)
| JObj (m : gmap string json).

Abbreviation jdoc := (gmap string json).

(** ** Generic folds over a document *)

(** The document of the keys on which [f] is defined. *)
Definition filter_doc (f : string → json → option json) (m : jdoc) : jdoc :=
  map_fold (λ key v acc, match f key v with Some w => <[key := w]> acc | None => acc end) ∅ m.

(** Every entry satisfies [p]. *)
Definition all_doc (p : string → json → bool) (m : jdoc) : bool :=
  map_fold (λ key v acc, p key v && acc) true m.

(** Rewrite [doc] at the keys of [m]: a new value, or none (deleted). *)
Definition update_doc (f : string → json → option json) (doc m : jdoc) : jdoc :=
  map_fold (λ key v acc, match f key v with
                         | Some w => <[key := w]> acc
                         | None => delete key acc
                         end) doc m.

(** ** evanphx/json-patch *)

(** [pruneNulls]: drop the null entries of objects, at any depth. *)
Fixpoint pruneNulls (v : json) : json :=
  match v with
  | JObj m => JObj (filter_doc (λ _ v, match v with JNull => None | _ => Some (pruneNulls v) end) m)
  | JArr l => JArr (map (λ v, match v with JNull => JNull | _ => pruneNulls v end) l)
  | _ => v
  end.

Definition pruneDocNulls (m : jdoc) : jdoc :=
  filter_doc (λ _ v, match v with JNull => None | _ => Some (pruneNulls v) end) m.

(** What [mergeDocs] does to one key whose patch is [v] and whose current value
    is [cur] ([merge] is the case of a present value); [None] deletes the key.
    [mergeMerge] is false here. *)
Fixpoint merge_entry (v : json) (cur : option json) : option json :=
  match v with
  | JNull => None
  | JObj p =>
      match cur with
      | Some (JObj d) =>
          Some (JObj (update_doc (λ key v, merge_entry v (d !! key)) d p))
      | _ => Some (pruneNulls v)
      end
  | _ =>
      match cur with
      | Some (JObj _) => Some v
      | _ => Some (pruneNulls v)
      end
  end.

(** [mergeDocs(doc, patch, false)] *)
Definition mergeDocs (doc patch : jdoc) : jdoc :=
  update_doc (λ key v, merge_entry v (doc !! key)) doc patch.

(** [MergePatch]; [None] is [ErrBadJSONDoc] or [ErrBadJSONPatch]. *)
Definition MergePatch (doc patch : json) : option json :=
  match doc, patch with
  | JNull, _ | _, JNull => None
  | JObj d, JObj p => Some (JObj (mergeDocs d p))
  | _, JObj p => Some (JObj (pruneDocNulls p))
  | _, JArr l => Some (pruneNulls (JArr l))
  | _, _ => None
  end.

(** [matchesValue] *)
Fixpoint matchesValue (av bv : json) {struct bv} : bool :=
  match av, bv with
  | JNull, JNull => true
  | JBool a, JBool b => Bool.eqb a b
  | JNum a, JNum b => Z.eqb a b
  | JStr a, JStr b => bool_decide (a = b)
  | JArr la, JArr lb =>
      (fix go la lb {struct lb} :=
         match la, lb with
         | [], [] => true
         | a :: la, b :: lb => matchesValue a b && go la lb
         | _, _ => false
         end) la lb
  | JObj ma, JObj mb =>
      bool_decide (size ma = size mb) &&
      all_doc (λ key bv, match ma !! key with Some av => matchesValue av bv | None => false end) mb
  | _, _ => false
  end.

(** What [getDiff] records for a key of [b] whose value in [a] is [av]. *)
Fixpoint diff_entry (bv : json) (av : option json) : option json :=
  match av with
  | None => Some bv
  | Some av =>
      match av, bv with
      | JObj at', JObj bt =>
          let dst := filter_doc (λ key bv, diff_entry bv (at' !! key)) bt
                     ∪ ((λ _, JNull) <$> filter (λ kv, bt !! kv.1 = None) at') in
          if bool_decide (dst = ∅) then None else Some (JObj dst)
      | JNull, JNull => None
      | JBool _, JBool _ | JNum _, JNum _ | JStr _, JStr _ | JArr _, JArr _ =>
          if matchesValue av bv then None else Some bv
      | _, _ => Some bv
      end
  end.

(** [getDiff(a, b)] *)
Definition getDiff (a b : jdoc) : jdoc :=
  filter_doc (λ key bv, diff_entry bv (a !! key)) b
  ∪ ((λ _, JNull) <$> filter (λ kv, b !! kv.1 = None) a).

(** The object a document decodes to ([json.Unmarshal] into a map: null is the
    nil map). *)
Definition as_doc (v : json) : option jdoc :=
  match v with JObj m => Some m | JNull => Some ∅ | _ => None end.

(** [CreateMergePatch] for two documents of which not both are arrays *)
Definition CreateMergePatch (original modified : json) : option json :=
  a ← as_doc original; b ← as_doc modified; Some (JObj (getDiff a b)).

(** ** jsonmergepatch *)

(** [keepOrDeleteNullInObj] on one value *)
Fixpoint keep_or_delete_null (keepNull : bool) (val : json) : option json :=
  match val with
  | JNull => if keepNull then Some JNull else None
  | JObj m =>
      if bool_decide (m = ∅) then (if keepNull then None else Some val)
      else
        let sub := filter_doc (λ _ v, keep_or_delete_null keepNull v) m in
        if bool_decide (sub = ∅) then None else Some (JObj sub)
  | _ => if keepNull then None else Some val
  end.

Definition keepOrDeleteNullInObj (keepNull : bool) (m : jdoc) : jdoc :=
  filter_doc (λ _ v, keep_or_delete_null keepNull v) m.

(** [HasConflicts] *)
Fixpoint HasConflicts (left right : json) {struct left} : bool :=
  match left, right with
  | JObj l, JObj r =>
      negb (all_doc (λ key lv, match r !! key with
                               | Some rv => negb (HasConflicts lv rv)
                               | None => true
                               end) l)
  | JObj _, _ => true
  | JArr l, JArr r =>
      (fix go l r {struct l} :=
         match l, r with
         | [], [] => false
         | a :: l, b :: r => HasConflicts a b || go l r
         | _, _ => true
         end) l r
  | JArr _, _ => true
  | _, _ => negb (matchesValue left right)
  end.

(** [RequireMetadataKeyUnchanged(key)] on a patch *)
Definition RequireMetadataKeyUnchanged (key : string) (patch : jdoc) : bool :=
  match patch !! "metadata" with
  | Some (JObj m) => match m !! key with Some _ => false | None => true end
  | _ => true
  end.

(** [CreateThreeWayJSONMergePatch] with the precondition that the name is
    unchanged; [None] is any of its errors. *)
Definition CreateThreeWayJSONMergePatch (original modified current : json) : option json :=
  addAndChange ← CreateMergePatch current modified;
  addAndChange ← as_doc addAndChange;
  let addAndChange := keepOrDeleteNullInObj false addAndChange in
  deletePatch ← CreateMergePatch original modified;
  deletePatch ← as_doc deletePatch;
  let deletePatch := keepOrDeleteNullInObj true deletePatch in
  if HasConflicts (JObj addAndChange) (JObj deletePatch) then None
  else
    patch ← MergePatch (JObj deletePatch) (JObj addAndChange);
    patchMap ← as_doc patch;
    if RequireMetadataKeyUnchanged "name" patchMap then Some patch else None.

(** The three-way merge of [mergeObject]: the patch applied to the current
    document. *)
Definition three_way_merge (original modified current : json) : option json :=
  patch ← CreateThreeWayJSONMergePatch original modified current;
  MergePatch current patch.

(** ** Lemmas: folds *)

Lemma lookup_filter_doc f m key : filter_doc f m !! key = m !! key ≫= f key.
Proof.
  unfold filter_doc.
  apply (map_fold_weak_ind (λ (acc m : jdoc), acc !! key = m !! key ≫= f key));
    [by rewrite !lookup_empty|].
  intros i x m' acc Hi IH. destruct (decide (i = key)) as [->|].
  - rewrite lookup_insert_eq, Hi in *; simpl in *.
    destruct (f key x); [by rewrite lookup_insert_eq|done].
  - rewrite (lookup_insert_ne m') by done.
    destruct (f i x); [by rewrite lookup_insert_ne|done].
Qed.

Lemma lookup_update_doc f doc m key :
  update_doc f doc m !! key =
  match m !! key with Some v => f key v | None => doc !! key end.
Proof.
  unfold update_doc.
  apply (map_fold_weak_ind (λ (acc m : jdoc),
    acc !! key = match m !! key with Some v => f key v | None => doc !! key end));
    [by rewrite lookup_empty|].
  intros i x m' acc Hi IH. destruct (decide (i = key)) as [->|].
  - rewrite lookup_insert_eq.
    destruct (f key x); [by rewrite lookup_insert_eq|by rewrite lookup_delete_eq].
  - rewrite (lookup_insert_ne m') by done.
    destruct (f i x); [by rewrite lookup_insert_ne|by rewrite lookup_delete_ne].
Qed.

Lemma all_doc_spec p m : all_doc p m = true ↔ ∀ key v, m !! key = Some v → p key v = true.
Proof.
  unfold all_doc.
  apply (map_fold_weak_ind (λ (acc : bool) (m : jdoc),
    acc = true ↔ ∀ key v, m !! key = Some v → p key v = true)).
  - split; [|done]. intros _ ??; by rewrite lookup_empty.
  - intros i x m' acc Hi IH. rewrite andb_true_iff, IH. split.
    + intros [? Hm] key v. rewrite lookup_insert. case_decide; naive_solver.
    + intros Hm. split; [apply Hm; by rewrite lookup_insert_eq|].
      intros key v Hk. apply Hm. rewrite lookup_insert_ne; [done|]. intros ->; congruence.
Qed.

Lemma lookup_getDiff a b key :
  getDiff a b !! key =
  match b !! key with
  | Some bv => diff_entry bv (a !! key)
  | None => (λ _, JNull) <$> (a !! key)
  end.
Proof.
  unfold getDiff. rewrite lookup_union, lookup_filter_doc, lookup_fmap, map_lookup_filter.
  destruct (b !! key) as [bv|] eqn:Hb; simpl.
  - destruct (a !! key) as [av|] eqn:Ha; simpl.
    + rewrite option_guard_False by (simpl; congruence). simpl. by rewrite (right_id_L None _).
    + by rewrite (right_id_L None _).
  - destruct (a !! key) as [av|] eqn:Ha; simpl; [|done].
    by rewrite option_guard_True by done.
Qed.

(** ** Induction on documents *)

Fixpoint json_size (v : json) : nat :=
  match v with
  | JArr l => S (list_sum (map json_size l))
  | JObj m => S (map_fold (λ _ v n, json_size v + n)%nat 0%nat m)
  | _ => 1
  end.

Lemma json_size_obj m key v : m !! key = Some v → (json_size v < json_size (JObj m))%nat.
Proof.
  simpl. apply (map_fold_weak_ind (λ (n : nat) (m : jdoc),
    m !! key = Some v → (json_size v < S n)%nat)); [by rewrite lookup_empty|].
  intros i x m' n Hi IH. rewrite lookup_insert. case_decide; intros; simplify_eq; [lia|].
  specialize (IH H0). lia.
Qed.

Lemma json_size_arr l v : v ∈ l → (json_size v < json_size (JArr l))%nat.
Proof.
  simpl. induction l as [|x l IH]; [by intros ?%elem_of_nil|].
  intros [->|?]%elem_of_cons; simpl; [lia|]. specialize (IH H). lia.
Qed.

Lemma json_strong_ind (P : json → Prop) :
  P JNull → (∀ b, P (JBool b)) → (∀ n, P (JNum n)) → (∀ s, P (JStr s)) →
  (∀ l, (∀ v, v ∈ l → P v) → P (JArr l)) →
  (∀ m, (∀ key v, m !! key = Some v → P v) → P (JObj m)) → ∀ v, P v.
Proof.
  intros ???? Harr Hobj v.
  induction v as [v IH] using (induction_ltof1 _ json_size). unfold ltof in IH.
  destruct v; auto.
  - apply Harr; intros; apply IH. by apply json_size_arr.
  - apply Hobj; intros; apply IH. by eapply json_size_obj.
Qed.

(** ** Lemmas: comparison and difference *)

Lemma matchesValue_refl v : matchesValue v v = true.
Proof.
  induction v as [|b|n|s|l IH|m IH] using json_strong_ind; simpl.
  - done.
  - by destruct b.
  - apply Z.eqb_refl.
  - by apply bool_decide_eq_true.
  - induction l as [|x l IHl]; [done|]. rewrite (IH x) by left; simpl.
    apply IHl; intros; apply IH; by right.
  - rewrite bool_decide_eq_true_2 by done; simpl. apply all_doc_spec.
    intros key v Hv. rewrite Hv. eauto.
Qed.

(** A document has no difference from itself. *)
Lemma diff_entry_refl v : diff_entry v (Some v) = None.
Proof.
  induction v as [|b|n|s|l IH|m IH] using json_strong_ind; try done.
  1-4: cbn [diff_entry]; by rewrite matchesValue_refl.
  cbn [diff_entry]. fold (getDiff m m).
  rewrite bool_decide_eq_true_2; [done|].
  apply map_eq; intros key. rewrite lookup_empty, lookup_getDiff.
  destruct (m !! key) as [v|] eqn:Hv; [eauto|done].
Qed.

Lemma getDiff_refl m : getDiff m m = ∅.
Proof.
  apply map_eq; intros key. rewrite lookup_empty, lookup_getDiff.
  destruct (m !! key) as [v|] eqn:Hv; [apply diff_entry_refl|done].
Qed.

Lemma filter_doc_empty f : filter_doc f ∅ = ∅.
Proof. apply map_eq; intros key. by rewrite lookup_filter_doc, lookup_empty. Qed.

Lemma mergeDocs_empty doc : mergeDocs doc ∅ = doc.
Proof. apply map_eq; intros key. unfold mergeDocs. by rewrite lookup_update_doc, lookup_empty. Qed.

Lemma lookup_mergeDocs doc patch key :
  mergeDocs doc patch !! key =
  match patch !! key with Some v => merge_entry v (doc !! key) | None => doc !! key end.
Proof. apply lookup_update_doc. Qed.

(** The value [merge_entry] gives an object patch over an object. *)
Lemma merge_entry_obj p d : merge_entry (JObj p) (Some (JObj d)) = Some (JObj (mergeDocs d p)).
Proof. done. Qed.
