(* ===== verification/JsonMerge.v ===== *)
(** * What the three-way merge computes

    The vendored pipeline of Json.v (two differences, two null filters, a merge
    of the patches, a merge of the patch into the current document) is shown to
    compute, key by key, a direct three-way merge ([merge3]): the desired value
    wins where there is one, what the operator last applied and no longer wants
    is removed, everything else of the current document is kept.  It never
    reports a conflict. *)
From S2P Require Import Prelude Json.

(** No null anywhere in the document. *)
Fixpoint null_free (v : json) : bool :=
  match v with
  | JNull => false
  | JArr l => forallb null_free l
  | JObj m => all_doc (λ _ v, null_free v) m
  | _ => true
  end.

(** The document under a key, as an object (empty when it is not one). *)
Definition sub_doc (v : option json) : jdoc :=
  match v with Some (JObj m) => m | _ => ∅ end.

(** The patches the pipeline computes for one key whose desired value is [mv]. *)
Definition add_entry (mv : json) (cv : option json) : option json :=
  diff_entry mv cv ≫= keep_or_delete_null false.
Definition delete_entry (mv : json) (ov : option json) : option json :=
  diff_entry mv ov ≫= keep_or_delete_null true.

(** Apply an optional patch entry to an optional current value. *)
Definition apply_entry (p : option json) (cur : option json) : option json :=
  match p with Some v => merge_entry v cur | None => cur end.

Definition patch_entry (mv : json) (ov cv : option json) : option json :=
  apply_entry (add_entry mv cv) (delete_entry mv ov).

(** The value the pipeline leaves under a key. *)
Definition merged_entry (mv : json) (ov cv : option json) : option json :=
  apply_entry (patch_entry mv ov cv) cv.

(** ** Basic facts *)

Lemma null_free_lookup m key v : null_free (JObj m) = true → m !! key = Some v → null_free v = true.
Proof. cbn [null_free]. rewrite all_doc_spec. eauto. Qed.

Lemma null_free_pruneNulls v : null_free v = true → pruneNulls v = v.
Proof.
  induction v as [|b|n|s|l IH|m IH] using json_strong_ind; try done; intros Hn.
  - cbn [pruneNulls]; f_equal. cbn [null_free] in Hn.
    induction l as [|x l IHl]; [done|]. simpl in *. apply andb_true_iff in Hn as [Hx Hl].
    rewrite IHl; [|intros; apply IH; [by right|done]|done]. f_equal.
    rewrite <-(IH x) at 2 by (done || by left). by destruct x.
  - cbn [pruneNulls]; f_equal. apply map_eq; intros key. rewrite lookup_filter_doc.
    destruct (m !! key) as [v|] eqn:Hv; [|done]; simpl.
    pose proof (null_free_lookup _ _ _ Hn Hv) as Hnv.
    rewrite <-(IH key v) at 2 by done. by destruct v.
Qed.

Lemma matchesValue_eq a b : matchesValue a b = true → a = b.
Proof.
  revert a; induction b as [|b|n|s|l IH|m IH] using json_strong_ind;
    intros [|b'|n'|s'|l'|m']; cbn [matchesValue]; try done.
  - intros ->%Bool.eqb_prop; done.
  - intros ->%Z.eqb_eq; done.
  - intros ->%bool_decide_eq_true; done.
  - intros H; f_equal. revert l' H; induction l as [|x l IHl]; intros [|x' l'] H; try done.
    apply andb_true_iff in H as [Hx Hl]. f_equal.
    + apply IH; [by left|done].
    + apply IHl; [|done]. intros; apply IH; [by right|done].
  - intros [Hs Hm]%andb_true_iff. apply bool_decide_eq_true in Hs. f_equal.
    rewrite all_doc_spec in Hm. symmetry. apply map_subseteq_size_eq; [|lia].
    apply map_subseteq_spec; intros key v Hv. specialize (Hm key v Hv).
    destruct (m' !! key) as [v'|] eqn:Hv'; [|done]. by rewrite (IH key v Hv v').
Qed.

Lemma diff_entry_None v : diff_entry v None = Some v.
Proof. by destruct v. Qed.

Lemma diff_entry_leaf v cv a :
  (∀ m, v ≠ JObj m) → diff_entry v cv = Some a → a = v.
Proof.
  intros Hleaf. destruct v; try naive_solver; destruct cv as [[]|]; cbn [diff_entry]; intros H;
    try congruence; destruct (matchesValue _ _); congruence.
Qed.

Lemma diff_entry_leaf_None v cv :
  (∀ m, v ≠ JObj m) → diff_entry v cv = None → cv = Some v.
Proof.
  intros Hleaf. destruct v; try naive_solver; destruct cv as [[]|]; cbn [diff_entry]; intros H;
    try congruence; destruct (matchesValue _ _) eqn:Hm; try congruence;
    by apply matchesValue_eq in Hm as ->.
Qed.

Lemma diff_entry_obj bt cv :
  diff_entry (JObj bt) cv =
  match cv with
  | Some (JObj ct) => if bool_decide (getDiff ct bt = ∅) then None else Some (JObj (getDiff ct bt))
  | _ => Some (JObj bt)
  end.
Proof. by destruct cv as [[]|]. Qed.

Lemma keep_obj b m :
  keep_or_delete_null b (JObj m) =
  if bool_decide (m = ∅) then (if b then None else Some (JObj m))
  else if bool_decide (keepOrDeleteNullInObj b m = ∅) then None
  else Some (JObj (keepOrDeleteNullInObj b m)).
Proof. done. Qed.

Lemma lookup_keep b m key : keepOrDeleteNullInObj b m !! key = m !! key ≫= keep_or_delete_null b.
Proof. apply lookup_filter_doc. Qed.

(** A null-free document is its own set of additions, and deletes nothing. *)
Lemma keep_false_null_free v : null_free v = true → keep_or_delete_null false v = Some v.
Proof.
  induction v as [|b|n|s|l IH|m IH] using json_strong_ind; try done; intros Hn.
  rewrite keep_obj. case_bool_decide as Hm; [done|].
  assert (keepOrDeleteNullInObj false m = m) as ->.
  { apply map_eq; intros key. rewrite lookup_keep.
    destruct (m !! key) as [v|] eqn:Hv; [|done]; simpl. eauto using null_free_lookup. }
  by rewrite bool_decide_eq_false_2.
Qed.

Lemma keep_true_null_free v : null_free v = true → keep_or_delete_null true v = None.
Proof.
  induction v as [|b|n|s|l IH|m IH] using json_strong_ind; try done; intros Hn.
  rewrite keep_obj. case_bool_decide as Hm; [done|].
  assert (keepOrDeleteNullInObj true m = ∅) as ->.
  { apply map_eq; intros key. rewrite lookup_keep, lookup_empty.
    destruct (m !! key) as [v|] eqn:Hv; [|done]; simpl. eauto using null_free_lookup. }
  by rewrite bool_decide_eq_true_2.
Qed.

Lemma keep_false_null_free_out v w : keep_or_delete_null false v = Some w → null_free v = true → w = v.
Proof. intros H Hn. rewrite keep_false_null_free in H by done. congruence. Qed.

(** ** The patches never conflict *)

Lemma diff_entry_lookup bt a cv key :
  diff_entry (JObj bt) cv = Some a →
  ∃ A, a = JObj A ∧
       (∀ v, bt !! key = Some v → A !! key = None ∨ ∃ cv', diff_entry v cv' = A !! key) ∧
       (bt !! key = None → A !! key = None ∨ A !! key = Some JNull).
Proof.
  rewrite diff_entry_obj. intros Ha.
  assert (a = JObj bt ∨ ∃ ct, a = JObj (getDiff ct bt)) as [->|[ct ->]].
  { destruct cv as [[]|]; simplify_eq; auto. case_bool_decide; simplify_eq; eauto. }
  - eexists; split; [done|]. split; [|auto]. intros v Hv. right. exists None. by rewrite diff_entry_None, Hv.
  - eexists; split; [done|]. rewrite lookup_getDiff. split.
    + intros v Hv. rewrite Hv. eauto.
    + intros ->. destruct (ct !! key); auto.
Qed.

Lemma keep_obj_inv b A w :
  keep_or_delete_null b (JObj A) = Some w →
  ∃ W, w = JObj W ∧ ∀ key, W !! key = A !! key ≫= keep_or_delete_null b.
Proof.
  rewrite keep_obj. case_bool_decide as HA.
  - subst. destruct b; intros; simplify_eq. eexists; split; [done|]. intros; by rewrite lookup_empty.
  - case_bool_decide; intros; simplify_eq. eexists; split; [done|]. intros; apply lookup_keep.
Qed.

Lemma patches_agree mv : ∀ cv ov a d av dv,
  diff_entry mv cv = Some a → diff_entry mv ov = Some d →
  keep_or_delete_null false a = Some av → keep_or_delete_null true d = Some dv →
  HasConflicts av dv = false.
Proof.
  induction mv as [|b|n|s|l IH|bt IH] using json_strong_ind; intros cv ov a d av dv Ha Hd Hav Hdv.
  1: by apply diff_entry_leaf in Ha as ->.
  1-4: by apply diff_entry_leaf in Hd as ->.
  assert (∃ A D, a = JObj A ∧ d = JObj D) as (A & D & -> & ->).
  { destruct (diff_entry_lookup _ _ _ "" Ha) as (A & -> & _).
    destruct (diff_entry_lookup _ _ _ "" Hd) as (D & -> & _). eauto. }
  apply keep_obj_inv in Hav as (X & -> & HX). apply keep_obj_inv in Hdv as (Y & -> & HY).
  cbn [HasConflicts]. apply negb_false_iff, all_doc_spec. intros key lv Hlv.
  destruct (Y !! key) as [rv|] eqn:Hrv; [|done]. apply negb_true_iff.
  rewrite HX in Hlv; rewrite HY in Hrv.
  destruct (diff_entry_lookup _ _ _ key Ha) as (? & ? & HA & HA'); simplify_eq.
  destruct (diff_entry_lookup _ _ _ key Hd) as (? & ? & HD & HD'); simplify_eq.
  destruct (bt !! key) as [bv|] eqn:Hbv.
  - destruct (HA bv) as [HAn|[cv' HAc]]; [done|by rewrite HAn in Hlv|].
    destruct (HD bv) as [HDn|[ov' HDo]]; [done|by rewrite HDn in Hrv|].
    rewrite <-HAc in Hlv; rewrite <-HDo in Hrv.
    destruct (diff_entry bv cv') as [a'|] eqn:?; [|done].
    destruct (diff_entry bv ov') as [d'|] eqn:?; [|done]. simpl in *. eauto.
  - by destruct HA' as [HAn|HAn]; rewrite ?HAn in Hlv.
Qed.

Lemma no_conflicts o m c :
  HasConflicts (JObj (keepOrDeleteNullInObj false (getDiff c m)))
               (JObj (keepOrDeleteNullInObj true (getDiff o m))) = false.
Proof.
  cbn [HasConflicts]. apply negb_false_iff, all_doc_spec. intros key lv.
  rewrite !lookup_keep, !lookup_getDiff.
  destruct (m !! key) as [mv|] eqn:Hm; [|by destruct (c !! key)].
  destruct (diff_entry mv (c !! key)) as [a|] eqn:Ha; [|done].
  destruct (diff_entry mv (o !! key)) as [d|] eqn:Hd; [|done]. simpl. intros Hlv.
  destruct (keep_or_delete_null true d) as [rv|] eqn:Hrv; [|done].
  by rewrite (patches_agree mv (c !! key) (o !! key) a d).
Qed.

(** ** The pipeline, key by key *)

Lemma three_way_merge_docs o m c r :
  three_way_merge (JObj o) (JObj m) (JObj c) = Some r →
  ∃ R, r = JObj R ∧ ∀ key,
    R !! key =
    match m !! key with
    | Some mv => merged_entry mv (o !! key) (c !! key)
    | None => match o !! key with Some _ => None | None => c !! key end
    end.
Proof.
  unfold three_way_merge, CreateThreeWayJSONMergePatch, CreateMergePatch; cbn [as_doc mbind option_bind].
  rewrite no_conflicts; cbn [MergePatch as_doc mbind option_bind].
  destruct (RequireMetadataKeyUnchanged "name" _); [|done].
  cbn [MergePatch mbind option_bind]. intros; simplify_eq.
  eexists; split; [done|]. intros key.
  rewrite !lookup_mergeDocs, !lookup_keep, !lookup_getDiff.
  unfold merged_entry, patch_entry, apply_entry, add_entry, delete_entry.
  destruct (m !! key) as [mv|]; [done|].
  destruct (c !! key), (o !! key); done.
Qed.

(** A leaf of the desired document is in the result as it is. *)
Lemma merged_entry_leaf mv ov cv :
  null_free mv = true → (∀ m, mv ≠ JObj m) → merged_entry mv ov cv = Some mv.
Proof.
  intros Hn Hleaf. unfold merged_entry, patch_entry.
  assert (delete_entry mv ov = None) as ->.
  { unfold delete_entry. destruct (diff_entry mv ov) as [d|] eqn:Hd; [|done]; simpl.
    apply diff_entry_leaf in Hd as ->; [|done]. destruct mv as [| | | | |m0]; try done. by destruct (Hleaf m0). }
  assert (add_entry mv cv = Some mv ∨ add_entry mv cv = None ∧ cv = Some mv) as [->|[-> ->]].
  { unfold add_entry. destruct (diff_entry mv cv) as [a|] eqn:Ha; simpl.
    - left. apply diff_entry_leaf in Ha as ->; [|done]. by apply keep_false_null_free.
    - right; split; [done|]. by apply diff_entry_leaf_None. }
  - assert (Hme : ∀ cur, merge_entry mv cur = Some mv).
    { intros cur. pose proof (null_free_pruneNulls mv Hn).
      destruct mv as [| | | | |m0]; try done; [..|by destruct (Hleaf m0)];
        destruct cur as [[]|]; cbn [merge_entry]; congruence. }
    unfold apply_entry. by rewrite !Hme.
  - done.
Qed.

(** Patch entries of an object value, seen as documents. *)
Lemma delete_entry_sub bt ov key :
  null_free (JObj bt) = true →
  (delete_entry (JObj bt) ov = None ∨ ∃ d, delete_entry (JObj bt) ov = Some (JObj d)) ∧
  sub_doc (delete_entry (JObj bt) ov) !! key =
  match bt !! key with
  | Some v => delete_entry v (sub_doc ov !! key)
  | None => (λ _, JNull) <$> (sub_doc ov !! key)
  end.
Proof.
  intros Hn. unfold delete_entry. rewrite diff_entry_obj.
  assert (Hnone : keep_or_delete_null true (JObj bt) = None) by by apply keep_true_null_free.
  assert (Hdel : ∀ v, bt !! key = Some v → keep_or_delete_null true v = None).
  { intros; eapply keep_true_null_free, null_free_lookup; eauto. }
  assert (Hrest : sub_doc ov = ∅ → (∅ : jdoc) !! key =
    match bt !! key with
    | Some v => diff_entry v (sub_doc ov !! key) ≫= keep_or_delete_null true
    | None => (λ _, JNull) <$> (sub_doc ov !! key)
    end).
  { intros ->. rewrite lookup_empty. destruct (bt !! key) as [v|] eqn:Hv; [|done].
    rewrite diff_entry_None; cbn [mbind option_bind]. by rewrite (Hdel v). }
  destruct ov as [[| | | | |ot]|]; cbn [sub_doc mbind option_bind] in *; rewrite ?Hnone; auto.
  assert (Hlk : keepOrDeleteNullInObj true (getDiff ot bt) !! key =
    match bt !! key with
    | Some v => diff_entry v (ot !! key) ≫= keep_or_delete_null true
    | None => (λ _, JNull) <$> (ot !! key)
    end).
  { rewrite lookup_keep, lookup_getDiff. destruct (bt !! key), (ot !! key); done. }
  case_bool_decide as He; cbn [mbind option_bind sub_doc].
  - rewrite He in Hlk. unfold keepOrDeleteNullInObj in Hlk. rewrite filter_doc_empty in Hlk. auto.
  - rewrite keep_obj, bool_decide_eq_false_2 by done.
    case_bool_decide as Hk; cbn [sub_doc]; [rewrite Hk in Hlk; auto|eauto].
Qed.

(** A patch entry that is absent or an object. *)
Definition is_doc (p : option json) : Prop := p = None ∨ ∃ a, p = Some (JObj a).

Lemma merge_entry_None v :
  merge_entry v None = match v with JNull => None | _ => Some (pruneNulls v) end.
Proof. by destruct v. Qed.

Lemma merge_entry_JObj p cur : ∃ R, merge_entry (JObj p) cur = Some (JObj R) ∧
  ∀ key, R !! key = apply_entry (p !! key) (sub_doc cur !! key).
Proof.
  assert (∃ R, Some (pruneNulls (JObj p)) = Some (JObj R) ∧
    ∀ key, R !! key = apply_entry (p !! key) ((∅ : jdoc) !! key)).
  { eexists; split; [done|]. intros key. rewrite lookup_filter_doc, lookup_empty.
    destruct (p !! key) as [v|]; [|done]. cbn [mbind option_bind apply_entry].
    by rewrite merge_entry_None. }
  destruct cur as [[| | | | |d]|]; try done.
  exists (mergeDocs d p); split; [done|]. intros key. apply lookup_mergeDocs.
Qed.

Lemma apply_sub_doc p cur key :
  is_doc p → sub_doc (apply_entry p cur) !! key = apply_entry (sub_doc p !! key) (sub_doc cur !! key).
Proof.
  intros [->|[a ->]]; cbn [apply_entry sub_doc]; [by rewrite lookup_empty|].
  destruct (merge_entry_JObj a cur) as (R & -> & HR). apply HR.
Qed.

Lemma apply_is_doc p cur : is_doc p → is_doc cur → is_doc (apply_entry p cur).
Proof.
  intros [->|[a ->]] Hc; [done|]. right.
  destruct (merge_entry_JObj a cur) as (R & HR & _). eauto.
Qed.

Lemma add_entry_None v : null_free v = true → add_entry v None = Some v.
Proof. intros. unfold add_entry. rewrite diff_entry_None. by apply keep_false_null_free. Qed.

Lemma add_entry_sub bt cv key :
  null_free (JObj bt) = true →
  is_doc (add_entry (JObj bt) cv) ∧
  sub_doc (add_entry (JObj bt) cv) !! key =
  match bt !! key with Some v => add_entry v (sub_doc cv !! key) | None => None end.
Proof.
  intros Hn. assert (Hrest : sub_doc cv = ∅ → bt !! key =
    match bt !! key with Some v => add_entry v (sub_doc cv !! key) | None => None end).
  { intros ->. rewrite lookup_empty. destruct (bt !! key) as [v|] eqn:Hv; [|done].
    rewrite add_entry_None; [done|]. by eapply null_free_lookup. }
  unfold add_entry at 1 2. rewrite diff_entry_obj.
  destruct cv as [[| | | | |ct]|]; cbn [sub_doc mbind option_bind] in *;
    rewrite ?(keep_false_null_free (JObj bt)) by done;
    try (split; [right; eauto|by apply Hrest]).
  assert (Hlk : keepOrDeleteNullInObj false (getDiff ct bt) !! key =
    match bt !! key with Some v => add_entry v (ct !! key) | None => None end).
  { rewrite lookup_keep, lookup_getDiff. destruct (bt !! key), (ct !! key); done. }
  case_bool_decide as He; cbn [mbind option_bind sub_doc].
  - rewrite He in Hlk. unfold keepOrDeleteNullInObj in Hlk. rewrite filter_doc_empty in Hlk.
    split; [by left|done].
  - rewrite keep_obj, bool_decide_eq_false_2 by done.
    case_bool_decide as Hk; cbn [sub_doc];
      (split; [by (left + right; eauto)|]); [rewrite Hk in Hlk|]; done.
Qed.

Lemma add_entry_object bt cv :
  add_entry (JObj bt) cv = None → null_free (JObj bt) = true → ∃ ct, cv = Some (JObj ct).
Proof.
  unfold add_entry. rewrite diff_entry_obj.
  destruct cv as [[]|]; cbn [mbind option_bind]; eauto;
    intros H Hn; by rewrite keep_false_null_free in H.
Qed.

(** The pipeline recurses into objects. *)
Lemma merged_entry_object bt ov cv :
  null_free (JObj bt) = true →
  ∃ R, merged_entry (JObj bt) ov cv = Some (JObj R) ∧ ∀ key,
    R !! key =
    match bt !! key with
    | Some v => merged_entry v (sub_doc ov !! key) (sub_doc cv !! key)
    | None => match sub_doc ov !! key with Some _ => None | None => sub_doc cv !! key end
    end.
Proof.
  intros Hn. unfold merged_entry, patch_entry.
  assert (HA : is_doc (add_entry (JObj bt) cv)) by apply (add_entry_sub bt cv "" Hn).
  assert (HD : is_doc (delete_entry (JObj bt) ov)) by apply (delete_entry_sub bt ov "" Hn).
  set (p := apply_entry (add_entry (JObj bt) cv) (delete_entry (JObj bt) ov)).
  assert (Hp : is_doc p) by by apply apply_is_doc.
  assert (∃ R, apply_entry p cv = Some (JObj R)) as [R HR].
  { destruct Hp as [Hp|[a ->]].
    - rewrite Hp; cbn [apply_entry]. apply (add_entry_object bt); [|done].
      subst p. destruct HA as [|[a HA]]; [done|]. rewrite HA in Hp; cbn [apply_entry] in Hp.
      destruct (merge_entry_JObj a (delete_entry (JObj bt) ov)) as (? & Heq & _). congruence.
    - cbn [apply_entry]. destruct (merge_entry_JObj a cv) as (R & -> & _). eauto. }
  exists R; split; [done|]. intros key. change R with (sub_doc (Some (JObj R))). rewrite <-HR.
  rewrite (apply_sub_doc p cv key) by done. subst p. rewrite apply_sub_doc by done.
  rewrite (proj2 (add_entry_sub bt cv key Hn)), (proj2 (delete_entry_sub bt ov key Hn)).
  destruct (bt !! key); [done|]. by destruct (sub_doc ov !! key).
Qed.

(** ** The reference merge *)

Fixpoint merge3 (mv : json) (ov cv : option json) : json :=
  match mv with
  | JObj m =>
      JObj (filter_doc (λ key v, Some (merge3 v (sub_doc ov !! key) (sub_doc cv !! key))) m
            ∪ filter (λ kv, m !! kv.1 = None ∧ sub_doc ov !! kv.1 = None) (sub_doc cv))
  | _ => mv
  end.

(** The entry under a key of a merged object. *)
Definition merge3_at (m : jdoc) (ov cv : option json) (key : string) : option json :=
  match m !! key with
  | Some v => Some (merge3 v (sub_doc ov !! key) (sub_doc cv !! key))
  | None => match sub_doc ov !! key with Some _ => None | None => sub_doc cv !! key end
  end.

Lemma merge3_lookup m ov cv key :
  sub_doc (Some (merge3 (JObj m) ov cv)) !! key = merge3_at m ov cv key.
Proof.
  unfold merge3_at. cbn [merge3 sub_doc]. rewrite lookup_union, lookup_filter_doc, map_lookup_filter.
  destruct (m !! key) as [v|] eqn:Hm; simpl; [by rewrite union_Some_l|].
  rewrite (left_id_L _ _). destruct (sub_doc cv !! key) as [c|]; simpl; [|by destruct (sub_doc ov !! key)].
  destruct (sub_doc ov !! key) eqn:Ho; simpl; by rewrite ?option_guard_True, ?option_guard_False by naive_solver.
Qed.

Lemma merged_entry_merge3 mv : ∀ ov cv,
  null_free mv = true → merged_entry mv ov cv = Some (merge3 mv ov cv).
Proof.
  induction mv as [|b|n|s|l IH|m IH] using json_strong_ind; intros ov cv Hn;
    [done|by apply merged_entry_leaf..|].
  destruct (merged_entry_object m ov cv Hn) as (R & -> & HR). f_equal. cbn [merge3]. f_equal.
  apply map_eq; intros key.
  change (R !! key = sub_doc (Some (merge3 (JObj m) ov cv)) !! key).
  rewrite merge3_lookup, HR. unfold merge3_at.
  destruct (m !! key) as [v|] eqn:Hv; [|done]. eapply IH; [done|]. by eapply null_free_lookup.
Qed.

(** Merging a document into itself changes nothing, whatever was applied before. *)
Lemma merge3_same mv : ∀ ov, merge3 mv ov (Some mv) = mv.
Proof.
  induction mv as [|b|n|s|l IH|m IH] using json_strong_ind; intros ov; try done.
  change (merge3 (JObj m) ov (Some (JObj m)) = JObj m). cbn [merge3]. f_equal.
  apply map_eq; intros key.
  change (sub_doc (Some (merge3 (JObj m) ov (Some (JObj m)))) !! key = m !! key).
  rewrite merge3_lookup. unfold merge3_at; cbn [sub_doc].
  destruct (m !! key) as [v|] eqn:Hv; [|by destruct (sub_doc ov !! key)].
  f_equal. by eapply IH.
Qed.

(** ** The whole merge *)

(** [metadata.name] of a document *)
Definition doc_name (d : jdoc) : option json := sub_doc (d !! "metadata") !! "name".

Lemma patch_keeps_name o m c n :
  null_free (JObj m) = true → doc_name m = Some (JStr n) → doc_name c = Some (JStr n) →
  RequireMetadataKeyUnchanged "name"
    (mergeDocs (keepOrDeleteNullInObj true (getDiff o m)) (keepOrDeleteNullInObj false (getDiff c m)))
  = true.
Proof.
  intros Hn Hm Hc. unfold RequireMetadataKeyUnchanged, doc_name in *.
  rewrite lookup_mergeDocs, !lookup_keep, !lookup_getDiff.
  destruct (m !! "metadata") as [[| | | | |mm]|] eqn:Hmm; try done.
  pose proof (null_free_lookup _ _ _ Hn Hmm) as Hnm.
  change (match patch_entry (JObj mm) (o !! "metadata") (c !! "metadata") with
          | Some (JObj m) => match m !! "name" with Some _ => false | None => true end
          | _ => true end = true).
  assert (Hp : sub_doc (patch_entry (JObj mm) (o !! "metadata") (c !! "metadata")) !! "name" = None).
  { unfold patch_entry. rewrite apply_sub_doc by apply (add_entry_sub mm _ "" Hnm).
    rewrite (proj2 (add_entry_sub mm _ "name" Hnm)), (proj2 (delete_entry_sub mm _ "name" Hnm)).
    cbn [sub_doc] in Hm. rewrite Hm, Hc. unfold add_entry, delete_entry; cbn [diff_entry matchesValue].
    rewrite bool_decide_eq_true_2 by done.
    destruct (sub_doc (o !! "metadata") !! "name") as [[]|]; cbn; try done.
    by case_bool_decide. }
  destruct (patch_entry _ _ _) as [[]|]; try done. cbn [sub_doc] in Hp. by rewrite Hp.
Qed.

(** The vendored pipeline computes the reference merge. *)
Lemma three_way_merge_merge3 o m c n :
  null_free (JObj m) = true → doc_name m = Some (JStr n) → doc_name c = Some (JStr n) →
  three_way_merge (JObj o) (JObj m) (JObj c)
  = Some (merge3 (JObj m) (Some (JObj o)) (Some (JObj c))).
Proof.
  intros Hn Hm Hc.
  assert (is_Some (three_way_merge (JObj o) (JObj m) (JObj c))) as [r Hr].
  { unfold three_way_merge, CreateThreeWayJSONMergePatch, CreateMergePatch; cbn [as_doc mbind option_bind].
    rewrite no_conflicts; cbn [MergePatch as_doc mbind option_bind].
    rewrite (patch_keeps_name _ _ _ n) by done. eauto. }
  rewrite Hr. f_equal. destruct (three_way_merge_docs _ _ _ _ Hr) as (R & -> & HR).
  cbn [merge3]. f_equal. apply map_eq; intros key.
  change (R !! key = sub_doc (Some (merge3 (JObj m) (Some (JObj o)) (Some (JObj c)))) !! key).
  rewrite merge3_lookup, HR. unfold merge3_at; cbn [sub_doc].
  destruct (m !! key) as [v|] eqn:Hv; [|done]. apply merged_entry_merge3. by eapply null_free_lookup.
Qed.

(** Every key of [o] is one of [m], at every level where [m] is an object. *)
Fixpoint extends (m : json) (o : option json) : bool :=
  match m with
  | JObj bm =>
      all_doc (λ key _, bool_decide (is_Some (bm !! key))) (sub_doc o) &&
      all_doc (λ key v, extends v (sub_doc o !! key)) bm
  | _ => true
  end.

(** A last-applied document without other keys than the desired one has no
    effect on the merge. *)
Lemma merge3_extends mv : ∀ ov cv, extends mv ov = true → merge3 mv ov cv = merge3 mv None cv.
Proof.
  induction mv as [|b|n|s|l IH|m IH] using json_strong_ind; intros ov cv He; try done.
  change (extends (JObj m) ov) with
    (all_doc (λ key _, bool_decide (is_Some (m !! key))) (sub_doc ov) &&
     all_doc (λ key v, extends v (sub_doc ov !! key)) m) in He.
  apply andb_true_iff in He as [Hk Hs]. rewrite all_doc_spec in Hk, Hs.
  cbn [merge3]. f_equal. apply map_eq; intros key.
  change (sub_doc (Some (merge3 (JObj m) ov cv)) !! key = sub_doc (Some (merge3 (JObj m) None cv)) !! key).
  rewrite !merge3_lookup. unfold merge3_at. cbn [sub_doc]. rewrite lookup_empty.
  destruct (m !! key) as [v|] eqn:Hv.
  - f_equal. rewrite (IH key v Hv (sub_doc ov !! key)); [done|by apply Hs].
  - destruct (sub_doc ov !! key) as [w|] eqn:Hw; [|done].
    apply Hk in Hw. apply bool_decide_eq_true in Hw as [? ?]. congruence.
Qed.
