(* ===== verification/MergeSpec.v ===== *)
(** * What a three-way merge promises

    The abstract contract of the merge patches of [mergeObject], on paths of a
    document, and the proof that the vendored pipeline (JsonMerge.v) is exactly
    that: what the desired object says holds, what it no longer says is gone, and
    the rest is as it was. *)
From S2P Require Import Prelude GoStrings Json JsonMerge.

(** ** The contract *)

(** The value under a path of keys *)
Fixpoint at_path (p : list string) (d : option json) : option json :=
  match p with
  | [] => d
  | key :: p => at_path p (sub_doc d !! key)
  end.

Definition leaf (v : json) : Prop := ∀ d, v ≠ JObj d.

(** [result] is [current] with the changes from [original] (what was applied
    last) to [modified] (what is desired):
    - a value of [modified] is in [result];
    - an object of [modified] is one of [result], and the other entries of that
      are those of [current] that [original] does not have. *)
Record merges (original : option json) (modified : json) (current : option json) (result : json) : Prop := {
  merges_value p v : at_path p (Some modified) = Some v → leaf v → at_path p (Some result) = Some v;
  merges_object p d : at_path p (Some modified) = Some (JObj d) →
    ∃ d', at_path p (Some result) = Some (JObj d') ∧
      ∀ key, d !! key = None →
        d' !! key = match sub_doc (at_path p original) !! key with
                    | Some _ => None
                    | None => sub_doc (at_path p current) !! key
                    end }.

(** ** The contract determines the result *)

Lemma at_path_None p : at_path p None = None.
Proof. induction p as [|key p IH]; [done|]. cbn [at_path sub_doc]. by rewrite lookup_empty. Qed.

(** The contract of an object is that of its entries. *)
Lemma merges_entry ov m cv r key v :
  merges ov (JObj m) cv (JObj r) → m !! key = Some v →
  ∃ x, r !! key = Some x ∧ merges (sub_doc ov !! key) v (sub_doc cv !! key) x.
Proof.
  intros [Hv Ho] Hm.
  assert (is_Some (r !! key)) as [x Hx].
  { destruct (at_path [key] (Some (JObj m))) as [w|] eqn:Hw; cbn [at_path sub_doc] in Hw; [|congruence].
    destruct w as [| | | | |d]; try (eexists; by apply (Hv [key])).
    destruct (Ho [key] d Hw) as (d' & Hd' & _). by eexists. }
  exists x. split; [done|]. split.
  - intros p w Hw Hl. specialize (Hv (key :: p) w). cbn [at_path sub_doc] in Hv. rewrite Hm, Hx in Hv. auto.
  - intros p d Hd. specialize (Ho (key :: p) d). cbn [at_path sub_doc] in Ho. rewrite Hm, Hx in Ho. auto.
Qed.

Lemma merges_unique m : ∀ ov cv r r', merges ov m cv r → merges ov m cv r' → r = r'.
Proof.
  assert (Hleaf : ∀ m ov cv r, leaf m → merges ov m cv r → r = m).
  { intros m' ov cv r Hl H. pose proof (merges_value _ _ _ _ H [] m' eq_refl Hl) as Hr. by injection Hr. }
  induction m as [|b|n|s|l IH|m IH] using json_strong_ind; intros ov cv r r' H H';
    try (by rewrite (λ Hl, Hleaf _ _ _ _ Hl H), (λ Hl, Hleaf _ _ _ _ Hl H') by by intros d).
  destruct (merges_object _ _ _ _ H [] m eq_refl) as (d & Hd & Hrest).
  destruct (merges_object _ _ _ _ H' [] m eq_refl) as (d' & Hd' & Hrest').
  injection Hd as ->. injection Hd' as ->. f_equal. apply map_eq. intros key.
  destruct (m !! key) as [v|] eqn:Hv; [|by rewrite Hrest, Hrest'].
  destruct (merges_entry _ _ _ _ _ _ H Hv) as (x & -> & Hx).
  destruct (merges_entry _ _ _ _ _ _ H' Hv) as (x' & -> & Hx'). f_equal. by eapply IH.
Qed.

(** ** The reference merge satisfies it *)

Lemma merge3_merges m ov cv : merges ov m cv (merge3 m ov cv).
Proof.
  assert (Hstep : ∀ m ov cv key, sub_doc (Some m) !! key = None ∨
    ∃ v, sub_doc (Some m) !! key = Some v ∧
      sub_doc (Some (merge3 m ov cv)) !! key = Some (merge3 v (sub_doc ov !! key) (sub_doc cv !! key))).
  { intros [| | | | |d] ov' cv' key; try by left. cbn [sub_doc].
    destruct (d !! key) as [v|] eqn:Hv; [right|by left]. exists v. split; [done|].
    change (sub_doc (Some (merge3 (JObj d) ov' cv')) !! key = Some (merge3 v (sub_doc ov' !! key) (sub_doc cv' !! key))).
    rewrite merge3_lookup. unfold merge3_at. by rewrite Hv. }
  split.
  - intros p. revert m ov cv. induction p as [|key p IH]; intros m ov cv w Hw Hl.
    + injection Hw as ->. by destruct w as [| | | | |d]; [..|by destruct (Hl d)].
    + cbn [at_path] in *. destruct (Hstep m ov cv key) as [Hn|(v & Hv & ->)].
      * by rewrite Hn, at_path_None in Hw.
      * rewrite Hv in Hw. auto.
  - intros p. revert m ov cv. induction p as [|key p IH]; intros m ov cv d Hd.
    + injection Hd as ->. cbn [at_path]. cbn [merge3]. eexists. split; [done|]. intros key Hkey.
      pose proof (merge3_lookup d ov cv key) as Hl. unfold merge3_at in Hl. rewrite Hkey in Hl. exact Hl.
    + cbn [at_path] in *. destruct (Hstep m ov cv key) as [Hn|(v & Hv & ->)].
      * by rewrite Hn, at_path_None in Hd.
      * rewrite Hv in Hd. eauto.
Qed.

(** C10: the merge of the vendored library is the abstract three-way merge.  For
    a desired document without nulls, of the object the current one is of, the
    pipeline of patches (compute the additions and the changes, compute the
    deletions, merge the patches, apply them) never fails, and its result is
    the one document that satisfies the contract [merges]. *)
Theorem three_way_merge_refines original modified current name result :
  null_free (JObj modified) = true →
  doc_name modified = Some (JStr name) → doc_name current = Some (JStr name) →
  three_way_merge (JObj original) (JObj modified) (JObj current) = Some result ↔
  merges (Some (JObj original)) (JObj modified) (Some (JObj current)) result.
Proof.
  intros Hn Hm Hc. rewrite (three_way_merge_merge3 _ _ _ name) by done. split.
  - intros [= <-]. apply (merge3_merges (JObj modified)).
  - intros H. f_equal. eapply merges_unique; [apply merge3_merges|exact H].
Qed.

(** ** Witness *)

(** The user added an annotation, the operator drops a label it had applied. *)
Definition example_doc (labels : jdoc) : jdoc :=
  {[ "metadata" := JObj {[ "name" := JStr "sa"; "labels" := JObj labels ]} ]}.

Lemma three_way_merge_refines_witness :
  merges (Some (JObj (example_doc {[ "old" := JStr "x"; "app" := JStr "hpp" ]})))
    (JObj (example_doc {[ "app" := JStr "hpp" ]}))
    (Some (JObj (example_doc {[ "old" := JStr "x"; "app" := JStr "other"; "team" := JStr "storage" ]})))
    (JObj (example_doc {[ "app" := JStr "hpp"; "team" := JStr "storage" ]})).
Proof.
  apply (three_way_merge_refines _ _ _ "sa"); vm_compute; reflexivity.
Defined.
