(* ===== verification/Mounter.v ===== *)
(** * The mounter

    cmd/mounter/main.go and chroot.go: the program the Deployments of the storage
    pools run on the host to mount a pool's volume under its path, and the
    cleanup Jobs run to unmount it.  Its environment is the host: [hreq] is the
    signature of the commands and system calls it makes.  Log lines are not
    modelled.  The vendored reader of mountinfo
    (github.com/moby/sys/mountinfo) is modelled from the parsed lines on; the
    bytes of findmnt and lsblk are read by a JSON parser that is a parameter. *)
From S2P Require Import Prelude GoStrings Prog Json.

(** ** Data *)

(** [mount.Info], as far as it is read *)
Record MountInfo := { Major : Z; Minor : Z; Root : string; Mountpoint : string; mount_rest : string }.

(** /proc/1/mountinfo: its lines, parsed or in error, and the error of reading it *)
Record MountTable := { table_lines : list (result MountInfo); table_error : error }.

(** [os.FileInfo] *)
Record FileInfo := { IsDir : bool; ModeDevice : bool }.

Record FindmntInfo := { Target : string; Source : string; Fstype : string; Options : string }.

Record DeviceInfo := { dev_Name : string; Majmin : string; Size : string; Type_ : string; dev_Mountpoint : string }.

(** The combined output of a command, and its error *)
Record CommandResult := { out : string; cmd_err : error }.

Inductive hreq : Type → Type :=
| FindMntByVolume (volume : string) : hreq CommandResult
| FindMntBySource (source : string) : hreq CommandResult
| BindMount (source target : string) : hreq CommandResult
| MountDevice (source target : string) : hreq CommandResult
| UnmountPath (target : string) : hreq CommandResult
| FsType (source : string) : hreq CommandResult
| Lsblk (source : string) : hreq CommandResult
| CreateXfs (source : string) : hreq CommandResult
| Stat (path : string) : hreq (result FileInfo)
| MkdirAll (path : string) : hreq error
| OpenMountinfo : hreq (result MountTable)
| OpenRoot : hreq error
| CloseRoot : hreq unit
| ChdirRoot : hreq error
| Chroot (path : string) : hreq error
| Sleep : hreq unit.

Abbreviation hprog := (prog hreq).
Abbreviation htrace := (trace hreq).

(** [os.IsNotExist] *)
Definition IsNotExist (e : goerror) : bool := bool_decide (err_kind e = KNotFound).

(** [encoding/json]: from bytes to a document *)
Class JsonReader := read_json : string → result json.

(** [fmt.Sprintf("%v", b)] of a byte slice *)
Definition sprintf_v_bytes (b : string) : string :=
  "[" +:+ Join ((λ c, sprintf_d (Z.of_N (N_of_ascii c))) <$> String.list_ascii_of_string b) " " +:+ "]".

(** ** Decoding (json.Unmarshal into the structs)

    Keys are matched as findmnt and lsblk write them; encoding/json would also
    accept them in another case. *)

Definition type_error (v : json) : goerror :=
  Errorf "json: cannot unmarshal value into Go struct field".

(** A string field: null leaves it empty, another type is an error. *)
Definition decode_string (v : option json) : string * error :=
  match v with
  | None | Some JNull => ("", None)
  | Some (JStr s) => (s, None)
  | Some v => ("", Some (type_error v))
  end.

(** The first error of a list: decoding goes on after an error of type. *)
Definition first_error (l : list error) : error := head (omap id l).

Definition decode_struct {A} (decode : jdoc → A * error) (v : json) : A * error :=
  match v with
  | JObj m => decode m
  | JNull => decode ∅
  | _ => (fst (decode ∅), Some (type_error v))
  end.

Definition decode_list {A} (decode : json → A * error) (v : option json) : list A * error :=
  match v with
  | None | Some JNull => ([], None)
  | Some (JArr l) => let r := decode <$> l in (r.*1, first_error r.*2)
  | Some v => ([], Some (type_error v))
  end.

Definition decode_findmnt (m : jdoc) : FindmntInfo * error :=
  let f key := decode_string (m !! key) in
  ({| Target := (f "target").1; Source := (f "source").1; Fstype := (f "fstype").1; Options := (f "options").1 |},
   first_error ((λ k, (f k).2) <$> ["target"; "source"; "fstype"; "options"])).

Definition decode_device (m : jdoc) : DeviceInfo * error :=
  let f key := decode_string (m !! key) in
  ({| dev_Name := (f "name").1; Majmin := (f "maj:min").1; Size := (f "size").1; Type_ := (f "type").1;
      dev_Mountpoint := (f "mountpoint").1 |},
   first_error ((λ k, (f k).2) <$> ["name"; "maj:min"; "size"; "type"; "mountpoint"])).

(** The field of a document read into a struct with one list *)
Definition decode_field {A} (decode : jdoc → A * error) (key : string) (v : json) : list A * error :=
  match v with
  | JObj m => decode_list (decode_struct decode) (m !! key)
  | JNull => ([], None)
  | _ => ([], Some (type_error v))
  end.

Section Decode.
Context `{JR : JsonReader}.

(** [json.Unmarshal]: a syntax error decodes nothing. *)
Definition unmarshal {A} (decode : jdoc → A * error) (key bytes : string) : list A * error :=
  match read_json bytes with
  | Err e => ([], Some e)
  | Ok v => decode_field decode key v
  end.

(** [parseMntInfoJSON]: what was decoded comes with the error. *)
Definition parseMntInfoJSON (mntInfoJSON : string) : list FindmntInfo * error :=
  let '(infos, err) := unmarshal decode_findmnt "filesystems" mntInfoJSON in
  (infos, (λ e, Errorf ("unable to unmarshal [" +:+ sprintf_v_bytes mntInfoJSON +:+ "]: " +:+ err_text e)) <$> err).

(** [lookupFindmntInfoByVolume] *)
Definition lookupFindmntInfoByVolume (volumePath : string) : hprog (list FindmntInfo * error) :=
  r ← request (FindMntByVolume volumePath);
  mret (match cmd_err r with
        | Some e => ([], Some e)
        | None => parseMntInfoJSON (out r)
        end).

(** [lookupDeviceInfoByVolume] *)
Definition lookupDeviceInfoByVolume (volumePath : string) : hprog (result (list DeviceInfo)) :=
  r ← request (Lsblk volumePath);
  mret (match cmd_err r with
        | Some e => Err e
        | None => match unmarshal decode_device "blockdevices" (out r) with
                  | (_, Some e) => Err e
                  | (l, None) => Ok l
                  end
        end).
End Decode.

(** ** Paths *)

Definition rhcosPrefix := "/ostree/deploy/rhcos".

(** The longest non-empty text before a closing bracket, on one line: [(.+)\]] *)
Fixpoint before_bracket (s : string) : option string :=
  match s with
  | EmptyString => None
  | String c s =>
      if Ascii.eqb c "010" then None
      else match before_bracket s with
           | Some t => Some (String c t)
           | None => match s with
                     | String "]" _ => Some (String c "")
                     | _ => None
                     end
           end
  end.

(** [sourceRgx.FindStringSubmatch]: the group of the leftmost match of [\[(.+)\]] *)
Fixpoint source_submatch (s : string) : option string :=
  match s with
  | EmptyString => None
  | String c s =>
      match (if Ascii.eqb c "[" then before_bracket s else None) with
      | Some t => Some t
      | None => source_submatch s
      end
  end.

Definition GetSourcePath (f : FindmntInfo) : string :=
  TrimPrefix (default (Source f) (source_submatch (Source f))) rhcosPrefix.

Definition GetOptions (f : FindmntInfo) : list string := Split (Options f) ",".

Definition GetSourceDevice (b : DeviceInfo) : string := filepath_Join ["/dev"; dev_Name b].

Definition filterGlobalMounts (infos : list FindmntInfo) : list FindmntInfo :=
  filter (λ info, Contains (Target info) "/globalmount" = true) infos.

Example source1 : source_submatch "/dev/sda1[/var/a[1]]" = Some "/var/a[1]".
Proof. reflexivity. Qed.
Example source2 : source_submatch "/dev/sda1[]" = None.
Proof. reflexivity. Qed.
Example source3 : GetSourcePath {| Target := ""; Fstype := ""; Options := "";
  Source := "/dev/vda4[/ostree/deploy/rhcos/var/hpp]" |} = "/var/hpp".
Proof. reflexivity. Qed.

(** ** Running on the host (chroot.go) *)

(** [defer func() { if err := exit(); err != nil { panic(err) } }()]: it runs when
    the function returns or panics, not on [os.Exit]. *)
Fixpoint deferred {A} (exit : hprog error) (p : hprog A) : hprog A :=
  match p with
  | Ret a => on_err exit (λ e, Panic (err_text e)) (Ret a)
  | Panic m => on_err exit (λ e, Panic (err_text e)) (Panic m)
  | Exit c => Exit c
  | Do r k => Do r (λ x, deferred exit (k x))
  end.

(** The function [chroot] returns: go back to the root it was called in. *)
Definition chroot_exit : hprog error :=
  err ← request ChdirRoot;
  res ← match err with
        | Some e => mret (Some e)
        | None => request (Chroot ".")
        end;
  request CloseRoot;;
  mret res.

(** [chroot] *)
Definition chroot (path : string) : hprog error :=
  on_err (request OpenRoot) (λ e, mret (Some e))
    (on_err (request (Chroot path)) (λ e, request CloseRoot;; mret (Some e)) (mret None)).

(** The body of a function that begins with [chroot(hostPath)] and defers its exit *)
Definition on_host {A} (hostPath : string) (body : hprog A) : hprog A :=
  on_err (chroot hostPath) (λ e, Panic (err_text e)) (deferred chroot_exit body).

(** ** mountinfo *)

(** [mount.GetMountsFromReader]: the filter says whether to skip a line, and
    whether to stop after one that is not skipped. *)
Fixpoint GetMountsFromLines (lines : list (result MountInfo)) (scan_error : error)
    (filter : MountInfo → bool * bool) : result (list MountInfo) :=
  match lines with
  | [] => match scan_error with Some e => Err e | None => Ok [] end
  | Err e :: _ => Err e
  | Ok m :: lines =>
      let '(skip, stop) := filter m in
      if skip then GetMountsFromLines lines scan_error filter
      else if stop then Ok [m]
      else match GetMountsFromLines lines scan_error filter with
           | Ok l => Ok (m :: l)
           | Err e => Err e
           end
  end.

Definition GetMountsFromReader (t : MountTable) (filter : MountInfo → bool * bool) : result (list MountInfo) :=
  GetMountsFromLines (table_lines t) (table_error t) filter.

Definition SingleEntryFilter (mp : string) (m : MountInfo) : bool * bool :=
  if bool_decide (Mountpoint m = mp) then (false, true) else (true, false).

(** ** Mounting *)

Definition kubeletPods := "/var/lib/kubelet/pods/".

(** The loop of [bindMountPathOnHost] over the mounts of the device: [None] when
    the target is mounted, or the mount to bind, empty when there is none *)
Fixpoint bind_source (targetPath bindSource : string) (hostMounts : list MountInfo) : option string :=
  match hostMounts with
  | [] => Some bindSource
  | m :: hostMounts =>
      if bool_decide (Mountpoint m = targetPath) then None
      else bind_source targetPath
             (if bool_decide (bindSource = "") && HasPrefix (Mountpoint m) kubeletPods && bool_decide (Root m = "/")
              then Mountpoint m else bindSource) hostMounts
  end.

(** [bindMountPathOnHost] *)
Definition bindMountPathOnHost (sourceMount : MountInfo) (targetPath hostPath : string) : hprog unit :=
  on_host hostPath
    (with_ok (request OpenMountinfo) (λ _, Exit 1) (λ hostMountf,
      match GetMountsFromReader hostMountf
              (λ m, (bool_decide (Major m ≠ Major sourceMount) || bool_decide (Minor m ≠ Minor sourceMount), false)) with
      | Err _ => Exit 1
      | Ok hostMounts =>
          match bind_source targetPath "" hostMounts with
          | None => mret tt
          | Some bindSource =>
              if bool_decide (bindSource ≠ "") then _ ← request (BindMount bindSource targetPath); mret tt
              else Exit 1
          end
      end)).

(** [mountFileSystemVolume] *)
Definition mountFileSystemVolume (sourcePath targetPath hostPath : string) : hprog unit :=
  with_ok (request OpenMountinfo) (λ e, Panic (err_text e)) (λ mountf,
    match GetMountsFromReader mountf (SingleEntryFilter sourcePath) with
    | Err _ => mret tt
    | Ok [] => mret tt
    | Ok (m :: _) => bindMountPathOnHost m targetPath hostPath
    end).

Section Mounts.
Context `{JR : JsonReader}.

(** The host path of a source that is not a path itself (lines 319-343) *)
Definition path_of_source (hostMountPath : string) : hprog string :=
  mountInfo ← request (FindMntBySource hostMountPath);
  match cmd_err mountInfo with
  | Some e => Panic (err_text e)
  | None =>
      match parseMntInfoJSON (out mountInfo) with
      | (_, Some e) => Panic (err_text e)
      | ([], None) => Exit 1
      | ([info], None) => mret (Target info)
      | (infos, None) =>
          match filterGlobalMounts infos with
          | [info] => mret (Target info)
          | _ => Exit 1
          end
      end
  end.

(** [mountIfNotMounted] *)
Definition mountIfNotMounted (targetPath hostMountPath : string) : hprog unit :=
  '(chrootInfos, _) ← lookupFindmntInfoByVolume targetPath;
  if match chrootInfos with
     | [] => true
     | info :: _ => bool_decide (GetSourcePath info ≠ hostMountPath)
     end
  then
    stat ← request (Stat hostMountPath);
    hostMountPath ← match stat with
                    | Err e => if IsNotExist e then path_of_source hostMountPath else mret hostMountPath
                    | Ok _ => mret hostMountPath
                    end;
    with_ok (request (Stat hostMountPath)) (λ e, Panic (err_text e)) (λ pathInfo,
      if IsDir pathInfo then _ ← request (BindMount hostMountPath targetPath); mret tt
      else if ModeDevice pathInfo then
        on_err (request (MkdirAll targetPath)) (λ e, Panic (err_text e))
          (_ ← request (MountDevice hostMountPath targetPath); mret tt)
      else mret tt)
  else mret tt.

(** [mountBlockVolume] *)
Definition mountBlockVolume (sourcePath targetPath hostPath : string) : hprog unit :=
  with_ok (lookupDeviceInfoByVolume sourcePath) (λ e, Panic (err_text e)) (λ deviceInfos,
    match deviceInfos with
    | [] => Panic "No device infos found"
    | device :: _ =>
        on_host hostPath
          (r ← request (FsType (GetSourceDevice device));
           (if bool_decide (out r = "") then
              c ← request (CreateXfs (GetSourceDevice device));
              match cmd_err c with Some e => Panic (err_text e) | None => mret tt end
            else mret tt);;
           mountIfNotMounted targetPath (GetSourceDevice device))
    end).

Definition index_out_of_range := "runtime error: index out of range [0] with length 0".

(** [unmountPath]: whether nothing was left to unmount *)
Definition unmountPath (targetPath hostPath : string) : hprog bool :=
  on_host hostPath
    ('(before, _) ← lookupFindmntInfoByVolume targetPath;
     request (UnmountPath targetPath);;
     '(after, _) ← lookupFindmntInfoByVolume targetPath;
     match before, after with
     | b :: _, a :: _ => mret (bool_decide (GetSourcePath b = GetSourcePath a))
     | _, _ => Panic index_out_of_range
     end).

(** ** main *)

(** [isBlockDevice] *)
Definition isBlockDevice (path : string) : hprog (result bool) :=
  with_ok (request (Stat path)) (λ e, mret (Err e)) (λ pathInfo, mret (Ok (ModeDevice pathInfo))).

(** One round of the endless loop of [main] *)
Definition mount_round (sourcePath targetPath hostPath : string) : hprog unit :=
  with_ok (isBlockDevice sourcePath) (λ e, Panic (err_text e)) (λ isBlock,
    (if negb isBlock then mountFileSystemVolume sourcePath targetPath hostPath
     else mountBlockVolume sourcePath targetPath hostPath);;
    request Sleep).

(** The first [n] rounds *)
Fixpoint mount_rounds (n : nat) (sourcePath targetPath hostPath : string) : hprog unit :=
  match n with
  | O => mret tt
  | S n => mount_round sourcePath targetPath hostPath;; mount_rounds n sourcePath targetPath hostPath
  end.

(** The loop of [main] with --unmount, at most [n] rounds: whether it ended *)
Fixpoint unmount_rounds (n : nat) (targetPath hostPath : string) : hprog bool :=
  match n with
  | O => mret false
  | S n =>
      finished ← unmountPath targetPath hostPath;
      if finished : bool then mret true else request Sleep;; unmount_rounds n targetPath hostPath
  end.
End Mounts.
