(* ===== verification/MounterProofs.v ===== *)
(** * What the mounter guarantees

    Theorems about Mounter.v: where its commands run, what it formats, which
    mount it binds, and how the unmount loop ends. *)
From S2P Require Import Prelude GoStrings Prog Json Mounter.

(** ** The root of the process *)

(** Whether the process is on the host, after a history: the last change of root
    that succeeded was not the way back. *)
Definition root_event (inside : bool) (ev : event hreq) : bool :=
  match ev with
  | Ev r x =>
      match r in hreq T return T → bool with
      | Chroot p => λ e, match e with None => negb (bool_decide (p = ".")) | Some _ => inside end
      | _ => λ _, inside
      end x
  end.

Definition on_host_now (tr : htrace) : bool := fold_left root_event tr false.

(** Commands that act on the host's mounts *)
Definition is_host_command {T} (r : hreq T) : bool :=
  match r with
  | FindMntByVolume _ | FindMntBySource _ | BindMount _ _ | MountDevice _ _ | UnmountPath _
  | FsType _ | CreateXfs _ | MkdirAll _ => true
  | _ => false
  end.

Definition changes_root {T} (r : hreq T) : bool :=
  match r with Chroot _ => true | _ => false end.

(** Host commands are run with the root of the host. *)
Definition commands_on_host : guarantee hreq := λ tr T r, is_host_command r = true → on_host_now tr = true.

Definition keeps_root : ∀ T, hreq T → Prop := λ T r, changes_root r = false.

Lemma on_host_app tr ev : on_host_now (tr ++ [ev]) = root_event (on_host_now tr) ev.
Proof. unfold on_host_now. by rewrite fold_left_app. Qed.

Lemma on_host_keeps {T} (r : hreq T) x tr : changes_root r = false → on_host_now (tr ++ [Ev r x]) = on_host_now tr.
Proof. rewrite on_host_app. by destruct r. Qed.

(** ** Deferred exits *)

Section Deferred.
Context (R : rely hreq) (G : guarantee hreq).

Definition post_deferred {A} (exit : hprog error) (Q : htrace → outcome A → Prop) : htrace → outcome A → Prop :=
  λ tr o, match o with
          | Returned a => wp R G (on_err exit (λ e, Panic (err_text e)) (Ret a)) Q tr
          | Panicked m => wp R G (on_err exit (λ e, Panic (err_text e)) (Panic m)) Q tr
          | Exited c => Q tr (Exited c)
          end.

Lemma wp_deferred {A} exit (p : hprog A) Q tr :
  wp R G p (post_deferred exit Q) tr → wp R G (deferred exit p) Q tr.
Proof.
  revert tr. induction p as [a|m|c|T r k IH]; intros tr; try done.
  cbn. intros [? Hk]. split; [done|]. auto.
Qed.
End Deferred.

(** When a function returns, the process has the root it had. *)
Definition back_home {A} : htrace → outcome A → Prop := λ tr o,
  ∀ a, o = Returned a → on_host_now tr = false.

Section Host.
Context (R : rely hreq) (hostPath : string) (Hpath : hostPath ≠ ".").
Abbreviation G := commands_on_host.

Lemma wp_chroot_exit (Q : htrace → outcome error → Prop) tr :
  (∀ tr' e, (e = None → on_host_now tr' = false) → Q tr' (Returned e)) →
  wp R G chroot_exit Q tr.
Proof.
  intros HQ. unfold chroot_exit. cbn. split; [done|]. intros [e|] _; cbn.
  - split; [done|]. intros u _. by apply HQ.
  - split; [done|]. intros x _. split; [done|]. intros [] _. apply HQ. intros ->.
    by rewrite on_host_keeps, on_host_app.
Qed.

(** A body that does not change the root may run host commands on the host. *)
Lemma wp_on_host {A} (body : hprog A) tr :
  on_host_now tr = false →
  (∀ tr', on_host_now tr' = true → wp R G body (λ _ _, True) tr') →
  wp R G (on_host hostPath body) back_home tr.
Proof.
  intros Htr Hb. unfold on_host. apply wp_on_err. unfold chroot. apply wp_on_err. cbn [wp request].
  split; [done|]. intros [e|] _; cbn [post_on_err wp mret prog_mret]; [done|].
  apply wp_on_err. cbn [wp request]. split; [done|]. intros [e|] _; cbn [post_on_err].
  - cbn. split; [done|]. by intros [] _.
  - cbn [wp mret prog_mret post_on_err]. apply wp_deferred. eapply wp_post; [apply Hb|].
    { rewrite on_host_app. cbn. by rewrite bool_decide_eq_false_2. }
    intros tr' [a|m|c] _; cbn [post_deferred]; [..|done]; apply wp_on_err, wp_chroot_exit;
      intros tr2 [e|] Hr; cbn; try done. intros a' _. auto.
Qed.

(** Programs that keep the root *)
Lemma wp_keeps {A} (p : hprog A) tr inside :
  footprint keeps_root p → on_host_now tr = inside →
  (inside = false → footprint (λ T r, is_host_command r = false) p) →
  wp R G p (λ tr' _, on_host_now tr' = inside) tr.
Proof.
  revert tr. induction p as [a|m|c|T r k IH]; intros tr Hp Htr Hc; try done.
  destruct Hp as [Hr Hk]. split.
  - intros Hh. destruct inside; [done|]. destruct (Hc eq_refl) as [Hn _]. congruence.
  - intros x _. apply IH; [done|by rewrite on_host_keeps|]. intros Hi. by apply (Hc Hi).
Qed.
End Host.

(** Prove a footprint by the structure of the program. *)
Ltac host_fp :=
  lazymatch goal with
  | |- footprint _ (mret _) => exact I
  | |- footprint _ (Ret _) => exact I
  | |- footprint _ (Panic _) => exact I
  | |- footprint _ (Exit _) => exact I
  | |- footprint _ (match ?x with _ => _ end) => destruct x; host_fp
  | |- footprint _ (request _) => split; [first [reflexivity|exact I]|intros; exact I]
  | |- footprint _ (on_err _ _ _) => apply footprint_on_err; [|intros ?|]; host_fp
  | |- footprint _ (with_ok _ _ _) => apply footprint_with_ok; [|intros ?|intros ?]; host_fp
  | |- footprint _ (_ ≫= _) => apply footprint_bind; [|intros ?]; host_fp
  | _ => idtac
  end.

Section Rounds.
Context `{JR : JsonReader} (R : rely hreq) (hostPath : string) (Hpath : hostPath ≠ ".").
Abbreviation G := commands_on_host.

Lemma lookupFindmnt_keeps v : footprint keeps_root (lookupFindmntInfoByVolume v).
Proof. unfold lookupFindmntInfoByVolume. host_fp. Qed.

Lemma mountIfNotMounted_keeps t d : footprint keeps_root (mountIfNotMounted t d).
Proof.
  unfold mountIfNotMounted, path_of_source. host_fp. apply lookupFindmnt_keeps.
Qed.

Lemma wp_body {A} (p : hprog A) tr :
  footprint keeps_root p → on_host_now tr = true → wp R G p (λ _ _, True) tr.
Proof. intros Hp Ht. eapply wp_post; [by apply (wp_keeps R p tr true)|done]. Qed.

Lemma wp_mountFileSystemVolume s t tr :
  on_host_now tr = false → wp R G (mountFileSystemVolume s t hostPath) back_home tr.
Proof.
  intros Htr. unfold mountFileSystemVolume. apply wp_with_ok. cbn [wp request]. split; [done|].
  intros [table|e] _; cbn [post_with_ok]; [|done].
  destruct (GetMountsFromReader _ _) as [[|m l]|e]; [by intros ? _; rewrite on_host_keeps| |by intros ? _; rewrite on_host_keeps].
  apply wp_on_host; [done|by rewrite on_host_keeps|]. intros tr' Ht. apply wp_body; [|done].
  host_fp.
Qed.

Lemma wp_mountBlockVolume s t tr :
  on_host_now tr = false → wp R G (mountBlockVolume s t hostPath) back_home tr.
Proof.
  intros Htr. unfold mountBlockVolume, lookupDeviceInfoByVolume. apply wp_with_ok, wp_bind. cbn [wp request].
  split; [done|]. intros r _. cbn [post_bind wp mret prog_mret].
  cbn [post_with_ok]. match goal with |- match ?x with _ => _ end => destruct x as [[|d l]|e] end; [done| |done].
  apply wp_on_host; [done|by rewrite on_host_keeps|]. intros tr' Ht. apply wp_body; [|done].
  host_fp. apply mountIfNotMounted_keeps.
Qed.

Lemma wp_mount_round s t tr :
  on_host_now tr = false → wp R G (mount_round s t hostPath) back_home tr.
Proof.
  intros Htr. unfold mount_round, isBlockDevice. apply wp_with_ok, wp_with_ok. cbn [wp request].
  split; [done|]. set (Hin := on_host_keeps (Stat s)).
  intros [info|e] _; cbn [post_with_ok wp mret prog_mret]; [|done]. apply wp_bind.
  assert (Hend : ∀ tr' o, back_home tr' o →
    post_bind R G (λ _ : unit, request Sleep) back_home tr' o).
  { intros tr' [[]|m|c] Hb; [|done..]. cbn. split; [done|]. intros [] _ ? _.
    rewrite on_host_keeps; [by apply (Hb tt)|done]. }
  destruct (negb _); (eapply wp_post; [|exact Hend]);
    [apply wp_mountFileSystemVolume|apply wp_mountBlockVolume]; by rewrite Hin.
Qed.

Lemma wp_unmountPath t tr :
  on_host_now tr = false → wp R G (unmountPath t hostPath) back_home tr.
Proof.
  intros Htr. apply wp_on_host; [done|done|]. intros tr' Ht. apply wp_body; [|done].
  host_fp; apply lookupFindmnt_keeps.
Qed.
End Rounds.

(** ** Formatting *)

(** A device is formatted only right after blkid printed nothing for it. *)
Definition formats_blank : guarantee hreq := λ tr T r,
  match r with
  | CreateXfs dev => ∃ tr' x, tr = tr' ++ [Ev (FsType dev) x] ∧ out x = ""
  | _ => True
  end.

Definition never_formats : ∀ T, hreq T → Prop := λ T r,
  match r with CreateXfs _ => False | _ => True end.

Lemma on_host_never {A} hostPath (body : hprog A) :
  footprint never_formats body → footprint never_formats (on_host hostPath body).
Proof.
  intros Hb. apply footprint_on_err; [unfold chroot; host_fp|done|].
  assert (He : footprint never_formats chroot_exit) by (unfold chroot_exit; host_fp).
  induction body as [a|m|c|T r k IH]; cbn [deferred]; [by apply footprint_on_err|by apply footprint_on_err|done|].
  destruct Hb as [Hr Hk]. split; [done|]. auto.
Qed.

(** ** The mount to bind *)

(** Mounts the kubelet made for a pod, of the whole file system *)
Definition pod_mount (m : MountInfo) : bool :=
  HasPrefix (Mountpoint m) kubeletPods && bool_decide (Root m = "/").

(** What the loop of [bindMountPathOnHost] decides: nothing when the target is a
    mount point; otherwise the first mount of a pod. *)
Definition bind_decision (targetPath : string) (hostMounts : list MountInfo) : option string :=
  if existsb (λ m, bool_decide (Mountpoint m = targetPath)) hostMounts then None
  else Some (default "" (Mountpoint <$> List.find pod_mount hostMounts)).

Lemma pod_mount_named m : pod_mount m = true → Mountpoint m ≠ "".
Proof. unfold pod_mount. intros H Hm. rewrite Hm in H. done. Qed.

Lemma bind_source_found target src l :
  src ≠ "" →
  bind_source target src l =
  if existsb (λ m, bool_decide (Mountpoint m = target)) l then None else Some src.
Proof.
  intros Hs. induction l as [|m l IH]; [done|]. cbn [bind_source existsb].
  destruct (bool_decide (Mountpoint m = target)); [done|].
  rewrite (bool_decide_eq_false_2 (src = "")) by done. apply IH.
Qed.

Lemma bind_source_decision target l : bind_source target "" l = bind_decision target l.
Proof.
  unfold bind_decision. induction l as [|m l IH]; [done|]. cbn [bind_source existsb List.find].
  destruct (bool_decide (Mountpoint m = target)); [done|]. cbn [orb].
  change (bool_decide ("" = "") && HasPrefix (Mountpoint m) kubeletPods && bool_decide (Root m = "/"))
    with (pod_mount m).
  destruct (pod_mount m) eqn:Hp; [|apply IH]. by rewrite bind_source_found by by apply pod_mount_named.
Qed.

(** The mounts of a table that are on a device, when the table can be read *)
Definition mounts_on (major minor : Z) (t : MountTable) : result (list MountInfo) :=
  GetMountsFromReader t (λ m, (bool_decide (Major m ≠ major) || bool_decide (Minor m ≠ minor), false)).

Lemma mounts_on_lines major minor t l :
  mounts_on major minor t = Ok l →
  ∃ all, table_lines t = Ok <$> all ∧ l = filter (λ m, Major m = major ∧ Minor m = minor) all.
Proof.
  unfold mounts_on, GetMountsFromReader. destruct t as [lines err]; cbn [table_lines table_error].
  revert l. induction lines as [|[m|e] lines IH]; intros l; cbn [GetMountsFromLines].
  - destruct err; [done|]. intros [= <-]. by exists [].
  - destruct (decide (Major m = major ∧ Minor m = minor)) as [[H1 H2]|Hn].
    + rewrite !bool_decide_eq_false_2 by tauto. cbn [orb].
      destruct (GetMountsFromLines _ _ _) as [l'|e]; [|done]. intros [= <-].
      destruct (IH l' eq_refl) as (all & -> & ->). exists (m :: all). split; [done|].
      by rewrite filter_cons_True.
    + replace (bool_decide (Major m ≠ major) || bool_decide (Minor m ≠ minor)) with true
        by (symmetry; rewrite orb_true_iff, !bool_decide_eq_true; destruct (decide (Major m = major)); tauto).
      intros (all & -> & ->)%IH. exists (m :: all). split; [done|]. by rewrite filter_cons_False.
  - done.
Qed.

Lemma mounts_on_parsed major minor all :
  mounts_on major minor {| table_lines := Ok <$> all; table_error := None |} =
  Ok (filter (λ m, Major m = major ∧ Minor m = minor) all).
Proof.
  unfold mounts_on, GetMountsFromReader. cbn [table_lines table_error]. induction all as [|m all IH]; [done|].
  rewrite fmap_cons. cbn [GetMountsFromLines]. destruct (decide (Major m = major ∧ Minor m = minor)) as [[H1 H2]|Hn].
  - rewrite !bool_decide_eq_false_2 by tauto. cbn [orb]. rewrite IH. by rewrite filter_cons_True.
  - replace (bool_decide (Major m ≠ major) || bool_decide (Minor m ≠ minor)) with true
      by (symmetry; rewrite orb_true_iff, !bool_decide_eq_true; destruct (decide (Major m = major)); tauto).
    by rewrite IH, filter_cons_False.
Qed.

(** A function on the host, when the way there and back is of no concern *)
Section OnHost.
Context (R : rely hreq) (G : guarantee hreq) (HG : ∀ tr T (r : hreq T), is_host_command r = false → G tr T r).

Lemma wp_chroot_any path (Q : htrace → outcome error → Prop) tr :
  (∀ tr' e, Q tr' (Returned e)) → wp R G (chroot path) Q tr.
Proof.
  intros HQ. unfold chroot. cbn. split; [by apply HG|]. intros [e|] _; cbn; [done|].
  split; [by apply HG|]. intros [e|] _; cbn; [|done]. split; [by apply HG|]. done.
Qed.

Lemma wp_chroot_exit_any (Q : htrace → outcome error → Prop) tr :
  (∀ tr' e, Q tr' (Returned e)) → wp R G chroot_exit Q tr.
Proof.
  intros HQ. unfold chroot_exit. cbn. split; [by apply HG|]. intros [e|] _; cbn; (split; [by apply HG|]);
    intros ? _; [done|]. split; [by apply HG|]. done.
Qed.

Lemma wp_on_host_any {A} hostPath (body : hprog A) (Q : outcome A → Prop) tr :
  (∀ tr', wp R G body (λ _, Q) tr') → (∀ m, Q (Panicked m)) → wp R G (on_host hostPath body) (λ _, Q) tr.
Proof.
  intros Hb Hm. unfold on_host. apply wp_on_err, wp_chroot_any. intros tr1 [e|]; cbn [post_on_err]; [apply Hm|].
  apply wp_deferred. eapply wp_post; [apply Hb|]. intros tr2 [a|m|c] HQ; cbn [post_deferred]; [..|done].
  all: apply wp_on_err, wp_chroot_exit_any; intros tr3 [e|]; cbn; auto.
Qed.
End OnHost.

Section Formats.
Context `{JR : JsonReader} (R : rely hreq).

Lemma never_formats_blank tr T (r : hreq T) : never_formats T r → formats_blank tr T r.
Proof. by destruct r. Qed.

Lemma mountIfNotMounted_never t d : footprint never_formats (mountIfNotMounted t d).
Proof. unfold mountIfNotMounted, path_of_source, lookupFindmntInfoByVolume. host_fp. Qed.

Lemma wp_never {A} (p : hprog A) (Q : htrace → outcome A → Prop) tr :
  footprint never_formats p → (∀ tr' o, Q tr' o) → wp R formats_blank p Q tr.
Proof. intros Hp HQ. eapply wp_footprint; [exact Hp|intros; by apply never_formats_blank|auto]. Qed.

Lemma wp_block_formats s t h tr : wp R formats_blank (mountBlockVolume s t h) (λ _ _, True) tr.
Proof.
  unfold mountBlockVolume. apply wp_with_ok. apply wp_never; [unfold lookupDeviceInfoByVolume; host_fp|].
  intros tr1 o. destruct o as [[[|d l]|e]|m|c]; cbn [post_with_ok]; try done.
  apply (wp_on_host_any R formats_blank); [by intros ? ? []| |done].
  intros tr2. apply wp_bind. cbn [wp request]. split; [done|]. intros x _. cbn [post_bind]. apply wp_bind.
  assert (Hend : ∀ tr' o, post_bind R formats_blank (λ _ : unit, mountIfNotMounted t (GetSourceDevice d))
    (λ _ _, True) tr' o).
  { intros tr' [[]|m|c]; cbn [post_bind]; [|done..]. apply wp_never; [apply mountIfNotMounted_never|done]. }
  case_bool_decide as Ho; [|apply Hend]. apply wp_bind. cbn [wp request]. split.
  - by exists tr2, x.
  - intros c _. cbn [post_bind]. destruct (cmd_err c); [done|apply Hend].
Qed.

Lemma wp_round_formats s t h tr : wp R formats_blank (mount_round s t h) (λ _ _, True) tr.
Proof.
  unfold mount_round. apply wp_with_ok. apply wp_never; [unfold isBlockDevice; host_fp|].
  intros tr1 o. destruct o as [[b|e]|m|c]; cbn [post_with_ok]; try done. apply wp_bind.
  assert (Hend : ∀ tr' o, post_bind R formats_blank (λ _ : unit, request Sleep) (λ _ _, True) tr' o)
    by by intros tr' [[]|m|c].
  destruct (negb b); [apply wp_never; [|apply Hend]|eapply wp_post; [apply wp_block_formats|auto]].
  unfold mountFileSystemVolume. host_fp. unfold bindMountPathOnHost. apply on_host_never. host_fp.
Qed.
End Formats.

(** ** Unmounting *)

(** A host whose mounts at [target] are a stack, the last one at the head; only
    the bottom mount, of the file system the target is on, cannot be unmounted.
    findmnt prints the mount at the head. *)
Class MountStack `{JR : JsonReader} {S} (h : handler hreq S) (target : string)
    (stack : S → list FindmntInfo) : Prop := {
  stack_find s m l : stack s = m :: l →
    cmd_err (h _ (FindMntByVolume target) s).1 = None ∧
    parseMntInfoJSON (out (h _ (FindMntByVolume target) s).1) = ([m], None) ∧
    stack (h _ (FindMntByVolume target) s).2 = m :: l;
  stack_unmount s : stack (h _ (UnmountPath target) s).2 =
    match stack s with _ :: (_ :: _) as l => l | l => l end;
  stack_open s : (h _ OpenRoot s).1 = None ∧ stack (h _ OpenRoot s).2 = stack s;
  stack_chroot s p : (h _ (Chroot p) s).1 = None ∧ stack (h _ (Chroot p) s).2 = stack s;
  stack_chdir s : (h _ ChdirRoot s).1 = None ∧ stack (h _ ChdirRoot s).2 = stack s;
  stack_close s : stack (h _ CloseRoot s).2 = stack s;
  stack_sleep s : stack (h _ Sleep s).2 = stack s }.

(** What is left when the loop ends: it pops until the head shows the same source
    path before and after. *)
Fixpoint drain (l : list FindmntInfo) : list FindmntInfo :=
  match l with
  | a :: (b :: _) as l' => if bool_decide (GetSourcePath a = GetSourcePath b) then l' else drain l'
  | l => l
  end.

(** Neighbours in the stack have different source paths. *)
Fixpoint neighbours_differ (l : list FindmntInfo) : bool :=
  match l with
  | a :: (b :: _) as l' => negb (bool_decide (GetSourcePath a = GetSourcePath b)) && neighbours_differ l'
  | _ => true
  end.

Lemma drain_differ l : neighbours_differ l = true → drain l = drop (length l - 1) l.
Proof.
  induction l as [|a [|b l] IH]; [done..|]. intros [Hn Hl]%andb_prop. apply negb_true_iff in Hn.
  change (drain (a :: b :: l)) with (if bool_decide (GetSourcePath a = GetSourcePath b) then b :: l else drain (b :: l)).
  rewrite Hn, (IH Hl). cbn [length].
  by replace (S (S (length l)) - 1)%nat with (S (S (length l) - 1)) by lia.
Qed.

Lemma run_deferred {A S} (h : handler hreq S) exit (p : hprog A) s :
  run h (deferred exit p) s =
  match run h p s with
  | (Returned a, s') => run h (on_err exit (λ e, Panic (err_text e)) (Ret a)) s'
  | (Panicked m, s') => run h (on_err exit (λ e, Panic (err_text e)) (Panic m)) s'
  | (Exited c, s') => (Exited c, s')
  end.
Proof.
  revert s. induction p as [a|m|c|T r k IH]; intros s; try done. cbn. destruct (h T r s). apply IH.
Qed.

Section Unmount.
Context `{JR : JsonReader} {S} (h : handler hreq S) (target : string) (stack : S → list FindmntInfo)
  `{!MountStack h target stack}.

(** The commands of the stack in a run: each step is one law. *)
Lemma run_exit {A} (a : A) s :
  ∃ s', run h (on_err chroot_exit (λ e, Panic (err_text e)) (Ret a)) s = (Returned a, s') ∧ stack s' = stack s.
Proof.
  destruct (stack_chdir s) as [H1 H2]. destruct (stack_chroot (h _ ChdirRoot s).2 ".") as [H3 H4].
  exists (h _ CloseRoot (h _ (Chroot ".") (h _ ChdirRoot s).2).2).2.
  split; [|by rewrite stack_close, H4].
  unfold on_err, chroot_exit. rewrite !run_bind, run_request, H1. cbn [run]. rewrite run_bind, run_request, H3.
  by rewrite run_bind, run_request.
Qed.

Lemma run_on_host {A} hostPath (body : hprog A) s a s1 l :
  (∀ s', stack s' = stack s → ∃ s2, run h body s' = (Returned a, s2) ∧ stack s2 = l) → s1 = s →
  ∃ s', run h (on_host hostPath body) s = (Returned a, s') ∧ stack s' = l.
Proof.
  intros Hb _. destruct (stack_open s) as [H1 H2].
  destruct (stack_chroot (h _ OpenRoot s).2 hostPath) as [H3 H4].
  destruct (Hb (h _ (Chroot hostPath) (h _ OpenRoot s).2).2) as (s2 & Hr & Hs2); [by rewrite H4|].
  destruct (run_exit a s2) as (s3 & Hr3 & Hs3). exists s3. split; [|by rewrite Hs3].
  unfold on_host, chroot. unfold on_err at 1. rewrite run_bind. unfold on_err at 1.
  rewrite run_bind, run_request, H1. cbv beta iota. unfold on_err at 1.
  rewrite run_bind, run_request, H3. cbv beta iota. cbn [run mret prog_mret].
  by rewrite run_deferred, Hr, Hr3.
Qed.

Lemma run_lookup {A} (f : list FindmntInfo * error → hprog A) s m l :
  stack s = m :: l →
  ∃ s', run h (lookupFindmntInfoByVolume target ≫= f) s = run h (f ([m], None)) s' ∧ stack s' = m :: l.
Proof.
  intros Hs. destruct (stack_find s m l Hs) as (He & Hp & Hs'). eexists; split; [|exact Hs'].
  unfold lookupFindmntInfoByVolume. rewrite !run_bind, run_request, He, Hp. done.
Qed.

(** One unmount pops the stack, and compares the two heads. *)
Lemma run_unmountPath hostPath s m l :
  stack s = m :: l →
  ∃ s', run h (unmountPath target hostPath) s =
          (Returned (match l with
                     | [] => true
                     | b :: _ => bool_decide (GetSourcePath m = GetSourcePath b)
                     end), s') ∧
        stack s' = match l with [] => [m] | _ => l end.
Proof.
  intros Hs. unfold unmountPath. eapply (run_on_host _ _ s _ s); [|done]. intros s0 Hs0. rewrite Hs in Hs0.
  destruct (run_lookup (λ '(before, _), request (UnmountPath target);;
     '(after, _) ← lookupFindmntInfoByVolume target;
     match before, after with
     | b :: _, a :: _ => mret (bool_decide (GetSourcePath b = GetSourcePath a))
     | _, _ => Panic index_out_of_range
     end) s0 m l Hs0) as (s1 & -> & Hs1).
  cbv beta iota. rewrite run_bind, run_request.
  pose proof (stack_unmount s1) as Hu. rewrite Hs1 in Hu. set (s2 := (h _ (UnmountPath target) s1).2) in *.
  assert (Hs2 : stack s2 = match l with [] => m | b :: _ => b end :: match l with [] => [] | _ :: l' => l' end)
    by (rewrite Hu; by destruct l).
  destruct (run_lookup (λ '(after, _),
     match [m], after with
     | b :: _, a :: _ => mret (bool_decide (GetSourcePath b = GetSourcePath a))
     | _, _ => Panic index_out_of_range
     end) s2 _ _ Hs2) as (s3 & -> & Hs3).
  exists s3. split; [|rewrite Hs3; by destruct l]. cbn. destruct l; [|done]. by rewrite bool_decide_eq_true_2.
Qed.

Lemma run_unmount_rounds hostPath : ∀ n s, stack s ≠ [] → (length (stack s) ≤ n)%nat →
  ∃ s', run h (unmount_rounds n target hostPath) s = (Returned true, s') ∧ stack s' = drain (stack s).
Proof.
  induction n as [|n IH]; intros s Hne Hlen; [destruct (stack s); [done|cbn in Hlen; lia]|].
  destruct (stack s) as [|m l] eqn:Hs; [done|]. destruct (run_unmountPath hostPath s m l Hs) as (s1 & Hr & Hs1).
  cbn [unmount_rounds]. rewrite run_bind, Hr. destruct l as [|b l]; [by exists s1|].
  change (drain (m :: b :: l)) with (if bool_decide (GetSourcePath m = GetSourcePath b) then b :: l else drain (b :: l)).
  destruct (bool_decide _); [by exists s1|]. rewrite run_bind, run_request. rewrite <-Hs1, <-(stack_sleep s1).
  apply IH; rewrite stack_sleep, Hs1; [done|cbn in *; lia].
Qed.
End Unmount.

(** ** Properties *)

Section Properties.
Context `{JR : JsonReader}.


(** C27: only blank devices are formatted.  Whatever the commands answer, in any
    number of rounds, [mkfs.xfs] is run on a device only if the command just
    before it asked blkid for the file system of that very device, and blkid
    printed nothing; with --unmount nothing is formatted. *)
Theorem only_blank_devices_are_formatted R n sourcePath targetPath hostPath tr :
  wp R formats_blank (mount_rounds n sourcePath targetPath hostPath) (λ _ _, True) tr ∧
  footprint never_formats (unmount_rounds n targetPath hostPath).
Proof.
  split.
  - revert tr. induction n as [|n IH]; intros tr; [done|]. cbn [mount_rounds]. apply wp_bind.
    eapply wp_post; [apply wp_round_formats|]. intros tr' [[]|m|c] _; [apply IH|done..].
  - induction n as [|n IH]; [done|]. cbn [unmount_rounds]. host_fp; [|done].
    unfold unmountPath. apply on_host_never. unfold lookupFindmntInfoByVolume. host_fp.
Qed.

(** Which mount is bound.  [bindMountPathOnHost], for every table of mounts
    the host has: if a mount of the source's device is already at the target,
    it returns and mounts nothing; otherwise it binds the first mount of the
    device that the kubelet made for a pod, of the whole file system, to the
    target, and exits with code 1 if there is none. *)
Theorem bind_mount_decision (R : rely hreq) m targetPath hostPath (all : list MountInfo) tr :
  let l := filter (λ h, Major h = Major m ∧ Minor h = Minor m) all in
  wp (λ T r x, R T r x ∧ ∀ y, Ev r x = Ev OpenMountinfo y →
        y = Ok {| table_lines := Ok <$> all; table_error := None |})
    (λ _ T r, match r with
              | BindMount s t => t = targetPath ∧ bind_decision targetPath l = Some s ∧ s ≠ ""
              | MountDevice _ _ | UnmountPath _ | CreateXfs _ => False
              | _ => True
              end)
    (bindMountPathOnHost m targetPath hostPath)
    (λ _ o, match o with
            | Returned _ => bind_decision targetPath l ≠ Some ""
            | Exited c => c = 1 ∧ bind_decision targetPath l = Some ""
            | Panicked _ => True
            end) tr.
Proof.
  intros l. unfold bindMountPathOnHost. apply wp_on_host_any; [by intros ? ? []| |done].
  intros tr'. apply wp_with_ok. cbn [wp request]. split; [done|]. intros x [_ Hx].
  rewrite (Hx x eq_refl). cbn [post_with_ok].
  change (GetMountsFromReader _ _) with
    (mounts_on (Major m) (Minor m) {| table_lines := Ok <$> all; table_error := None |}).
  rewrite mounts_on_parsed. fold l. rewrite bind_source_decision.
  destruct (bind_decision targetPath l) as [s|] eqn:Hd; [|done].
  case_bool_decide as Hs; [|subst; by split].
  apply wp_bind. cbn. split; [done|]. by intros _ _ [= ->].
Qed.

(** C28: the unmount loop ends.  On a host where the target is the head of a stack
    of mounts, the loop of [main] with --unmount ends after at most as many
    rounds as there are mounts; when neighbouring mounts of the stack have
    different source paths only the bottom one is left, and in general the loop
    stops early at the first unmount after which findmnt shows the same source
    path as before. *)
Theorem unmount_ends {S} (h : handler hreq S) target stack `{!MountStack h target stack} hostPath n s :
  stack s ≠ [] → (length (stack s) ≤ n)%nat →
  ∃ s', run h (unmount_rounds n target hostPath) s = (Returned true, s') ∧
    stack s' = drain (stack s) ∧
    (neighbours_differ (stack s) = true → stack s' = drop (length (stack s) - 1) (stack s)).
Proof.
  intros Hne Hlen. destruct (run_unmount_rounds h target stack hostPath n s Hne Hlen) as (s' & Hr & Hs').
  exists s'. split; [done|]. split; [done|]. intros Hd. by rewrite Hs', drain_differ.
Qed.

(** Unmounting panics when findmnt fails.  [unmountPath] logs the error of
    findmnt and goes on with an empty list, whose first element it then takes:
    when findmnt fails on the target, before or after the umount, the mounter
    does not return but panics. *)
Theorem unmount_panics_without_findmnt (R : rely hreq) targetPath hostPath tr :
  wp (λ T r x, R T r x ∧ ∀ y, Ev r x = Ev (FindMntByVolume targetPath) y → cmd_err y ≠ None)
    any_request (unmountPath targetPath hostPath)
    (λ _ o, ∃ msg, o = Panicked msg) tr.
Proof.
  unfold unmountPath. apply wp_on_host_any; [done| |by eauto]. intros tr'.
  unfold lookupFindmntInfoByVolume at 1. apply wp_bind, wp_bind. cbn [wp request]. split; [done|].
  intros x [_ Hx]. specialize (Hx x eq_refl). cbn [post_bind wp mret prog_mret].
  destruct (cmd_err x); [|done]. apply wp_bind. cbn [wp request]. split; [done|]. intros u _. cbn [post_bind].
  unfold lookupFindmntInfoByVolume. apply wp_bind, wp_bind. cbn [wp request]. split; [done|].
  intros y [_ Hy]. specialize (Hy y eq_refl). cbn [post_bind wp mret prog_mret].
  destruct (cmd_err y); [|done]. cbn. by eexists.
Qed.
End Properties.

(** ** Witnesses *)


(** A host with a stack of mounts at every path; findmnt prints the source of the
    last one. *)
Definition stack_handler : handler hreq (list FindmntInfo) := λ T r,
  match r in hreq T return list FindmntInfo → T * list FindmntInfo with
  | FindMntByVolume _ => λ l, ({| out := match l with m :: _ => Source m | [] => "" end; cmd_err := None |}, l)
  | UnmountPath _ => λ l, ({| out := ""; cmd_err := None |}, match l with _ :: (_ :: _) as l' => l' | l => l end)
  | FindMntBySource _ | BindMount _ _ | MountDevice _ _ | FsType _ | Lsblk _ | CreateXfs _ =>
      λ l, ({| out := ""; cmd_err := None |}, l)
  | Stat _ => λ l, (Err (Errorf ""), l)
  | OpenMountinfo => λ l, (Err (Errorf ""), l)
  | OpenRoot | ChdirRoot | Chroot _ | MkdirAll _ => λ l, (None, l)
  | CloseRoot | Sleep => λ l, (tt, l)
  end.

(** The text is the source of the mount. *)
#[local] Instance source_reader : JsonReader := λ text,
  Ok (JObj {[ "filesystems" := JArr [JObj {[ "source" := JStr text ]}] ]}).

Definition mounted (source : string) : FindmntInfo :=
  {| Target := ""; Source := source; Fstype := ""; Options := "" |}.

(** Stacks of such mounts *)
Definition sources_stack (l : list FindmntInfo) : list FindmntInfo := mounted <$> (Source <$> l).

#[local] Instance stack_handler_ok target : MountStack stack_handler target sources_stack.
Proof.
  split; try done.
  - intros [|m' l'] m l; [done|]. intros [= <- <-]. done.
  - by intros [|a [|b l]].
Qed.

Lemma unmount_ends_witness :
  ∃ s', run stack_handler (unmount_rounds 3 "/var/a/csi" "/host")
          [mounted "/dev/sdb[/pvc]"; mounted "/dev/sda[/pool]"; mounted "/dev/vda"] = (Returned true, s') ∧
        sources_stack s' = [mounted "/dev/vda"].
Proof.
  destruct (unmount_ends stack_handler "/var/a/csi" sources_stack "/host" 3
    [mounted "/dev/sdb[/pvc]"; mounted "/dev/sda[/pool]"; mounted "/dev/vda"]) as (s' & Hr & _ & Hs).
  - discriminate.
  - reflexivity.
  - exists s'. split; [exact Hr|]. apply Hs. reflexivity.
Defined.

