(* ===== verification/Meta.v ===== *)
(** * Metadata, last-applied configuration and the create-or-update step

    The helpers of pkg/controller/hostpathprovisioner/util.go that every
    reconcile function shares, [GetRecommendedLabels] (pkg/util/labels.go), the
    vendored owner-reference functions (controller-runtime's controllerutil,
    apimachinery's controller_ref.go), and [reconcileRbacResource] (rbac.go),
    whose body the other reconcile functions repeat for their own kinds. *)
From S2P Require Import Prelude GoStrings Prog Names Api K8s Json JsonMerge.

(** ** JSON encoding of objects *)

(** [encoding/json] on the API structs.  The struct tags that drive it are not
    modelled: what a theorem needs of the encoding of an object it states. *)
Class Codec := {
  (** [json.Marshal], as a document *)
  Marshal : ∀ k, obj k → result json;
  (** [json.Unmarshal] into a new object *)
  Unmarshal : ∀ k, json → result (obj k);
  (** The bytes of a document, and reading them back *)
  print_json : json → string;
  parse_json : string → result json;
  (** What the patch library reports when it cannot compute the patch *)
  patch_error : goerror }.
Arguments Marshal {_ k} o.
Arguments Unmarshal {_} k d.

(** ** Labels (labels.go, common.go) *)

Definition PartOfLabelEnvVarName := "INSTALLER_PART_OF_LABEL".
Definition VersionLabelEnvVarName := "INSTALLER_VERSION_LABEL".
Definition AppKubernetesPartOfLabel := "app.kubernetes.io/part-of".
Definition AppKubernetesVersionLabel := "app.kubernetes.io/version".
Definition AppKubernetesManagedByLabel := "app.kubernetes.io/managed-by".
Definition AppKubernetesComponentLabel := "app.kubernetes.io/component".
Definition AllowAccessClusterServicesNPLabel := "np.kubevirt.io/allow-access-cluster-services".
Definition PrometheusLabelKey := "prometheus.hostpathprovisioner.kubevirt.io".
Definition PrometheusLabelValue := "true".
Definition lastAppliedConfigAnnotation := "hostpathprovisioner.kubevirt.io/lastAppliedConfiguration".

Definition GetRecommendedLabels `{PL : Platform} : gmap string string :=
  let labels : gmap string string :=
    {[ "k8s-app" := MultiPurposeHostPathProvisionerName;
       AppKubernetesManagedByLabel := "hostpath-provisioner-operator";
       AppKubernetesComponentLabel := "storage" ]} in
  let partOfLabelVal := getenv PartOfLabelEnvVarName in
  let labels := if bool_decide (partOfLabelVal ≠ "")
                then <[AppKubernetesPartOfLabel := partOfLabelVal]> labels else labels in
  let versionLabelVal := getenv VersionLabelEnvVarName in
  if bool_decide (versionLabelVal ≠ "")
  then <[AppKubernetesVersionLabel := versionLabelVal]> labels else labels.

(** ** util.go *)

(** Copy the entries of [src] into [dest], which is allocated when it is nil and
    there is something to copy.  The keys of a map are distinct, so the order
    in which Go ranges over [src] does not matter. *)
Definition copy_entries (src dest : gomap) : gomap :=
  match src with
  | None => dest
  | Some s => if bool_decide (s = ∅) then dest else Some (s ∪ default ∅ dest)
  end.

Definition mergeLabelsAndAnnotations (src dest : ObjectMeta) : ObjectMeta :=
  set_Annotations (copy_entries (Annotations src) (Annotations dest))
    (set_Labels (copy_entries (Labels src) (Labels dest)) dest).

Section Codec.
Context `{CD : Codec}.

(** The bytes of the last applied configuration; none is [{}]. *)
Definition parse_original (v : string) : result json :=
  if bool_decide (v = "") then Ok (JObj ∅) else parse_json v.

Definition missing_last_applied {k} (o : obj k) : goerror :=
  Errorf (go_type k +:+ " " +:+ o_namespace o +:+ "/" +:+ o_name o
          +:+ " missing last applied config").

(** [mergeObject]: the desired object as it is afterwards, and the result. *)
Definition mergeObject {k} (desiredObj currentObj : obj k) : obj k * result (obj k) :=
  match map_get (Annotations (o_meta currentObj)) lastAppliedConfigAnnotation with
  | None => (desiredObj, Err (missing_last_applied currentObj))
  | Some v =>
      let desired :=
        with_meta (set_CreationTimestamp (CreationTimestamp (o_meta currentObj))) desiredObj in
      (desired,
       match Marshal desired with
       | Err e => Err e
       | Ok modified =>
           match Marshal currentObj with
           | Err e => Err e
           | Ok current =>
               match parse_original v with
               | Err e => Err e
               | Ok original =>
                   match three_way_merge original modified current with
                   | None => Err patch_error
                   | Some newCurrent => Unmarshal k newCurrent
                   end
               end
           end
       end)
  end.

(** [setLastAppliedConfiguration]; its callers ignore the error. *)
Definition setLastAppliedConfiguration {k} (o : obj k) : obj k :=
  match Marshal o with
  | Err _ => o
  | Ok d =>
      with_meta (set_Annotations
        (Some (<[lastAppliedConfigAnnotation := print_json d]>
                 (default ∅ (Annotations (o_meta o)))))) o
  end.
End Codec.

(** [isShared] *)
Definition ReadWriteMany := "ReadWriteMany".

Definition isShared (pvcTemplate : option PersistentVolumeClaimSpec) : bool :=
  match pvcTemplate with
  | Some t => match AccessModes t with
              | Some modes => existsb (λ mode, bool_decide (mode = ReadWriteMany)) modes
              | None => false
              end
  | None => false
  end.

(** ** Owner references (controllerutil, controller_ref.go) *)

Definition HostPathProvisionerKind := "HostPathProvisioner".
(** [SchemeGroupVersion.String()] (register.go) *)
Definition SchemeGroupVersion := "hostpathprovisioner.kubevirt.io/v1beta1".

(** [schema.ParseGroupVersion]: the group; [None] is an error *)
Definition api_group (gv : string) : option string :=
  match Split gv "/" with
  | [_] => Some ""
  | [g; _] => Some g
  | _ => None
  end.

Definition referSameObject (a b : OwnerReference) : bool :=
  match api_group (owner_APIVersion a), api_group (owner_APIVersion b) with
  | Some ga, Some gb =>
      bool_decide (ga = gb) && bool_decide (owner_Kind a = owner_Kind b) &&
      bool_decide (owner_Name a = owner_Name b)
  | _, _ => false
  end.

(** [upsertOwnerRef]: replace the first reference to the same object, or append. *)
Fixpoint upsertOwnerRef (ref : OwnerReference) (owners : list OwnerReference) : list OwnerReference :=
  match owners with
  | [] => [ref]
  | r :: owners => if referSameObject r ref then ref :: owners else r :: upsertOwnerRef ref owners
  end.

Definition GetControllerOf (m : ObjectMeta) : option OwnerReference :=
  List.find (λ r, bool_decide (owner_Controller r = Some true)) (OwnerReferences m).

Definition IsControlledBy (m owner : ObjectMeta) : bool :=
  match GetControllerOf m with
  | None => false
  | Some ref => bool_decide (owner_UID ref = UID owner)
  end.

Definition validateOwner (owner object : ObjectMeta) : error :=
  let ownerNs := Namespace owner in
  if bool_decide (ownerNs ≠ "") then
    let objNs := Namespace object in
    if bool_decide (objNs = "") then
      Some (Errorf ("cluster-scoped resource must not have a namespace-scoped owner, owner's namespace "
                    +:+ ownerNs))
    else if bool_decide (ownerNs ≠ objNs) then
      Some (Errorf ("cross-namespace owner references are disallowed, owner's namespace "
                    +:+ ownerNs +:+ ", obj's namespace " +:+ objNs))
    else None
  else None.

Definition controller_ref (cr : HostPathProvisioner) : OwnerReference :=
  {| owner_APIVersion := SchemeGroupVersion; owner_Kind := HostPathProvisionerKind;
     owner_Name := o_name cr; owner_UID := UID (o_meta cr);
     owner_Controller := Some true; owner_BlockOwnerDeletion := Some true |}.

Definition already_owned (m : ObjectMeta) (r : OwnerReference) : goerror :=
  Errorf ("Object " +:+ Namespace m +:+ "/" +:+ Name m +:+ " is already owned by another "
          +:+ owner_Kind r +:+ " controller " +:+ owner_Name r).

(** [controllerutil.SetControllerReference(cr, controlled, scheme)] *)
Definition SetControllerReference {k} (cr : HostPathProvisioner) (controlled : obj k) :
    result (obj k) :=
  let m := o_meta controlled in
  match validateOwner (o_meta cr) m with
  | Some e => Err e
  | None =>
      let ref := controller_ref cr in
      let upsert := Ok (with_meta (set_OwnerReferences (upsertOwnerRef ref (OwnerReferences m))) controlled) in
      match GetControllerOf m with
      | Some existing => if referSameObject existing ref then upsert else Err (already_owned m existing)
      | None => upsert
      end
  end.

(** ** Events and the create-or-update step *)

Definition EventTypeNormal := "Normal".
Definition EventTypeWarning := "Warning".
Definition createResourceFailed := "CreateResourceFailed".
Definition createResourceSuccess := "CreateResourceSuccess".
Definition updateResourceFailed := "UpdateResourceFailed".
Definition updateResourceSuccess := "UpdateResourceSuccess".

(** [r.recorder.Event(cr, type, reason, message)] *)
Definition record_event (cr : HostPathProvisioner) (type reason message : string) : kprog unit :=
  request (Event (ObjectKeyFromObject cr)
             {| ev_type := type; ev_reason := reason; ev_message := message |}).

Definition createMessageFailed (name : string) (e : goerror) : string :=
  "Failed to create resource " +:+ name +:+ ", " +:+ err_text e.
Definition createMessageSucceeded (k : kind) (name : string) : string :=
  "Successfully created resource " +:+ go_type k +:+ " " +:+ name.
Definition updateMessageFailed (name : string) (e : goerror) : string :=
  "Failed to update resource " +:+ name +:+ ", " +:+ err_text e.
Definition updateMessageSucceeded (k : kind) (name : string) : string :=
  "Successfully updated resource " +:+ go_type k +:+ " " +:+ name.

(** [if err := p; err != nil && !errors.IsNotFound(err) { return err }; return nil] *)
Definition ignore_not_found (p : kprog error) : kprog error :=
  on_err p (λ e, if IsNotFound e then mret None else mret (Some e)) (mret None).

(** [r.client.Delete(ctx, obj)] of an object that has this kind, namespace and name *)
Definition delete_object (k : kind) (namespace name : string) : kprog error :=
  ignore_not_found (request (Delete k (namespace, name) None)).

Section Upsert.
Context `{CD : Codec}.

(** Create the object and report it; [after] is what the caller does next. *)
Definition create_resource {k} (cr : HostPathProvisioner) (desired : obj k)
    (after : obj k → kprog error) : kprog error :=
  with_ok (request (Create k desired))
    (λ err, record_event cr EventTypeWarning createResourceFailed
              (createMessageFailed (o_name desired) err);;
            mret (Some err))
    (λ desired, record_event cr EventTypeNormal createResourceSuccess
                  (createMessageSucceeded k (o_name desired));;
                after desired).

(** Update the object when it is not the one that was found, and report it. *)
Definition update_resource {k} (cr : HostPathProvisioner) (name : string)
    (currentRuntimeObjCopy merged : obj k) : kprog error :=
  if DeepEqual currentRuntimeObjCopy merged then mret None
  else
    with_ok (request (Update k merged))
      (λ err, record_event cr EventTypeWarning updateResourceFailed (updateMessageFailed name err);;
              mret (Some err))
      (λ _, record_event cr EventTypeNormal updateResourceSuccess (updateMessageSucceeded k name);;
            mret None).

(** The object exists: merge the desired state into it and update it if that
    changed it. *)
Definition merge_and_update {k} (cr : HostPathProvisioner) (desired found : obj k) : kprog error :=
  let current := with_meta (mergeLabelsAndAnnotations (o_meta desired)) found in
  match (mergeObject desired current).2 with
  | Err err => mret (Some err)
  | Ok merged => update_resource cr (o_name desired) found merged
  end.

(** Look an object up under [key]; create it, or merge into it. *)
Definition create_or_update {k} (cr : HostPathProvisioner) (key : ObjectKey) (desired : obj k)
    (after_create : obj k → kprog error) : kprog error :=
  r ← request (Get k key);
  match r with
  | Err err => if IsNotFound err then create_resource cr desired after_create else mret (Some err)
  | Ok found => merge_and_update cr desired found
  end.

(** [reconcileRbacResource] (rbac.go); [found] only says where to look. *)
Definition reconcileRbacResource {k} (desired found : obj k) (cr : HostPathProvisioner) : kprog error :=
  create_or_update cr (ObjectKeyFromObject found) (setLastAppliedConfiguration desired) (λ _, mret None).
End Upsert.

(** ** Lemmas: labels and annotations *)

Lemma map_get_copy_entries src dest key :
  map_get (copy_entries src dest) key =
  match map_get src key with Some v => Some v | None => map_get dest key end.
Proof.
  unfold copy_entries, map_get. destruct src as [m|]; simpl; [|done].
  case_bool_decide as Hm; [by subst|]; simpl.
  destruct (m !! key) as [v|] eqn:Hv; [by apply lookup_union_Some_l|].
  rewrite lookup_union_r by done. destruct dest; simpl; [done|apply lookup_empty].
Qed.

Lemma copy_entries_same m : copy_entries m m = m.
Proof. destruct m as [m|]; simpl; [|done]. case_bool_decide; [done|]. f_equal. apply map_union_idemp. Qed.

Lemma copy_entries_idem src dest : copy_entries src (copy_entries src dest) = copy_entries src dest.
Proof.
  unfold copy_entries. destruct src as [m|]; [|done]. case_bool_decide; [done|]. simpl.
  by rewrite (assoc_L _), map_union_idemp.
Qed.

Lemma merge_same (m : ObjectMeta) : mergeLabelsAndAnnotations m m = m.
Proof. unfold mergeLabelsAndAnnotations. rewrite !copy_entries_same. by destruct m. Qed.

Lemma ObjectKey_with_meta {k} f (o : obj k) :
  Name (f (o_meta o)) = Name (o_meta o) → Namespace (f (o_meta o)) = Namespace (o_meta o) →
  ObjectKeyFromObject (with_meta f o) = ObjectKeyFromObject o.
Proof. unfold ObjectKeyFromObject, o_name, o_namespace; simpl. by intros -> ->. Qed.

(** ** Lemmas: owner references *)

Lemma referSameObject_refl r : api_group (owner_APIVersion r) ≠ None → referSameObject r r = true.
Proof. unfold referSameObject. destruct (api_group _); [|done]. intros _. by rewrite !bool_decide_eq_true_2. Qed.

Lemma controller_ref_refl cr : referSameObject (controller_ref cr) (controller_ref cr) = true.
Proof. by apply referSameObject_refl. Qed.

Lemma upsertOwnerRef_in ref owners : ref ∈ upsertOwnerRef ref owners.
Proof. induction owners as [|r owners IH]; simpl; [set_solver|]. destruct (referSameObject r ref); set_solver. Qed.

Lemma upsertOwnerRef_idem ref owners :
  referSameObject ref ref = true → upsertOwnerRef ref (upsertOwnerRef ref owners) = upsertOwnerRef ref owners.
Proof.
  intros Hr. induction owners as [|r owners IH]; simpl; [by rewrite Hr|].
  destruct (referSameObject r ref) eqn:Hs; simpl; [by rewrite Hr|by rewrite Hs, IH].
Qed.

Lemma upsertOwnerRef_controller ref owners :
  referSameObject ref ref = true → owner_Controller ref = Some true →
  (∀ r, List.find (λ r, bool_decide (owner_Controller r = Some true)) owners = Some r →
        referSameObject r ref = true) →
  List.find (λ r, bool_decide (owner_Controller r = Some true)) (upsertOwnerRef ref owners) = Some ref.
Proof.
  intros Hr Hc. induction owners as [|r owners IH]; simpl; intros Hex;
    [by rewrite bool_decide_eq_true_2|].
  case_bool_decide as Hrc.
  - rewrite (Hex r) by done. simpl. by rewrite bool_decide_eq_true_2.
  - destruct (referSameObject r ref); simpl; [by rewrite bool_decide_eq_true_2|].
    rewrite bool_decide_eq_false_2 by done. auto.
Qed.

Lemma validateOwner_references owner l m :
  validateOwner owner (set_OwnerReferences l m) = validateOwner owner m.
Proof. done. Qed.

(** ** Lemmas: last-applied configuration *)

Section CodecLemmas.
Context `{CD : Codec}.

Lemma setLastAppliedConfiguration_key {k} (o : obj k) :
  ObjectKeyFromObject (setLastAppliedConfiguration o) = ObjectKeyFromObject o.
Proof. unfold setLastAppliedConfiguration. destruct (Marshal o); [|done]. by apply ObjectKey_with_meta. Qed.

Lemma setLastAppliedConfiguration_annotation {k} (o : obj k) d :
  Marshal o = Ok d →
  map_get (Annotations (o_meta (setLastAppliedConfiguration o))) lastAppliedConfigAnnotation
  = Some (print_json d).
Proof.
  intros Ho. unfold setLastAppliedConfiguration. rewrite Ho; simpl.
  by rewrite lookup_insert_eq.
Qed.

(** What the encoding of an object has to be like for the merge to work on it:
    a document without nulls that carries the name and decodes to the object. *)
Record encodes {k} (o : obj k) (m : jdoc) : Prop := {
  enc_marshal : Marshal o = Ok (JObj m);
  enc_null_free : null_free (JObj m) = true;
  enc_name : ∃ n, doc_name m = Some (JStr n);
  enc_unmarshal : Unmarshal k (JObj m) = Ok o }.

(** Merging the object the server has into itself gives it back. *)
Lemma mergeObject_same {k} (o : obj k) m v original :
  encodes o m →
  map_get (Annotations (o_meta o)) lastAppliedConfigAnnotation = Some v →
  parse_original v = Ok (JObj original) →
  mergeObject o o = (o, Ok o).
Proof.
  intros [Hm Hn [n Hname] Hu] Hv Ho. unfold mergeObject. rewrite Hv.
  rewrite with_meta_id by (by destruct (o_meta o)).
  rewrite Hm, Ho, (three_way_merge_merge3 original m m n) by done. rewrite merge3_same. by rewrite Hu.
Qed.

(** ** Lemmas: the create-or-update step *)

Lemma create_resource_fp ks {k} cr (desired : obj k) after :
  (∀ o, footprint (writes_only (k :: ks)) (after o)) →
  footprint (writes_only (k :: ks)) (create_resource cr desired after).
Proof.
  intros Ha. unfold create_resource, record_event. apply footprint_with_ok; [|intros ?|intros ?].
  - split; [|done]. intros _. exists k. split; [done|left].
  - by repeat split.
  - apply footprint_bind; [by repeat split|]. intros _. apply Ha.
Qed.

Lemma update_resource_fp {k} cr name (a b : obj k) :
  footprint (writes_only [k]) (update_resource cr name a b).
Proof.
  unfold update_resource, record_event. destruct (DeepEqual a b); [done|].
  apply footprint_with_ok; [|by repeat split..].
  split; [|done]. intros _. exists k. split; [done|left].
Qed.

Lemma merge_and_update_fp {k} cr (desired found : obj k) :
  footprint (writes_only [k]) (merge_and_update cr desired found).
Proof. unfold merge_and_update. destruct (mergeObject _ _).2; [apply update_resource_fp|done]. Qed.

Lemma create_or_update_fp ks {k} cr key (desired : obj k) after :
  (∀ o, footprint (writes_only (k :: ks)) (after o)) →
  footprint (writes_only (k :: ks)) (create_or_update cr key desired after).
Proof.
  intros Ha. unfold create_or_update. apply footprint_bind; [by split|].
  intros [found|err].
  - eapply footprint_mono; [apply merge_and_update_fp|]. intros T r. apply writes_only_mono. set_solver.
  - destruct (IsNotFound err); [by apply create_resource_fp|done].
Qed.

Lemma reconcileRbacResource_fp {k} (desired found : obj k) cr :
  footprint (writes_only [k]) (reconcileRbacResource desired found cr).
Proof. by apply create_or_update_fp. Qed.
End CodecLemmas.

Lemma ignore_not_found_fp ks p : footprint (writes_only ks) p → footprint (writes_only ks) (ignore_not_found p).
Proof. intros Hp. apply footprint_on_err; [done| |done]. intros e. by destruct (IsNotFound e). Qed.

Lemma delete_object_fp k ns name : footprint (writes_only [k]) (delete_object k ns name).
Proof. apply ignore_not_found_fp. split; [|done]. intros _. exists k. split; [done|left]. Qed.

Lemma record_event_fp cr t r m : footprint (writes_only []) (record_event cr t r m).
Proof. by split. Qed.

#[export] Hint Resolve update_resource_fp merge_and_update_fp reconcileRbacResource_fp delete_object_fp
  record_event_fp ignore_not_found_fp : fp.
Ltac fp_request :=
  first [ done
        | let H := fresh in intros H; first [discriminate H | eexists; split; [reflexivity|];
            apply (bool_decide_eq_true _); vm_compute; reflexivity ] ].

(** Prove [footprint (writes_only ks) p] by the structure of [p]. *)
Ltac fp_solve :=
  lazymatch goal with
  | |- footprint _ (mret _) => exact I
  | |- footprint _ (Ret _) => exact I
  | |- footprint _ (Panic _) => exact I
  | |- footprint _ (match ?x with _ => _ end) => destruct x; fp_solve
  | |- footprint _ (let _ := _ in _) => cbv zeta; fp_solve
  | |- footprint _ (request _) => split; [fp_request|intros; exact I]
  | |- footprint _ (on_err _ _ _) => apply footprint_on_err; [|intros ?|]; fp_solve
  | |- footprint _ (with_ok _ _ _) => apply footprint_with_ok; [|intros ?|intros ?]; fp_solve
  | |- footprint _ (for_err _ _) => apply footprint_for_err; intros ? _; fp_solve
  | |- footprint _ (for_state _ _ _) => apply footprint_for_state; intros ? ? _; fp_solve
  | |- footprint _ (_ ≫= _) => apply footprint_bind; [|intros ?]; fp_solve
  | |- footprint _ (ignore_not_found _) => apply ignore_not_found_fp; fp_solve
  | |- footprint _ (create_resource _ _ (λ _, mret _)) =>
      eapply footprint_writes_mono; [apply (create_resource_fp []); intros; exact I|reflexivity]
  | |- footprint _ (create_or_update _ _ _ (λ _, mret _)) =>
      eapply footprint_writes_mono; [apply (create_or_update_fp []); intros; exact I|reflexivity]
  | |- footprint _ _ =>
      try (eapply footprint_writes_mono; [solve [eauto 1 with fp nocore]|reflexivity])
  | _ => idtac
  end.

(** ** The create-or-update step against an API server *)

Section Server.
Context `{CD : Codec} {S} (h : handler kreq S) (lookup : S → ∀ k, ObjectKey → option (obj k))
  `{!Server h lookup}.

Lemma run_record_event cr t re m s :
  ∃ s', run h (record_event cr t re m) s = (Returned tt, s') ∧ lookup s' = lookup s.
Proof.
  unfold record_event. rewrite run_request. eexists; split; [|apply server_event].
  by destruct (h _ _ s).1.
Qed.

Lemma run_get {A k} key s o (f : result (obj k) → kprog A) :
  lookup s k key = Some o →
  ∃ s', lookup s' = lookup s ∧
        run h (r ← request (Get k key); f r) s = run h (f (Ok o)) s' ∧
        run_trace h (r ← request (Get k key); f r) s =
          Ev (Get k key) (Ok o) :: run_trace h (f (Ok o)) s'.
Proof.
  intros Hs. destruct (server_get s k key) as [Hg Hl]. rewrite Hs in Hg.
  exists (h _ (Get k key) s).2. split; [done|]. unfold request; simpl.
  destruct (h _ (Get k key) s) as [x s1]; simpl in *; by subst.
Qed.

Lemma update_same {k} cr name (o : obj k) : update_resource cr name o o = mret None.
Proof. unfold update_resource, DeepEqual. by rewrite bool_decide_eq_true_2. Qed.

Lemma run_update_resource {k} cr name (found merged : obj k) s :
  lookup s k (ObjectKeyFromObject merged) = Some found →
  DeletionTimestamp (o_meta merged) = None →
  ∃ s', run h (update_resource cr name found merged) s = (Returned None, s') ∧
        lookup s' k (ObjectKeyFromObject merged) = Some merged ∧
        ∀ k' key', (k', key') ≠ (k, ObjectKeyFromObject merged) → lookup s' k' key' = lookup s k' key'.
Proof.
  intros Hs Hd. destruct (decide (found = merged)) as [->|Hne].
  { rewrite update_same. by exists s. }
  unfold update_resource, DeepEqual. rewrite bool_decide_eq_false_2 by done.
  unfold with_ok. rewrite run_bind, run_request.
  destruct (server_update s k merged) as [Hu Hl]; [eauto|done|]. rewrite Hu.
  rewrite run_bind.
  destruct (run_record_event cr EventTypeNormal updateResourceSuccess
              (updateMessageSucceeded k name) (h _ (Update k merged) s).2) as (s2 & -> & Hs2).
  exists s2. split; [done|]. rewrite Hs2. split; [done|]. intros; by apply server_update_other.
Qed.

(** No object there: one is created, as desired. *)
Lemma run_create {k} cr (desired : obj k) s :
  lookup s k (ObjectKeyFromObject desired) = None →
  ∃ s', run h (create_or_update cr (ObjectKeyFromObject desired) desired (λ _, mret None)) s = (Returned None, s') ∧
        lookup s' k (ObjectKeyFromObject desired) = Some desired ∧
        ∀ k' key', (k', key') ≠ (k, ObjectKeyFromObject desired) → lookup s' k' key' = lookup s k' key'.
Proof.
  intros Hs. unfold create_or_update. rewrite run_bind, run_request.
  destruct (server_get s k (ObjectKeyFromObject desired)) as [Hget Hl]. rewrite Hget, Hs.
  set (s1 := (h _ _ s).2) in *.
  change (IsNotFound _) with true; cbv iota. unfold create_resource, with_ok.
  rewrite run_bind, run_request.
  destruct (server_create s1 k desired) as [Hc Hc']; [by rewrite Hl|]. rewrite Hc.
  rewrite run_bind.
  destruct (run_record_event cr EventTypeNormal createResourceSuccess
              (createMessageSucceeded k (o_name desired)) (h _ (Create k desired) s1).2) as (s3 & -> & Hs3).
  eexists; split; [done|]. rewrite Hs3. split; [done|].
  intros k' key' Hne. rewrite server_create_other by done. by rewrite Hl.
Qed.

(** The object is there as desired: nothing is written. *)
Lemma run_unchanged {k} cr (desired : obj k) after m v original s :
  encodes desired m →
  map_get (Annotations (o_meta desired)) lastAppliedConfigAnnotation = Some v →
  parse_original v = Ok (JObj original) →
  lookup s k (ObjectKeyFromObject desired) = Some desired →
  ∃ s', run h (create_or_update cr (ObjectKeyFromObject desired) desired after) s = (Returned None, s') ∧
        lookup s' = lookup s ∧
        Forall (λ '(Ev r _), is_write r = false) (run_trace h (create_or_update cr (ObjectKeyFromObject desired) desired after) s).
Proof.
  intros He Hv Ho Hs. unfold create_or_update. rewrite run_bind, run_request.
  destruct (server_get s k (ObjectKeyFromObject desired)) as [Hget Hl].
  assert (Hm : merge_and_update cr desired desired = mret None).
  { unfold merge_and_update. rewrite with_meta_id by apply merge_same.
    rewrite (mergeObject_same _ _ _ _ He Hv Ho); simpl.
    unfold update_resource, DeepEqual. by rewrite bool_decide_eq_true_2. }
  rewrite Hget, Hs, Hm. eexists; split; [done|]. split; [done|].
  unfold request; simpl. rewrite (surjective_pairing (h _ _ s)), Hget, Hs, Hm.
  repeat constructor.
Qed.
End Server.

(** A codec for objects without a body of their own, such as service accounts:
    the document holds their metadata. *)
Definition doc_of_map (m : gomap) : option json :=
  (λ m : gmap string string, JObj (JStr <$> m)) <$> m.

Definition map_of_doc (d : option json) : gomap :=
  match d with
  | Some (JObj m) => Some (omap (λ v, match v with JStr s => Some s | _ => None end) m)
  | _ => None
  end.

Definition meta_doc (m : ObjectMeta) : jdoc :=
  let entry (key : string) (v : option json) (d : jdoc) : jdoc :=
    match v with Some v => <[key := v]> d | None => d end in
  {[ "metadata" :=
       JObj (entry "labels" (doc_of_map (Labels m))
               (entry "annotations" (doc_of_map (Annotations m))
                  {[ "name" := JStr (Name m); "namespace" := JStr (Namespace m) ]})) ]}.

Definition doc_meta (d : jdoc) : ObjectMeta :=
  let md := sub_doc (d !! "metadata") in
  let str key := match md !! key with Some (JStr s) => s | _ => "" end in
  set_Annotations (map_of_doc (md !! "annotations"))
    (object_meta (str "name") (str "namespace") (map_of_doc (md !! "labels"))).

Definition account_codec : Codec := {|
  Marshal k o := Ok (JObj (meta_doc (o_meta o)));
  Unmarshal k := match k return json → result (obj k) with
                 | KServiceAccount => λ d, match d with
                     | JObj m => Ok (Obj (k:=KServiceAccount) no_type (doc_meta m) "")
                     | _ => Err (Errorf "not an object")
                     end
                 | _ => λ _, Err (Errorf "not supported")
                 end;
  print_json d := match sub_doc (sub_doc (Some d) !! "metadata") !! "name" with
                  | Some (JStr s) => s | _ => "" end;
  parse_json s := Ok (JObj {[ "metadata" := JObj {[ "name" := JStr s ]} ]});
  patch_error := Errorf "patch" |}.

Definition example_account : obj KServiceAccount :=
  Obj (k:=KServiceAccount) no_type (object_meta "sa" "ns" (Some {[ "k8s-app" := "hpp" ]})) "".

Definition example_cr : HostPathProvisioner :=
  Obj (k:=KHostPathProvisioner) {| APIVersion := SchemeGroupVersion; Kind := HostPathProvisionerKind |}
    (object_meta "hpp" "" None)
    ({| cr_ImagePullPolicy := ""; cr_PathConfig := None;
        Workload := {| place_NodeSelector := None; place_Affinity := None; place_Tolerations := [] |};
        FeatureGates := []; StoragePools := [] |},
     {| Conditions := []; OperatorVersion := ""; TargetVersion := ""; ObservedVersion := "";
        StoragePoolStatuses := None |}).

(** The state the reconcile functions hand to [mergeObject]: the found object
    with the desired labels and annotations already copied into it. *)
Definition merge_target {k} (desired found : obj k) : obj k :=
  with_meta (mergeLabelsAndAnnotations (o_meta desired)) found.

(** ** Properties *)



(** The three-way merge of an existing object never removes a field.  The
    reconcile functions copy the desired annotations, the new last-applied
    configuration included, into the object they found before [mergeObject]
    reads it back: the merge is the two-way merge of the desired and the found
    object, whatever the object's previous last-applied configuration was, and
    every field of the found object that the desired one does not mention is
    kept, also when a previous version of the operator had put it there. *)
Theorem merge_never_prunes `{CD : Codec} {k} (desired0 found : obj k) o m c n :
  let desired := setLastAppliedConfiguration desired0 in
  let current := merge_target desired found in
  Marshal desired0 = Ok (JObj o) → parse_original (print_json (JObj o)) = Ok (JObj o) →
  Marshal (with_meta (set_CreationTimestamp (CreationTimestamp (o_meta found))) desired) = Ok (JObj m) →
  Marshal current = Ok (JObj c) →
  null_free (JObj m) = true → doc_name m = Some (JStr n) → doc_name c = Some (JStr n) →
  extends (JObj m) (Some (JObj o)) = true →
  let merged := merge3 (JObj m) None (Some (JObj c)) in
  (mergeObject desired current).2 = Unmarshal k merged ∧
  ∀ key v, c !! key = Some v → m !! key = None → sub_doc (Some merged) !! key = Some v.
Proof.
  intros desired current Ho Hp Hm Hc Hn Hname Hcname Hext merged. split.
  - unfold mergeObject. unfold current at 1, merge_target.
    cbn [o_meta with_meta mergeLabelsAndAnnotations set_Annotations Annotations].
    rewrite map_get_copy_entries. unfold desired at 1.
    rewrite (setLastAppliedConfiguration_annotation _ _ Ho). cbn [snd].
    change (CreationTimestamp (o_meta current)) with (CreationTimestamp (o_meta found)).
    rewrite Hm, Hc, Hp, (three_way_merge_merge3 o m c n) by done.
    by rewrite merge3_extends.
  - intros key v Hv Hk. unfold merged. rewrite merge3_lookup. unfold merge3_at; cbn [sub_doc].
    by rewrite Hk, lookup_empty.
Qed.

(** A codec whose last-applied texts are all read back as [o]. *)
Definition codec_reading (o : jdoc) : Codec := {|
  Marshal k := Marshal (Codec:=account_codec) (k:=k);
  Unmarshal := Unmarshal (Codec:=account_codec);
  print_json := print_json (Codec:=account_codec);
  parse_json s := Ok (JObj o);
  patch_error := patch_error (Codec:=account_codec) |}.

(** The service account as an older operator left it: with a label the desired
    object no longer has. *)
Definition older_account : obj KServiceAccount :=
  with_meta (set_Labels (Some {[ "k8s-app" := "hpp"; "old" := "yes" ]})) example_account.

Lemma merge_never_prunes_witness :
  let C := codec_reading (meta_doc (o_meta example_account)) in
  let desired := setLastAppliedConfiguration (CD:=C) example_account in
  ∃ merged, (mergeObject (CD:=C) desired (merge_target desired older_account)).2 = Ok merged ∧
            map_get (Labels (o_meta merged)) "old" = Some "yes".
Proof.
  pose (C := codec_reading (meta_doc (o_meta example_account))).
  pose (desired := setLastAppliedConfiguration (CD:=C) example_account).
  eexists. split.
  - refine (eq_trans (proj1 (merge_never_prunes (CD:=C) example_account older_account
      (meta_doc (o_meta example_account)) (meta_doc (o_meta desired))
      (meta_doc (o_meta (merge_target desired older_account))) "sa" _ _ _ _ _ _ _ _)) _);
      vm_compute; reflexivity.
  - vm_compute. reflexivity.
Defined.

(** Copying labels and annotations keeps ours and the user's: each label
    and annotation of [src] is in the result with our value, every other one of
    [dest] is there unchanged, and nothing else of [dest] changes. *)
Theorem mergeLabelsAndAnnotations_spec (src dest : ObjectMeta) :
  let m := mergeLabelsAndAnnotations src dest in
  (∀ key, map_get (Labels m) key =
    match map_get (Labels src) key with Some v => Some v | None => map_get (Labels dest) key end) ∧
  (∀ key, map_get (Annotations m) key =
    match map_get (Annotations src) key with Some v => Some v | None => map_get (Annotations dest) key end) ∧
  set_Labels None (set_Annotations None m) = set_Labels None (set_Annotations None dest) ∧
  mergeLabelsAndAnnotations src m = m.
Proof.
  intros m. split_and!; [intros; apply map_get_copy_entries..|done|].
  unfold m, mergeLabelsAndAnnotations; cbn. by rewrite !copy_entries_idem.
Qed.

(** [SetControllerReference] succeeds exactly when the owner's namespace
    allows it and no other controller owns the object; then the object is
    controlled by the custom resource ([IsControlledBy]), setting the reference
    again changes nothing, and only the owner references changed. *)
Theorem SetControllerReference_spec {k} (cr : HostPathProvisioner) (o : obj k) :
  match SetControllerReference cr o with
  | Ok o' =>
      IsControlledBy (o_meta o') (o_meta cr) = true ∧
      SetControllerReference cr o' = Ok o' ∧
      with_meta (set_OwnerReferences (OwnerReferences (o_meta o))) o' = o
  | Err _ =>
      (o_namespace cr ≠ "" ∧ o_namespace cr ≠ o_namespace o) ∨
      ∃ r, GetControllerOf (o_meta o) = Some r ∧ referSameObject r (controller_ref cr) = false
  end.
Proof.
  pose proof (controller_ref_refl cr) as Hrefl.
  assert (Hv : validateOwner (o_meta cr) (o_meta o) = None ∨
    o_namespace cr ≠ "" ∧ o_namespace cr ≠ o_namespace o ∧
    is_Some (validateOwner (o_meta cr) (o_meta o))).
  { unfold validateOwner, o_namespace. repeat case_bool_decide; auto; right; (split; [congruence|]);
      (split; [congruence|eauto]). }
  assert (Hok : ∀ m, GetControllerOf (o_meta o) = m → from_option (λ r, referSameObject r (controller_ref cr)) true m = true →
    let o' := with_meta (set_OwnerReferences (upsertOwnerRef (controller_ref cr) (OwnerReferences (o_meta o)))) o in
    GetControllerOf (o_meta o') = Some (controller_ref cr)).
  { intros m Hm Hs. apply upsertOwnerRef_controller; [done..|]. intros r Hr.
    unfold GetControllerOf in Hm. rewrite Hr in Hm. by subst. }
  destruct (SetControllerReference cr o) as [o'|e] eqn:Hset; unfold SetControllerReference in Hset.
  - destruct (validateOwner _ _) eqn:Hval; [done|].
    assert (Hoo : from_option (λ r, referSameObject r (controller_ref cr)) true (GetControllerOf (o_meta o)) = true
                  ∧ o' = with_meta (set_OwnerReferences (upsertOwnerRef (controller_ref cr) (OwnerReferences (o_meta o)))) o).
    { destruct (GetControllerOf (o_meta o)) as [r|]; simpl; [|by simplify_eq].
      destruct (referSameObject r (controller_ref cr)); by simplify_eq. }
    destruct Hoo as [Hs ->]. specialize (Hok _ eq_refl Hs). simpl in Hok. split_and!.
    + unfold IsControlledBy. simpl. rewrite Hok. by rewrite bool_decide_eq_true_2.
    + unfold SetControllerReference. cbn [o_meta with_meta].
      rewrite (validateOwner_references (o_meta cr)), Hval, Hok, Hrefl.
      cbn [OwnerReferences set_OwnerReferences]. by rewrite upsertOwnerRef_idem.
    + destruct o as [? [] ?]; done.
  - destruct Hv as [Hval|(? & ? & ?)]; [|by left]. right. rewrite Hval in Hset.
    destruct (GetControllerOf (o_meta o)) as [r|]; [|done].
    destruct (referSameObject r (controller_ref cr)) eqn:?; [done|]. eauto.
Qed.
