(* ===== verification/Conditions.v ===== *)
(** * Status conditions of the custom resource

    pkg/controller/hostpathprovisioner/cr.go, the vendored
    openshift/custom-resource-status/conditions/v1/conditions.go it calls, and
    [ignoreHeartBeatTimestamp] (controller.go).  [time.Now] is a request, so two
    readings in one call may differ. *)
From S2P Require Import Prelude Prog Api K8s.

Definition ConditionAvailable := "Available".
Definition ConditionProgressing := "Progressing".
Definition ConditionDegraded := "Degraded".
Definition ConditionTrue := "True".
Definition ConditionFalse := "False".

(** ** conditions.go *)

(** A condition as a caller writes it, without times. *)
Definition new_condition (type status reason message : string) : Condition :=
  {| cond_Type := type; cond_Status := status; Reason := reason; Message := message;
     LastHeartbeatTime := 0; LastTransitionTime := 0 |}.

Definition set_Heartbeat (t : Z) (c : Condition) : Condition :=
  {| cond_Type := cond_Type c; cond_Status := cond_Status c; Reason := Reason c;
     Message := Message c; LastHeartbeatTime := t; LastTransitionTime := LastTransitionTime c |}.

Definition has_type (type : string) (c : Condition) : bool := bool_decide (cond_Type c = type).

Definition FindStatusCondition (conds : list Condition) (type : string) : option Condition :=
  List.find (has_type type) conds.

(** Write [f c] over the first condition of the type. *)
Fixpoint update_condition (type : string) (f : Condition → Condition) (conds : list Condition) :
    list Condition :=
  match conds with
  | [] => []
  | c :: conds => if has_type type c then f c :: conds else c :: update_condition type f conds
  end.

Definition SetStatusCondition (conds : list Condition) (new : Condition) : kprog (list Condition) :=
  match FindStatusCondition conds (cond_Type new) with
  | None =>
      transition ← request Now;
      heartbeat ← request Now;
      mret (conds ++ [{| cond_Type := cond_Type new; cond_Status := cond_Status new;
                         Reason := Reason new; Message := Message new;
                         LastHeartbeatTime := heartbeat; LastTransitionTime := transition |}])
  | Some existing =>
      transition ← (if bool_decide (cond_Status existing ≠ cond_Status new)
                    then request Now else mret (LastTransitionTime existing));
      heartbeat ← request Now;
      mret (update_condition (cond_Type new)
              (λ c, {| cond_Type := cond_Type c; cond_Status := cond_Status new;
                       Reason := Reason new; Message := Message new;
                       LastHeartbeatTime := heartbeat; LastTransitionTime := transition |}) conds)
  end.

Definition IsStatusConditionPresentAndEqual (conds : list Condition) (type status : string) : bool :=
  match FindStatusCondition conds type with
  | Some c => bool_decide (cond_Status c = status)
  | None => false
  end.
Definition IsStatusConditionTrue conds type := IsStatusConditionPresentAndEqual conds type ConditionTrue.
Definition IsStatusConditionFalse conds type := IsStatusConditionPresentAndEqual conds type ConditionFalse.

(** ** cr.go *)

Definition isDeploying (cr : HostPathProvisioner) : bool :=
  bool_decide (ObservedVersion (cr_Status cr) = "").

Definition isUpgrading (cr : HostPathProvisioner) : bool :=
  bool_decide (ObservedVersion (cr_Status cr) ≠ "") &&
  bool_decide (ObservedVersion (cr_Status cr) ≠ TargetVersion (cr_Status cr)).

(** [conditions.SetStatusCondition(&cr.Status.Conditions, ...)] *)
Definition set_cr_condition (new : Condition) (cr : HostPathProvisioner) : kprog HostPathProvisioner :=
  conds ← SetStatusCondition (cr_Conditions cr) new;
  mret (with_Status (set_Conditions conds) cr).

Definition MarkCrHealthyMessage (cr : HostPathProvisioner) (reason message : string) :
    kprog HostPathProvisioner :=
  cr ← set_cr_condition (new_condition ConditionAvailable ConditionTrue reason message) cr;
  cr ← set_cr_condition (new_condition ConditionProgressing ConditionFalse "" "") cr;
  set_cr_condition (new_condition ConditionDegraded ConditionFalse "" "") cr.

Definition IsCrHealthy (cr : HostPathProvisioner) : bool :=
  IsStatusConditionTrue (cr_Conditions cr) ConditionAvailable &&
  IsStatusConditionFalse (cr_Conditions cr) ConditionProgressing &&
  IsStatusConditionFalse (cr_Conditions cr) ConditionDegraded.

Definition MarkCrUpgradeHealingDegraded (cr : HostPathProvisioner) (reason message : string) :
    kprog HostPathProvisioner :=
  cr ← set_cr_condition (new_condition ConditionAvailable ConditionTrue "" "") cr;
  cr ← set_cr_condition (new_condition ConditionProgressing ConditionTrue "" "") cr;
  set_cr_condition (new_condition ConditionDegraded ConditionTrue reason message) cr.

Definition MarkCrFailed (cr : HostPathProvisioner) (reason message : string) :
    kprog HostPathProvisioner :=
  cr ← set_cr_condition (new_condition ConditionAvailable ConditionFalse "" "") cr;
  cr ← set_cr_condition (new_condition ConditionProgressing ConditionFalse "" "") cr;
  set_cr_condition (new_condition ConditionDegraded ConditionTrue reason message) cr.

Definition MarkCrFailedHealing (cr : HostPathProvisioner) (reason message : string) :
    kprog HostPathProvisioner :=
  cr ← set_cr_condition (new_condition ConditionAvailable ConditionFalse "" "") cr;
  cr ← set_cr_condition (new_condition ConditionProgressing ConditionTrue "" "") cr;
  set_cr_condition (new_condition ConditionDegraded ConditionTrue reason message) cr.

Definition MarkCrDeploying (cr : HostPathProvisioner) (reason message : string) :
    kprog HostPathProvisioner :=
  cr ← set_cr_condition (new_condition ConditionAvailable ConditionFalse "" "") cr;
  cr ← set_cr_condition (new_condition ConditionProgressing ConditionTrue reason message) cr;
  set_cr_condition (new_condition ConditionDegraded ConditionFalse "" "") cr.

Definition IsHppAvailable (cr : HostPathProvisioner) : bool :=
  existsb (λ c, bool_decide (cond_Type c = ConditionAvailable) && bool_decide (cond_Status c = ConditionTrue))
    (cr_Conditions cr).

Definition IsHppProgressing (cr : HostPathProvisioner) : bool :=
  existsb (λ c, bool_decide (cond_Type c = ConditionProgressing) && bool_decide (cond_Status c = ConditionTrue))
    (cr_Conditions cr).

(** ** controller.go *)

(** The loop of [ignoreHeartBeatTimestamp]: the conditions of the copy, with the
    heartbeat of [cr] where nothing else changed; [None] is the nil dereference
    on a condition type [cr] does not have. *)
Fixpoint ignore_heartbeats (copies conds : list Condition) : option (list Condition) :=
  match copies with
  | [] => Some []
  | condition :: copies =>
      crCond ← FindStatusCondition conds (cond_Type condition);
      let condition :=
        if bool_decide (Message crCond = Message condition) && bool_decide (Reason crCond = Reason condition)
           && bool_decide (cond_Status crCond = cond_Status condition)
        then set_Heartbeat (LastHeartbeatTime crCond) condition else condition in
      rest ← ignore_heartbeats copies conds;
      Some (condition :: rest)
  end.

Definition ignoreHeartBeatTimestamp (currentCopy cr : HostPathProvisioner) : kprog HostPathProvisioner :=
  match ignore_heartbeats (cr_Conditions currentCopy) (cr_Conditions cr) with
  | None => Panic nil_dereference
  | Some conds => mret (with_Status (set_Conditions conds) currentCopy)
  end.

(** ** Lemmas *)

Definition status_of (conds : list Condition) (type : string) : option string :=
  cond_Status <$> FindStatusCondition conds type.

Lemma find_type conds type c : FindStatusCondition conds type = Some c → cond_Type c = type.
Proof. intros H%List.find_some. destruct H as [_ H]. by apply bool_decide_eq_true in H. Qed.

Lemma find_None_type conds type : FindStatusCondition conds type = None ↔ type ∉ cond_Type <$> conds.
Proof.
  unfold FindStatusCondition. induction conds as [|c conds IH]; [set_solver|]. cbn [List.find fmap list_fmap].
  unfold has_type at 1. case_bool_decide; [set_solver|]. rewrite IH. set_solver.
Qed.

Lemma find_app conds c type :
  FindStatusCondition (conds ++ [c]) type =
  match FindStatusCondition conds type with
  | Some x => Some x
  | None => if has_type type c then Some c else None
  end.
Proof. unfold FindStatusCondition. induction conds as [|d conds IH]; simpl; [done|]. by destruct (has_type type d). Qed.

Section Update.
Context (type : string) (f : Condition → Condition) (Hf : ∀ c, cond_Type (f c) = cond_Type c).

Lemma find_update conds ty :
  FindStatusCondition (update_condition type f conds) ty =
  if bool_decide (ty = type) then f <$> FindStatusCondition conds ty
  else FindStatusCondition conds ty.
Proof.
  unfold FindStatusCondition.
  induction conds as [|c conds IH]; simpl; [by case_bool_decide|].
  destruct (has_type type c) eqn:Hc; simpl.
  - unfold has_type in *. apply bool_decide_eq_true in Hc. rewrite Hf.
    case_bool_decide; [by rewrite bool_decide_eq_true_2 by congruence|].
    by rewrite bool_decide_eq_false_2 by congruence.
  - rewrite IH. unfold has_type in *. apply bool_decide_eq_false in Hc.
    repeat case_bool_decide; naive_solver.
Qed.

Lemma types_update conds : cond_Type <$> update_condition type f conds = cond_Type <$> conds.
Proof.
  induction conds as [|c conds IH]; [done|]. cbn [update_condition].
  destruct (has_type type c); rewrite !fmap_cons; [by rewrite Hf|by rewrite IH].
Qed.
End Update.

(** The conditions after [SetStatusCondition conds new], up to the clock. *)
Record condition_set (conds : list Condition) (new : Condition) (conds' : list Condition) : Prop := {
  cs_other ty : ty ≠ cond_Type new → FindStatusCondition conds' ty = FindStatusCondition conds ty;
  cs_new : ∃ x, FindStatusCondition conds' (cond_Type new) = Some x ∧
    cond_Status x = cond_Status new ∧ Reason x = Reason new ∧ Message x = Message new ∧
    ∀ y, FindStatusCondition conds (cond_Type new) = Some y → cond_Status y = cond_Status new →
         LastTransitionTime x = LastTransitionTime y;
  cs_types : cond_Type <$> conds' =
    (cond_Type <$> conds) ++
    (if bool_decide (cond_Type new ∈ cond_Type <$> conds) then [] else [cond_Type new]) }.

(** [tr'] extends [tr] with readings of the clock. *)
Definition clock_only {T} (r : kreq T) : Prop := match r with Now => True | _ => False end.
Definition extends_clock (tr tr' : ktrace) : Prop :=
  ∃ l, tr' = tr ++ l ∧ Forall (λ '(Ev r _), clock_only r) l.

Lemma extends_clock_refl tr : extends_clock tr tr.
Proof. exists []. by rewrite app_nil_r. Qed.
Lemma extends_clock_now tr tr' t : extends_clock tr tr' → extends_clock tr (tr' ++ [Ev Now t]).
Proof. intros (l & -> & Hl). exists (l ++ [Ev Now t]). rewrite app_assoc. split; [done|]. apply Forall_app. by repeat constructor. Qed.
Lemma extends_clock_trans tr tr' tr'' : extends_clock tr tr' → extends_clock tr' tr'' → extends_clock tr tr''.
Proof. intros (l & -> & ?) (l' & -> & ?). exists (l ++ l'). rewrite app_assoc. split; [done|]. by apply Forall_app. Qed.
#[export] Hint Resolve extends_clock_refl extends_clock_now : hpp.

Section Conditions.
Context (R : rely kreq) (G : guarantee kreq) (HG : ∀ tr, G tr Z Now).

Lemma wp_SetStatusCondition conds new (Q : ktrace → outcome (list Condition) → Prop) tr :
  (∀ tr' conds', condition_set conds new conds' → extends_clock tr tr' → Q tr' (Returned conds')) →
  wp R G (SetStatusCondition conds new) Q tr.
Proof.
  intros HQ. unfold SetStatusCondition.
  destruct (FindStatusCondition conds (cond_Type new)) as [old|] eqn:Hold.
  - assert (Hin : cond_Type new ∈ cond_Type <$> conds).
    { apply dec_stable. rewrite <-find_None_type. by rewrite Hold. }
    assert (Hset : ∀ t h, (cond_Status old = cond_Status new → t = LastTransitionTime old) →
      condition_set conds new (update_condition (cond_Type new)
            (λ c, {| cond_Type := cond_Type c; cond_Status := cond_Status new;
                     Reason := Reason new; Message := Message new;
                     LastHeartbeatTime := h; LastTransitionTime := t |}) conds)).
    { intros t hb Ht. split.
      - intros ty Hty. by rewrite find_update, bool_decide_eq_false_2.
      - rewrite find_update, bool_decide_eq_true_2, Hold by done. eexists; split; [done|].
        simpl. split_and!; try done. intros y [= <-] Hy. auto.
      - rewrite types_update, bool_decide_eq_true_2, app_nil_r by done. done. }
    case_bool_decide as Hs; simpl; (split; [apply HG|]); intros t _; [split; [apply HG|intros hb _]|];
      apply HQ; auto with hpp; apply Hset; naive_solver.
  - assert (Hin : cond_Type new ∉ cond_Type <$> conds) by by apply find_None_type.
    simpl; split; [apply HG|]; intros t _; split; [apply HG|]; intros hb _.
    apply HQ; [|auto with hpp]. split.
    + intros ty Hty. rewrite find_app. destruct (FindStatusCondition conds ty); [done|].
      unfold has_type. by rewrite bool_decide_eq_false_2 by (simpl; congruence).
    + rewrite find_app, Hold. unfold has_type; simpl. rewrite bool_decide_eq_true_2 by done.
      eexists; split; [done|]. simpl. split_and!; done.
    + rewrite fmap_app, bool_decide_eq_false_2 by done. done.
Qed.

Lemma wp_set_cr_condition new cr (Q : ktrace → outcome HostPathProvisioner → Prop) tr :
  (∀ tr' conds', condition_set (cr_Conditions cr) new conds' → extends_clock tr tr' →
     Q tr' (Returned (with_Status (set_Conditions conds') cr))) →
  wp R G (set_cr_condition new cr) Q tr.
Proof.
  intros HQ. unfold set_cr_condition. apply wp_bind, wp_SetStatusCondition.
  intros tr' conds' Hc Hx. simpl. auto.
Qed.
End Conditions.

Lemma condition_set_NoDup conds new conds' :
  condition_set conds new conds' → NoDup (cond_Type <$> conds) → NoDup (cond_Type <$> conds').
Proof.
  intros [_ _ ->] Hnd. case_bool_decide; [by rewrite app_nil_r|].
  apply NoDup_app. split; [done|]. split; [set_solver|]. apply NoDup_singleton.
Qed.

Lemma condition_set_types conds new conds' ty :
  condition_set conds new conds' → ty ∈ cond_Type <$> conds → ty ∈ cond_Type <$> conds'.
Proof. intros [_ _ ->]. set_solver. Qed.

Lemma condition_set_status conds new conds' ty :
  condition_set conds new conds' →
  status_of conds' ty = if bool_decide (ty = cond_Type new) then Some (cond_Status new) else status_of conds ty.
Proof.
  intros [Ho (x & Hx & Hs & _) _]. unfold status_of. case_bool_decide as Ht.
  - subst. rewrite Hx; simpl. congruence.
  - by rewrite Ho.
Qed.

(** ** The marks *)

(** Set several conditions in a row. *)
Fixpoint set_all (news : list Condition) (cr : HostPathProvisioner) : kprog HostPathProvisioner :=
  match news with
  | [] => mret cr
  | new :: news => cr ← set_cr_condition new cr; set_all news cr
  end.

Definition carries (conds : list Condition) (new : Condition) : Prop :=
  ∃ x, FindStatusCondition conds (cond_Type new) = Some x ∧
       cond_Status x = cond_Status new ∧ Reason x = Reason new ∧ Message x = Message new.

(** [cr'] is [cr] with the conditions [news] set. *)
Record marked (cr : HostPathProvisioner) (news : list Condition) (cr' : HostPathProvisioner) : Prop := {
  mk_new new : new ∈ news → carries (cr_Conditions cr') new;
  mk_other ty : ty ∉ cond_Type <$> news →
    FindStatusCondition (cr_Conditions cr') ty = FindStatusCondition (cr_Conditions cr) ty;
  mk_types ty : ty ∈ cond_Type <$> cr_Conditions cr → ty ∈ cond_Type <$> cr_Conditions cr';
  mk_NoDup : NoDup (cond_Type <$> cr_Conditions cr) → NoDup (cond_Type <$> cr_Conditions cr');
  mk_frame : cr' = with_Status (set_Conditions (cr_Conditions cr')) cr }.

Lemma marked_status cr news cr' new :
  marked cr news cr' → new ∈ news → status_of (cr_Conditions cr') (cond_Type new) = Some (cond_Status new).
Proof. intros Hm Hn. destruct (mk_new _ _ _ Hm new Hn) as (x & Hx & Hs & _). unfold status_of. rewrite Hx; simpl. congruence. Qed.

Section Marks.
Context (R : rely kreq) (G : guarantee kreq) (HG : ∀ tr, G tr Z Now).

Lemma wp_set_all news : ∀ cr (Q : ktrace → outcome HostPathProvisioner → Prop) tr,
  NoDup (cond_Type <$> news) →
  (∀ tr' cr', marked cr news cr' → extends_clock tr tr' → Q tr' (Returned cr')) →
  wp R G (set_all news cr) Q tr.
Proof.
  induction news as [|new news IH]; intros cr Q tr Hnd HQ; cbn [set_all].
  - apply HQ; [|apply extends_clock_refl]. split; try done; [set_solver|]. destruct cr as [? ? [? []]]; done.
  - apply NoDup_cons in Hnd as [Hnew Hnd]. apply wp_bind, wp_set_cr_condition; [done|].
    intros tr1 conds1 Hset Htr1. apply IH; [done|]. intros tr' cr' Hm Htr'.
    apply HQ; [|by eapply extends_clock_trans]. destruct Hm as [Hn Ho Ht Hd Hf].
    change (cr_Conditions (with_Status (set_Conditions conds1) cr)) with conds1 in *. split.
    + intros n [->|?]%elem_of_cons; [|auto]. unfold carries. rewrite Ho by done.
      destruct (cs_new _ _ _ Hset) as (x & ? & ? & ? & ? & _). eauto.
    + intros ty Hty. rewrite Ho by set_solver. apply (cs_other _ _ _ Hset). set_solver.
    + intros ty Hty. eapply Ht, condition_set_types; eauto.
    + intros. eapply Hd, condition_set_NoDup; eauto.
    + rewrite Hf at 1. done.
Qed.
End Marks.

(** The marks of cr.go, and the statuses (available, progressing, degraded) their
    comments promise. *)
Inductive mark := Healthy | UpgradeHealingDegraded | Failed | FailedHealing | Deploying.

#[export] Instance mark_eq_dec : EqDecision mark.
Proof. solve_decision. Defined.

Definition mark_cr (m : mark) : HostPathProvisioner → string → string → kprog HostPathProvisioner :=
  match m with
  | Healthy => MarkCrHealthyMessage
  | UpgradeHealingDegraded => MarkCrUpgradeHealingDegraded
  | Failed => MarkCrFailed
  | FailedHealing => MarkCrFailedHealing
  | Deploying => MarkCrDeploying
  end.

Definition mark_statuses (m : mark) : bool * bool * bool :=
  match m with
  | Healthy => (true, false, false)
  | UpgradeHealingDegraded => (true, true, true)
  | Failed => (false, false, true)
  | FailedHealing => (false, true, true)
  | Deploying => (false, true, false)
  end.

Definition status_string (b : bool) : string := if b then ConditionTrue else ConditionFalse.

(** The condition that carries the reason and the message of a mark. *)
Definition mark_subject (m : mark) : string :=
  match m with
  | Healthy => ConditionAvailable
  | Deploying => ConditionProgressing
  | _ => ConditionDegraded
  end.

Definition mark_conditions (m : mark) (reason message : string) : list Condition :=
  let '(a, p, d) := mark_statuses m in
  (λ '(ty, b), let main := bool_decide (ty = mark_subject m) in
     new_condition ty (status_string b) (if main then reason else "") (if main then message else "")) <$>
  [(ConditionAvailable, a); (ConditionProgressing, p); (ConditionDegraded, d)].

Lemma wp_mark R (G : guarantee kreq) m cr reason message (Q : ktrace → outcome HostPathProvisioner → Prop) tr :
  (∀ tr, G tr Z Now) →
  (∀ tr' cr', marked cr (mark_conditions m reason message) cr' → extends_clock tr tr' → Q tr' (Returned cr')) →
  wp R G (mark_cr m cr reason message) Q tr.
Proof.
  intros HG HQ.
  assert (Hw : wp R G (set_all (mark_conditions m reason message) cr) Q tr).
  { apply wp_set_all; [done| |done]. destruct m; vm_compute; repeat constructor; set_solver. }
  destruct m; cbn [mark_conditions mark_statuses fmap list_fmap set_all] in Hw; cbn [mark_cr].
  all: unfold MarkCrHealthyMessage, MarkCrUpgradeHealingDegraded, MarkCrFailed, MarkCrFailedHealing,
    MarkCrDeploying; apply wp_bind; apply wp_bind in Hw; eapply wp_post; [exact Hw|].
  all: intros tr1 [cr1| |]; simpl; [|done..]; intros Hw1.
  all: apply wp_bind; apply wp_bind in Hw1; eapply wp_post; [exact Hw1|].
  all: intros tr2 [cr2| |]; simpl; [|done..]; intros Hw2.
  all: apply wp_bind in Hw2; eapply wp_post; [exact Hw2|]; intros tr3 []; simpl; done.
Qed.

(** With one condition per type, the loops of cr.go agree with the first match. *)
Lemma exists_status_of conds ty st :
  NoDup (cond_Type <$> conds) →
  existsb (λ c, bool_decide (cond_Type c = ty) && bool_decide (cond_Status c = st)) conds =
  bool_decide (status_of conds ty = Some st).
Proof.
  unfold status_of, FindStatusCondition.
  induction conds as [|c conds IH]; [done|]. rewrite fmap_cons. intros [Hc Hnd]%NoDup_cons.
  cbn [existsb List.find]. rewrite (IH Hnd). change (bool_decide (cond_Type c = ty)) with (has_type ty c).
  destruct (has_type ty c) eqn:Hty; cbn [andb orb]; [|done].
  apply bool_decide_eq_true in Hty.
  replace (List.find (has_type ty) conds) with (@None Condition);
    [|symmetry; apply find_None_type; by rewrite <-Hty].
  rewrite (bool_decide_eq_false_2 (cond_Status <$> None = Some st)), orb_false_r by done.
  apply bool_decide_ext. naive_solver.
Qed.

Lemma present_and_equal conds ty st :
  IsStatusConditionPresentAndEqual conds ty st = bool_decide (status_of conds ty = Some st).
Proof.
  unfold IsStatusConditionPresentAndEqual, status_of.
  destruct (FindStatusCondition conds ty) as [c|]; simpl; [|done]. apply bool_decide_ext. naive_solver.
Qed.

Lemma IsHppAvailable_status cr :
  NoDup (cond_Type <$> cr_Conditions cr) →
  IsHppAvailable cr = bool_decide (status_of (cr_Conditions cr) ConditionAvailable = Some ConditionTrue).
Proof. apply exists_status_of. Qed.

Lemma IsHppProgressing_status cr :
  NoDup (cond_Type <$> cr_Conditions cr) →
  IsHppProgressing cr = bool_decide (status_of (cr_Conditions cr) ConditionProgressing = Some ConditionTrue).
Proof. apply exists_status_of. Qed.

Lemma marked_statuses m reason message cr cr' :
  marked cr (mark_conditions m reason message) cr' →
  let '(a, p, d) := mark_statuses m in
  status_of (cr_Conditions cr') ConditionAvailable = Some (status_string a) ∧
  status_of (cr_Conditions cr') ConditionProgressing = Some (status_string p) ∧
  status_of (cr_Conditions cr') ConditionDegraded = Some (status_string d).
Proof.
  intros Hm.
  assert (Hs : ∀ new, new ∈ mark_conditions m reason message →
    status_of (cr_Conditions cr') (cond_Type new) = Some (cond_Status new)) by eauto using marked_status.
  unfold mark_conditions in Hs. destruct (mark_statuses m) as [[a p] d].
  rewrite <-Forall_forall in Hs. cbn [fmap list_fmap] in Hs.
  do 3 (apply Forall_cons in Hs as [? Hs]). done.
Qed.

(** ** Properties *)

(** C32: every mark of cr.go sets the three conditions to the statuses its
    comment promises, whatever the clock answers and whatever the conditions
    were: after it the resource is healthy ([IsCrHealthy]) exactly for the
    healthy mark, [IsHppAvailable] and [IsHppProgressing] read back the promised
    statuses when condition types are unique (which the marks preserve), the
    reason and the message are on the condition the mark is about, other
    conditions and the rest of the resource are unchanged, and the only requests
    made are readings of the clock. *)
Theorem mark_keeps_its_promise (R : rely kreq) (m : mark) (cr : HostPathProvisioner)
    (reason message : string) tr :
  wp R (λ _ T r, clock_only r) (mark_cr m cr reason message)
    (λ _ o, ∃ cr', o = Returned cr' ∧
       let '(a, p, d) := mark_statuses m in
       IsCrHealthy cr' = bool_decide (m = Healthy) ∧
       (NoDup (cond_Type <$> cr_Conditions cr) →
          NoDup (cond_Type <$> cr_Conditions cr') ∧ IsHppAvailable cr' = a ∧ IsHppProgressing cr' = p) ∧
       status_of (cr_Conditions cr') ConditionDegraded = Some (status_string d) ∧
       (∃ c, FindStatusCondition (cr_Conditions cr') (mark_subject m) = Some c ∧
             Reason c = reason ∧ Message c = message) ∧
       (∀ ty, ty ∉ [ConditionAvailable; ConditionProgressing; ConditionDegraded] →
          FindStatusCondition (cr_Conditions cr') ty = FindStatusCondition (cr_Conditions cr) ty) ∧
       cr' = with_Status (set_Conditions (cr_Conditions cr')) cr) tr.
Proof.
  apply wp_mark; [done|]. intros tr' cr' Hm _. exists cr'. split; [done|].
  pose proof (marked_statuses _ _ _ _ _ Hm) as Hs.
  destruct (mark_statuses m) as [[a p] d] eqn:Hst. destruct Hs as (Ha & Hp & Hd). split_and!; try done.
  - unfold IsCrHealthy, IsStatusConditionTrue, IsStatusConditionFalse.
    rewrite !present_and_equal, Ha, Hp, Hd. destruct m; simplify_eq/=; done.
  - intros Hnd. pose proof (mk_NoDup _ _ _ Hm Hnd) as Hnd'. split; [done|].
    rewrite IsHppAvailable_status, IsHppProgressing_status, Ha, Hp by done.
    by destruct a, p.
  - destruct (mk_new _ _ _ Hm (new_condition (mark_subject m)
      (status_string (match m with Healthy | Deploying => true | _ => d end)) reason message))
      as (c & ? & _ & ? & ?); [|eauto].
    destruct m; simplify_eq/=; vm_compute; set_solver.
  - intros ty Hty. apply (mk_other _ _ _ Hm). unfold mark_conditions. rewrite Hst. done.
  - apply (mk_frame _ _ _ Hm).
Qed.

(** [SetStatusCondition] keeps one condition per type and dates status
    changes: the condition has the new status, reason and message, its
    transition time is the old one when the status did not change, no other
    condition changes, and no type is lost or duplicated. *)
Theorem SetStatusCondition_spec (R : rely kreq) (conds : list Condition) (new : Condition) tr :
  wp R (λ _ T r, clock_only r) (SetStatusCondition conds new)
    (λ _ o, ∃ conds', o = Returned conds' ∧
       carries conds' new ∧
       (∀ old x, FindStatusCondition conds (cond_Type new) = Some old →
          FindStatusCondition conds' (cond_Type new) = Some x → cond_Status old = cond_Status new →
          LastTransitionTime x = LastTransitionTime old) ∧
       (∀ ty, ty ≠ cond_Type new → FindStatusCondition conds' ty = FindStatusCondition conds ty) ∧
       (∀ ty, ty ∈ cond_Type <$> conds → ty ∈ cond_Type <$> conds') ∧
       (NoDup (cond_Type <$> conds) → NoDup (cond_Type <$> conds'))) tr.
Proof.
  apply wp_SetStatusCondition; [done|]. intros tr' conds' Hset _. exists conds'.
  split; [done|]. pose proof (cs_new _ _ _ Hset) as (x & Hx & ? & ? & ? & Ht).
  split_and!; [by exists x| |apply (cs_other _ _ _ Hset)|..].
  - intros old y Hold Hy Hs. simplify_eq. by apply Ht.
  - intros ty. by apply (condition_set_types _ _ _ _ Hset).
  - by apply (condition_set_NoDup _ _ _ Hset).
Qed.

Lemma ignore_heartbeats_None copies conds :
  ignore_heartbeats copies conds = None ↔
  ∃ c, c ∈ copies ∧ FindStatusCondition conds (cond_Type c) = None.
Proof.
  induction copies as [|c copies IH]; cbn [ignore_heartbeats]; [set_solver|].
  destruct (FindStatusCondition conds (cond_Type c)) eqn:Hf; cbn [mbind option_bind].
  - destruct (ignore_heartbeats copies conds) as [l|]; cbn [mbind option_bind]; [|set_solver].
    split; [done|]. intros (c' & [->|?]%elem_of_cons & ?); [congruence|].
    assert (Some l = None) by (apply IH; eauto). done.
  - split; [|done]. intros _. exists c. set_solver.
Qed.

Lemma find_NoDup conds c :
  NoDup (cond_Type <$> conds) → c ∈ conds → FindStatusCondition conds (cond_Type c) = Some c.
Proof.
  unfold FindStatusCondition. induction conds as [|d conds IH]; [set_solver|].
  rewrite fmap_cons. intros [Hd Hnd]%NoDup_cons [->|Hc]%elem_of_cons; cbn [List.find].
  - unfold has_type at 1. by rewrite bool_decide_eq_true_2.
  - destruct (has_type (cond_Type c) d) eqn:He; [|auto].
    apply bool_decide_eq_true in He. destruct Hd. rewrite He. by apply list_elem_of_fmap_2.
Qed.

Lemma ignore_heartbeats_only conds : ∀ part hs,
  NoDup (cond_Type <$> conds) → part ⊆ conds → length hs = length part →
  ignore_heartbeats (zip_with set_Heartbeat hs part) conds = Some part.
Proof.
  intros part hs Hnd. revert hs. induction part as [|c part IH]; intros [|t hs] Hsub Hlen; try done.
  cbn [zip_with ignore_heartbeats]. change (cond_Type (set_Heartbeat t c)) with (cond_Type c).
  rewrite (find_NoDup conds c) by set_solver. cbn [mbind option_bind].
  rewrite !bool_decide_eq_true_2 by done. rewrite IH; [|set_solver|simpl in *; lia].
  destruct c; done.
Qed.

Lemma lacks_type (copies conds : list Condition) :
  (∃ c, c ∈ copies ∧ FindStatusCondition conds (cond_Type c) = None) ↔
  ∃ ty, ty ∈ cond_Type <$> copies ∧ FindStatusCondition conds ty = None.
Proof. set_solver. Qed.

Lemma types_zip_heartbeats hs : ∀ conds,
  length hs = length conds → cond_Type <$> zip_with set_Heartbeat hs conds = cond_Type <$> conds.
Proof.
  induction hs as [|t hs IH]; intros [|c conds] Hlen; try done.
  cbn [zip_with]. rewrite !fmap_cons, IH by (simpl in *; lia). done.
Qed.

(** [ignoreHeartBeatTimestamp] panics exactly when the resource lost a
    condition type its earlier copy had, and when only heartbeats changed it
    makes the copy equal to the resource, so that the comparison after it
    ([reflect.DeepEqual]) finds nothing to update. *)
Theorem heartbeats_are_ignored (cr : HostPathProvisioner) (hs : list Z) :
  NoDup (cond_Type <$> cr_Conditions cr) → length hs = length (cr_Conditions cr) →
  let currentCopy := with_Status (set_Conditions (zip_with set_Heartbeat hs (cr_Conditions cr))) cr in
  ignoreHeartBeatTimestamp currentCopy cr = mret cr ∧
  ∀ cr', (∃ msg, ignoreHeartBeatTimestamp currentCopy cr' = Panic msg) ↔
         ∃ c, c ∈ cr_Conditions cr ∧ FindStatusCondition (cr_Conditions cr') (cond_Type c) = None.
Proof.
  intros Hnd Hlen currentCopy. split.
  - unfold ignoreHeartBeatTimestamp. change (cr_Conditions currentCopy) with (zip_with set_Heartbeat hs (cr_Conditions cr)).
    rewrite ignore_heartbeats_only by done. by destruct cr as [? ? [? []]].
  - intros cr'. transitivity (ignore_heartbeats (cr_Conditions currentCopy) (cr_Conditions cr') = None).
    { unfold ignoreHeartBeatTimestamp. destruct (ignore_heartbeats _ _); naive_solver. }
    rewrite ignore_heartbeats_None.
    change (cr_Conditions currentCopy) with (zip_with set_Heartbeat hs (cr_Conditions cr)).
    by rewrite !lacks_type, types_zip_heartbeats.
Qed.

Definition deployed_cr : HostPathProvisioner :=
  Obj (k:=KHostPathProvisioner) no_type (object_meta "hpp" "" None)
    ({| cr_ImagePullPolicy := ""; cr_PathConfig := None;
        Workload := {| place_NodeSelector := None; place_Affinity := None; place_Tolerations := [] |};
        FeatureGates := []; StoragePools := [] |},
     {| Conditions := [set_Heartbeat 7 (new_condition ConditionAvailable ConditionTrue "Complete" "");
                       set_Heartbeat 8 (new_condition ConditionProgressing ConditionFalse "" "")];
        OperatorVersion := "1.0.0"; TargetVersion := "1.0.0"; ObservedVersion := "1.0.0";
        StoragePoolStatuses := None |}).

Lemma heartbeats_are_ignored_witness :
  ignoreHeartBeatTimestamp
    (with_Status (set_Conditions (zip_with set_Heartbeat [1; 2] (cr_Conditions deployed_cr))) deployed_cr)
    deployed_cr = mret deployed_cr.
Proof.
  apply (heartbeats_are_ignored deployed_cr [1; 2]); [|reflexivity].
  vm_compute. repeat constructor; set_solver.
Defined.
