(* ===== verification/Webhook.v ===== *)
(** * The validating webhook

    pkg/apis/hostpathprovisioner/v1beta1/hostpathprovisioner_webhook.go: which
    HostPathProvisioner resources are admitted, and what the names derived from
    an admitted resource satisfy. *)
From S2P Require Import Prelude GoStrings Names Api.

Definition maxStoragePoolNameLength : Z := 50.
Definition maxPathLength : Z := 255.

Definition validateStoragePool (storagePool : StoragePool) : error :=
  if bool_decide (pool_Name storagePool = "") then
    Some (Errorf "storagePool.name cannot be blank")
  else if maxStoragePoolNameLength <? len (pool_Name storagePool) then
    Some (Errorf "storagePool.name cannot have a length greater than 50")
  else if bool_decide (pool_Path storagePool = "") then
    Some (Errorf "storagePool.path cannot be blank")
  else if maxPathLength <? len (pool_Path storagePool) then
    Some (Errorf "storagePool.path cannot have a length greater than 255")
  else None.

Definition duplicate (field : string) (i index : Z) : goerror :=
  Errorf ("spec.storagePools[" +:+ sprintf_d i +:+ "]." +:+ field +:+ " is the same as spec.storagePools["
          +:+ sprintf_d index +:+ "]." +:+ field +:+ ", cannot have duplicate " +:+ field +:+ "s").

(** The loop of [validatePathConfigAndStoragePools], at index [i]. *)
Fixpoint validate_pools (pools : list StoragePool) (i : Z) (usedPaths usedNames : gmap string Z) : error :=
  match pools with
  | [] => None
  | source :: pools =>
      match validateStoragePool source with
      | Some err => Some err
      | None =>
          match usedPaths !! pool_Path source with
          | Some index => Some (duplicate "path" i index)
          | None =>
              match usedNames !! pool_Name source with
              | Some index => Some (duplicate "name" i index)
              | None =>
                  validate_pools pools (i + 1) (<[pool_Path source := i]> usedPaths)
                    (<[pool_Name source := i]> usedNames)
              end
          end
      end
  end.

Definition validatePathConfigAndStoragePools (hpp : HostPathProvisioner) : error :=
  let spec := cr_Spec hpp in
  match cr_PathConfig spec, StoragePools spec with
  | Some _, _ :: _ => Some (Errorf "pathConfig and storage pools cannot be both set")
  | None, [] => Some (Errorf "either pathConfig or storage pools must be set")
  | pathConfig, pools =>
      let blank := match pathConfig with Some p => len (pc_Path p) =? 0 | None => false end in
      if blank then Some (Errorf "pathconfig path must be set")
      else validate_pools pools 0 ∅ ∅
  end.

(** The three admission handlers; none of them returns warnings. *)
Definition ValidateCreate (hpp : HostPathProvisioner) : error := validatePathConfigAndStoragePools hpp.
Definition ValidateUpdate (oldObj newObj : HostPathProvisioner) : error :=
  validatePathConfigAndStoragePools newObj.
Definition ValidateDelete (hpp : HostPathProvisioner) : error := None.

(** ** Lemmas *)

Definition valid_pool (p : StoragePool) : Prop :=
  pool_Name p ≠ "" ∧ len (pool_Name p) <= 50 ∧ pool_Path p ≠ "" ∧ len (pool_Path p) <= 255.

Lemma validateStoragePool_None p : validateStoragePool p = None ↔ valid_pool p.
Proof.
  unfold validateStoragePool, valid_pool, maxStoragePoolNameLength, maxPathLength.
  repeat case_bool_decide; destruct (Z.ltb_spec 50 (len (pool_Name p)));
    destruct (Z.ltb_spec 255 (len (pool_Path p))); split; intros; try done; intuition (lia || congruence).
Qed.

Lemma validate_pools_None pools : ∀ i usedPaths usedNames,
  validate_pools pools i usedPaths usedNames = None ↔
  Forall valid_pool pools ∧
  NoDup (pool_Path <$> pools) ∧ (∀ p, p ∈ pools → usedPaths !! pool_Path p = None) ∧
  NoDup (pool_Name <$> pools) ∧ (∀ p, p ∈ pools → usedNames !! pool_Name p = None).
Proof.
  induction pools as [|p pools IH]; intros i paths names; cbn [validate_pools].
  { split; [|done]. intros _. split_and!; try constructor; set_solver. }
  rewrite !fmap_cons, !NoDup_cons, Forall_cons. rewrite <-validateStoragePool_None.
  destruct (validateStoragePool p); [naive_solver|].
  destruct (paths !! pool_Path p) eqn:Hp; [split; [done|]; intros (_ & _ & H & _); by rewrite (H p) in Hp by set_solver|].
  destruct (names !! pool_Name p) eqn:Hn; [split; [done|]; intros (_ & _ & _ & _ & H); by rewrite (H p) in Hn by set_solver|].
  rewrite IH. setoid_rewrite lookup_insert_None. setoid_rewrite elem_of_cons. set_solver.
Qed.

(** ** Properties *)

(** C37: the webhook admits exactly the well-formed resources: either a legacy
    path configuration with a non-blank path and no storage pools, or at least
    one storage pool and no path configuration, each pool with a name of 1 to 50
    bytes and a path of 1 to 255 bytes, no two pools with the same name or the
    same path.  Creation and update are judged alike; deletion is admitted. *)
Theorem webhook_admits (hpp old : HostPathProvisioner) :
  let spec := cr_Spec hpp in
  let well_formed :=
    (∃ p, cr_PathConfig spec = Some p ∧ pc_Path p ≠ "" ∧ StoragePools spec = []) ∨
    (cr_PathConfig spec = None ∧ StoragePools spec ≠ [] ∧ Forall valid_pool (StoragePools spec) ∧
     NoDup (pool_Name <$> StoragePools spec) ∧ NoDup (pool_Path <$> StoragePools spec)) in
  (ValidateCreate hpp = None ↔ well_formed) ∧ (ValidateUpdate old hpp = None ↔ well_formed) ∧
  ValidateDelete hpp = None.
Proof.
  intros spec well_formed.
  assert (validatePathConfigAndStoragePools hpp = None ↔ well_formed); [|done].
  unfold validatePathConfigAndStoragePools. fold spec. subst well_formed.
  destruct (cr_PathConfig spec) as [p|], (StoragePools spec) as [|q pools] eqn:Hpools.
  - destruct (Z.eqb_spec (len (pc_Path p)) 0) as [Hl|Hl]; simpl.
    + apply len_0 in Hl. naive_solver.
    + split; [|done]. intros _. left. exists p. split_and!; [done|by intros Hx; rewrite Hx in Hl|done].
  - naive_solver.
  - naive_solver.
  - rewrite validate_pools_None. setoid_rewrite lookup_empty. naive_solver.
Qed.

Lemma pool_label_fits name : len name <= 50 → storagePoolLabelValue name = name +:+ "-hpp".
Proof. intros. apply resource_name_fits; change (len "hpp") with 3; unfold maxNameLength; lia. Qed.

Lemma pool_mount_fits name :
  name ≠ "" → len name <= 50 → getMountNameFromStoragePool name = name +:+ "-data-dir".
Proof.
  intros. unfold getMountNameFromStoragePool. rewrite bool_decide_eq_false_2 by done.
  apply resource_name_fits; change (len "data-dir") with 8; unfold maxMountNameLength; lia.
Qed.

Lemma NoDup_fmap_append (suffix : string) (names : list string) :
  NoDup names → NoDup ((λ n, n +:+ suffix) <$> names).
Proof. intros. apply NoDup_fmap_2; [|done]. intros a b. apply append_inj_r. Qed.

(** The names derived from the pools of an admitted resource do not clash:
    the storage pool labels (by which Deployments and pods are selected) and the
    volume names (by which the CSI DaemonSet mounts the pools) are pairwise
    distinct, are not truncated or hashed, and fit the 63 bytes Kubernetes
    allows. *)
Theorem admitted_pool_names (hpp : HostPathProvisioner) :
  ValidateCreate hpp = None →
  let names := pool_Name <$> StoragePools (cr_Spec hpp) in
  storagePoolLabelValue <$> names = (λ n, n +:+ "-hpp") <$> names ∧
  getMountNameFromStoragePool <$> names = (λ n, n +:+ "-data-dir") <$> names ∧
  NoDup (storagePoolLabelValue <$> names) ∧ NoDup (getMountNameFromStoragePool <$> names) ∧
  Forall (λ n, len (storagePoolLabelValue n) <= 63 ∧ len (getMountNameFromStoragePool n) <= 63) names.
Proof.
  intros Hv%webhook_admits names; [|done].
  assert (Forall (λ n, n ≠ "" ∧ len n <= 50) names ∧ NoDup names) as [Hall Hnd].
  { unfold names. destruct Hv as [(p & _ & _ & ->)|(_ & _ & Hp & Hn & _)];
      [split; [constructor|by constructor]|split; [|done]].
    apply Forall_fmap. eapply Forall_impl; [exact Hp|]. intros p (? & ? & _). done. }
  assert (Hl : storagePoolLabelValue <$> names = (λ n, n +:+ "-hpp") <$> names).
  { apply Forall_fmap_ext. eapply Forall_impl; [exact Hall|]. intros n [? ?]. by apply pool_label_fits. }
  assert (Hm : getMountNameFromStoragePool <$> names = (λ n, n +:+ "-data-dir") <$> names).
  { apply Forall_fmap_ext. eapply Forall_impl; [exact Hall|]. intros n [? ?]. by apply pool_mount_fits. }
  split_and!; [done|done|rewrite Hl; by apply NoDup_fmap_append|rewrite Hm; by apply NoDup_fmap_append|].
  eapply Forall_impl; [exact Hall|]. intros n [? ?]. rewrite pool_label_fits, pool_mount_fits by done.
  strlen. change (len "-hpp") with 4. change (len "-data-dir") with 9. lia.
Qed.

Definition two_pool_cr : HostPathProvisioner :=
  let pool name path := {| pool_Name := name; PVCTemplate := None; pool_Path := path;
                           SnapshotProvider := None; OverlayClassName := "" |} in
  Obj (k:=KHostPathProvisioner) no_type (object_meta "hpp" "" None)
    ({| cr_ImagePullPolicy := ""; cr_PathConfig := None;
        Workload := {| place_NodeSelector := None; place_Affinity := None; place_Tolerations := [] |};
        FeatureGates := []; StoragePools := [pool "local" "/var/a"; pool "local2" "/var/b"] |},
     {| Conditions := []; OperatorVersion := ""; TargetVersion := ""; ObservedVersion := "";
        StoragePoolStatuses := None |}).

Lemma admitted_pool_names_witness :
  getMountNameFromStoragePool <$> (pool_Name <$> StoragePools (cr_Spec two_pool_cr))
  = ["local-data-dir"; "local2-data-dir"].
Proof. exact (proj1 (proj2 (admitted_pool_names two_pool_cr eq_refl))). Defined.
