(* ===== verification/CryptoPolicy.v ===== *)
(** * TLS policy

    pkg/util/cryptopolicy/cryptopolicy.go: the TLS configuration of the
    operator's servers and of the metrics endpoint of the CSI driver, taken from
    environment overrides, the cluster's APIServer object, or a default; with the
    vendored profiles of openshift/api (config/v1/types_tlssecurityprofile.go).
    A cipher suite or a TLS version is its 16-bit number. *)
From S2P Require Import Prelude GoStrings Prog Api K8s.

(** ** Numbers of crypto/tls *)

Definition VersionTLS10 : Z := 0x0301.
Definition VersionTLS11 : Z := 0x0302.
Definition VersionTLS12 : Z := 0x0303.
Definition VersionTLS13 : Z := 0x0304.

(** [tls.CipherSuites()]: the suites crypto/tls considers secure, by name *)
Definition tls_CipherSuites : list (string * Z) :=
  [("TLS_AES_128_GCM_SHA256", 0x1301); ("TLS_AES_256_GCM_SHA384", 0x1302);
   ("TLS_CHACHA20_POLY1305_SHA256", 0x1303);
   ("TLS_ECDHE_ECDSA_WITH_AES_128_CBC_SHA", 0xc009); ("TLS_ECDHE_ECDSA_WITH_AES_256_CBC_SHA", 0xc00a);
   ("TLS_ECDHE_RSA_WITH_AES_128_CBC_SHA", 0xc013); ("TLS_ECDHE_RSA_WITH_AES_256_CBC_SHA", 0xc014);
   ("TLS_ECDHE_ECDSA_WITH_AES_128_GCM_SHA256", 0xc02b); ("TLS_ECDHE_ECDSA_WITH_AES_256_GCM_SHA384", 0xc02c);
   ("TLS_ECDHE_RSA_WITH_AES_128_GCM_SHA256", 0xc02f); ("TLS_ECDHE_RSA_WITH_AES_256_GCM_SHA384", 0xc030);
   ("TLS_ECDHE_RSA_WITH_CHACHA20_POLY1305_SHA256", 0xcca8);
   ("TLS_ECDHE_ECDSA_WITH_CHACHA20_POLY1305_SHA256", 0xcca9)].

(** ** The profiles of openshift/api *)

Definition TLSProfileOldType := "Old".
Definition TLSProfileIntermediateType := "Intermediate".
Definition TLSProfileModernType := "Modern".

Definition modern_ciphers : list string :=
  ["TLS_AES_128_GCM_SHA256"; "TLS_AES_256_GCM_SHA384"; "TLS_CHACHA20_POLY1305_SHA256"].

Definition intermediate_ciphers : list string := modern_ciphers ++
  ["ECDHE-ECDSA-AES128-GCM-SHA256"; "ECDHE-RSA-AES128-GCM-SHA256"; "ECDHE-ECDSA-AES256-GCM-SHA384";
   "ECDHE-RSA-AES256-GCM-SHA384"; "ECDHE-ECDSA-CHACHA20-POLY1305"; "ECDHE-RSA-CHACHA20-POLY1305";
   "DHE-RSA-AES128-GCM-SHA256"; "DHE-RSA-AES256-GCM-SHA384"].

Definition old_ciphers : list string := intermediate_ciphers ++
  ["DHE-RSA-CHACHA20-POLY1305"; "ECDHE-ECDSA-AES128-SHA256"; "ECDHE-RSA-AES128-SHA256";
   "ECDHE-ECDSA-AES128-SHA"; "ECDHE-RSA-AES128-SHA"; "ECDHE-ECDSA-AES256-SHA384";
   "ECDHE-RSA-AES256-SHA384"; "ECDHE-ECDSA-AES256-SHA"; "ECDHE-RSA-AES256-SHA";
   "DHE-RSA-AES128-SHA256"; "DHE-RSA-AES256-SHA256"; "AES128-GCM-SHA256"; "AES256-GCM-SHA384";
   "AES128-SHA256"; "AES256-SHA256"; "AES128-SHA"; "AES256-SHA"; "DES-CBC3-SHA"].

(** [TLSProfiles[t]]: [None] is the nil pointer of a missing key *)
Definition TLSProfiles (t : string) : option TLSProfileSpec :=
  if bool_decide (t = TLSProfileOldType) then
    Some {| Ciphers := old_ciphers; MinTLSVersion := "VersionTLS10" |}
  else if bool_decide (t = TLSProfileIntermediateType) then
    Some {| Ciphers := intermediate_ciphers; MinTLSVersion := "VersionTLS12" |}
  else if bool_decide (t = TLSProfileModernType) then
    Some {| Ciphers := modern_ciphers; MinTLSVersion := "VersionTLS13" |}
  else None.

(** ** cryptopolicy.go *)

(** [CipherSuites] is nil or a slice. *)
Record cryptoConfig := { CipherSuites : option (list Z); MinVersion : Z }.

Definition getTLSVersion (versionName : string) : option Z :=
  if bool_decide (versionName = "VersionTLS10") then Some VersionTLS10
  else if bool_decide (versionName = "VersionTLS11") then Some VersionTLS11
  else if bool_decide (versionName = "VersionTLS12") then Some VersionTLS12
  else if bool_decide (versionName = "VersionTLS13") then Some VersionTLS13
  else None.

Definition getTLSVersionOrDefault (versionName : string) : Z :=
  default VersionTLS13 (getTLSVersion versionName).

(** The [idByName] map of [cipherSuitesIDs] before the suites of crypto/tls are added. *)
Definition openssl_names : list (string * Z) :=
  [("ECDHE-ECDSA-AES128-GCM-SHA256", 0xc02b); ("ECDHE-RSA-AES128-GCM-SHA256", 0xc02f);
   ("ECDHE-ECDSA-AES256-GCM-SHA384", 0xc02c); ("ECDHE-RSA-AES256-GCM-SHA384", 0xc030);
   ("ECDHE-ECDSA-CHACHA20-POLY1305", 0xcca9); ("ECDHE-RSA-CHACHA20-POLY1305", 0xcca8);
   ("ECDHE-ECDSA-AES128-SHA256", 0xc023); ("ECDHE-RSA-AES128-SHA256", 0xc027);
   ("AES128-GCM-SHA256", 0x009c); ("AES256-GCM-SHA384", 0x009d); ("AES128-SHA256", 0x003c);
   ("ECDHE-ECDSA-AES128-SHA", 0xc009); ("ECDHE-RSA-AES128-SHA", 0xc013);
   ("ECDHE-ECDSA-AES256-SHA", 0xc00a); ("ECDHE-RSA-AES256-SHA", 0xc014);
   ("AES128-SHA", 0x002f); ("AES256-SHA", 0x0035); ("DES-CBC3-SHA", 0x000a)].

Definition idByName : gmap string Z := list_to_map tls_CipherSuites ∪ list_to_map openssl_names.

Definition cipherSuitesIDs (names : list string) : list Z := omap (λ name, idByName !! name) names.

(** [None] is the nil dereference on a profile type without profile. *)
Definition selectCipherSuitesAndMinTLSVersion (profile : option TLSSecurityProfile) :
    option (list string * string) :=
  let profile := default {| profile_Type := TLSProfileIntermediateType; profile_Custom := None |} profile in
  match profile_Custom profile with
  | Some custom => Some (Ciphers custom, MinTLSVersion custom)
  | None => p ← TLSProfiles (profile_Type profile); Some (Ciphers p, MinTLSVersion p)
  end.

Definition cryptoConfigFromProfile (profile : option TLSSecurityProfile) : option cryptoConfig :=
  '(cipherNames, minVersion) ← selectCipherSuitesAndMinTLSVersion profile;
  Some {| CipherSuites := Some (cipherSuitesIDs cipherNames);
          MinVersion := getTLSVersionOrDefault minVersion |}.

(** The watcher: whether it has a cache, whether the cache has synced, and its
    default. *)
Record ManagedTLSWatcher := { has_cache : bool; ready : bool; defaultConfig : option cryptoConfig }.

(** The default profile exists ([default_config_ok]), so [defaultConfig] is set. *)
Definition NewManagedTLSWatcher : ManagedTLSWatcher :=
  {| has_cache := false; ready := false;
     defaultConfig := cryptoConfigFromProfile
       (Some {| profile_Type := TLSProfileIntermediateType; profile_Custom := None |}) |}.

Definition SetCache (m : ManagedTLSWatcher) : ManagedTLSWatcher :=
  {| has_cache := true; ready := ready m; defaultConfig := defaultConfig m |}.

(** [Start], up to the point where it waits for the end of the process;
    [synced] is the answer of [WaitForCacheSync]. *)
Definition Start (synced : bool) (m : ManagedTLSWatcher) : ManagedTLSWatcher * error :=
  if negb (has_cache m) then (m, Some (Errorf "no cache provided for tls watcher"))
  else if negb synced then (m, Some (Errorf "failed to wait for caches to sync"))
  else ({| has_cache := has_cache m; ready := true; defaultConfig := defaultConfig m |}, None).

(** Dereference a pointer. *)
Definition deref {A} (x : option A) : kprog A :=
  match x with Some a => mret a | None => Panic nil_dereference end.

Definition apiserver_key : ObjectKey := ("", "cluster").

Section CryptoPolicy.
Context `{PL : Platform}.

Definition GetTLSConfig (m : ManagedTLSWatcher) : kprog cryptoConfig :=
  let ciphersOverride := getenv "TLS_CIPHERS_OVERRIDE" in
  let versionOverride := getenv "TLS_MIN_VERSION_OVERRIDE" in
  if bool_decide (ciphersOverride ≠ "") || bool_decide (versionOverride ≠ "") then
    mret {| CipherSuites := if bool_decide (ciphersOverride ≠ "")
                            then Some (cipherSuitesIDs (Split ciphersOverride ",")) else None;
            MinVersion := if bool_decide (versionOverride ≠ "")
                          then getTLSVersionOrDefault versionOverride else 0 |}
  else if negb (ready m) || negb (has_cache m) then deref (defaultConfig m)
  else
    with_ok (request (Get KAPIServer apiserver_key))
      (λ _, deref (defaultConfig m))
      (λ apiServer, deref (cryptoConfigFromProfile (o_body apiServer))).

Definition GetTLSMinVersionString : kprog string :=
  let tlsVersion := getenv "TLS_MIN_VERSION_OVERRIDE" in
  if bool_decide (tlsVersion ≠ "") then
    mret (match getTLSVersion tlsVersion with None => "VersionTLS13" | Some _ => tlsVersion end)
  else
    with_ok (request (Get KAPIServer apiserver_key))
      (λ _, mret "VersionTLS13")
      (λ apiServer, p ← deref (selectCipherSuitesAndMinTLSVersion (o_body apiServer)); mret p.2).

(** The fields of [tls.Config] the policy sets; [tls_rest] is the others. *)
Record tlsConfig := {
  NextProtos : list string; tls_CipherSuites_of : option (list Z); tls_MinVersion : Z; tls_rest : string }.

(** [CryptoPolicyOpt()]: what it does to the server's configuration, and what
    that configuration answers to each handshake. *)
Definition CryptoPolicyOpt (c : tlsConfig) : tlsConfig :=
  {| NextProtos := ["http/1.1"]; tls_CipherSuites_of := tls_CipherSuites_of c;
     tls_MinVersion := tls_MinVersion c; tls_rest := tls_rest c |}.

Definition GetConfigForClient (m : ManagedTLSWatcher) (c : tlsConfig) : kprog tlsConfig :=
  cc ← GetTLSConfig m;
  mret {| NextProtos := NextProtos c; tls_CipherSuites_of := CipherSuites cc;
          tls_MinVersion := MinVersion cc; tls_rest := tls_rest c |}.
End CryptoPolicy.

(** ** Lemmas *)

Definition default_cryptoConfig : cryptoConfig :=
  {| CipherSuites := Some (cipherSuitesIDs intermediate_ciphers); MinVersion := VersionTLS12 |}.

Lemma default_config_ok : defaultConfig NewManagedTLSWatcher = Some default_cryptoConfig.
Proof. done. Qed.

(** The states a watcher goes through. *)
Inductive watcher_state : ManagedTLSWatcher → Prop :=
| ws_new : watcher_state NewManagedTLSWatcher
| ws_cache m : watcher_state m → watcher_state (SetCache m)
| ws_start m synced : watcher_state m → watcher_state (Start synced m).1.

Lemma watcher_default m : watcher_state m → defaultConfig m = Some default_cryptoConfig.
Proof.
  induction 1 as [|m Hm IH|m synced Hm IH]; [done|done|].
  unfold Start. destruct (has_cache m), synced; done.
Qed.

Definition tls_versions : list Z := [VersionTLS10; VersionTLS11; VersionTLS12; VersionTLS13].

Lemma getTLSVersionOrDefault_range name : getTLSVersionOrDefault name ∈ tls_versions.
Proof.
  unfold getTLSVersionOrDefault, getTLSVersion, tls_versions.
  repeat case_bool_decide; simpl; set_solver.
Qed.

Lemma cipherSuitesIDs_known names id : id ∈ cipherSuitesIDs names → ∃ name, idByName !! name = Some id.
Proof. unfold cipherSuitesIDs. rewrite list_elem_of_omap. intros (name & _ & Hid). by exists name. Qed.

(** Known suites and, unless [unset_ok], a supported minimum version. *)
Definition safe_config (unset_ok : bool) (cc : cryptoConfig) : Prop :=
  (MinVersion cc ∈ tls_versions ∨ unset_ok = true ∧ MinVersion cc = 0) ∧
  ∀ id, id ∈ default [] (CipherSuites cc) → ∃ name, idByName !! name = Some id.

Lemma safe_profile p b cc : cryptoConfigFromProfile p = Some cc → safe_config b cc.
Proof.
  unfold cryptoConfigFromProfile. destruct (selectCipherSuitesAndMinTLSVersion p) as [[names v]|]; [|done].
  intros [= <-]. split; [left; apply getTLSVersionOrDefault_range|].
  intros id; simpl. apply cipherSuitesIDs_known.
Qed.

Lemma safe_default b : safe_config b default_cryptoConfig.
Proof. by apply (safe_profile (Some {| profile_Type := TLSProfileIntermediateType; profile_Custom := None |})). Qed.

(** The profiles the code dereferences nil on: a type of none of the three named
    profiles, and no custom profile. *)
Definition unknown_profile (p : option TLSSecurityProfile) : Prop :=
  ∃ t, p = Some {| profile_Type := t; profile_Custom := None |} ∧
       t ∉ [TLSProfileOldType; TLSProfileIntermediateType; TLSProfileModernType].

Lemma TLSProfiles_None t :
  TLSProfiles t = None ↔ t ∉ [TLSProfileOldType; TLSProfileIntermediateType; TLSProfileModernType].
Proof. unfold TLSProfiles. repeat case_bool_decide; set_solver. Qed.

Lemma select_None p : selectCipherSuitesAndMinTLSVersion p = None ↔ unknown_profile p.
Proof.
  unfold selectCipherSuitesAndMinTLSVersion, unknown_profile.
  destruct p as [[t [c|]]|]; simpl.
  - split; [done|]. intros (? & ? & _). simplify_eq.
  - destruct (TLSProfiles t) eqn:Ht; simpl.
    + split; [done|]. intros (t' & ? & Hn%TLSProfiles_None). simplify_eq.
    + split; [|done]. intros _. exists t. split; [done|]. by apply TLSProfiles_None.
  - split; [done|]. by intros (? & ? & _).
Qed.

Lemma profile_None p : cryptoConfigFromProfile p = None ↔ unknown_profile p.
Proof.
  rewrite <-select_None. unfold cryptoConfigFromProfile.
  destruct (selectCipherSuitesAndMinTLSVersion p) as [[]|]; naive_solver.
Qed.

Definition reads_apiserver : ∀ T, kreq T → Prop := λ T r,
  match r with Get KAPIServer key => key = apiserver_key | _ => False end.

(** ** Properties *)



(** The minimum version the operator passes to the CSI driver's metrics
    endpoint and the one its own servers use agree: against a server that has
    the APIServer object, [GetTLSMinVersionString] returns the name of exactly
    the version a ready watcher's [GetTLSConfig] returns, unless only the cipher
    suites are overridden. *)
Theorem tls_versions_agree `{PL : Platform} {S} (h : handler kreq S) lookup `{!Server h lookup}
    (s : S) (m : ManagedTLSWatcher) (apiServer : obj KAPIServer) :
  lookup s KAPIServer apiserver_key = Some apiServer →
  ¬ unknown_profile (o_body apiServer) →
  ready m = true → has_cache m = true →
  (getenv "TLS_CIPHERS_OVERRIDE" = "" ∨ getenv "TLS_MIN_VERSION_OVERRIDE" ≠ "") →
  ∃ cc v s1 s2,
    run h (GetTLSConfig m) s = (Returned cc, s1) ∧ run h GetTLSMinVersionString s = (Returned v, s2) ∧
    MinVersion cc = getTLSVersionOrDefault v.
Proof.
  intros Hl Hk Hr Hc Hov. unfold GetTLSConfig, GetTLSMinVersionString.
  rewrite Hr, Hc. simpl.
  destruct (decide (getenv "TLS_MIN_VERSION_OVERRIDE" = "")) as [He|Hne].
  - destruct Hov as [Hov|]; [|done].
    rewrite (bool_decide_eq_false_2 (getenv "TLS_CIPHERS_OVERRIDE" ≠ "")) by (by intros []).
    rewrite !(bool_decide_eq_false_2 (getenv "TLS_MIN_VERSION_OVERRIDE" ≠ "")) by (by intros []). simpl.
    destruct (server_get s KAPIServer apiserver_key) as [Hg _]. rewrite Hl in Hg.
    destruct (h _ (Get KAPIServer apiserver_key) s) as [x s1]; simpl in Hg; subst x.
    rewrite <-select_None in Hk. unfold cryptoConfigFromProfile.
    destruct (selectCipherSuitesAndMinTLSVersion (o_body apiServer)) as [[names v]|]; [|done]. simpl.
    eexists _, v, s1, s1. done.
  - rewrite !(bool_decide_eq_true_2 (getenv "TLS_MIN_VERSION_OVERRIDE" ≠ "")) by done.
    rewrite orb_true_r. simpl. do 4 eexists. split; [done|]. split; [done|].
    unfold getTLSVersionOrDefault. destruct (getTLSVersion _) eqn:Hv; simpl; [by rewrite Hv|done].
Qed.

Definition modern_apiserver : obj KAPIServer :=
  Obj (k:=KAPIServer) no_type (object_meta "cluster" "" None)
    (Some {| profile_Type := "Modern"; profile_Custom := None |}).

Lemma tls_versions_agree_witness :
  ∃ cc v s1 s2,
    run cluster_handler (GetTLSConfig (PL:=simple_platform ∅ "" "") {| has_cache := true; ready := true; defaultConfig := None |})
      (put modern_apiserver empty_cluster) = (Returned cc, s1) ∧
    run cluster_handler (GetTLSMinVersionString (PL:=simple_platform ∅ "" "")) (put modern_apiserver empty_cluster)
      = (Returned v, s2) ∧
    MinVersion cc = getTLSVersionOrDefault v.
Proof.
  apply (tls_versions_agree (PL:=simple_platform ∅ "" "") cluster_handler cluster_lookup _ _ modern_apiserver).
  - reflexivity.
  - intros (t & Ht & Hn). injection Ht as <-. apply Hn. vm_compute. set_solver.
  - reflexivity.
  - reflexivity.
  - left. reflexivity.
Defined.
