(* ===== verification/Rules.v ===== *)
(** * Alerts and recording rules

    pkg/monitoring/rules (rules.go, alerts/, recordingrules/) and the vendored
    registry they fill (rhobs/operator-observability-toolkit, operatorrules):
    the PrometheusRule object the operator installs.  The registry is a map keyed
    by rule name and expression, so registering the same rules at every
    reconciliation leaves it as it is; it is modelled by its content. *)
From S2P Require Import Prelude GoStrings Prog Names Api K8s Meta.

(** ** alerts/prometheus.go *)

Definition prometheusRunbookAnnotationKey := "runbook_url".
Definition defaultRunbookURLTemplate := "https://kubevirt.io/monitoring/runbooks/%s".
Definition runbookURLTemplateEnv := "RUNBOOK_URL_TEMPLATE".
Definition severityAlertLabelKey := "severity".
Definition healthImpactAlertLabelKey := "operator_health_impact".
Definition partOfAlertLabelKey := "kubernetes_operator_part_of".
Definition partOfAlertLabelValue := "kubevirt".
Definition componentAlertLabelKey := "kubernetes_operator_component".
Definition componentAlertLabelValue := "hostpath-provisioner-operator".

(** [strings.Count(s, "%s")] *)
Fixpoint count_verbs (s : string) : nat :=
  match s with
  | EmptyString => 0
  | String c s' => (if HasPrefix s "%s" then 1 else 0) + count_verbs s'
  end%nat.

(** [fmt.Sprintf(template, arg)] for a template whose only verb is [%s]. *)
Fixpoint sprintf_s (template arg : string) : string :=
  match template with
  | String "%" (String "s" rest) => arg +:+ rest
  | String c rest => String c (sprintf_s rest arg)
  | EmptyString => ""
  end.

Definition runbook_template_error := "runbook URL template must have exactly 1 %s substring".

(** [None] is the panic. *)
Definition GetRunbookURLTemplate `{PL : Platform} : option string :=
  let template := default defaultRunbookURLTemplate (LookupEnv runbookURLTemplateEnv) in
  if bool_decide (count_verbs template ≠ 1%nat) then None else Some template.

(** ** alerts/operator.go *)

Definition alert (name expr for_ summary severity impact : string) : Rule :=
  {| rule_Record := ""; rule_Alert := name; rule_Expr := expr; rule_For := Some for_;
     rule_Labels := Some {[ severityAlertLabelKey := severity; healthImpactAlertLabelKey := impact ]};
     rule_Annotations := Some {[ "summary" := summary ]}; rule_rest := "" |}.

Definition operatorAlerts : list Rule :=
  [alert "HPPOperatorDown" "cluster:kubevirt_hpp_operator_up:sum == 0" "5m"
     "Hostpath Provisioner operator is down." "warning" "critical";
   alert "HPPNotReady" "kubevirt_hpp_cr_ready == 0" "5m"
     "Hostpath Provisioner is not available to use." "warning" "critical";
   alert "HPPSharingPoolPathWithOS" "kubevirt_hpp_pool_path_shared_with_os == 1" "1m"
     "HPP pool path sharing a filesystem with OS, fix to prevent HPP PVs from causing disk pressure and affecting node operation."
     "warning" "warning"].

(** The labels and the runbook annotation [alerts.Register] adds to an alert. *)
Definition decorate_alert (template : string) (a : Rule) : Rule :=
  {| rule_Record := rule_Record a; rule_Alert := rule_Alert a; rule_Expr := rule_Expr a;
     rule_For := rule_For a;
     rule_Labels := (λ l : gmap string string, <[componentAlertLabelKey := componentAlertLabelValue]>
                       (<[partOfAlertLabelKey := partOfAlertLabelValue]> l)) <$> rule_Labels a;
     rule_Annotations := (λ m : gmap string string, <[prometheusRunbookAnnotationKey :=
                            sprintf_s template (rule_Alert a)]> m) <$> rule_Annotations a;
     rule_rest := rule_rest a |}.

(** ** recordingrules/operator.go *)

Definition recording_rule (name expr : string) : Rule :=
  {| rule_Record := name; rule_Alert := ""; rule_Expr := expr; rule_For := None;
     rule_Labels := None; rule_Annotations := None; rule_rest := "" |}.

Definition operatorRecordingRules (namespace : string) : list Rule :=
  let expr := "sum(up{namespace='" +:+ namespace +:+
              "', pod=~'hostpath-provisioner-operator-.*'} or vector(0))" in
  [recording_rule "kubevirt_hpp_operator_up" expr;
   recording_rule "cluster:kubevirt_hpp_operator_up:sum" expr].

(** ** The registry *)

Definition rule_key (r : Rule) : string :=
  (if bool_decide (rule_Alert r = "") then rule_Record r else rule_Alert r) +:+ ":" +:+ rule_Expr r.

(** Insertion sort by key: [slices.SortFunc]; the keys of a registry differ. *)
Fixpoint insert_rule (r : Rule) (l : list Rule) : list Rule :=
  match l with
  | [] => [r]
  | q :: l => if str_lt (rule_key q) (rule_key r) then q :: insert_rule r l else r :: q :: l
  end.
Definition sort_rules (l : list Rule) : list Rule := foldr insert_rule [] l.

(** [SetupRules] and [BuildPrometheusRule] (rules.go), as [createPrometheusRule]
    (prometheus.go) calls them: the rules are never empty, so they report no
    error.  [None] is the panic of the runbook template. *)
Definition BuildPrometheusRule `{PL : Platform} (namespace : string) : option (obj KPrometheusRule) :=
  template ← GetRunbookURLTemplate;
  Some (Obj (k:=KPrometheusRule)
    {| APIVersion := "monitoring.coreos.com/v1"; Kind := "PrometheusRule" |}
    (object_meta "prometheus-hpp-rules" namespace
       (Some (<[PrometheusLabelKey := PrometheusLabelValue]> GetRecommendedLabels)))
    [{| group_Name := "recordingRules.rules"; Rules := sort_rules (operatorRecordingRules namespace);
        group_rest := "" |};
     {| group_Name := "alerts.rules"; Rules := sort_rules (decorate_alert template <$> operatorAlerts);
        group_rest := "" |}]).

Example sorted_alerts :
  rule_Alert <$> sort_rules operatorAlerts = ["HPPNotReady"; "HPPOperatorDown"; "HPPSharingPoolPathWithOS"].
Proof. vm_compute. reflexivity. Qed.
Example runbook :
  sprintf_s defaultRunbookURLTemplate "HPPNotReady" = "https://kubevirt.io/monitoring/runbooks/HPPNotReady".
Proof. reflexivity. Qed.
