(* ===== verification/Rbac.v ===== *)
(** * Access control objects

    pkg/controller/hostpathprovisioner/rbac.go: the ClusterRoles, Roles and their
    bindings for the service accounts of the provisioners, their reconciliation
    and their deletion.  The functions return [reconcile.Result{}] with their
    error; only the error is modelled. *)
From S2P Require Import Prelude GoStrings Prog Names Api K8s Json JsonMerge Meta.

(** [isFeatureGateEnabled] (controller.go) *)
Definition snapshotFeatureGate := "Snapshotting".
Definition isFeatureGateEnabled (feature : string) (cr : HostPathProvisioner) : bool :=
  existsb (λ featuregate, bool_decide (featuregate = feature)) (FeatureGates (cr_Spec cr)).

Definition rule (groups resources verbs : list string) : PolicyRule :=
  {| APIGroups := groups; Resources := resources; ResourceNames := []; Verbs := verbs |}.

Definition binding_body (refKind name saName namespace : string) : Binding :=
  {| Subjects := [{| subject_Kind := "ServiceAccount"; subject_Name := saName;
                     subject_Namespace := namespace |}];
     binding_RoleRef := {| ref_APIGroup := "rbac.authorization.k8s.io"; ref_Kind := refKind;
                           ref_Name := name |} |}.

Definition legacy_cluster_rules : list PolicyRule :=
  [rule [""] ["persistentvolumes"] ["get"; "list"; "watch"; "create"; "delete"];
   rule [""] ["persistentvolumeclaims"] ["get"; "list"; "watch"; "update"];
   rule ["storage.k8s.io"] ["storageclasses"] ["get"; "list"; "watch"];
   rule [""] ["events"] ["list"; "watch"; "create"; "patch"; "update"];
   rule [""] ["nodes"] ["get"]].

Definition csi_cluster_rules : list PolicyRule :=
  [rule [""] ["persistentvolumes"] ["get"; "list"; "watch"; "create"; "delete"; "patch"];
   rule [""] ["persistentvolumeclaims"] ["get"; "list"; "watch"; "update"];
   rule ["storage.k8s.io"] ["storageclasses"] ["get"; "list"; "watch"; "create"];
   rule [""] ["events"] ["list"; "watch"; "create"; "patch"; "update"];
   rule ["storage.k8s.io"] ["csinodes"] ["get"; "list"; "watch"];
   rule [""] ["nodes"] ["get"; "list"; "watch"];
   rule ["storage.k8s.io"] ["volumeattachments"] ["get"; "list"; "watch"; "patch"];
   rule ["storage.k8s.io"] ["volumeattachments/status"] ["patch"]].

Definition createSnapshotCsiClusterRoles : list PolicyRule :=
  [rule ["snapshot.storage.k8s.io"] ["volumesnapshotclasses"] ["get"; "list"; "watch"];
   rule ["snapshot.storage.k8s.io"] ["volumesnapshots"] ["get"];
   rule ["snapshot.storage.k8s.io"] ["volumesnapshotcontents"]
     ["create"; "get"; "list"; "watch"; "update"; "delete"; "patch"];
   rule ["snapshot.storage.k8s.io"] ["volumesnapshotcontents/status"] ["update"; "patch"]].

Definition role_rules : list PolicyRule :=
  [rule ["coordination.k8s.io"] ["leases"] ["get"; "update"; "create"];
   rule ["storage.k8s.io"] ["csistoragecapacities"] ["get"; "list"; "watch"; "delete"; "update"; "create"];
   rule [""] ["pods"] ["get"]].

Section Rbac.
Context `{PL : Platform, CD : Codec}.

Definition createClusterRoleBindingObject (name namespace saName : string) : obj KClusterRoleBinding :=
  Obj (k:=KClusterRoleBinding) no_type (object_meta name "" (Some GetRecommendedLabels))
    (binding_body "ClusterRole" name saName namespace).

Definition createClusterRoleObjectProvisioner : obj KClusterRole :=
  Obj (k:=KClusterRole) no_type
    (object_meta MultiPurposeHostPathProvisionerName "" (Some GetRecommendedLabels)) legacy_cluster_rules.

Definition createCsiClusterRoleObjectProvisioner (cr : HostPathProvisioner) : obj KClusterRole :=
  Obj (k:=KClusterRole) no_type
    (object_meta ProvisionerServiceAccountNameCsi "" (Some GetRecommendedLabels))
    (csi_cluster_rules ++
     if isFeatureGateEnabled snapshotFeatureGate cr then createSnapshotCsiClusterRoles else []).

Definition createRoleBindingObject (name namespace saName : string) : obj KRoleBinding :=
  Obj (k:=KRoleBinding) no_type (object_meta name namespace (Some GetRecommendedLabels))
    (binding_body "Role" name saName namespace).

Definition createRoleObjectProvisioner (namespace : string) : obj KRole :=
  Obj (k:=KRole) no_type
    (object_meta ProvisionerServiceAccountNameCsi namespace (Some GetRecommendedLabels)) role_rules.

Definition deleteClusterRoleBindingObject (name : string) : kprog error :=
  delete_object KClusterRoleBinding "" name.
Definition deleteClusterRoleObject (name : string) : kprog error :=
  delete_object KClusterRole "" name.
Definition deleteRoleBindingObject (name namespace : string) : kprog error :=
  delete_object KRoleBinding namespace name.
Definition deleteRoleObject (name namespace : string) : kprog error :=
  delete_object KRole namespace name.

Definition reconcileClusterRoleBinding (cr : HostPathProvisioner) (namespace : string) : kprog error :=
  let csi := createClusterRoleBindingObject ProvisionerServiceAccountNameCsi namespace
               ProvisionerServiceAccountNameCsi in
  on_err (reconcileRbacResource csi csi cr) (λ err, mret (Some err))
    (if isLegacy cr then
       let crb := createClusterRoleBindingObject MultiPurposeHostPathProvisionerName namespace
                    ProvisionerServiceAccountName in
       on_err (reconcileRbacResource crb crb cr) (λ err, mret (Some err)) (mret None)
     else
       ignore_not_found (deleteClusterRoleBindingObject MultiPurposeHostPathProvisionerName)).

Definition reconcileClusterRole (cr : HostPathProvisioner) : kprog error :=
  on_err
    (if isLegacy cr then
       reconcileRbacResource createClusterRoleObjectProvisioner createClusterRoleObjectProvisioner cr
     else ignore_not_found (deleteClusterRoleObject MultiPurposeHostPathProvisionerName))
    (λ err, mret (Some err))
    (let csi := createCsiClusterRoleObjectProvisioner cr in
     on_err (reconcileRbacResource csi csi cr) (λ err, mret (Some err)) (mret None)).

Definition reconcileRoleBinding (cr : HostPathProvisioner) (namespace : string) : kprog error :=
  let rb := createRoleBindingObject ProvisionerServiceAccountNameCsi namespace
              ProvisionerServiceAccountNameCsi in
  on_err (reconcileRbacResource rb rb cr) (λ err, mret (Some err)) (mret None).

Definition reconcileRole (cr : HostPathProvisioner) (namespace : string) : kprog error :=
  let role := createRoleObjectProvisioner namespace in
  on_err (reconcileRbacResource role role cr) (λ err, mret (Some err)) (mret None).

(** [deleteAllRbac] (controller.go) *)
Definition deleteAllRbac (namespace : string) : kprog error :=
  for_err [ProvisionerServiceAccountName; ProvisionerServiceAccountNameCsi; MultiPurposeHostPathProvisionerName]
    (λ name,
      on_err (deleteClusterRoleBindingObject name) (λ err, mret (Some err))
        (on_err (deleteClusterRoleObject name) (λ err, mret (Some err))
          (on_err (deleteRoleBindingObject name namespace) (λ err, mret (Some err))
            (on_err (deleteRoleObject name namespace) (λ err, mret (Some err))
              (mret None))))).
End Rbac.

(** ** Footprints *)

Section Footprints.
Context `{PL : Platform, CD : Codec}.

Lemma reconcileClusterRoleBinding_fp cr ns :
  footprint (writes_only [KClusterRoleBinding]) (reconcileClusterRoleBinding cr ns).
Proof. unfold reconcileClusterRoleBinding, deleteClusterRoleBindingObject. fp_solve. Qed.

Lemma reconcileClusterRole_fp cr : footprint (writes_only [KClusterRole]) (reconcileClusterRole cr).
Proof. unfold reconcileClusterRole, deleteClusterRoleObject. fp_solve. Qed.

Lemma reconcileRole_fp cr ns : footprint (writes_only [KRole]) (reconcileRole cr ns).
Proof. unfold reconcileRole. fp_solve. Qed.

Lemma reconcileRoleBinding_fp cr ns : footprint (writes_only [KRoleBinding]) (reconcileRoleBinding cr ns).
Proof. unfold reconcileRoleBinding. fp_solve. Qed.

Lemma deleteAllRbac_fp ns :
  footprint (writes_only [KClusterRoleBinding; KClusterRole; KRoleBinding; KRole]) (deleteAllRbac ns).
Proof.
  unfold deleteAllRbac, deleteClusterRoleBindingObject, deleteClusterRoleObject, deleteRoleBindingObject,
    deleteRoleObject. fp_solve.
Qed.
End Footprints.

#[export] Hint Resolve reconcileClusterRoleBinding_fp reconcileClusterRole_fp reconcileRole_fp
  reconcileRoleBinding_fp deleteAllRbac_fp : fp.
