(* ===== verification/ServiceAccount.v ===== *)
(** * Service accounts

    pkg/controller/hostpathprovisioner/serviceaccount.go: the service accounts of
    the provisioners, and the workloads that have to be restarted when one of
    them is created anew. *)
From S2P Require Import Prelude GoStrings Prog Names Api K8s Json JsonMerge Meta.

(** [labels.Parse(fmt.Sprintf("k8s-app in (%s, %s)", ...))] *)
Definition k8s_app_selector (customCrName : string) : string :=
  "k8s-app in (" +:+ MultiPurposeHostPathProvisionerName +:+ ", " +:+ customCrName +:+ ")".

(** The object has an owner reference to the custom resource of this name. *)
Definition owned_by_cr (customCrName : string) (m : ObjectMeta) : bool :=
  existsb (λ ownerRef, bool_decide (owner_Kind ownerRef = HostPathProvisionerKind) &&
                       bool_decide (owner_Name ownerRef = customCrName)) (OwnerReferences m).

(** [if err := List(...); err != nil && !errors.IsNotFound(err) { return err }]:
    on [NotFound] the list is empty. *)
Definition list_or_empty {k B} (opts : ListOptions) (h : goerror → kprog B)
    (body : list (obj k) → kprog B) : kprog B :=
  r ← request (ListObjs k opts);
  match r with
  | Ok items => body items
  | Err err => if IsNotFound err then body [] else h err
  end.

Section ServiceAccount.
Context `{PL : Platform, CD : Codec}.

Definition createServiceAccount (name namespace : string) (labels : gmap string string) :
    obj KServiceAccount :=
  Obj (k:=KServiceAccount) no_type (object_meta name namespace (Some labels)) "".

Definition createServiceAccountObject (namespace : string) : obj KServiceAccount :=
  createServiceAccount ProvisionerServiceAccountName namespace GetRecommendedLabels.

Definition createCsiServiceAccountObject (namespace : string) : obj KServiceAccount :=
  createServiceAccount ProvisionerServiceAccountNameCsi namespace GetRecommendedLabels.

Definition deleteServiceAccount (name namespace : string) : kprog error :=
  delete_object KServiceAccount namespace name.

Definition deleteDaemonSetWithSa (name namespace : string) : kprog error :=
  list_or_empty {| lo_Selector := []; lo_Namespace := namespace |} (λ err, mret (Some err))
    (λ items : list DaemonSet, for_err items (λ ds,
       if bool_decide (ServiceAccountName (template_Spec (ds_Template (ds_Spec ds))) = name)
          && (0 <? NumberAvailable (ds_Status ds))
       then delete_object KDaemonSet (o_namespace ds) (o_name ds)
       else mret None)).

Definition deleteDeploymentsWithSa (name namespace : string) : kprog error :=
  list_or_empty {| lo_Selector := []; lo_Namespace := namespace |} (λ err, mret (Some err))
    (λ items : list Deployment, for_err items (λ deployment,
       if bool_decide (ServiceAccountName (template_Spec (dep_Template (dep_Spec deployment))) = name)
          && (0 <? ReadyReplicas (dep_Status deployment))
       then delete_object KDeployment (o_namespace deployment) (o_name deployment)
       else mret None)).

Definition deleteRunningPodsWithSa (name namespace : string) : kprog error :=
  on_err (deleteDaemonSetWithSa name namespace) (λ err, mret (Some err))
    (deleteDeploymentsWithSa name namespace).

Definition getDuplicateServiceAccount (customCrName namespace : string) :
    kprog (result (list (obj KServiceAccount))) :=
  match labels_Parse (k8s_app_selector customCrName) with
  | Err err => mret (Err err)
  | Ok ls =>
      with_ok (request (ListObjs KServiceAccount {| lo_Selector := ls; lo_Namespace := namespace |}))
        (λ err, mret (Err err))
        (λ saList, mret (Ok (filter (λ sa,
           (bool_decide (o_name sa ≠ ProvisionerServiceAccountName) &&
            bool_decide (o_name sa ≠ ProvisionerServiceAccountNameCsi) &&
            owned_by_cr customCrName (o_meta sa)) = true) saList)))
  end.

(** The body of the loop of [reconcileServiceAccount] over the accounts. *)
Definition reconcileOneServiceAccount (cr : HostPathProvisioner) (desired : obj KServiceAccount) :
    kprog error :=
  match SetControllerReference cr (setLastAppliedConfiguration desired) with
  | Err err => mret (Some err)
  | Ok desired =>
      create_or_update cr (ObjectKeyFromObject desired) desired
        (λ desired, deleteRunningPodsWithSa (o_name desired) (o_namespace cr))
  end.

Definition reconcileServiceAccount (cr : HostPathProvisioner) (namespace : string) : kprog error :=
  with_ok (getDuplicateServiceAccount (o_name cr) namespace) (λ err, mret (Some err)) (λ dups,
    on_err (for_err dups (λ dup, deleteServiceAccount (o_name dup) namespace)) (λ err, mret (Some err))
      (on_err (if isLegacy cr then mret None
               else deleteServiceAccount ProvisionerServiceAccountName namespace)
         (λ err, mret (Some err))
         (for_err
            ((if isLegacy cr then [createServiceAccountObject namespace] else [])
             ++ [createCsiServiceAccountObject namespace])
            (reconcileOneServiceAccount cr)))).
End ServiceAccount.

(** ** Footprints *)

Lemma list_or_empty_fp {k B} ks opts h (body : list (obj k) → kprog B) :
  (∀ e, footprint (writes_only ks) (h e)) → (∀ l, footprint (writes_only ks) (body l)) →
  footprint (writes_only ks) (list_or_empty opts h body).
Proof.
  intros. apply footprint_bind; [by split|]. intros [l|e]; [auto|]. destruct (IsNotFound e); auto.
Qed.

Section Footprints.
Context `{PL : Platform, CD : Codec}.

Lemma deleteRunningPodsWithSa_fp name ns :
  footprint (writes_only [KDaemonSet; KDeployment]) (deleteRunningPodsWithSa name ns).
Proof.
  unfold deleteRunningPodsWithSa, deleteDaemonSetWithSa, deleteDeploymentsWithSa.
  apply footprint_on_err; [|done|]; (apply list_or_empty_fp; [done|]); intros l; fp_solve.
Qed.

Lemma reconcileServiceAccount_fp cr ns :
  footprint (writes_only [KServiceAccount; KDaemonSet; KDeployment]) (reconcileServiceAccount cr ns).
Proof.
  unfold reconcileServiceAccount, getDuplicateServiceAccount, deleteServiceAccount. fp_solve.
  unfold reconcileOneServiceAccount. fp_solve. apply create_or_update_fp. intros o.
  eapply footprint_writes_mono; [apply deleteRunningPodsWithSa_fp|reflexivity].
Qed.
End Footprints.

#[export] Hint Resolve reconcileServiceAccount_fp : fp.
