(* ===== verification/Scc.v ===== *)
(** * Security context constraints (OpenShift)

    pkg/controller/hostpathprovisioner/scc.go.  The objects only exist where the
    API server has the group: a cluster without it is not an error. *)
From S2P Require Import Prelude GoStrings Prog Names Api K8s Json JsonMerge Meta.

(** [checkSCCUsed] and [checkPrometheusUsed] (prometheus.go): whether the API
    server has the kind. *)
Definition api_group_missing (err : goerror) : bool :=
  IsNoMatchError err || Contains (err_text err) "failed to find API group".

Definition checkUsed (k : kind) : kprog (result bool) :=
  with_ok (request (ListObjs k {| lo_Selector := []; lo_Namespace := "" |}))
    (λ err, mret (if api_group_missing err then Ok false else Err err))
    (λ _, mret (Ok true)).

Definition checkSCCUsed : kprog (result bool) := checkUsed KSecurityContextConstraints.

(** [if used, err := check(); used == false { return err }; k] *)
Definition when_used (check : kprog (result bool)) (k : kprog error) : kprog error :=
  with_ok check (λ err, mret (Some err)) (λ used, if used then k else mret None).

Definition service_account_user (namespace saName : string) : string :=
  "system:serviceaccount:" +:+ namespace +:+ ":" +:+ saName.

Definition scc_body (privileged : bool) (user : string) (volumes : list string) :
    SecurityContextConstraints :=
  {| Groups := []; Users := [user]; AllowPrivilegedContainer := privileged;
     AllowHostDirVolumePlugin := true;
     RequiredDropCapabilities := ["KILL"; "MKNOD"; "SETUID"; "SETGID"];
     scc_RunAsUser := "RunAsAny"; scc_SELinuxContext := "RunAsAny"; scc_FSGroup := "RunAsAny";
     scc_SupplementalGroups := "RunAsAny"; scc_Volumes := volumes; scc_rest := "" |}.

Definition scc_type : TypeMeta :=
  {| APIVersion := "security.openshift.io/v1"; Kind := "SecurityContextConstraints" |}.

Section Scc.
Context `{PL : Platform, CD : Codec}.

Definition createSecurityContextConstraintsObject (namespace : string) : obj KSecurityContextConstraints :=
  Obj (k:=KSecurityContextConstraints) scc_type
    (object_meta MultiPurposeHostPathProvisionerName "" (Some GetRecommendedLabels))
    (scc_body false (service_account_user namespace ProvisionerServiceAccountName)
       ["hostPath"; "secret"; "projected"]).

Definition createCsiSecurityContextConstraintsObject (namespace : string) : obj KSecurityContextConstraints :=
  Obj (k:=KSecurityContextConstraints) scc_type
    (object_meta (MultiPurposeHostPathProvisionerName +:+ "-csi") "" (Some GetRecommendedLabels))
    (scc_body true (service_account_user namespace ProvisionerServiceAccountNameCsi) ["*"]).

Definition reconcileSecurityContextConstraintsDesired (cr : HostPathProvisioner)
    (desired : obj KSecurityContextConstraints) : kprog error :=
  create_or_update cr ("", o_name desired) (setLastAppliedConfiguration desired) (λ _, mret None).

Definition deleteSCC (name : string) : kprog error :=
  when_used checkSCCUsed (delete_object KSecurityContextConstraints "" name).

Definition reconcileSecurityContextConstraints (cr : HostPathProvisioner) (namespace : string) :
    kprog error :=
  when_used checkSCCUsed
    (on_err (if isLegacy cr
             then reconcileSecurityContextConstraintsDesired cr (createSecurityContextConstraintsObject namespace)
             else deleteSCC MultiPurposeHostPathProvisionerName)
       (λ err, mret (Some err))
       (reconcileSecurityContextConstraintsDesired cr (createCsiSecurityContextConstraintsObject namespace))).
End Scc.

(** ** Footprints *)

Lemma checkUsed_fp k : footprint (writes_only []) (checkUsed k).
Proof. unfold checkUsed. fp_solve. Qed.

Lemma when_used_fp ks check k :
  footprint (writes_only ks) check → footprint (writes_only ks) k →
  footprint (writes_only ks) (when_used check k).
Proof. intros. apply footprint_with_ok; [done|done|]. by intros []. Qed.

#[export] Hint Resolve checkUsed_fp : fp.

Section Footprints.
Context `{PL : Platform, CD : Codec}.

Lemma deleteSCC_fp name : footprint (writes_only [KSecurityContextConstraints]) (deleteSCC name).
Proof. apply when_used_fp; unfold checkSCCUsed; fp_solve. Qed.
#[local] Hint Resolve deleteSCC_fp : fp.

Lemma reconcileSecurityContextConstraints_fp cr ns :
  footprint (writes_only [KSecurityContextConstraints]) (reconcileSecurityContextConstraints cr ns).
Proof.
  apply when_used_fp; unfold checkSCCUsed, reconcileSecurityContextConstraintsDesired; fp_solve.
Qed.
End Footprints.

#[export] Hint Resolve deleteSCC_fp reconcileSecurityContextConstraints_fp : fp.
