(* ===== verification/CsiDriver.v ===== *)
(** * The CSIDriver object

    pkg/controller/hostpathprovisioner/csidriver.go. *)
From S2P Require Import Prelude GoStrings Prog Names Api K8s Json JsonMerge Meta.

(** [copyImmutableFields]: fields the API server does not let change *)
Definition copyImmutableFields (desired current : obj KCSIDriver) : obj KCSIDriver :=
  let d := o_body desired in
  let c := o_body current in
  Obj (k:=KCSIDriver) (o_type desired) (o_meta desired)
    {| AttachRequired := AttachRequired c; FSGroupPolicy := FSGroupPolicy d;
       VolumeLifecycleModes := VolumeLifecycleModes c; PodInfoOnMount := PodInfoOnMount c;
       StorageCapacity := StorageCapacity c; RequiresRepublish := RequiresRepublish d;
       csi_rest := csi_rest d |}.

Section CsiDriver.
Context `{PL : Platform, CD : Codec}.

Definition createCSIDriverObject : obj KCSIDriver :=
  Obj (k:=KCSIDriver) {| APIVersion := "storage.k8s.io/v1"; Kind := "CSIDriver" |}
    (object_meta driverName "" (Some GetRecommendedLabels))
    {| AttachRequired := Some false; FSGroupPolicy := Some "File";
       VolumeLifecycleModes := ["Persistent"; "Ephemeral"]; PodInfoOnMount := Some true;
       StorageCapacity := Some true; RequiresRepublish := Some false; csi_rest := "" |}.

(** An update of a CSIDriver is not reported as an event. *)
Definition reconcileCSIDriver (cr : HostPathProvisioner) : kprog error :=
  let desired := setLastAppliedConfiguration createCSIDriverObject in
  r ← request (Get KCSIDriver ("", driverName));
  match r with
  | Err err => if IsNotFound err then create_resource cr desired (λ _, mret None) else mret (Some err)
  | Ok found =>
      let desired := copyImmutableFields desired found in
      let current := with_meta (mergeLabelsAndAnnotations (o_meta desired)) found in
      match (mergeObject desired current).2 with
      | Err err => mret (Some err)
      | Ok merged =>
          if DeepEqual found merged then mret None
          else with_ok (request (Update KCSIDriver merged)) (λ err, mret (Some err)) (λ _, mret None)
      end
  end.

Definition deleteCSIDriver : kprog error := delete_object KCSIDriver "" driverName.
End CsiDriver.

(** ** Footprints *)

Lemma reconcileCSIDriver_fp `{PL : Platform, CD : Codec} cr :
  footprint (writes_only [KCSIDriver]) (reconcileCSIDriver cr).
Proof. unfold reconcileCSIDriver. fp_solve. Qed.

Lemma deleteCSIDriver_fp : footprint (writes_only [KCSIDriver]) deleteCSIDriver.
Proof. unfold deleteCSIDriver. fp_solve. Qed.

#[export] Hint Resolve reconcileCSIDriver_fp deleteCSIDriver_fp : fp.
