(* ===== verification/Prometheus.v ===== *)
(** * Monitoring objects

    pkg/controller/hostpathprovisioner/prometheus.go: the PrometheusRule, the
    Role and RoleBinding of the monitoring service account, the metrics Service
    and its ServiceMonitor. *)
From S2P Require Import Prelude GoStrings Prog Names Api K8s Json JsonMerge Meta Rules Rbac Scc.

Definition ruleName := "prometheus-hpp-rules".
Definition rbacName := "hostpath-provisioner-monitoring".
Definition monitorName := "service-monitor-hpp".
Definition defaultMonitoringNs := "monitoring".
Definition PrometheusServiceName := "hpp-prometheus-metrics".

Definition checkPrometheusUsed : kprog (result bool) := checkUsed KPrometheusRule.

Section Prometheus.
Context `{PL : Platform, CD : Codec}.

Definition getMonitoringNamespace : string :=
  let ns := getenv "MONITORING_NAMESPACE" in
  if bool_decide (ns ≠ "") then ns else defaultMonitoringNs.

(** [labels := util.GetRecommendedLabels(); labels[PrometheusLabelKey] = ...] *)
Definition prometheus_labels : gmap string string :=
  <[PrometheusLabelKey := PrometheusLabelValue]> GetRecommendedLabels.

Definition createPrometheusRole (namespace : string) : obj KRole :=
  Obj (k:=KRole) no_type (object_meta rbacName namespace (Some prometheus_labels))
    [rule [""] ["services"; "endpoints"; "pods"] ["get"; "list"; "watch"]].

Definition createPrometheusRoleBinding (namespace : string) : obj KRoleBinding :=
  Obj (k:=KRoleBinding) no_type (object_meta rbacName namespace (Some prometheus_labels))
    {| Subjects := [{| subject_Kind := "ServiceAccount"; subject_Name := "prometheus-k8s";
                       subject_Namespace := getMonitoringNamespace |}];
       binding_RoleRef := {| ref_APIGroup := "rbac.authorization.k8s.io"; ref_Kind := "Role";
                             ref_Name := rbacName |} |}.

Definition createPrometheusServiceMonitor (namespace : string) : obj KServiceMonitor :=
  Obj (k:=KServiceMonitor) {| APIVersion := "monitoring.coreos.com/v1"; Kind := "ServiceMonitor" |}
    (object_meta monitorName namespace
       (Some (<["openshift.io/cluster-monitoring" := ""]> prometheus_labels)))
    {| sm_Selector := Some {[ PrometheusLabelKey := PrometheusLabelValue ]};
       sm_NamespaceNames := [namespace];
       sm_Endpoints := [("metrics", Some "https", Some true, Some "TLS13")];
       sm_rest := "" |}.

Definition createPrometheusService (namespace : string) : obj KService :=
  Obj (k:=KService) no_type (object_meta PrometheusServiceName namespace (Some prometheus_labels))
    {| svc_Selector := Some {[ PrometheusLabelKey := PrometheusLabelValue ]};
       svc_Ports := [{| sp_Name := "metrics"; sp_Port := 8443; sp_TargetPort := StrVal "metrics";
                        sp_Protocol := "TCP" |}];
       svc_rest := "" |}.

(** [reconcilePrometheusResource]; [same] says that the caller passes one
    pointer as both [desired] and [found], so that a successful [Get] replaces
    the desired object as well. *)
Definition reconcilePrometheusResource {k} (cr : HostPathProvisioner) (desired found : obj k)
    (same : bool) : kprog error :=
  match Marshal desired with
  | Err err => mret (Some err)
  | Ok _ =>
      let desired := setLastAppliedConfiguration desired in
      r ← request (Get k (ObjectKeyFromObject found));
      match r with
      | Err err => if IsNotFound err then create_resource cr desired (λ _, mret None) else mret (Some err)
      | Ok found => merge_and_update cr (if same then found else desired) found
      end
  end.

Definition reconcilePrometheusInfra (cr : HostPathProvisioner) (namespace : string) : kprog error :=
  let fail err := mret (Some err) in
  when_used checkPrometheusUsed
    match BuildPrometheusRule namespace with
    | None => Panic runbook_template_error
    | Some rule =>
        let role := createPrometheusRole namespace in
        let roleBinding := createPrometheusRoleBinding namespace in
        let service := createPrometheusService namespace in
        let monitor := createPrometheusServiceMonitor namespace in
        on_err (reconcilePrometheusResource cr rule rule true) fail
          (on_err (reconcilePrometheusResource cr role role false) fail
            (on_err (reconcilePrometheusResource cr roleBinding roleBinding false) fail
              (on_err (reconcilePrometheusResource cr service service false) fail
                (reconcilePrometheusResource cr monitor monitor false))))
    end.

Definition deletePrometheusResources (namespace : string) : kprog error :=
  let fail err := mret (Some err) in
  when_used checkPrometheusUsed
    (on_err (delete_object KPrometheusRule namespace ruleName) fail
      (on_err (delete_object KRole namespace rbacName) fail
        (on_err (delete_object KRoleBinding namespace rbacName) fail
          (on_err (delete_object KServiceMonitor namespace monitorName) fail
            (delete_object KService namespace PrometheusServiceName))))).
End Prometheus.

(** ** Footprints *)

Section Footprints.
Context `{PL : Platform, CD : Codec}.

Lemma reconcilePrometheusResource_fp {k} cr (desired found : obj k) same :
  footprint (writes_only [k]) (reconcilePrometheusResource cr desired found same).
Proof.
  unfold reconcilePrometheusResource. destruct (Marshal desired); [|done].
  apply footprint_bind; [by split|]. intros [o|e]; [apply merge_and_update_fp|].
  destruct (IsNotFound e); [by apply create_resource_fp|done].
Qed.
#[local] Hint Resolve reconcilePrometheusResource_fp : fp.

Definition prometheus_kinds : list kind := [KPrometheusRule; KRole; KRoleBinding; KService; KServiceMonitor].

Lemma reconcilePrometheusInfra_fp cr ns :
  footprint (writes_only prometheus_kinds) (reconcilePrometheusInfra cr ns).
Proof. apply when_used_fp; unfold checkPrometheusUsed; fp_solve. Qed.

Lemma deletePrometheusResources_fp ns :
  footprint (writes_only prometheus_kinds) (deletePrometheusResources ns).
Proof. apply when_used_fp; unfold checkPrometheusUsed; fp_solve. Qed.
End Footprints.

#[export] Hint Resolve reconcilePrometheusInfra_fp deletePrometheusResources_fp : fp.
