(* ===== verification/DaemonSet.v ===== *)
(** * The DaemonSets

    pkg/controller/hostpathprovisioner/daemonset.go: the legacy provisioner and
    the CSI driver run as DaemonSets, one pod per node. *)
From S2P Require Import Prelude GoStrings Prog Names Api K8s Json JsonMerge Meta Webhook CryptoPolicy Rbac.
From S2P Require Import ServiceAccount Prometheus.

(** ** Arguments *)

Definition OperatorImageDefault := "hostpath-provisioner-operator".
Definition ProvisionerImageDefault := "hostpath-provisioner".
Definition CsiProvisionerImageDefault := "hostpath-provisioner-csi".
Definition CsiNodeDriverRegistrationImageDefault := "registry.k8s.io/sig-storage/csi-node-driver-registrar:v2.2.0".
Definition LivenessProbeImageDefault := "registry.k8s.io/sig-storage/livenessprobe:v2.3.0".
Definition SnapshotterImageDefault := "registry.k8s.io/sig-storage/csi-snapshotter:v8.2.0".
Definition CsiSigStorageProvisionerImageDefault := "registry.k8s.io/sig-storage/csi-provisioner:v3.4.1".

Record daemonSetArgs := {
  operatorImage : string; provisionerImage : string; nodeDriverRegistrarImage : string;
  livenessProbeImage : string; snapshotterImage : string; csiProvisionerImage : string;
  args_namespace : string; args_name : string; verbosity : Z; args_version : string }.

Section Args.
Context `{PL : Platform}.

(** An environment variable, or a default when it is not set or empty. *)
Definition env_or (var dflt : string) : string :=
  let v := getenv var in if bool_decide (v = "") then dflt else v.

Definition get_verbosity : Z :=
  let v := getenv "VERBOSITY" in
  if bool_decide (v ≠ "") then default 0 (Atoi v) else 3.

(** [getDaemonSetArgs]; the callers set [version]. *)
Definition getDaemonSetArgs (namespace : string) (legacyProvisioner : bool) : daemonSetArgs :=
  if legacyProvisioner then
    {| operatorImage := ""; provisionerImage := env_or "PROVISIONER_IMAGE" ProvisionerImageDefault;
       nodeDriverRegistrarImage := ""; livenessProbeImage := ""; snapshotterImage := "";
       csiProvisionerImage := ""; args_namespace := namespace;
       args_name := MultiPurposeHostPathProvisionerName; verbosity := get_verbosity; args_version := "" |}
  else
    {| operatorImage := env_or "OPERATOR_IMAGE" OperatorImageDefault;
       provisionerImage := env_or "CSI_PROVISIONER_IMAGE" CsiProvisionerImageDefault;
       nodeDriverRegistrarImage := env_or "NODE_DRIVER_REG_IMAGE" CsiNodeDriverRegistrationImageDefault;
       livenessProbeImage := env_or "LIVENESS_PROBE_IMAGE" LivenessProbeImageDefault;
       snapshotterImage := env_or "CSI_SNAPSHOT_IMAGE" SnapshotterImageDefault;
       csiProvisionerImage := env_or "CSI_SIG_STORAGE_PROVISIONER_IMAGE" CsiSigStorageProvisionerImageDefault;
       args_namespace := namespace; args_name := MultiPurposeHostPathProvisionerName +:+ "-csi";
       verbosity := get_verbosity; args_version := "" |}.
End Args.

(** ** Storage pools as the CSI driver sees them *)

(** [StoragePoolInfo] (storagepool.go) *)
Record StoragePoolInfo := {
  info_Name : string; info_Path : string; SnapshotPath : option string;
  info_SnapshotProvider : option string; Shared : bool }.

Definition getUsePrefix (cr : HostPathProvisioner) : bool :=
  match cr_PathConfig (cr_Spec cr) with Some p => UseNamingPrefix p | None => false end.

Definition getPath (cr : HostPathProvisioner) : string :=
  match cr_PathConfig (cr_Spec cr), StoragePools (cr_Spec cr) with
  | Some p, _ => pc_Path p
  | None, pool :: _ => if bool_decide (pool_Path pool ≠ "") then pool_Path pool else ""
  | None, [] => ""
  end.

Definition getStoragePoolPaths (cr : HostPathProvisioner) : list StoragePoolInfo :=
  match cr_PathConfig (cr_Spec cr) with
  | Some p => [{| info_Name := ""; info_Path := pc_Path p; SnapshotPath := None;
                  info_SnapshotProvider := None; Shared := false |}]
  | None =>
      (λ pool, {| info_Name := pool_Name pool; info_Path := pool_Path pool; SnapshotPath := None;
                  info_SnapshotProvider := SnapshotProvider pool;
                  Shared := isShared (PVCTemplate pool) |}) <$> StoragePools (cr_Spec cr)
  end.

(** [json.Marshal] of a pool: the fields in the order of the struct *)
Definition json_of_info (i : StoragePoolInfo) : string :=
  let field (key : string) (v : string) := json_quote key +:+ ":" +:+ v in
  let opt (key : string) (v : option string) :=
    match v with Some s => "," +:+ field key (json_quote s) | None => "" end in
  "{" +:+ field "name" (json_quote (info_Name i)) +:+ "," +:+ field "path" (json_quote (info_Path i))
  +:+ opt "snapshotPath" (SnapshotPath i) +:+ opt "snapshotProvider" (info_SnapshotProvider i)
  +:+ "," +:+ field "shared" (FormatBool (Shared i)) +:+ "}".

(** The rewriting loop of [buildPathArgFromStoragePoolInfo]: the driver mounts
    each pool under its volume name, and works in its [csi] directory. *)
Definition path_arg_info (i : StoragePoolInfo) : StoragePoolInfo :=
  let mountName := getMountNameFromStoragePool (info_Name i) in
  {| info_Name := if bool_decide (info_Name i = "") then legacyStoragePoolName else info_Name i;
     info_Path := filepath_Join [mountName; "csi"];
     SnapshotPath := match info_SnapshotProvider i with
                     | Some _ => Some (filepath_Join [mountName; "csi"; "snapshots"])
                     | None => SnapshotPath i
                     end;
     info_SnapshotProvider := info_SnapshotProvider i; Shared := Shared i |}.

(** [buildPathArgFromStoragePoolInfo]: its changes to the slice it is given are
    not seen by anyone (the volumes and mounts are built before). *)
Definition buildPathArgFromStoragePoolInfo (storagePools : list StoragePoolInfo) : string :=
  "[" +:+ Join ((λ i, json_of_info (path_arg_info i)) <$> storagePools) "," +:+ "]".

Definition DirectoryOrCreate := "DirectoryOrCreate".
Definition HostPathDirectory := "Directory".
Definition Bidirectional := "Bidirectional".

Definition buildVolumesFromStoragePoolInfo (storagePools : list StoragePoolInfo) : list Volume :=
  (λ i, {| vol_Name := getMountNameFromStoragePool (info_Name i);
           vol_Source := HostPath (info_Path i) (Some DirectoryOrCreate) |}) <$> storagePools.

Definition buildVolumeMountsFromStoragePoolInfo (storagePools : list StoragePoolInfo) : list VolumeMount :=
  (λ i, let mountName := getMountNameFromStoragePool (info_Name i) in
        {| vm_Name := mountName; MountPath := "/" +:+ mountName;
           MountPropagation := Some "HostToContainer"; vm_rest := "" |}) <$> storagePools.

(** ** The objects *)

Definition csiSocket := "/csi/csi.sock".
Definition nodeDriverRegistrarName := "node-driver-registrar".
Definition RequiredSCCAnnotation := "openshift.io/required-scc".

Definition socketDirVolumeMount : VolumeMount :=
  {| vm_Name := "socket-dir"; MountPath := "/csi"; MountPropagation := None; vm_rest := "" |}.
Definition selectorLabels : gmap string string := {[ "k8s-app" := MultiPurposeHostPathProvisionerName ]}.

Definition env_value (name value : string) : EnvVar :=
  {| env_Name := name; env_Value := value; env_FieldRef := None; env_rest := "" |}.
(** An environment variable taken from a field of the pod *)
Definition env_field (name path : string) : EnvVar :=
  {| env_Name := name; env_Value := ""; env_FieldRef := Some ("v1", path); env_rest := "" |}.
Definition mount (name path : string) (propagation : option string) : VolumeMount :=
  {| vm_Name := name; MountPath := path; MountPropagation := propagation; vm_rest := "" |}.
Definition host_volume (name path type : string) : Volume :=
  {| vol_Name := name; vol_Source := HostPath path (Some type) |}.
Definition privileged : SecurityContext := {| Privileged := Some true; RunAsUser := None; sec_rest := "" |}.
Definition sidecar_requests : list (string * string) := [("cpu", "10m"); ("memory", "150Mi")].

(** A container of the DaemonSets: no command, devices or probe, and the
    termination message of the driver containers. *)
Definition sidecar (name image pullPolicy : string) (args : list string) (env : list EnvVar)
    (sec : option SecurityContext) (mounts : list VolumeMount) : Container :=
  {| c_Name := name; Image := image; ImagePullPolicy := pullPolicy; Command := []; Args := args;
     Env := env; Requests := sidecar_requests; Ports := []; LivenessProbe := None;
     c_SecurityContext := sec; VolumeMounts := mounts; VolumeDevices := [];
     TerminationMessagePath := "/dev/termination-log"; TerminationMessagePolicy := "File"; c_rest := "" |}.

Definition ds_update_strategy : UpdateStrategy :=
  {| strategy_Type := "RollingUpdate";
     strategy_Rolling := Some {| MaxUnavailable := Some (StrVal "10%"); MaxSurge := Some (IntVal 0) |} |}.

Definition ds_pod (cr : HostPathProvisioner) (sa : string) (containers : list Container)
    (volumes : list Volume) : PodSpec :=
  let w := Workload (cr_Spec cr) in
  {| ServiceAccountName := sa; DeprecatedServiceAccount := ""; RestartPolicy := "Always";
     SchedulerName := ""; DNSPolicy := "ClusterFirst"; TerminationGracePeriodSeconds := Some 30;
     PodSecurityContext := Some ""; Containers := containers; Volumes := volumes;
     NodeSelector := place_NodeSelector w; Tolerations := place_Tolerations w;
     pod_Affinity := place_Affinity w; NodeName := ""; pod_rest := "" |}.

Definition no_ds_status : DaemonSetStatus :=
  {| NumberReady := 0; DesiredNumberScheduled := 0; NumberAvailable := 0; ds_status_rest := "" |}.

Definition ds_object (args : daemonSetArgs) (labels : gmap string string) (annotations : gomap)
    (pod : PodSpec) : DaemonSet :=
  Obj (k:=KDaemonSet) {| APIVersion := "apps/v1"; Kind := "DaemonSet" |}
    (object_meta (args_name args) (args_namespace args) (Some labels))
    ({| ds_Selector := match_labels selectorLabels;
        ds_Template := {| template_Meta := set_Annotations annotations (object_meta "" "" (Some labels));
                          template_Spec := pod |};
        ds_UpdateStrategy := ds_update_strategy; ds_RevisionHistoryLimit := Some 10; ds_rest := "" |},
     no_ds_status).

(** [createSnapshotSideCarContainer] *)
Definition createSnapshotSideCarContainer (image pullPolicy : string) (verbosity : Z) : Container :=
  {| c_Name := "csi-snapshotter"; Image := image; ImagePullPolicy := pullPolicy; Command := [];
     Args := ["--v=" +:+ sprintf_d verbosity; "--csi-address=" +:+ csiSocket; "--leader-election"];
     Env := []; Requests := []; Ports := []; LivenessProbe := None;
     c_SecurityContext := Some privileged; VolumeMounts := [socketDirVolumeMount]; VolumeDevices := [];
     TerminationMessagePath := ""; TerminationMessagePolicy := ""; c_rest := "" |}.

(** The main container of the CSI DaemonSet (lines 525-635) *)
Definition csi_driver_container (cr : HostPathProvisioner) (args : daemonSetArgs)
    (pathArg tlsVersion : string) : Container :=
  {| c_Name := MultiPurposeHostPathProvisionerName; Image := provisionerImage args;
     ImagePullPolicy := cr_ImagePullPolicy (cr_Spec cr); Command := [];
     Args := ["--drivername=" +:+ driverName; "--v=" +:+ sprintf_d (verbosity args);
              "--endpoint=$(CSI_ENDPOINT)"; "--nodeid=$(NODE_NAME)"; "--version=$(VERSION)";
              "--datadir=$(PV_DIR)"; "--metrics-tls-version=" +:+ tlsVersion];
     Env := [env_value "CSI_ENDPOINT" ("unix://" +:+ csiSocket); env_field "NODE_NAME" "spec.nodeName";
             env_value "PV_DIR" pathArg; env_value "VERSION" (TargetVersion (cr_Status cr));
             env_field "POD_IP" "status.podIP"; env_field "POD_NAMESPACE" "metadata.namespace";
             env_value "SERVICE_NAME" PrometheusServiceName];
     Requests := sidecar_requests;
     Ports := [{| port_Name := "healthz"; port_Number := 9898; port_Protocol := "TCP" |};
               {| port_Name := "metrics"; port_Number := 8443; port_Protocol := "TCP" |}];
     LivenessProbe := Some {| probe_Path := "/healthz"; probe_Port := 9898; probe_Scheme := "HTTP";
                              FailureThreshold := 5; InitialDelaySeconds := 10; TimeoutSeconds := 3;
                              PeriodSeconds := 2; SuccessThreshold := 1 |};
     c_SecurityContext := Some privileged;
     VolumeMounts := [mount "plugins-dir" "/var/lib/kubelet/plugins" (Some Bidirectional);
                      mount "mountpoint-dir" "/var/lib/kubelet/pods" (Some Bidirectional);
                      socketDirVolumeMount];
     VolumeDevices := []; TerminationMessagePath := "/dev/termination-log";
     TerminationMessagePolicy := "File"; c_rest := "" |}.

(** The other containers of the CSI DaemonSet (lines 636-754) *)
Definition csi_sidecars (cr : HostPathProvisioner) (args : daemonSetArgs) : list Container :=
  let pull := cr_ImagePullPolicy (cr_Spec cr) in
  let v := "--v=" +:+ sprintf_d (verbosity args) in
  let address := "--csi-address=" +:+ csiSocket in
  [sidecar nodeDriverRegistrarName (nodeDriverRegistrarImage args) pull
     [v; address; "--kubelet-registration-path=/var/lib/kubelet/plugins/csi-hostpath/csi.sock"]
     [env_field "KUBE_NODE_NAME" "spec.nodeName"] (Some privileged)
     [socketDirVolumeMount; mount "registration-dir" "/registration" None];
   sidecar "liveness-probe" (livenessProbeImage args) pull [address; "--health-port=9898"] [] None
     [socketDirVolumeMount];
   sidecar "csi-provisioner" (csiProvisionerImage args) pull
     [v; address; "--feature-gates=Topology=true"; "--enable-capacity=true";
      "--capacity-for-immediate-binding=true"; "--extra-create-metadata=true";
      "--immediate-topology=false"; "--strict-topology=true"; "--node-deployment=true";
      "--default-fstype=xfs"]
     [env_field "NAMESPACE" "metadata.namespace"; env_field "POD_NAME" "metadata.name";
      env_field "NODE_NAME" "spec.nodeName"]
     (Some privileged) [socketDirVolumeMount]].

(** The volumes of the CSI DaemonSet (lines 759-796) *)
Definition csi_volumes : list Volume :=
  [host_volume "socket-dir" "/var/lib/kubelet/plugins/csi-hostpath" DirectoryOrCreate;
   host_volume "mountpoint-dir" "/var/lib/kubelet/pods" DirectoryOrCreate;
   host_volume "registration-dir" "/var/lib/kubelet/plugins_registry" HostPathDirectory;
   host_volume "plugins-dir" "/var/lib/kubelet/plugins" HostPathDirectory].

Definition add_mounts (mounts : list VolumeMount) (c : Container) : Container :=
  {| c_Name := c_Name c; Image := Image c; ImagePullPolicy := ImagePullPolicy c; Command := Command c;
     Args := Args c; Env := Env c; Requests := Requests c; Ports := Ports c;
     LivenessProbe := LivenessProbe c; c_SecurityContext := c_SecurityContext c;
     VolumeMounts := VolumeMounts c ++ mounts; VolumeDevices := VolumeDevices c;
     TerminationMessagePath := TerminationMessagePath c;
     TerminationMessagePolicy := TerminationMessagePolicy c; c_rest := c_rest c |}.

(** The loop of lines 808-812 *)
Definition mount_pools (mounts : list VolumeMount) (c : Container) : Container :=
  if bool_decide (c_Name c = MultiPurposeHostPathProvisionerName)
     || bool_decide (c_Name c = nodeDriverRegistrarName)
  then add_mounts mounts c else c.

(** The containers of the CSI DaemonSet before the pools are mounted. *)
Definition csi_containers (cr : HostPathProvisioner) (args : daemonSetArgs) (pathArg tls : string) :
    list Container :=
  csi_driver_container cr args pathArg tls :: csi_sidecars cr args ++
  (if isFeatureGateEnabled snapshotFeatureGate cr
   then [createSnapshotSideCarContainer (snapshotterImage args) (cr_ImagePullPolicy (cr_Spec cr)) (verbosity args)]
   else []).

Section Objects.
Context `{PL : Platform}.

(** [createDaemonSetObject] *)
Definition createDaemonSetObject (cr : HostPathProvisioner) (args : daemonSetArgs) : DaemonSet :=
  let path := getPath cr in
  ds_object args (<[AllowAccessClusterServicesNPLabel := "true"]> GetRecommendedLabels) None
    (ds_pod cr ProvisionerServiceAccountName
       [sidecar MultiPurposeHostPathProvisionerName (provisionerImage args)
          (cr_ImagePullPolicy (cr_Spec cr)) []
          [env_value "USE_NAMING_PREFIX" (FormatBool (getUsePrefix cr));
           env_field "NODE_NAME" "spec.nodeName"; env_value "PV_DIR" path;
           env_field "INSTALLER_PART_OF_LABEL" "metadata.labels['app.kubernetes.io/part-of']";
           env_field "INSTALLER_VERSION_LABEL" "metadata.labels['app.kubernetes.io/version']"]
          None [mount "pv-volume" path None]]
       [host_volume "pv-volume" path DirectoryOrCreate]).

(** The object [createCSIDaemonSetObject] builds, given the TLS version. *)
Definition csi_daemonset (cr : HostPathProvisioner) (args : daemonSetArgs) (tlsVersion : string) : DaemonSet :=
  let storagePoolPaths := getStoragePoolPaths cr in
  ds_object args (<[PrometheusLabelKey := PrometheusLabelValue]> GetRecommendedLabels)
    (Some {[ RequiredSCCAnnotation := "hostpath-provisioner-csi" ]})
    (ds_pod cr ProvisionerServiceAccountNameCsi
       (mount_pools (buildVolumeMountsFromStoragePoolInfo storagePoolPaths) <$>
          csi_containers cr args (buildPathArgFromStoragePoolInfo storagePoolPaths) tlsVersion)
       (csi_volumes ++ buildVolumesFromStoragePoolInfo storagePoolPaths)).

(** [createCSIDaemonSetObject]; reading the TLS version of the metrics endpoint
    asks the API server. *)
Definition createCSIDaemonSetObject (cr : HostPathProvisioner) (args : daemonSetArgs) : kprog DaemonSet :=
  tlsVersion ← GetTLSMinVersionString;
  mret (csi_daemonset cr args tlsVersion).
End Objects.

(** ** Reconciliation *)

(** [copyStatusFields] and [copyIgnoredFields] *)
Definition copyStatusFields (desired current : DaemonSet) : DaemonSet :=
  Obj (k:=KDaemonSet) (o_type desired) (o_meta desired) (ds_Spec desired, ds_Status current).

(** [desired.Spec.Template.Spec.DeprecatedServiceAccount = ...] and [SchedulerName] *)
Definition set_pod_ignored (serviceAccount schedulerName : string) (p : PodSpec) : PodSpec :=
  {| ServiceAccountName := ServiceAccountName p; DeprecatedServiceAccount := serviceAccount;
     RestartPolicy := RestartPolicy p; SchedulerName := schedulerName; DNSPolicy := DNSPolicy p;
     TerminationGracePeriodSeconds := TerminationGracePeriodSeconds p;
     PodSecurityContext := PodSecurityContext p; Containers := Containers p; Volumes := Volumes p;
     NodeSelector := NodeSelector p; Tolerations := Tolerations p; pod_Affinity := pod_Affinity p;
     NodeName := NodeName p; pod_rest := pod_rest p |}.

Definition copyIgnoredFields (desired current : DaemonSet) : DaemonSet :=
  let desired := copyStatusFields desired current in
  let s := ds_Spec desired in
  let cs := ds_Spec current in
  let cp := template_Spec (ds_Template cs) in
  Obj (k:=KDaemonSet) (o_type desired) (o_meta desired)
    ({| ds_Selector := ds_Selector cs;
        ds_Template := {| template_Meta := template_Meta (ds_Template s);
                          template_Spec := set_pod_ignored (DeprecatedServiceAccount cp) (SchedulerName cp)
                                             (template_Spec (ds_Template s)) |};
        ds_UpdateStrategy := ds_UpdateStrategy s; ds_RevisionHistoryLimit := ds_RevisionHistoryLimit s;
        ds_rest := ds_rest s |}, ds_Status desired).

Definition extra_selector_error : goerror :=
  Errorf "DaemonSet with extra selector labels spotted, cleaning up and requeueing".

Definition deleteDaemonSet (name namespace : string) : kprog error :=
  delete_object KDaemonSet namespace name.

Section Reconcile.
Context `{PL : Platform, CD : Codec}.

(** What an existing DaemonSet is updated to. *)
Definition updated_daemonset (desired found : DaemonSet) : DaemonSet :=
  let desired := copyIgnoredFields desired found in
  Obj (k:=KDaemonSet) (o_type found) (mergeLabelsAndAnnotations (o_meta desired) (o_meta found))
    (ds_Spec desired, ds_Status found).

(** [reconcileDaemonSetForSa] once the API server has answered (lines 120-169). *)
Definition daemonset_answered (cr : HostPathProvisioner) (desired : DaemonSet)
    (r : result DaemonSet) : kprog error :=
  match r with
  | Err err => if IsNotFound err then create_resource cr desired (λ _, mret None) else mret (Some err)
  | Ok found =>
      if bool_decide (MatchLabels (ds_Selector (ds_Spec found))
                      ≠ MatchLabels (ds_Selector (ds_Spec desired))) then
        on_err (deleteDaemonSet (o_name desired) (o_namespace desired)) (λ err, mret (Some err))
          (mret (Some extra_selector_error))
      else update_resource cr (o_name desired) found (updated_daemonset desired found)
  end.

Definition reconcileDaemonSetForSa (desired : DaemonSet) (cr : HostPathProvisioner) : kprog error :=
  match SetControllerReference cr (setLastAppliedConfiguration desired) with
  | Err err => mret (Some err)
  | Ok desired =>
      r ← request (Get KDaemonSet (o_namespace desired, o_name desired));
      daemonset_answered cr desired r
  end.

Definition getDuplicateDaemonSet (customCrName namespace : string) : kprog (result (list DaemonSet)) :=
  match labels_Parse (k8s_app_selector customCrName) with
  | Err err => mret (Err err)
  | Ok ls =>
      with_ok (request (ListObjs KDaemonSet {| lo_Selector := ls; lo_Namespace := namespace |}))
        (λ err, mret (Err err))
        (λ dsList, mret (Ok (filter (λ ds,
           (bool_decide (o_name ds ≠ MultiPurposeHostPathProvisionerName) &&
            bool_decide (o_name ds ≠ MultiPurposeHostPathProvisionerName +:+ "-csi") &&
            owned_by_cr customCrName (o_meta ds)) = true) dsList)))
  end.

(** [reconcileDaemonSet]; the version in the arguments is not read by anyone. *)
Definition reconcileDaemonSet (cr : HostPathProvisioner) (namespace : string) : kprog error :=
  let fail err := mret (Some err) in
  with_ok (getDuplicateDaemonSet (o_name cr) namespace) fail (λ dups,
    on_err (for_err dups (λ dup, deleteDaemonSet (o_name dup) namespace)) fail
      (let args := getDaemonSetArgs namespace true in
       on_err (if isLegacy cr then reconcileDaemonSetForSa (createDaemonSetObject cr args) cr
               else deleteDaemonSet (args_name args) (args_namespace args))
         fail
         (ds ← createCSIDaemonSetObject cr (getDaemonSetArgs namespace false);
          reconcileDaemonSetForSa ds cr))).
End Reconcile.

(** ** Lemmas *)

Lemma updated_daemonset_idem desired found :
  updated_daemonset desired (updated_daemonset desired found) = updated_daemonset desired found.
Proof.
  unfold updated_daemonset. cbn [o_type o_meta]. f_equal.
  - unfold mergeLabelsAndAnnotations; cbn. by rewrite !copy_entries_idem.
Qed.

Lemma updated_daemonset_selector desired found :
  ds_Selector (ds_Spec (updated_daemonset desired found)) = ds_Selector (ds_Spec found).
Proof. done. Qed.

Lemma updated_daemonset_key desired found :
  ObjectKeyFromObject (updated_daemonset desired found) = ObjectKeyFromObject found.
Proof. done. Qed.

(** The mounts of a container name volumes of the list. *)
Definition mounts_in (volumes : list string) (c : Container) : bool :=
  forallb (λ m, bool_decide (vm_Name m ∈ volumes)) (VolumeMounts c).

Lemma mounts_in_spec volumes c :
  mounts_in volumes c = true ↔ ∀ m, m ∈ VolumeMounts c → vm_Name m ∈ volumes.
Proof.
  unfold mounts_in. rewrite List.forallb_forall. setoid_rewrite <-list_elem_of_In.
  by setoid_rewrite bool_decide_eq_true.
Qed.

Lemma csi_containers_mounts cr args pathArg tls :
  Forall (λ c, mounts_in (vol_Name <$> csi_volumes) c = true) (csi_containers cr args pathArg tls).
Proof.
  unfold csi_containers, csi_sidecars. repeat (apply Forall_cons; split; [reflexivity|]).
  destruct (isFeatureGateEnabled _ _); repeat constructor.
Qed.

Lemma mount_pools_mounts mounts c m :
  m ∈ VolumeMounts (mount_pools mounts c) → m ∈ VolumeMounts c ∨ m ∈ mounts.
Proof. unfold mount_pools. destruct (_ || _); [|auto]. cbn [VolumeMounts add_mounts]. by rewrite elem_of_app. Qed.

Lemma pool_volume_names infos : vol_Name <$> buildVolumesFromStoragePoolInfo infos =
  getMountNameFromStoragePool <$> (info_Name <$> infos).
Proof. unfold buildVolumesFromStoragePoolInfo. rewrite <-!list_fmap_compose. done. Qed.

Lemma pool_mount_names infos m :
  m ∈ buildVolumeMountsFromStoragePoolInfo infos →
  vm_Name m ∈ vol_Name <$> buildVolumesFromStoragePoolInfo infos.
Proof.
  unfold buildVolumeMountsFromStoragePoolInfo, buildVolumesFromStoragePoolInfo.
  intros (i & -> & Hi)%list_elem_of_fmap. rewrite <-list_fmap_compose.
  apply list_elem_of_fmap. by exists i.
Qed.

Lemma append_drop (n t s : string) :
  n +:+ t = s → str_drop (String.length s - String.length t) s = t.
Proof.
  intros <-. rewrite length_append.
  replace (String.length n + String.length t - String.length t)%nat with (String.length n) by lia.
  apply str_drop_append.
Qed.

Definition pool_suffix := "-data-dir".

Lemma reserved_volume_names n : n +:+ pool_suffix ∉ vol_Name <$> csi_volumes.
Proof.
  cbn. rewrite !elem_of_cons. intros [H|[H|[H|[H|H]]]]; [..|set_solver];
    apply append_drop in H; vm_compute in H; discriminate H.
Qed.

(** The pools of an admitted resource, under their mount names. *)
Lemma admitted_mount_names cr :
  ValidateCreate cr = None →
  ∃ names, getMountNameFromStoragePool <$> (info_Name <$> getStoragePoolPaths cr) =
           (λ n, n +:+ pool_suffix) <$> names ∧ NoDup names.
Proof.
  intros Hv%webhook_admits; [|done]. unfold getStoragePoolPaths.
  destruct Hv as [(p & -> & _)|(-> & _ & Hp & Hn & _)].
  - exists ["csi"]. split; [done|apply NoDup_singleton].
  - exists (pool_Name <$> StoragePools (cr_Spec cr)). split; [|done].
    rewrite <-!list_fmap_compose. apply Forall_fmap_ext.
    eapply Forall_impl; [exact Hp|]. intros pool (? & ? & _). simpl. by apply pool_mount_fits.
Qed.

(** ** Properties *)

(** C31: the CSI DaemonSet of an admitted resource has a well-formed pod,
    whatever TLS version the API server reports: the volume names are distinct,
    every mount of every container names one of the volumes, and each storage
    pool's host path is one of the volumes and is mounted in the driver
    container under that volume's name. *)
Theorem csi_pod_well_formed `{PL : Platform} (R : rely kreq) (cr : HostPathProvisioner)
    (args : daemonSetArgs) tr :
  ValidateCreate cr = None →
  wp R any_request (createCSIDaemonSetObject cr args)
    (λ _ o, ∀ ds, o = Returned ds →
       let pod := template_Spec (ds_Template (ds_Spec ds)) in
       NoDup (vol_Name <$> Volumes pod) ∧
       (∀ c m, c ∈ Containers pod → m ∈ VolumeMounts c → vm_Name m ∈ vol_Name <$> Volumes pod) ∧
       ∀ info, info ∈ getStoragePoolPaths cr →
         let name := getMountNameFromStoragePool (info_Name info) in
         {| vol_Name := name; vol_Source := HostPath (info_Path info) (Some DirectoryOrCreate) |} ∈ Volumes pod ∧
         ∃ c, c ∈ Containers pod ∧ c_Name c = MultiPurposeHostPathProvisionerName ∧
              mount name ("/" +:+ name) (Some "HostToContainer") ∈ VolumeMounts c) tr.
Proof.
  intros Hv. unfold createCSIDaemonSetObject. apply wp_bind.
  eapply wp_post; [apply (footprint_wp R (λ _ _, True))|].
  { unfold GetTLSMinVersionString. destruct (bool_decide _); [done|]. simpl. split; [done|].
    intros [apiServer|]; [|done]. unfold deref. by destruct (selectCipherSuitesAndMinTLSVersion _). }
  intros tr' [tls| |] _; [|done..]. intros ds [= <-]. cbv zeta.
  unfold csi_daemonset, ds_object, ds_Spec; cbn [ds_Template template_Spec o_body fst ds_pod Volumes Containers].
  set (infos := getStoragePoolPaths cr). set (pathArg := buildPathArgFromStoragePoolInfo infos).
  rewrite !fmap_app, pool_volume_names.
  destruct (admitted_mount_names cr Hv) as (names & Hnames & Hnd).
  split_and!.
  - fold infos in Hnames. rewrite Hnames. apply NoDup_app. split_and!.
    + apply (bool_decide_eq_true _). vm_compute. reflexivity.
    + intros x Hx (n & -> & _)%list_elem_of_fmap. by apply reserved_volume_names in Hx.
    + apply NoDup_fmap_2; [|done]. intros a b. apply append_inj_r.
  - intros c m (c' & -> & Hc)%list_elem_of_fmap Hm. rewrite elem_of_app, <-pool_volume_names.
    apply mount_pools_mounts in Hm as [Hm|Hm]; [left|right; by apply pool_mount_names].
    pose proof (csi_containers_mounts cr args pathArg tls) as Hall.
    rewrite Forall_forall in Hall. specialize (Hall c' Hc). rewrite mounts_in_spec in Hall. by apply Hall.
  - intros info Hi. split.
    + apply elem_of_app. right. apply list_elem_of_fmap. by exists info.
    + eexists. split; [apply list_elem_of_fmap; eexists; split; [done|left]|].
      split; [done|]. apply elem_of_app. right. apply list_elem_of_fmap. by exists info.
Qed.

Lemma csi_pod_well_formed_witness :
  let P := simple_platform ∅ "" "" in
  wp any_answer any_request
    (createCSIDaemonSetObject (PL:=P) two_pool_cr (getDaemonSetArgs (PL:=P) "ns" false))
    (λ _ o, ∀ ds, o = Returned ds → NoDup (vol_Name <$> Volumes (template_Spec (ds_Template (ds_Spec ds))))) [].
Proof.
  eapply wp_post.
  - apply (csi_pod_well_formed (PL:=simple_platform ∅ "" "")). reflexivity.
  - intros tr o Hds ds Hd. exact (proj1 (Hds ds Hd)).
Defined.


(** A DaemonSet of an older version: another image, a user label, a running status. *)
Definition older_daemonset (ds : DaemonSet) : DaemonSet :=
  Obj (k:=KDaemonSet) (o_type ds) (set_Labels (Some {[ "team" := "storage" ]}) (o_meta ds))
    (ds_Spec ds, {| NumberReady := 1; DesiredNumberScheduled := 1; NumberAvailable := 1; ds_status_rest := "" |}).


(** ** Footprints *)

Section Footprints.
Context `{PL : Platform, CD : Codec}.

Lemma createCSIDaemonSetObject_fp cr args : footprint (writes_only []) (createCSIDaemonSetObject cr args).
Proof. unfold createCSIDaemonSetObject, GetTLSMinVersionString, deref. fp_solve. Qed.
#[local] Hint Resolve createCSIDaemonSetObject_fp : fp.

Lemma reconcileDaemonSetForSa_fp ds cr : footprint (writes_only [KDaemonSet]) (reconcileDaemonSetForSa ds cr).
Proof. unfold reconcileDaemonSetForSa, daemonset_answered, deleteDaemonSet. fp_solve. Qed.
#[local] Hint Resolve reconcileDaemonSetForSa_fp : fp.

Lemma reconcileDaemonSet_fp cr ns : footprint (writes_only [KDaemonSet]) (reconcileDaemonSet cr ns).
Proof. unfold reconcileDaemonSet, getDuplicateDaemonSet, deleteDaemonSet. fp_solve. Qed.
End Footprints.

#[export] Hint Resolve reconcileDaemonSet_fp : fp.
