(* ===== verification/Install.v ===== *)
(** * What the operator is installed with

    tools/helper and tools/csv-generator.go: the rules of the operator's own
    ClusterRole and Role (cluster_role_generated.go, role_generated.go), its
    Deployment (operator_deployment_generated.go, helper.go) and the network
    policies around it (network_policies.go).  The YAML texts are modelled by the
    values the decoder makes of them. *)
From S2P Require Import Prelude GoStrings Prog Names Api K8s Meta Rbac Prometheus DaemonSet.

(** ** The operator's own rules *)

(** A rule for some objects only *)
Definition named_rule (groups resources names verbs : list string) : PolicyRule :=
  {| APIGroups := groups; Resources := resources; ResourceNames := names; Verbs := verbs |}.

(** The ClusterRole: claims, access control, the custom resource, OpenShift *)
Definition operator_cluster_rules : list PolicyRule :=
  [rule [""] ["persistentvolumes"] ["get"; "list"; "watch"; "create"; "delete"; "patch"];
   rule [""] ["persistentvolumeclaims"] ["get"; "list"; "watch"; "create"; "update"];
   rule [""] ["events"] ["get"; "list"; "watch"; "create"; "patch"; "update"];
   named_rule ["rbac.authorization.k8s.io"] ["clusterrolebindings"]
     ["hostpath-provisioner"; "hostpath-provisioner-admin"; "hostpath-provisioner-admin-csi"] ["update"; "delete"];
   rule ["rbac.authorization.k8s.io"] ["clusterrolebindings"] ["list"; "get"; "watch"; "create"];
   rule ["rbac.authorization.k8s.io"] ["clusterroles"] ["list"; "get"; "watch"; "create"];
   named_rule ["rbac.authorization.k8s.io"] ["clusterroles"]
     ["hostpath-provisioner"; "hostpath-provisioner-admin"; "hostpath-provisioner-admin-csi"] ["update"; "delete"];
   named_rule ["apps"] ["deployments/finalizers"] ["hostpath-provisioner-operator"] ["update"];
   rule ["hostpathprovisioner.kubevirt.io"] ["*"] ["*"];
   rule ["security.openshift.io"] ["securitycontextconstraints"] ["list"; "get"; "watch"; "create"];
   named_rule ["security.openshift.io"] ["securitycontextconstraints"]
     ["hostpath-provisioner"; "hostpath-provisioner-csi"] ["delete"; "update"]].

(** The ClusterRole: storage, nodes and what the drivers need *)
Definition operator_cluster_storage_rules : list PolicyRule :=
  [rule ["config.openshift.io"] ["apiservers"] ["get"; "list"; "watch"];
   rule ["storage.k8s.io"] ["storageclasses"] ["list"; "get"; "watch"; "create"; "update"; "delete"];
   rule [""] ["nodes"] ["get"; "list"; "watch"];
   rule ["storage.k8s.io"] ["csinodes"] ["get"; "list"; "watch"];
   rule ["storage.k8s.io"] ["csidrivers"] ["list"; "create"; "get"; "watch"];
   named_rule ["storage.k8s.io"] ["csidrivers"] ["kubevirt.io.hostpath-provisioner"] ["delete"; "update"];
   rule ["storage.k8s.io"] ["volumeattachments"] ["get"; "list"; "watch"; "patch"];
   rule ["storage.k8s.io"] ["volumeattachments/status"] ["patch"];
   rule ["snapshot.storage.k8s.io"] ["volumesnapshotclasses"] ["get"; "list"; "watch"];
   rule ["snapshot.storage.k8s.io"] ["volumesnapshots"] ["get"];
   rule ["snapshot.storage.k8s.io"] ["volumesnapshotcontents"]
     ["create"; "get"; "list"; "watch"; "update"; "delete"; "patch"];
   rule ["snapshot.storage.k8s.io"] ["volumesnapshotcontents/status"] ["update"; "patch"];
   rule [""] ["pods"] ["get"; "list"; "watch"]].

(** [HppOperatorClusterRole], as [getOperatorClusterRules] (csv-generator.go) decodes it *)
Definition getOperatorClusterRules : list PolicyRule :=
  operator_cluster_rules ++ operator_cluster_storage_rules.

(** The rules of the operator's Role (role_generated.go), in the order of the file *)
Definition operator_role_rules : list PolicyRule :=
  [rule ["apps"] ["daemonsets"] ["list"; "get"; "watch"; "create"];
   named_rule ["apps"] ["daemonsets"]
     ["hostpath-provisioner"; "hostpath-provisioner-csi"] ["delete"; "update"];
   rule ["apps"] ["deployments"] ["list"; "get"; "watch"; "create"; "delete"; "update"];
   rule [""] ["endpoints"] ["get"; "list"; "watch"];
   rule [""] ["services"] ["get"; "list"; "watch"; "create"];
   named_rule [""] ["services"] ["hpp-prometheus-metrics"] ["update"; "delete"];
   rule [""] ["configmaps"] ["create"; "get"];
   named_rule [""] ["configmaps"] ["hostpath-provisioner-operator-lock"] ["update"];
   rule [""] ["serviceaccounts"] ["list"; "get"; "create"; "watch"];
   named_rule [""] ["serviceaccounts"]
     ["hostpath-provisioner-admin"; "hostpath-provisioner-admin-csi"] ["update"; "delete"]].

Definition operator_role_api_rules : list PolicyRule :=
  [rule ["coordination.k8s.io"] ["leases"] ["get"; "list"; "watch"; "update"; "create"; "delete"];
   rule ["storage.k8s.io"] ["csistoragecapacities"] ["get"; "list"; "watch"; "delete"; "update"; "create"];
   rule ["monitoring.coreos.com"] ["servicemonitors"; "prometheusrules"]
     ["list"; "get"; "watch"; "create"; "delete"; "update"; "patch"];
   rule ["rbac.authorization.k8s.io"] ["rolebindings"] ["list"; "get"; "watch"; "create"];
   rule ["rbac.authorization.k8s.io"] ["roles"] ["list"; "get"; "watch"; "create"];
   named_rule ["rbac.authorization.k8s.io"] ["rolebindings"]
     ["hostpath-provisioner"; "hostpath-provisioner-admin"; "hostpath-provisioner-admin-csi"; "hostpath-provisioner-monitoring"] ["update"; "delete"];
   named_rule ["rbac.authorization.k8s.io"] ["roles"]
     ["hostpath-provisioner"; "hostpath-provisioner-admin"; "hostpath-provisioner-admin-csi"; "hostpath-provisioner-monitoring"] ["update"; "delete"];
   rule ["batch"] ["jobs"] ["create"; "delete"; "list"; "watch"]].

(** [getOperatorRules] (csv-generator.go) *)
Definition getOperatorRules : list PolicyRule := operator_role_rules ++ operator_role_api_rules.

(** The permissions of the installation strategy (csv-generator.go): the service
    account, with its rules in the namespace and in the cluster *)
Definition csv_permissions : string * list PolicyRule := (OperatorServiceAccountName, getOperatorRules).
Definition csv_cluster_permissions : string * list PolicyRule :=
  (OperatorServiceAccountName, getOperatorClusterRules).

(** ** The operator's Deployment *)

Record OperatorArgs := {
  op_Namespace : string; op_ImagePullPolicy : string; op_Verbosity : string;
  op_OperatorImage : string; op_ProvisionerImage : string; op_CsiDriverImage : string;
  op_CsiNodeDriverRegistrarImage : string; op_CsiLivenessProbeImage : string;
  op_CsiExternalProvisionerImage : string; op_CsiSnapshotterImage : string }.

Definition kubevirtPriorityClassName := "kubevirt-cluster-critical".

(** The environment of the container in operator_deployment_generated.go *)
Definition operator_env : list EnvVar :=
  [env_field "WATCH_NAMESPACE" "metadata.namespace";
   env_field "POD_NAME" "metadata.name";
   env_field "INSTALLER_PART_OF_LABEL" "metadata.labels['app.kubernetes.io/part-of']";
   env_field "INSTALLER_VERSION_LABEL" "metadata.labels['app.kubernetes.io/version']";
   env_value "OPERATOR_NAME" "hostpath-provisioner-operator";
   env_value "OPERATOR_IMAGE" "quay.io/kubevirt/hostpath-provisioner-operator:latest";
   env_value "PROVISIONER_IMAGE" "quay.io/kubevirt/hostpath-provisioner:latest";
   env_value "CSI_PROVISIONER_IMAGE" "quay.io/kubevirt/hostpath-csi-driver:latest";
   env_value "NODE_DRIVER_REG_IMAGE" "registry.k8s.io/sig-storage/csi-node-driver-registrar:v2.2.0";
   env_value "LIVENESS_PROBE_IMAGE" "registry.k8s.io/sig-storage/livenessprobe:v2.3.0";
   env_value "CSI_SNAPSHOT_IMAGE" "registry.k8s.io/sig-storage/csi-snapshotter:v8.2.0";
   env_value "CSI_SIG_STORAGE_PROVISIONER_IMAGE" "registry.k8s.io/sig-storage/csi-provisioner:v3.4.1";
   env_value "VERBOSITY" "3";
   env_value "MONITORING_NAMESPACE" ""].

(** Its container; [c_rest] has the fields the model does not name. *)
Definition operator_container (image pullPolicy : string) (env : list EnvVar) : Container :=
  {| c_Name := "hostpath-provisioner-operator"; Image := image; ImagePullPolicy := pullPolicy;
     Command := ["hostpath-provisioner-operator"]; Args := []; Env := env;
     Requests := [("cpu", "10m"); ("memory", "150Mi")];
     Ports := [{| port_Name := "metrics"; port_Number := 8443; port_Protocol := "TCP" |}];
     LivenessProbe := Some {| probe_Path := "/livez"; probe_Port := 6060; probe_Scheme := "HTTP";
                              FailureThreshold := 1; InitialDelaySeconds := 30; TimeoutSeconds := 0;
                              PeriodSeconds := 5; SuccessThreshold := 0 |};
     c_SecurityContext := Some {| Privileged := None; RunAsUser := None;
       sec_rest := "allowPrivilegeEscalation: false, capabilities: {drop: [ALL]}, runAsNonRoot: true, seccompProfile: {type: RuntimeDefault}" |};
     VolumeMounts := [mount "apiservice-cert" "/tmp/k8s-webhook-server/serving-certs" None];
     VolumeDevices := []; TerminationMessagePath := ""; TerminationMessagePolicy := "";
     c_rest := "readinessProbe: {failureThreshold: 1, httpGet: {path: /readyz, port: 6060, scheme: HTTP}, initialDelaySeconds: 5, periodSeconds: 5}" |}.

Definition operator_name_label : gmap string string := {[ "name" := "hostpath-provisioner-operator" ]}.
Definition operator_pod_labels : gmap string string := <["prometheus.hostpathprovisioner.kubevirt.io" := "true"]> operator_name_label.

Definition operator_deployment (namespace : string) (selector pod_labels : gmap string string)
    (c : Container) (rest : string) : Deployment :=
  Obj (k:=KDeployment) {| APIVersion := "apps/v1"; Kind := "Deployment" |}
    (object_meta "hostpath-provisioner-operator" namespace
       (Some {[ "prometheus.hostpathprovisioner.kubevirt.io" := "true" ]}))
    ({| dep_Selector := match_labels selector; dep_Replicas := Some 1;
        dep_Strategy := {| strategy_Type := ""; strategy_Rolling := None |};
        dep_ProgressDeadlineSeconds := None; dep_RevisionHistoryLimit := None;
        dep_Template :=
          {| template_Meta := set_Annotations (Some {[ RequiredSCCAnnotation := "restricted-v2" ]})
                                (object_meta "" "" (Some pod_labels));
             template_Spec :=
               {| ServiceAccountName := "hostpath-provisioner-operator"; DeprecatedServiceAccount := "";
                  RestartPolicy := ""; SchedulerName := ""; DNSPolicy := "";
                  TerminationGracePeriodSeconds := None; PodSecurityContext := None; Containers := [c];
                  Volumes := [{| vol_Name := "apiservice-cert";
                    vol_Source := OtherVolumeSource "secret: {defaultMode: 420, items: [{key: tls.crt, path: tls.crt}, {key: tls.key, path: tls.key}], secretName: hostpath-provisioner-operator-webhook-service-cert}" |}];
                  NodeSelector := None; Tolerations := []; pod_Affinity := None; NodeName := "";
                  pod_rest := rest |} |};
        dep_rest := "" |},
     {| ReadyReplicas := 0; dep_status_rest := "" |}).

(** operator_deployment_generated.go *)
Definition HppOperatorDeployment : Deployment :=
  operator_deployment "" operator_name_label operator_pod_labels
    (operator_container "quay.io/kubevirt/hostpath-provisioner-operator:latest" "Always" operator_env) "".

(** [setEnvVariable]: every entry of the name is set, none is added. *)
Definition setEnvVariable (key value : string) (env : list EnvVar) : list EnvVar :=
  (λ e, if bool_decide (env_Name e = key)
        then {| env_Name := env_Name e; env_Value := value; env_FieldRef := env_FieldRef e; env_rest := env_rest e |}
        else e) <$> env.

(** The environment [CreateOperatorDeployment] makes *)
Definition installed_env (args : OperatorArgs) : list EnvVar :=
  foldl (λ env '(key, value), setEnvVariable key value env)
    (operator_env ++ [env_value "PRIORITY_CLASS" kubevirtPriorityClassName])
    [("VERBOSITY", op_Verbosity args); ("OPERATOR_IMAGE", op_OperatorImage args);
     ("PROVISIONER_IMAGE", op_ProvisionerImage args); ("CSI_PROVISIONER_IMAGE", op_CsiDriverImage args);
     ("NODE_DRIVER_REG_IMAGE", op_CsiNodeDriverRegistrarImage args);
     ("LIVENESS_PROBE_IMAGE", op_CsiLivenessProbeImage args);
     ("CSI_SIG_STORAGE_PROVISIONER_IMAGE", op_CsiExternalProvisionerImage args);
     ("CSI_SNAPSHOT_IMAGE", op_CsiSnapshotterImage args)].

Definition CreateOperatorDeployment (args : OperatorArgs) : Deployment :=
  let operator_label := "operator.hostpath-provisioner.kubevirt.io" in
  operator_deployment (op_Namespace args) (<[operator_label := ""]> operator_name_label)
    (<[operator_label := ""]> operator_pod_labels)
    (operator_container (op_OperatorImage args) (op_ImagePullPolicy args) (installed_env args))
    ("priorityClassName: " +:+ kubevirtPriorityClassName).

(** ** Network policies *)

(** [NetworkPolicy]: the pods it is about and the ingress ports it opens *)
Record NetworkPolicy := {
  np_Meta : ObjectMeta; np_PodSelector : gmap string string; np_PolicyTypes : list string;
  np_Ports : list (string * Z) }.

Definition newNetworkPolicy (namespace name : string) (selector : gmap string string)
    (ports : list (string * Z)) : NetworkPolicy :=
  {| np_Meta := object_meta name namespace (Some {[ MultiPurposeHostPathProvisionerName := "" ]});
     np_PodSelector := selector; np_PolicyTypes := ["Ingress"]; np_Ports := ports |}.

Definition newIngressToMetricsNP (namespace : string) : NetworkPolicy :=
  newNetworkPolicy namespace "hpp-allow-ingress-to-metrics" {[ PrometheusLabelKey := "true" ]}
    [("TCP", 8443)].

Definition newIngressToOperatorWebhookServer (namespace : string) : NetworkPolicy :=
  newNetworkPolicy namespace "hpp-allow-ingress-to-operator-webhook-server" {[ "name" := OperatorImageDefault ]}
    [("TCP", 9443)].

Definition CreateNetworkPolicies (namespace : string) : list NetworkPolicy :=
  [newIngressToMetricsNP namespace; newIngressToOperatorWebhookServer namespace].

(** ** Properties *)

(** The environment of a process the kubelet started with [env]: a variable with
    a value has that value. *)
Definition started_with `{PL : Platform} (env : list EnvVar) : Prop :=
  ∀ e, e ∈ env → env_FieldRef e = None → LookupEnv (env_Name e) = Some (env_Value e).

(** An image argument, or the default of daemonset.go when it is empty *)
Definition image_or (image dflt : string) : string := if bool_decide (image = "") then dflt else image.

(** [env_or] on a variable of the operator's container *)
Lemma env_or_started `{PL : Platform} env var value dflt :
  started_with env → env_value var value ∈ env → env_or var dflt = image_or value dflt.
Proof. intros Hs Hin. pose proof (Hs _ Hin eq_refl) as Hv. unfold env_or, getenv. simpl in Hv. by rewrite Hv. Qed.


(** The network policies open the metrics port of the pods of the CSI DaemonSet,
    and the metrics and webhook ports of the operator's. *)
Definition selected_by (np : NetworkPolicy) (pod : PodTemplateSpec) : Prop :=
  np_PodSelector np ⊆ default ∅ (Labels (template_Meta pod)).

Lemma policies_open_ports `{PL : Platform} cr args tls a ns :
  selected_by (newIngressToMetricsNP ns) (ds_Template (ds_Spec (csi_daemonset cr args tls))) ∧
  selected_by (newIngressToMetricsNP ns) (dep_Template (dep_Spec (CreateOperatorDeployment a))) ∧
  selected_by (newIngressToOperatorWebhookServer ns) (dep_Template (dep_Spec (CreateOperatorDeployment a))).
Proof.
  unfold selected_by. cbn [np_PodSelector newIngressToMetricsNP newIngressToOperatorWebhookServer newNetworkPolicy].
  split_and!; apply map_singleton_subseteq_l; [cbn; apply lookup_insert_eq|vm_compute; done..].
Qed.

(** ** Witness *)

Definition example_args : OperatorArgs :=
  {| op_Namespace := "hpp"; op_ImagePullPolicy := "Always"; op_Verbosity := "5";
     op_OperatorImage := "operator:v1"; op_ProvisionerImage := "provisioner:v1"; op_CsiDriverImage := "csi:v1";
     op_CsiNodeDriverRegistrarImage := ""; op_CsiLivenessProbeImage := "probe:v1";
     op_CsiExternalProvisionerImage := "external:v1"; op_CsiSnapshotterImage := "snapshotter:v1" |}.

Definition example_platform : Platform :=
  simple_platform (list_to_map ((λ e, (env_Name e, env_Value e)) <$>
    filter (λ e, env_FieldRef e = None) (installed_env example_args))) "" "hpp".

