(* ===== verification/StoragePool.v ===== *)
(** * Storage pools

    pkg/controller/hostpathprovisioner/storagepool.go: for a pool with a PVC
    template the operator creates the claims (one per node, or one for a shared
    pool) and, on every node the CSI driver runs on, a Deployment whose pod mounts
    the claim under the pool's path; when such a Deployment goes away a cleanup
    Job unmounts it. *)
From S2P Require Import Prelude GoStrings Prog Names Api K8s Json JsonMerge Meta Rbac DaemonSet.

Definition storagePoolLabelKey := "kubevirt.io.hostpath-provisioner/storagePool".
Definition dataName := "data".
Definition fsDataMountPath := "/source".
Definition blockDataMountPath := "/dev/data".
Definition defaultOverlaySCName := "hpp-overlay".
Definition PersistentVolumeFilesystem := "Filesystem".
Definition ClaimBound := "Bound".
Definition LabelHostname := "kubernetes.io/hostname".

Definition index_out_of_range := "runtime error: index out of range [0] with length 0".

(** ** Objects *)

(** The affinity to one node of the pods of the Deployments and Jobs *)
Definition node_affinity (nodeName : string) : Affinity :=
  {| affinity_Node := Some
       {| RequiredTerms := Some
            [{| MatchExpressions := [{| req_Key := LabelHostname; req_Operator := "In";
                                        req_Values := [nodeName] |}];
                term_rest := "" |}];
          node_affinity_rest := "" |};
     affinity_rest := "" |}.

(** The container [mounter] of the Deployments and Jobs *)
Definition mounter_container (cr : HostPathProvisioner) (image : string) (command : list string)
    (mounts : list VolumeMount) (devices : list VolumeDevice) : Container :=
  {| c_Name := "mounter"; Image := image; ImagePullPolicy := cr_ImagePullPolicy (cr_Spec cr);
     Command := command; Args := []; Env := []; Requests := [("cpu", "10m"); ("memory", "100Mi")];
     Ports := []; LivenessProbe := None;
     c_SecurityContext := Some {| Privileged := Some true; RunAsUser := Some 0; sec_rest := "" |};
     VolumeMounts := mounts; VolumeDevices := devices;
     TerminationMessagePath := "/dev/termination-log"; TerminationMessagePolicy := "File"; c_rest := "" |}.

Definition mounter_pod (restart nodeName : string) (c : Container) (volumes : list Volume) : PodSpec :=
  {| ServiceAccountName := ProvisionerServiceAccountNameCsi; DeprecatedServiceAccount := "";
     RestartPolicy := restart; SchedulerName := "default-scheduler"; DNSPolicy := "ClusterFirst";
     TerminationGracePeriodSeconds := Some 30; PodSecurityContext := Some ""; Containers := [c];
     Volumes := volumes; NodeSelector := None; Tolerations := []; pod_Affinity := Some (node_affinity nodeName);
     NodeName := ""; pod_rest := "" |}.

Definition host_root_mount : VolumeMount := mount "host-root" "/host" (Some Bidirectional).
Definition host_root_volume : Volume := host_volume "host-root" "/" HostPathDirectory.

(** [VolumeMode == nil || *VolumeMode == Filesystem] *)
Definition is_filesystem (template : PersistentVolumeClaimSpec) : bool :=
  match VolumeMode template with
  | None => true
  | Some mode => bool_decide (mode = PersistentVolumeFilesystem)
  end.

Section Objects.
Context `{PL : Platform}.

Definition backendStorageClass (storagePool : StoragePool) : obj KStorageClass :=
  Obj (k:=KStorageClass) no_type
    (object_meta (if bool_decide (OverlayClassName storagePool ≠ "")
                  then OverlayClassName storagePool else defaultOverlaySCName) "" None)
    {| Provisioner := "kubevirt.io.hostpath-provisioner"; ReclaimPolicy := Some "Delete";
       VolumeBindingMode := Some "Immediate";
       Parameters := {[ "storagePool" := pool_Name storagePool; "overlayCSI" := "true" ]};
       sc_rest := "" |}.

(** [labels := util.GetRecommendedLabels(); labels[storagePoolLabelKey] = ...] *)
Definition pool_labels (poolName : string) : gmap string string :=
  <[storagePoolLabelKey := storagePoolLabelValue poolName]> GetRecommendedLabels.

(** [storagePoolPVC], for a pool with this template; no node for a shared pool *)
Definition storagePoolPVC (storagePool : StoragePool) (template : PersistentVolumeClaimSpec)
    (namespace : string) (node : option Node) : obj KPersistentVolumeClaim :=
  Obj (k:=KPersistentVolumeClaim) no_type
    (object_meta (match node with
                  | Some node => getStoragePoolPVCName (pool_Name storagePool) (o_name node)
                  | None => getSharedStoragePoolPVCName (pool_Name storagePool)
                  end) namespace (Some (pool_labels (pool_Name storagePool))))
    (template, {| pvc_Phase := ""; pvc_status_rest := "" |}).

(** The name of the claim the Deployment of a pool on a node mounts *)
Definition claim_name (storagePool : StoragePool) (template : PersistentVolumeClaimSpec)
    (node : Node) : string :=
  if isShared (Some template) then getSharedStoragePoolPVCName (pool_Name storagePool)
  else getStoragePoolPVCName (pool_Name storagePool) (o_name node).

(** [storagePoolDeploymentByNode], for a pool with this template *)
Definition storagePoolDeploymentByNode (cr : HostPathProvisioner) (storagePool : StoragePool)
    (template : PersistentVolumeClaimSpec) (namespace : string) (node : Node) : Deployment :=
  let args := getDaemonSetArgs namespace false in
  let resourceName := storagePoolLabelValue (pool_Name storagePool) in
  let labels := <[hppPoolPrefix := resourceName]> (pool_labels (pool_Name storagePool)) in
  let fs := is_filesystem template in
  let container :=
    mounter_container cr (operatorImage args)
      ["/usr/bin/mounter"; "--storagePoolPath"; if fs then fsDataMountPath else blockDataMountPath;
       "--mountPath"; filepath_Join [pool_Path storagePool; "csi"]; "--hostPath"; "/host"]
      (host_root_mount :: if fs then [mount dataName fsDataMountPath None] else [])
      (if fs then [] else [{| vd_Name := dataName; DevicePath := blockDataMountPath |}]) in
  Obj (k:=KDeployment) no_type
    (object_meta (storagePoolDeploymentName (pool_Name storagePool) (o_name node)) namespace (Some labels))
    ({| dep_Selector := match_labels {[ hppPoolPrefix := resourceName ]};
        dep_Replicas := Some 1;
        dep_Strategy := {| strategy_Type := "RollingUpdate";
                           strategy_Rolling := Some {| MaxUnavailable := Some (IntVal 1);
                                                       MaxSurge := Some (IntVal 2) |} |};
        dep_ProgressDeadlineSeconds := Some 600; dep_RevisionHistoryLimit := Some 10;
        dep_Template :=
          {| template_Meta := set_Annotations (Some {[ RequiredSCCAnnotation := "hostpath-provisioner-csi" ]})
                                (object_meta resourceName namespace (Some labels));
             template_Spec := mounter_pod "Always" (o_name node) container
               [{| vol_Name := dataName;
                   vol_Source := PersistentVolumeClaimSource (claim_name storagePool template node) |};
                host_root_volume] |};
        dep_rest := "" |},
     {| ReadyReplicas := 0; dep_status_rest := "" |}).

(** The Job of [createCleanupJobForNode] *)
Definition cleanupJob (cr : HostPathProvisioner) (namespace : string) (storagePool : StoragePool)
    (node : Node) : obj KJob :=
  let args := getDaemonSetArgs namespace false in
  let container :=
    mounter_container cr (operatorImage args)
      ["/usr/bin/mounter"; "--mountPath"; filepath_Join [pool_Path storagePool; "csi"];
       "--hostPath"; "/host"; "--unmount"] [host_root_mount] [] in
  Obj (k:=KJob) no_type
    (object_meta (cleanupJobName (pool_Name storagePool) (o_name node)) namespace (Some GetRecommendedLabels))
    ({| job_Template :=
          {| template_Meta := object_meta "" "" (Some GetRecommendedLabels);
             template_Spec := mounter_pod "OnFailure" (o_name node) container [host_root_volume] |};
        job_rest := "" |},
     {| Succeeded := 0; job_status_rest := "" |}).
End Objects.

(** ** What is there *)

(** [Deployment]s by name *)
Abbreviation deployments := (gmap string Deployment).

Section Queries.
Context `{PL : Platform}.

(** List the objects with these labels in a namespace; [h] gets the error of
    the selector or of the request. *)
Definition list_labelled {B} k (labels : gmap string string) (namespace : string)
    (h : goerror → kprog B) (body : list (obj k) → kprog B) : kprog B :=
  match LabelSelectorAsSelector labels with
  | Err err => h err
  | Ok selector =>
      with_ok (request (ListObjs k {| lo_Selector := selector; lo_Namespace := namespace |})) h body
  end.

Definition controlled_by {k} (cr : HostPathProvisioner) (items : list (obj k)) : list (obj k) :=
  filter (λ o, IsControlledBy (o_meta o) (o_meta cr) = true) items.

Definition by_name (items : list Deployment) : deployments :=
  foldl (λ res d, <[o_name d := d]> res) ∅ items.

Definition currentStoragePoolDeployments (cr : HostPathProvisioner) (namespace : string) :
    kprog (result deployments) :=
  list_labelled KDeployment {[ "k8s-app" := MultiPurposeHostPathProvisionerName ]} namespace
    (λ err, mret (Err err))
    (λ items, mret (Ok (by_name (controlled_by cr items)))).

(** The names of the nodes the pods of the DaemonSet run on, each once. *)
Definition node_names (ds : DaemonSet) (pods : list (obj KPod)) : list string :=
  remove_dups ((λ pod : obj KPod, NodeName (o_body pod)) <$>
    filter (λ pod, (IsControlledBy (o_meta pod) (o_meta ds)
                    && bool_decide (DeletionTimestamp (o_meta pod) = None)) = true) pods).

(** The nodes are visited in the order Go ranges over a map. *)
Definition getNodesByDaemonSet (namespace : string) : kprog (result (list Node)) :=
  let dsArgs := getDaemonSetArgs namespace false in
  r ← request (Get KDaemonSet (args_namespace dsArgs, args_name dsArgs));
  match r with
  | Err err => mret (if IsNotFound err then Ok [] else Err err)
  | Ok ds =>
      list_labelled KPod {[ "k8s-app" := MultiPurposeHostPathProvisionerName ]} (args_namespace dsArgs)
        (λ err, mret (Err err))
        (λ pods,
          nodeNames ← request (RangeOver (node_names ds pods));
          for_state nodeNames [] (λ res nodeName,
            with_ok (request (Get KNode ("", nodeName))) (λ err, mret (Err err))
              (λ node, mret (Ok (res ++ [node])))))
  end.

Definition pool_selector (storagePool : StoragePool) : gmap string string :=
  {[ "k8s-app" := MultiPurposeHostPathProvisionerName;
     storagePoolLabelKey := storagePoolLabelValue (pool_Name storagePool) ]}.

Definition storagePoolDeploymentsByStoragePool (cr : HostPathProvisioner) (namespace : string)
    (storagePool : StoragePool) : kprog (result (list Deployment)) :=
  list_labelled KDeployment (pool_selector storagePool) namespace (λ err, mret (Err err))
    (λ items, mret (Ok (controlled_by cr items))).

Definition getClaimStatusesByStoragePool (storagePool : StoragePool) (namespace : string) :
    kprog (result (list ClaimStatus)) :=
  list_labelled KPersistentVolumeClaim (pool_selector storagePool) namespace (λ err, mret (Err err))
    (λ items, mret (Ok ((λ pvc : obj KPersistentVolumeClaim,
      {| claim_Name := o_name pvc; claim_Status := snd (o_body pvc) |}) <$> items))).

Definition getCleanUpJobs (namespace : string) : kprog (result (list (obj KJob))) :=
  list_labelled KJob {[ AppKubernetesManagedByLabel := "hostpath-provisioner-operator" ]} namespace
    (λ err, mret (Err err)) (λ items, mret (Ok items)).

Definition hasCleanUpFinished (namespace : string) : kprog (result bool) :=
  with_ok (getCleanUpJobs namespace) (λ err, mret (Err err))
    (λ jobs, mret (Ok (forallb (λ job : obj KJob, negb (Succeeded (snd (o_body job)) =? 0)) jobs))).

Definition removeCleanUpJobs (namespace : string) : kprog error :=
  with_ok (getCleanUpJobs namespace) (λ err, mret (Some err))
    (λ jobs, for_err jobs (λ job,
      ignore_not_found (request (Delete KJob (o_namespace job, o_name job) (Some "Background"))))).
End Queries.

(** ** Creating *)

(** [if err := c.Get(...); NotFound { Create ... }]: an object that already
    exists is left as it is, also when it appears between the two requests. *)
Definition ensure_exists {k} (cr : HostPathProvisioner) (desired : obj k) : kprog error :=
  r ← request (Get k (ObjectKeyFromObject desired));
  match r with
  | Ok _ => mret None
  | Err err =>
      if IsNotFound err then
        with_ok (request (Create k desired))
          (λ err,
            if IsAlreadyExists err then mret None
            else record_event cr EventTypeWarning createResourceFailed
                   (createMessageFailed (o_name desired) err);;
                 mret (Some err))
          (λ desired, record_event cr EventTypeNormal createResourceSuccess
                        (createMessageSucceeded k (o_name desired));;
                      mret None)
      else mret (Some err)
  end.

(** [copyIgnoredStoragePoolFields], and the spec of an existing Deployment
    replaced by the desired one *)
Definition copyIgnoredStoragePoolFields (desired current : Deployment) : Deployment :=
  let s := dep_Spec desired in
  let t := dep_Template s in
  Obj (k:=KDeployment) (o_type desired) (o_meta desired)
    ({| dep_Selector := dep_Selector s; dep_Replicas := dep_Replicas s; dep_Strategy := dep_Strategy s;
        dep_ProgressDeadlineSeconds := dep_ProgressDeadlineSeconds s;
        dep_RevisionHistoryLimit := dep_RevisionHistoryLimit s;
        dep_Template := {| template_Meta := template_Meta t;
                           template_Spec := set_pod_ignored
                             (DeprecatedServiceAccount (template_Spec (dep_Template (dep_Spec current))))
                             (SchedulerName (template_Spec t)) (template_Spec t) |};
        dep_rest := dep_rest s |}, dep_Status desired).

Definition updated_deployment (desired found : Deployment) : Deployment :=
  Obj (k:=KDeployment) (o_type found) (mergeLabelsAndAnnotations (o_meta desired) (o_meta found))
    (dep_Spec (copyIgnoredStoragePoolFields desired found), dep_Status found).

Section Reconcile.
Context `{PL : Platform, CD : Codec}.

Definition reconcileBackendStorageClass (cr : HostPathProvisioner) (storagePool : StoragePool) :
    kprog error :=
  ensure_exists cr (backendStorageClass storagePool).

Definition reconcileStoragePoolPVCByNode (cr : HostPathProvisioner) (namespace : string)
    (storagePool : StoragePool) (template : PersistentVolumeClaimSpec) (node : Node) : kprog error :=
  ensure_exists cr (storagePoolPVC storagePool template namespace (Some node)).

Definition reconcileSharedStoragePoolPVC (cr : HostPathProvisioner) (namespace : string)
    (storagePool : StoragePool) (template : PersistentVolumeClaimSpec) : kprog error :=
  ensure_exists cr (storagePoolPVC storagePool template namespace None).

(** [reconcileStoragePoolDeploymentByNode]; its last argument is the map of
    Deployments not seen yet, which it changes. *)
Definition reconcileStoragePoolDeploymentByNode (cr : HostPathProvisioner) (namespace : string)
    (storagePool : StoragePool) (template : PersistentVolumeClaimSpec) (node : Node)
    (current : deployments) : kprog (result deployments) :=
  let desired := setLastAppliedConfiguration
                   (storagePoolDeploymentByNode cr storagePool template namespace node) in
  match SetControllerReference cr desired with
  | Err err => mret (Err err)
  | Ok desired =>
      r ← request (Get KDeployment (ObjectKeyFromObject desired));
      match r with
      | Err err =>
          if IsNotFound err then
            on_err (create_resource cr desired (λ _, mret None)) (λ err, mret (Err err)) (mret (Ok current))
          else mret (Err err)
      | Ok found =>
          on_err (update_resource cr (o_name desired) found (updated_deployment desired found))
            (λ err, mret (Err err)) (mret (Ok (delete (o_name desired) current)))
      end
  end.

(** The body of the loop of [reconcileStoragePools] over the pools *)
Definition reconcile_pool (cr : HostPathProvisioner) (namespace : string) (usedNodes : list Node)
    (current : deployments) (storagePool : StoragePool) : kprog (result deployments) :=
  let fail err := mret (Err err) in
  match PVCTemplate storagePool with
  | None => mret (Ok current)
  | Some template =>
      if isShared (Some template) then
        match usedNodes with
        | [] => mret (Ok current)
        | _ =>
            on_err (reconcileSharedStoragePoolPVC cr namespace storagePool template) fail
              (with_ok (for_state usedNodes current (λ current node,
                          reconcileStoragePoolDeploymentByNode cr namespace storagePool template node current))
                 fail
                 (λ current, on_err (reconcileBackendStorageClass cr storagePool) fail (mret (Ok current))))
        end
      else
        for_state usedNodes current (λ current node,
          on_err (reconcileStoragePoolPVCByNode cr namespace storagePool template node) fail
            (reconcileStoragePoolDeploymentByNode cr namespace storagePool template node current))
  end.

(** ** Cleaning up *)

(** The first pool the name of the Deployment starts with *)
Definition getStoragePoolForDeployment (cr : HostPathProvisioner) (deployment : Deployment) :
    option StoragePool :=
  List.find (λ storagePool, HasPrefix (o_name deployment) ("hpp-pool-" +:+ pool_Name storagePool))
    (StoragePools (cr_Spec cr)).

(** The node a Deployment is bound to; [inl] is the panic of a missing part. *)
Definition deployment_node (deployment : Deployment) : string + string :=
  match pod_Affinity (template_Spec (dep_Template (dep_Spec deployment))) with
  | None => inl nil_dereference
  | Some a =>
      match affinity_Node a with
      | None => inl nil_dereference
      | Some na =>
          match RequiredTerms na with
          | None => inl nil_dereference
          | Some [] => inl index_out_of_range
          | Some (term :: _) =>
              match MatchExpressions term with
              | [] => inl index_out_of_range
              | e :: _ => match req_Values e with
                          | [] => inl index_out_of_range
                          | nodeName :: _ => inr nodeName
                          end
              end
          end
      end
  end.

(** [createCleanupJobForNode]: an error of the creation is only logged. *)
Definition createCleanupJobForNode (cr : HostPathProvisioner) (namespace : string)
    (storagePool : StoragePool) (node : Node) : kprog error :=
  _ ← request (Create KJob (cleanupJob cr namespace storagePool node));
  mret None.

(** [createCleanupJobForDeployment]: the node, or none when it is gone *)
Definition createCleanupJobForDeployment (cr : HostPathProvisioner) (namespace : string)
    (deployment : Deployment) (storagePool : StoragePool) : kprog (result (option Node)) :=
  match deployment_node deployment with
  | inl msg => Panic msg
  | inr nodeName =>
      r ← request (Get KNode ("", nodeName));
      match r with
      | Err err => mret (if IsNotFound err then Ok None else Err err)
      | Ok node =>
          on_err (createCleanupJobForNode cr namespace storagePool node)
            (λ err, mret (if IsAlreadyExists err then Ok (Some node) else Err err))
            (mret (Ok (Some node)))
      end
  end.

(** [r.client.Delete(ctx, &deployment)] *)
Definition delete_deployment (d : Deployment) : kprog error :=
  delete_object KDeployment (o_namespace d) (o_name d).

(** The values of a map of Deployments, in the order Go ranges over it *)
Definition for_deployments (m : deployments) (body : Deployment → kprog error) : kprog error :=
  names ← request (RangeOver (map_to_list m).*1);
  for_err (omap (λ name, m !! name) names) body.

Definition reconcileStoragePools (cr : HostPathProvisioner) (namespace : string) : kprog error :=
  let fail err := mret (Some err) in
  with_ok (getNodesByDaemonSet namespace) fail (λ usedNodes,
    with_ok (currentStoragePoolDeployments cr namespace) fail (λ current,
      with_ok (for_state (StoragePools (cr_Spec cr)) current (reconcile_pool cr namespace usedNodes)) fail
        (λ unused,
          for_deployments unused (λ ds,
            on_err (delete_deployment ds) fail
              match getStoragePoolForDeployment cr ds with
              | None => mret None
              | Some sp =>
                  with_ok (createCleanupJobForDeployment cr namespace ds sp) fail (λ _, mret None)
              end)))).

(** The body of the loop of [cleanDeployments] over the Deployments *)
Definition clean_deployment (cr : HostPathProvisioner) (namespace : string) (storagePool : StoragePool)
    (template : PersistentVolumeClaimSpec) (deployment : Deployment) : kprog error :=
  let fail err := mret (Some err) in
  with_ok (createCleanupJobForDeployment cr namespace deployment storagePool) fail (λ node,
    match node with
    | None => delete_deployment deployment
    | Some node =>
        let desired := storagePoolDeploymentByNode cr storagePool template namespace node in
        r ← request (Get KDeployment (ObjectKeyFromObject desired));
        match r with
        | Err err => mret (if IsNotFound err then None else Some err)
        | Ok found => delete_deployment found
        end
    end).

Definition cleanDeployments (cr : HostPathProvisioner) (namespace : string) : kprog error :=
  for_err (StoragePools (cr_Spec cr)) (λ storagePool,
    match PVCTemplate storagePool with
    | None => mret None
    | Some template =>
        with_ok (currentStoragePoolDeployments cr namespace) (λ err, mret (Some err)) (λ current,
          for_deployments current (clean_deployment cr namespace storagePool template))
    end).

(** ** Status *)

Definition pool_status (name : string) (desired ready : Z) (claims : option (list ClaimStatus)) :
    StoragePoolStatus :=
  {| ps_Name := name; Phase := StoragePoolReady; DesiredReady := desired; CurrentReady := ready;
     ClaimStatuses := claims |}.

Definition unbound_claim (claims : list ClaimStatus) : option ClaimStatus :=
  List.find (λ s, bool_decide (pvc_Phase (claim_Status s) ≠ ClaimBound)) claims.

Definition unbound_error (s : ClaimStatus) : goerror :=
  Errorf ("error: Pool PVC " +:+ claim_Name s +:+ " is " +:+ pvc_Phase (claim_Status s)
          +:+ " instead of " +:+ ClaimBound).

(** The status of one pool *)
Definition storage_pool_status (cr : HostPathProvisioner) (namespace : string) (storagePool : StoragePool) :
    kprog (result StoragePoolStatus) :=
  let fail err := mret (Err err) in
  match PVCTemplate storagePool with
  | None => mret (Ok (pool_status (pool_Name storagePool) 0 0 None))
  | Some _ =>
      with_ok (storagePoolDeploymentsByStoragePool cr namespace storagePool) fail (λ ds,
        let currentReady := length (filter (λ d, ReadyReplicas (dep_Status d) = 1) ds) in
        with_ok (getClaimStatusesByStoragePool storagePool namespace) fail (λ claimStatuses,
          match unbound_claim claimStatuses with
          | Some s => mret (Err (unbound_error s))
          | None => mret (Ok (pool_status (pool_Name storagePool) (Z.of_nat (length ds))
                                (Z.of_nat currentReady) (Some claimStatuses)))
          end))
  end.

(** [sort.Slice] by name; admitted pools have distinct names. *)
Fixpoint insert_status (s : StoragePoolStatus) (l : list StoragePoolStatus) : list StoragePoolStatus :=
  match l with
  | [] => [s]
  | t :: l => if str_lt (ps_Name t) (ps_Name s) then t :: insert_status s l else s :: t :: l
  end.
Definition sort_statuses (l : list StoragePoolStatus) : list StoragePoolStatus := foldr insert_status [] l.

Definition reconcileStoragePoolStatus (cr : HostPathProvisioner) (namespace : string) :
    kprog (result HostPathProvisioner) :=
  with_ok
    (if isLegacy cr then mret (Ok [pool_status legacyStoragePoolName 0 0 None])
     else for_state (StoragePools (cr_Spec cr)) [] (λ statuses storagePool,
            with_ok (storage_pool_status cr namespace storagePool) (λ err, mret (Err err))
              (λ s, mret (Ok (statuses ++ [s])))))
    (λ err, mret (Err err))
    (λ statuses, mret (Ok (with_Status (set_StoragePoolStatuses (sort_statuses statuses)) cr))).
End Reconcile.

(** ** Footprints *)

Lemma list_labelled_fp `{PL : Platform} {B} ks k labels ns h (body : list (obj k) → kprog B) :
  (∀ e, footprint (writes_only ks) (h e)) → (∀ l, footprint (writes_only ks) (body l)) →
  footprint (writes_only ks) (list_labelled k labels ns h body).
Proof.
  intros. unfold list_labelled. destruct (LabelSelectorAsSelector labels); [|done].
  apply footprint_with_ok; [by split|done|done].
Qed.

Lemma ensure_exists_fp {k} cr (desired : obj k) : footprint (writes_only [k]) (ensure_exists cr desired).
Proof.
  unfold ensure_exists. apply footprint_bind; [by split|]. intros [o|e]; [done|].
  destruct (IsNotFound e); [|done]. apply footprint_with_ok.
  - split; [|done]. intros _. exists k. split; [done|left].
  - intros e'. destruct (IsAlreadyExists e'); by repeat split.
  - by repeat split.
Qed.

Section Footprints.
Context `{PL : Platform, CD : Codec}.

Lemma currentStoragePoolDeployments_fp cr ns :
  footprint (writes_only []) (currentStoragePoolDeployments cr ns).
Proof. by apply list_labelled_fp. Qed.

Lemma getNodesByDaemonSet_fp ns : footprint (writes_only []) (getNodesByDaemonSet ns).
Proof.
  apply footprint_bind; [by split|]. intros [ds|e]; [|done]. apply list_labelled_fp; [done|].
  intros pods. fp_solve.
Qed.

Lemma storage_pool_status_fp cr ns pool : footprint (writes_only []) (storage_pool_status cr ns pool).
Proof.
  unfold storage_pool_status. destruct (PVCTemplate pool); [|done].
  apply footprint_with_ok; [by apply list_labelled_fp|done|]. intros ds.
  apply footprint_with_ok; [by apply list_labelled_fp|done|]. intros claims.
  by destruct (unbound_claim claims).
Qed.

Lemma getCleanUpJobs_fp ns : footprint (writes_only []) (getCleanUpJobs ns).
Proof. by apply list_labelled_fp. Qed.
#[local] Hint Resolve currentStoragePoolDeployments_fp getNodesByDaemonSet_fp storage_pool_status_fp
  getCleanUpJobs_fp : fp.

Lemma hasCleanUpFinished_fp ns : footprint (writes_only []) (hasCleanUpFinished ns).
Proof. unfold hasCleanUpFinished. fp_solve. Qed.

Lemma removeCleanUpJobs_fp ns : footprint (writes_only [KJob]) (removeCleanUpJobs ns).
Proof. unfold removeCleanUpJobs. fp_solve. Qed.

Lemma reconcileStoragePoolStatus_fp cr ns :
  footprint (writes_only []) (reconcileStoragePoolStatus cr ns).
Proof. unfold reconcileStoragePoolStatus. fp_solve. Qed.

Lemma reconcileStoragePoolDeploymentByNode_fp cr ns pool t node current :
  footprint (writes_only [KDeployment]) (reconcileStoragePoolDeploymentByNode cr ns pool t node current).
Proof. unfold reconcileStoragePoolDeploymentByNode. fp_solve. Qed.

Lemma createCleanupJobForDeployment_fp cr ns d pool :
  footprint (writes_only [KJob]) (createCleanupJobForDeployment cr ns d pool).
Proof. unfold createCleanupJobForDeployment, createCleanupJobForNode. fp_solve. Qed.
#[local] Hint Resolve reconcileStoragePoolDeploymentByNode_fp createCleanupJobForDeployment_fp
  ensure_exists_fp : fp.

Lemma reconcile_pool_fp cr ns nodes current pool :
  footprint (writes_only [KPersistentVolumeClaim; KDeployment; KStorageClass])
    (reconcile_pool cr ns nodes current pool).
Proof.
  unfold reconcile_pool, reconcileSharedStoragePoolPVC, reconcileBackendStorageClass,
    reconcileStoragePoolPVCByNode. fp_solve.
Qed.
#[local] Hint Resolve reconcile_pool_fp : fp.

Lemma for_deployments_fp ks m body :
  (∀ d, footprint (writes_only ks) (body d)) → footprint (writes_only ks) (for_deployments m body).
Proof. intros Hb. apply footprint_bind; [by split|]. intros names. apply footprint_for_err. auto. Qed.

Definition storage_kinds : list kind := [KPersistentVolumeClaim; KDeployment; KStorageClass; KJob].

Lemma reconcileStoragePools_fp cr ns :
  footprint (writes_only storage_kinds) (reconcileStoragePools cr ns).
Proof.
  unfold reconcileStoragePools, delete_deployment. fp_solve. apply for_deployments_fp. intros d. fp_solve.
Qed.

Lemma cleanDeployments_fp cr ns : footprint (writes_only [KDeployment; KJob]) (cleanDeployments cr ns).
Proof.
  unfold cleanDeployments. fp_solve. apply for_deployments_fp. intros d.
  unfold clean_deployment, delete_deployment. fp_solve.
Qed.
End Footprints.

#[export] Hint Resolve currentStoragePoolDeployments_fp hasCleanUpFinished_fp removeCleanUpJobs_fp
  reconcileStoragePoolStatus_fp reconcileStoragePools_fp cleanDeployments_fp : fp.
