(* ===== verification/Pools.v ===== *)
(** * What the storage pool code guarantees

    Theorems about StoragePool.v: which Deployments may be deleted, that claims
    are only ever created, what the reported status counts, and the ambiguities
    of the names. *)
From stdpp Require Import sorting.
From S2P Require Import Prelude GoStrings Prog Names Semver Api K8s Json JsonMerge Meta Rbac DaemonSet StoragePool.

(** ** Deployments that may be deleted *)

Definition deployment_delete {T} (r : kreq T) : option ObjectKey :=
  match r with Delete KDeployment key _ => Some key | _ => None end.

(** The server said that there is no Deployment with the name. *)
Definition missing (namespace name : string) (tr : ktrace) : Prop :=
  ∃ e, Ev (Get KDeployment (namespace, name)) (Err e) ∈ tr ∧ IsNotFound e = true.

(** The server shows the CSI DaemonSet [ds] and the pods [pods], and answers a
    request for a node with the node of that name. *)
Definition shows (ds : DaemonSet) (pods : list (obj KPod)) : rely kreq := λ T r x,
  go_answers T r x ∧
  (∀ key y, Ev r x = Ev (Get KDaemonSet key) y → y = Ok ds ∨ ∃ e, y = Err e ∧ IsNotFound e = false) ∧
  (∀ opts l, Ev r x = Ev (ListObjs KPod opts) (Ok l) → l = pods) ∧
  (∀ key node, Ev r x = Ev (Get KNode key) (Ok node) → o_name node = key.2).

(** The Deployments of the pools of [cr] on the nodes the pods run on *)
Definition wanted (cr : HostPathProvisioner) (ds : DaemonSet) (pods : list (obj KPod)) (name : string) : Prop :=
  ∃ pool template n, pool ∈ StoragePools (cr_Spec cr) ∧ PVCTemplate pool = Some template ∧
    n ∈ node_names ds pods ∧ name = storagePoolDeploymentName (pool_Name pool) n.

(** Only a Deployment that was listed, that the resource controls, and that no
    pool wants (or that the server then said not to have) is deleted. *)
Definition deletes_unwanted (cr : HostPathProvisioner) (ns : string) (ds : DaemonSet)
    (pods : list (obj KPod)) : guarantee kreq := λ tr T r, ∀ key, deployment_delete r = Some key →
  ∃ opts items d, Ev (ListObjs KDeployment opts) (Ok items) ∈ tr ∧ d ∈ items ∧
    IsControlledBy (o_meta d) (o_meta cr) = true ∧ key = ObjectKeyFromObject d ∧
    (wanted cr ds pods (o_name d) → missing ns (o_name d) tr).

Lemma missing_mono ns name : monotone (missing ns name).
Proof. intros tr tr' Hp (e & ? & ?). exists e. split; [by eapply elem_of_monotone|done]. Qed.

Lemma writes_not_delete ks T (r : kreq T) : KDeployment ∉ ks → writes_only ks T r → deployment_delete r = None.
Proof.
  unfold writes_only. intros Hk Hr. destruct r as [| | | |k key p| | | |]; try done.
  destruct Hr as (k' & [= <-] & Hin); [done|]. by destruct k.
Qed.

Lemma by_name_lookup l name d : by_name l !! name = Some d → d ∈ l ∧ o_name d = name.
Proof.
  unfold by_name. revert d. induction l as [|d' l IH] using rev_ind; intros d; simpl; [by rewrite lookup_empty|].
  rewrite foldl_app; simpl. rewrite lookup_insert. case_decide as Hn; [|set_solver].
  intros [= <-]. set_solver.
Qed.

Definition keeps_deployments : ∀ T, kreq T → Prop := λ T r, deployment_delete r = None.

Lemma update_keeps_deployments {k} cr name (a b : obj k) :
  footprint keeps_deployments (update_resource cr name a b).
Proof. unfold update_resource. destruct (DeepEqual a b); [done|]. split; [done|]. by intros [x|e]. Qed.

Lemma create_keeps_deployments {k} cr (a : obj k) :
  footprint keeps_deployments (create_resource cr a (λ _, mret None)).
Proof. split; [done|]. by intros [x|e]. Qed.

Section Deletes.
Context `{PL : Platform, CD : Codec} (cr : HostPathProvisioner) (ns : string) (ds : DaemonSet)
  (pods : list (obj KPod)).
Abbreviation R := (shows ds pods).
Abbreviation G := (deletes_unwanted cr ns ds pods).

Lemma no_delete_G tr T (r : kreq T) : deployment_delete r = None → G tr T r.
Proof. unfold deletes_unwanted. intros ->. done. Qed.

Lemma wp_no_delete {A} (p : kprog A) (Q : ktrace → outcome A → Prop) ks tr :
  footprint (writes_only ks) p → kinds_in [KDeployment] ks = false →
  (∀ tr' o, tr `prefix_of` tr' → Q tr' o) → wp R G p Q tr.
Proof.
  intros Hp Hk HQ. eapply wp_footprint; [exact Hp| |done]. intros tr' T r _ Hr.
  eapply no_delete_G, writes_not_delete; [|done].
  unfold kinds_in in Hk; simpl in Hk. rewrite andb_true_r in Hk. by apply bool_decide_eq_false in Hk.
Qed.

(** The nodes are those the pods run on. *)
Lemma wp_getNodesByDaemonSet tr :
  wp R G (getNodesByDaemonSet ns)
    (λ _ o, ∀ nodes, o = Returned (Ok nodes) → o_name <$> nodes ≡ₚ node_names ds pods) tr.
Proof.
  unfold getNodesByDaemonSet. cbv zeta. apply wp_bind. cbn. split; [done|]. intros x (_ & Hds & _).
  destruct (Hds _ x eq_refl) as [->|(e & -> & ->)]; [|done].
  unfold list_labelled. destruct (LabelSelectorAsSelector _) as [sel|e]; [|done].
  apply wp_with_ok. cbn. split; [done|]. intros [l|e] (_ & _ & Hl & _); cbn; [|done].
  rewrite (Hl _ l eq_refl). split; [done|]. intros names (Hn & _). cbn in Hn.
  eapply wp_post.
  - apply (wp_for_state _ _ names [] _ (λ past _ nodes, o_name <$> nodes = past)); [done|].
    intros past name rest tr' nodes _ <-. cbn. split; [done|].
    intros [node|e] (_ & _ & _ & Hnode); cbn; [|done]. intros ? [= <-].
    rewrite fmap_app. cbn. by rewrite (Hnode _ node eq_refl).
  - intros tr' o H nodes Ho. by rewrite (H _ Ho).
Qed.

(** Reconciling a Deployment takes its name off the map, or the server said it
    was missing. *)
Definition handled (pool : StoragePool) (cur0 : deployments) (nodes : list Node) (tr : ktrace)
    (cur : deployments) : Prop :=
  cur ⊆ cur0 ∧ ∀ node, node ∈ nodes →
    let name := storagePoolDeploymentName (pool_Name pool) (o_name node) in
    cur !! name = None ∨ missing ns name tr.

Lemma handled_step pool cur0 nodes node tr cur tr' cur' :
  handled pool cur0 nodes tr cur → tr `prefix_of` tr' → handled pool cur [node] tr' cur' →
  handled pool cur0 (nodes ++ [node]) tr' cur'.
Proof.
  intros [Hs Hh] Hp [Hs' Hh']. split; [by etrans|]. intros n [Hn|Hn]%elem_of_app; [|by apply Hh'].
  destruct (Hh n Hn) as [Hc|Hm]; [left|right; by eapply missing_mono].
  by eapply lookup_weaken_None.
Qed.

Lemma reconciled_name pool template node k (o : obj KDeployment) :
  SetControllerReference cr (setLastAppliedConfiguration
    (storagePoolDeploymentByNode cr pool template ns node)) = Ok o → k = ObjectKeyFromObject o →
  k = (ns, storagePoolDeploymentName (pool_Name pool) (o_name node)).
Proof.
  intros Ho ->. transitivity (ObjectKeyFromObject (setLastAppliedConfiguration
    (storagePoolDeploymentByNode cr pool template ns node))); [|by rewrite setLastAppliedConfiguration_key].
  revert Ho. unfold SetControllerReference. cases; by intros [= <-].
Qed.

Lemma wp_reconcileDeployment pool template node cur tr :
  wp R G (reconcileStoragePoolDeploymentByNode cr ns pool template node cur)
    (λ tr' o, ∀ cur', o = Returned (Ok cur') → handled pool cur [node] tr' cur') tr.
Proof.
  unfold reconcileStoragePoolDeploymentByNode.
  destruct (SetControllerReference _ _) as [desired|e] eqn:Hd; [|done].
  pose proof (reconciled_name _ _ _ _ _ Hd eq_refl) as Hkey.
  assert (Hname : o_name desired = storagePoolDeploymentName (pool_Name pool) (o_name node))
    by by injection Hkey.
  assert (Hdone : ∀ tr' cur', cur' ⊆ cur →
    (cur' !! o_name desired = None ∨ missing ns (o_name desired) tr') →
    ∀ c, Returned (Ok cur') = Returned (Ok c) → handled pool cur [node] tr' c).
  { intros tr' cur' Hs Hor c [= <-]. split; [done|]. intros n ->%list_elem_of_singleton.
    by rewrite <-Hname. }
  apply wp_bind. rewrite Hkey. cbn [wp request]. split; [done|]. intros [found|e] _; cbn [post_bind].
  - apply wp_on_err. eapply wp_footprint; [apply update_keeps_deployments|intros; by apply no_delete_G|].
    intros tr2 [[e|]| |] _; cbn [post_on_err]; [done| |done..].
    intros c; apply Hdone; [apply delete_subseteq|left; apply lookup_delete_eq].
  - destruct (IsNotFound e) eqn:He; [|done]. apply wp_on_err.
    eapply wp_footprint; [apply create_keeps_deployments|intros; by apply no_delete_G|].
    intros tr2 [[e'|]| |] Hp; cbn [post_on_err]; [done| |done..].
    intros c; apply Hdone; [done|right]. exists e. split; [|done]. rewrite Hname.
    eapply elem_of_monotone; [done|apply last_event].
Qed.

Lemma wp_reconcile_pool nodes pool cur tr :
  wp R G (reconcile_pool cr ns nodes cur pool)
    (λ tr' o, ∀ cur', o = Returned (Ok cur') →
       cur' ⊆ cur ∧ (PVCTemplate pool ≠ None → handled pool cur nodes tr' cur')) tr.
Proof.
  unfold reconcile_pool. destruct (PVCTemplate pool) as [template|]; [|by intros ? [= <-]].
  assert (Hloop : ∀ cur body tr, 
    (∀ cur node tr, wp R G (body cur node)
       (λ tr' o, ∀ cur', o = Returned (Ok cur') → handled pool cur [node] tr' cur') tr) →
    wp R G (for_state nodes cur body) (λ tr' o, ∀ cur', o = Returned (Ok cur') → handled pool cur nodes tr' cur') tr).
  { intros cur1 body tr1 Hb. apply (wp_for_state _ _ _ _ _ (handled pool cur1)).
    - split; [done|]. intros n Hn. by apply elem_of_nil in Hn.
    - intros past node rest tr2 cur2 _ Hh. eapply wp_strengthen; [apply Hb|].
      intros tr3 o Hp H c ->. eapply handled_step; eauto. }
  destruct (isShared (Some template)).
  - destruct nodes as [|n nodes'] eqn:Hn; [intros c [= <-]; split; [done|]; intros _; split; [done|]; intros n Hn'; by apply elem_of_nil in Hn'|].
    rewrite <-Hn in *. apply wp_on_err. eapply wp_no_delete; [apply ensure_exists_fp|done|].
    intros tr1 [[e|]| |] _; cbn [post_on_err]; [done| |done..].
    apply wp_with_ok. eapply wp_post; [apply Hloop; intros; apply wp_reconcileDeployment|].
    intros tr2 [[cur2|e]| |] H; cbn [post_with_ok]; [|done..]. specialize (H _ eq_refl).
    apply wp_on_err. eapply wp_no_delete; [apply ensure_exists_fp|done|].
    intros tr3 [[e|]| |] Hp; cbn [post_on_err]; [done| |done..]. intros c [= <-].
    destruct H as [Hs Hh]. split; [done|]. intros _. split; [done|]. intros node Hnode. destruct (Hh node Hnode); [by left|right].
    by eapply missing_mono.
  - eapply wp_post; [apply Hloop|intros tr' o H c Hc; specialize (H c Hc); split; [apply H|done]].
    intros cur1 node tr1. apply wp_on_err. eapply wp_no_delete; [apply ensure_exists_fp|done|].
    intros tr2 [[e|]| |] _; cbn [post_on_err]; [done| |done..]. apply wp_reconcileDeployment.
Qed.

(** The pools one after the other *)
Definition all_handled (cur0 : deployments) (nodes : list Node) (past : list StoragePool) (tr : ktrace)
    (cur : deployments) : Prop :=
  cur ⊆ cur0 ∧ ∀ pool, pool ∈ past → PVCTemplate pool ≠ None → handled pool cur0 nodes tr cur.

Lemma wp_reconcile_pools nodes cur tr :
  wp R G (for_state (StoragePools (cr_Spec cr)) cur (reconcile_pool cr ns nodes))
    (λ tr' o, ∀ cur', o = Returned (Ok cur') → all_handled cur nodes (StoragePools (cr_Spec cr)) tr' cur') tr.
Proof.
  apply (wp_for_state _ _ _ _ _ (all_handled cur nodes)).
  - split; [done|]. intros pool Hp. by apply elem_of_nil in Hp.
  - intros past pool rest tr1 cur1 _ [Hs Hh]. eapply wp_strengthen; [apply wp_reconcile_pool|].
    intros tr2 o Hpre H cur2 ->. destruct (H _ eq_refl) as [Hs2 Hh2]. split; [by etrans|].
    intros p [Hp| ->%list_elem_of_singleton]%elem_of_app Ht.
    + destruct (Hh p Hp Ht) as [_ Hn]. split; [by etrans|]. intros node Hnode.
      destruct (Hn node Hnode); [left; by eapply lookup_weaken_None|right; by eapply missing_mono].
    + destruct (Hh2 Ht) as [_ Hn]. split; [by etrans|done].
Qed.

(** After the pools, what is left of the map may be deleted. *)
Lemma deletes_left opts items cur nodes tr d :
  Ev (ListObjs KDeployment opts) (Ok items) ∈ tr →
  all_handled (by_name (controlled_by cr items)) nodes (StoragePools (cr_Spec cr)) tr cur →
  o_name <$> nodes ≡ₚ node_names ds pods →
  (∃ name, cur !! name = Some d) →
  ∃ opts items d', Ev (ListObjs KDeployment opts) (Ok items) ∈ tr ∧ d' ∈ items ∧
    IsControlledBy (o_meta d') (o_meta cr) = true ∧ ObjectKeyFromObject d = ObjectKeyFromObject d' ∧
    (wanted cr ds pods (o_name d') → missing ns (o_name d') tr).
Proof.
  intros Hl [Hs Hh] Hn [name Hd]. exists opts, items, d. pose proof (lookup_weaken _ _ _ _ Hd Hs) as Hb.
  apply by_name_lookup in Hb as [Hc Hname]. apply list_elem_of_filter in Hc as [Hc Hin].
  split_and!; try done. intros (pool & template & n & Hpool & Ht & Hnn & Hw).
  rewrite <-Hn in Hnn. apply list_elem_of_fmap in Hnn as (node & -> & Hnode).
  destruct (Hh pool Hpool) as [_ Hp]; [by rewrite Ht|].
  destruct (Hp node Hnode) as [Hnone|Hm]; [|by rewrite Hw].
  rewrite <-Hw, Hname, Hd in Hnone. done.
Qed.
End Deletes.

(** ** Claims are only created *)

(** The kinds whose objects hold or describe data that outlives the operator *)
Definition data_kinds : list kind := [KPersistentVolumeClaim; KStorageClass].

(** The request does not change or delete an object of these kinds. *)
Definition spares_data : ∀ T, kreq T → Prop := λ T r,
  match r with
  | Update k _ | Delete k _ _ => bool_decide (k ∈ data_kinds) = false
  | _ => True
  end.

Lemma writes_spare_data {A} ks (p : kprog A) :
  footprint (writes_only ks) p → existsb (λ k, bool_decide (k ∈ data_kinds)) ks = false → footprint spares_data p.
Proof.
  intros Hp Hk. eapply footprint_mono; [exact Hp|]. intros T r. unfold writes_only, spares_data.
  assert (Hn : ∀ k, k ∈ ks → bool_decide (k ∈ data_kinds) = false).
  { intros k Hin. apply not_true_iff_false. intros Ht. rewrite <-not_true_iff_false in Hk. apply Hk.
    apply List.existsb_exists. exists k. by rewrite list_elem_of_In in Hin. }
  destruct r; try done; intros Hr; destruct Hr as (k' & [= <-] & Hin); auto.
Qed.

Lemma ensure_exists_spares {k} cr (desired : obj k) : footprint spares_data (ensure_exists cr desired).
Proof.
  split; [done|]. intros [o|e]; [done|]. cbn. destruct (IsNotFound e); [|done].
  split; [done|]. intros [o|e']; [done|]. cbn. by destruct (IsAlreadyExists e').
Qed.

(** Prove [footprint spares_data p] by the structure of [p]. *)
Ltac spare_solve :=
  fp_solve;
  try (solve [apply ensure_exists_spares]);
  try (eapply writes_spare_data; [solve [eauto 1 with fp nocore]|reflexivity]).

Section Spares.
Context `{PL : Platform, CD : Codec}.

Lemma reconcile_pool_spares cr ns nodes cur pool : footprint spares_data (reconcile_pool cr ns nodes cur pool).
Proof.
  assert (Hd : ∀ t node c, footprint spares_data (reconcileStoragePoolDeploymentByNode cr ns pool t node c))
    by (intros; eapply writes_spare_data; [apply reconcileStoragePoolDeploymentByNode_fp|done]).
  unfold reconcile_pool, reconcileSharedStoragePoolPVC, reconcileBackendStorageClass,
    reconcileStoragePoolPVCByNode. spare_solve; auto.
Qed.

Lemma reconcileStoragePools_spares cr ns : footprint spares_data (reconcileStoragePools cr ns).
Proof.
  unfold reconcileStoragePools. spare_solve.
  - eapply writes_spare_data; [apply getNodesByDaemonSet_fp|done].
  - apply reconcile_pool_spares.
  - eapply writes_spare_data; [eapply (for_deployments_fp [KDeployment; KJob])|done].
    intros d. unfold delete_deployment. fp_solve.
    eapply footprint_writes_mono; [apply createCleanupJobForDeployment_fp|done].
Qed.
End Spares.

(** ** The reported status *)

Lemma str_lt_asym s : ∀ t, str_lt s t = true → str_lt t s = false.
Proof.
  induction s as [|a s IH]; intros [|b t]; cbn [str_lt]; try done.
  rewrite (Ascii.eqb_sym b a). destruct (Ascii.eqb a b); [apply IH|].
  rewrite N.ltb_lt, N.ltb_ge. lia.
Qed.

(** Sorted by name, as [sort.Slice] leaves them *)
Definition name_sorted : list StoragePoolStatus → Prop := Sorted (λ s t, str_lt (ps_Name t) (ps_Name s) = false).

Lemma insert_status_perm s l : insert_status s l ≡ₚ s :: l.
Proof. induction l as [|t l IH]; [done|]. cbn. destruct (str_lt _ _); [|done]. rewrite IH. constructor. Qed.

Lemma sort_statuses_perm l : sort_statuses l ≡ₚ l.
Proof. induction l as [|s l IH]; [done|]. cbn. rewrite insert_status_perm. by constructor. Qed.

Lemma insert_status_sorted s l : name_sorted l → name_sorted (insert_status s l).
Proof.
  unfold name_sorted. induction 1 as [|t l Hl IH Hh]; cbn; [repeat constructor|].
  destruct (str_lt (ps_Name t) (ps_Name s)) eqn:Hlt.
  - constructor; [done|]. destruct l as [|u l]; cbn; [constructor; by apply str_lt_asym|].
    destruct (str_lt (ps_Name u) (ps_Name s)); constructor; [by inversion Hh|by apply str_lt_asym].
  - constructor; [by constructor|]. by constructor.
Qed.

Lemma sort_statuses_sorted l : name_sorted (sort_statuses l).
Proof. induction l as [|s l IH]; [constructor|]. by apply insert_status_sorted. Qed.

(** What the status of a pool says, against the answers of the server *)
Definition status_correct (cr : HostPathProvisioner) (tr : ktrace) (pool : StoragePool) (s : StoragePoolStatus) : Prop :=
  ps_Name s = pool_Name pool ∧ Phase s = StoragePoolReady ∧ 0 <= CurrentReady s <= DesiredReady s ∧
  match PVCTemplate pool with
  | None => DesiredReady s = 0 ∧ ClaimStatuses s = None
  | Some _ => ∃ opts (items : list Deployment) opts' (claims : list (obj KPersistentVolumeClaim)),
      Ev (ListObjs KDeployment opts) (Ok items) ∈ tr ∧
      Ev (ListObjs KPersistentVolumeClaim opts') (Ok claims) ∈ tr ∧
      DesiredReady s = Z.of_nat (length (controlled_by cr items)) ∧
      CurrentReady s = Z.of_nat (length (filter (λ d : Deployment, ReadyReplicas (dep_Status d) = 1)
                                           (controlled_by cr items))) ∧
      (claim_Name <$> default [] (ClaimStatuses s)) = (o_name <$> claims) ∧
      ∀ pvc, pvc ∈ claims → pvc_Phase (snd (o_body pvc)) = ClaimBound
  end.

Lemma status_correct_mono cr pool s : monotone (λ tr, status_correct cr tr pool s).
Proof.
  intros tr tr' Hp (Hn & Hph & Hb & Hm). split_and!; try done; try lia.
  destruct (PVCTemplate pool); [|done]. destruct Hm as (o & i & o' & c & H1 & H2 & ?).
  exists o, i, o', c. split; [by eapply elem_of_monotone|]. split; [by eapply elem_of_monotone|done].
Qed.

Lemma unbound_claim_None claims :
  unbound_claim claims = None → ∀ c, c ∈ claims → pvc_Phase (claim_Status c) = ClaimBound.
Proof.
  intros Hn c Hc%list_elem_of_In. pose proof (List.find_none _ _ Hn c Hc) as H. cbn in H.
  by apply bool_decide_eq_false, dec_stable in H.
Qed.

Section Status.
Context `{PL : Platform} (R : rely kreq) (cr : HostPathProvisioner) (ns : string).

Lemma wp_storage_pool_status pool tr :
  wp R any_request (storage_pool_status cr ns pool)
    (λ tr' o, ∀ s, o = Returned (Ok s) → status_correct cr tr' pool s) tr.
Proof.
  unfold storage_pool_status, status_correct.
  destruct (PVCTemplate pool) as [t|]; [|intros s [= <-]; split_and!; try done; cbn; lia].
  apply wp_with_ok. unfold storagePoolDeploymentsByStoragePool, list_labelled.
  destruct (LabelSelectorAsSelector _) as [sel|e]; [|done].
  apply wp_with_ok. cbn [wp request]. split; [done|]. intros [items|e] _; cbn [post_with_ok wp mret prog_mret]; [|done].
  apply wp_with_ok. unfold getClaimStatusesByStoragePool, list_labelled.
  destruct (LabelSelectorAsSelector _) as [sel'|e]; [|done].
  apply wp_with_ok. cbn [wp request]. split; [done|]. intros [claims|e] _; cbn [post_with_ok wp mret prog_mret]; [|done].
  destruct (unbound_claim _) as [u|] eqn:Hu; [done|]. intros s [= <-]. cbn [pool_status ps_Name Phase DesiredReady CurrentReady ClaimStatuses].
  split; [done|]. split; [done|]. split.
  { split; [lia|]. apply inj_le. apply length_filter. }
  exists {| lo_Selector := sel; lo_Namespace := ns |}, items, {| lo_Selector := sel'; lo_Namespace := ns |}, claims.
  split_and!; try done; [..|cbn [from_option id]; unfold id; rewrite <-list_fmap_compose; done|].
  - eapply elem_of_monotone; [by eexists|]. apply last_event.
  - apply last_event.
  - intros pvc Hp. apply (unbound_claim_None _ Hu {| claim_Name := o_name pvc; claim_Status := snd (o_body pvc) |}).
    apply list_elem_of_fmap. by exists pvc.
Qed.

(** The statuses of all pools *)
Lemma wp_pool_statuses tr :
  wp R any_request
    (for_state (StoragePools (cr_Spec cr)) [] (λ statuses storagePool,
       with_ok (storage_pool_status cr ns storagePool) (λ err, mret (Err err))
         (λ s, mret (Ok (statuses ++ [s])))))
    (λ tr' o, ∀ l, o = Returned (Ok l) → Forall2 (status_correct cr tr') (StoragePools (cr_Spec cr)) l) tr.
Proof.
  apply (wp_for_state _ _ _ [] _ (λ past tr l, Forall2 (status_correct cr tr) past l)); [constructor|].
  intros past pool rest tr1 l _ Hl. apply wp_with_ok. eapply wp_strengthen; [apply wp_storage_pool_status|].
  intros tr2 [[s|e]| |] Hp Hs; cbn; [|done..]. intros l' [= <-]. apply Forall2_app; [|constructor; auto].
  eapply Forall2_impl; [exact Hl|]. intros ? ?. by apply status_correct_mono.
Qed.
End Status.

(** ** Names *)

Lemma pool_prefix s t : HasPrefix ("hpp-pool-" +:+ s) ("hpp-pool-" +:+ t) = HasPrefix s t.
Proof.
  apply eq_true_iff_eq. rewrite !HasPrefix_spec. split; intros [u Hu]; exists u.
  - by apply (append_inj_l "hpp-pool-"); rewrite Hu, append_assoc.
  - by rewrite Hu, append_assoc.
Qed.

Lemma HasPrefix_comparable a : ∀ b q, HasPrefix (a +:+ b) q = true → HasPrefix a q = true ∨ HasPrefix q a = true.
Proof.
  intros b q. rewrite !HasPrefix_spec. revert q. induction a as [|c a IH]; intros q [t Ht]; [right; by exists q|].
  destruct q as [|c' q]; [left; by eexists|]. injection Ht as -> Ht.
  destruct (IH q) as [[u ->]|[u ->]]; [by eexists|left|right]; by eexists.
Qed.

(** ** Properties *)

Section PoolProperties.
Context `{PL : Platform, CD : Codec}.

(** C7: reconciling the pools deletes no wanted Deployment.  When the server
    shows the CSI DaemonSet and its pods, [reconcileStoragePools] deletes a
    Deployment only if the server listed it, the custom resource controls it, and
    it is not the Deployment of a pool with a template on a node where a pod of
    the DaemonSet runs, or else the server had said, of that very name, that
    there is none. *)
Theorem wanted_deployments_survive cr ns ds pods :
  wp (shows ds pods) (deletes_unwanted cr ns ds pods) (reconcileStoragePools cr ns) (λ _ _, True) [].
Proof.
  unfold reconcileStoragePools. apply wp_with_ok. eapply wp_post; [apply wp_getNodesByDaemonSet|].
  intros tr1 [[nodes|e]| |] Hn; cbn [post_with_ok]; [|done..]. specialize (Hn _ eq_refl).
  apply wp_with_ok. unfold currentStoragePoolDeployments, list_labelled.
  destruct (LabelSelectorAsSelector _) as [sel|e]; [|done]. apply wp_with_ok. cbn [wp request].
  split; [done|]. intros [items|e] _; cbn [post_with_ok wp mret prog_mret]; [|done].
  set (tr2 := tr1 ++ _). apply wp_with_ok. eapply wp_strengthen; [apply wp_reconcile_pools|].
  intros tr3 [[cur|e]| |] Hp3 Hall; cbn [post_with_ok]; [|done..]. specialize (Hall _ eq_refl).
  unfold for_deployments. apply wp_bind. cbn [wp request]. split; [done|]. intros names _. cbn [post_bind].
  eapply wp_post; [|by intros].
  assert (Hl : Ev (ListObjs KDeployment {| lo_Selector := sel; lo_Namespace := ns |}) (Ok items) ∈ tr3)
    by (eapply elem_of_monotone; [done|apply last_event]).
  apply (wp_for_err _ _ _ _ (λ tr, tr3 `prefix_of` tr)); [by apply prefix_app_r|].
  intros d tr4 Hd Hp4. apply wp_on_err. unfold delete_deployment, delete_object, ignore_not_found.
  apply list_elem_of_omap in Hd as (name & _ & Hd).
  destruct (deletes_left _ _ _ _ _ _ _ _ _ d Hl Hall Hn) as (o & l & d' & Ho & Hin & Hc & Hkey & Hw);
    [by exists name|].
  apply wp_on_err. cbn [wp request]. split.
  { intros key [= <-]. exists o, l, d'. split_and!; try done; [by eapply elem_of_monotone|].
    intros Hwant. eapply missing_mono; eauto. }
  intros x _. set (tr5 := tr4 ++ _).
  assert (Hp5 : tr3 `prefix_of` tr5) by by apply prefix_app_r.
  assert (Hrest : wp (shows ds pods) (deletes_unwanted cr ns ds pods)
    match getStoragePoolForDeployment cr d with
    | Some sp => with_ok (createCleanupJobForDeployment cr ns d sp) (λ err, mret (Some err)) (λ _, mret None)
    | None => mret None
    end (λ tr' _, tr3 `prefix_of` tr') tr5).
  { eapply (wp_no_delete _ _ _ _ _ _ [KJob]); [|done|by intros; etrans].
    destruct (getStoragePoolForDeployment cr d); [|done].
    apply footprint_with_ok; [apply createCleanupJobForDeployment_fp|done|done]. }
  destruct x as [e|]; cbn; [|done]. by destruct (IsNotFound e).
Qed.


(** Names are ambiguous.  When they fit the length limit, the claim and the
    Deployment of a pool [a-b] on a node [c] are those of the pool [a] on the
    node [b-c]; and the pool a Deployment is attributed to when it is cleaned up
    is the first whose name its own starts with, so that of two pools, one of
    whose names is a prefix of the other's, the first gets the Deployments of
    both. *)
Theorem pool_names_are_ambiguous :
  (∀ a b c, storagePoolDeploymentName (a +:+ "-" +:+ b) c = storagePoolDeploymentName a (b +:+ "-" +:+ c) ∧
            getStoragePoolPVCName (a +:+ "-" +:+ b) c = getStoragePoolPVCName a (b +:+ "-" +:+ c)) ∧
  (∀ cr p q rest node d, StoragePools (cr_Spec cr) = p :: q :: rest →
     HasPrefix (pool_Name q) (pool_Name p) = true → len (pool_Name q) + len node <= 53 →
     o_name d = storagePoolDeploymentName (pool_Name q) node →
     getStoragePoolForDeployment cr d = Some p).
Proof.
  split.
  - intros a b c. unfold storagePoolDeploymentName, getStoragePoolPVCName. by rewrite !append_assoc.
  - intros cr p q rest node d Hpools [t Ht]%HasPrefix_spec Hlen Hd. unfold getStoragePoolForDeployment.
    rewrite Hpools. cbn [List.find]. rewrite Hd, pool_node_name, (proj2 (Z.leb_le _ _)) by done.
    rewrite Ht, append_assoc.
    change ("hpp-pool-" +:+ (pool_Name p +:+ (t +:+ ("-" +:+ node)))) with ("hpp-pool-" +:+ (pool_Name p +:+ (t +:+ "-" +:+ node))).
    rewrite <-append_assoc. by rewrite HasPrefix_append.
Qed.

(** Cleaning up finds the right pool when no pool's name is a prefix of
    another's: the Deployment of a pool on a node is attributed to that pool as
    long as its name fits the length limit; past the limit, when the name is
    hashed, it is attributed to no pool whose name is not a prefix of the hash,
    and no cleanup job is made for it. *)
Theorem cleanup_finds_the_pool cr pool node d :
  pool ∈ StoragePools (cr_Spec cr) → o_name d = storagePoolDeploymentName (pool_Name pool) node →
  (∀ q, q ∈ StoragePools (cr_Spec cr) → q ≠ pool →
     HasPrefix (pool_Name pool) (pool_Name q) = false ∧
     HasPrefix (pool_Name q) (pool_Name pool) = false) →
  if len (pool_Name pool) + len node <=? 53
  then getStoragePoolForDeployment cr d = Some pool
  else ∀ q, getStoragePoolForDeployment cr d = Some q →
       HasPrefix (hash ("hpp-pool-" +:+ pool_Name pool +:+ "-" +:+ node)) (pool_Name q) = true.
Proof.
  intros Hin Hd Hpre. rewrite pool_node_name in Hd. unfold getStoragePoolForDeployment.
  rewrite Hd. destruct (_ <=? _).
  - destruct (List.find _ _) as [q|] eqn:Hf.
    + apply List.find_some in Hf as [Hq Hp]. rewrite pool_prefix in Hp. f_equal. apply dec_stable. intros Hne.
      destruct (Hpre q) as [H1 H2]; [by apply list_elem_of_In|done|].
      destruct (HasPrefix_comparable _ _ _ Hp); congruence.
    + apply list_elem_of_In in Hin. pose proof (List.find_none _ _ Hf pool Hin) as Hn. cbv beta in Hn.
      by rewrite pool_prefix, HasPrefix_append in Hn.
  - intros q [_ Hp]%List.find_some. by rewrite pool_prefix in Hp.
Qed.
End PoolProperties.

(** ** Witnesses *)

Definition template_pool (name : string) : StoragePool :=
  {| pool_Name := name;
     PVCTemplate := Some {| AccessModes := None; VolumeMode := None; pvc_rest := "" |};
     pool_Path := "/var/" +:+ name; SnapshotProvider := None; OverlayClassName := "" |}.

Definition pools_cr (names : list string) : HostPathProvisioner :=
  Obj (k:=KHostPathProvisioner) no_type (object_meta "hpp" "" None)
    ({| cr_ImagePullPolicy := ""; cr_PathConfig := None;
        Workload := {| place_NodeSelector := None; place_Affinity := None; place_Tolerations := [] |};
        FeatureGates := []; StoragePools := template_pool <$> names |},
     cr_Status example_cr).

Definition deployment_named (name : string) : Deployment :=
  let cr := pools_cr ["local"] in
  let node : Node := Obj (k:=KNode) no_type (object_meta "node1" "" None) "" in
  with_meta (λ _, object_meta name "hpp" None)
    (storagePoolDeploymentByNode (PL:=simple_platform ∅ "" "") cr (template_pool "local")
       {| AccessModes := None; VolumeMode := None; pvc_rest := "" |} "hpp" node).

Lemma pool_names_are_ambiguous_witness :
  storagePoolDeploymentName "a-b" "c" = storagePoolDeploymentName "a" "b-c" ∧
  getStoragePoolForDeployment (pools_cr ["local"; "local2"])
    (deployment_named (storagePoolDeploymentName "local2" "node1")) = Some (template_pool "local").
Proof.
  split; [apply (proj1 pool_names_are_ambiguous "a" "b" "c")|].
  eapply (proj2 pool_names_are_ambiguous (pools_cr ["local"; "local2"]) (template_pool "local")
    (template_pool "local2") [] "node1"); vm_compute; (reflexivity || discriminate).
Defined.

Lemma cleanup_finds_the_pool_witness :
  getStoragePoolForDeployment (pools_cr ["local"; "other"])
    (deployment_named (storagePoolDeploymentName "other" "node1")) = Some (template_pool "other").
Proof.
  apply (cleanup_finds_the_pool (pools_cr ["local"; "other"]) (template_pool "other") "node1").
  - right. left.
  - vm_compute. reflexivity.
  - intros q [->|[->|[]%elem_of_nil]%elem_of_cons]%elem_of_cons Hq; [by split|by destruct Hq].
Defined.

