(* ===== verification/Controller.v ===== *)
(** * The reconciler

    pkg/controller/hostpathprovisioner/controller.go: [Reconcile] and the
    functions that compose the reconciliation of the managed resources, the
    status and the deletion of the custom resource.  [cr] is threaded through the
    functions that change it; a write to the API server replaces it with the
    server's answer, as the client does. *)
From S2P Require Import Prelude GoStrings Prog Names Semver Api K8s Json JsonMerge Meta Conditions.
From S2P Require Import CryptoPolicy Rules Rbac ServiceAccount Scc CsiDriver Prometheus DaemonSet StoragePool.

(** ** Finalizers *)

Definition hppFinalizer := "finalizer.delete.hostpath-provisioner".

Definition HasFinalizer (m : ObjectMeta) (value : string) : bool :=
  existsb (λ f, bool_decide (f = value)) (Finalizers m).

Definition AddFinalizer (name : string) (m : ObjectMeta) : ObjectMeta :=
  if HasFinalizer m name then m else set_Finalizers (Finalizers m ++ [name]) m.

Definition RemoveFinalizer (name : string) (m : ObjectMeta) : ObjectMeta :=
  if negb (HasFinalizer m name) then m
  else set_Finalizers (filter (λ f, f ≠ name) (Finalizers m)) m.

(** ** Results *)

(** [reconcile.Result]: when to run again, in nanoseconds *)
Record Result := { RequeueAfter : Z }.
Definition no_requeue : Result := {| RequeueAfter := 0 |}.
Definition second : Z := 1000000000.
Definition requeue_in_a_second : Result := {| RequeueAfter := second |}.

(** A Go [(Result, error)] pair *)
Abbreviation reconciled := (Result * error)%type.

Definition failed (err : goerror) : reconciled := (no_requeue, Some err).
Definition done_ok : reconciled := (no_requeue, None).

(** A function that returns [reconcile.Result{}] with its error *)
Definition plain (p : kprog error) : kprog reconciled := err ← p; mret (no_requeue, err).

(** [addFinalizer]: the resource is only written when the finalizer is new. *)
Definition addFinalizer (cr : HostPathProvisioner) : kprog (result HostPathProvisioner) :=
  if bool_decide (DeletionTimestamp (o_meta cr) = None) then
    let cr' := with_meta (AddFinalizer hppFinalizer) cr in
    if bool_decide (Finalizers (o_meta cr) = Finalizers (o_meta cr')) then mret (Ok cr')
    else request (Update KHostPathProvisioner cr')
  else mret (Ok cr).

(** ** Readiness *)

Definition checkApplicationAvailable (daemonSet : DaemonSet) : bool :=
  0 <? NumberReady (ds_Status daemonSet).

Definition checkDaemonSetReady (daemonSet : DaemonSet) : bool :=
  checkApplicationAvailable daemonSet &&
  (DesiredNumberScheduled (ds_Status daemonSet) <=? NumberReady (ds_Status daemonSet)).

(** The DaemonSets of the resource are ready: the legacy one where there is one. *)
Definition daemonsets_ready (cr : HostPathProvisioner) (legacy : option DaemonSet) (csi : DaemonSet) : bool :=
  (negb (isLegacy cr) || match legacy with Some ds => checkDaemonSetReady ds | None => false end)
  && checkDaemonSetReady csi.

(** Get the legacy DaemonSet (of a legacy resource) and the CSI DaemonSet. *)
Definition get_daemonsets {B} (cr : HostPathProvisioner) (namespace : string) (h : goerror → kprog B)
    (body : option DaemonSet → DaemonSet → kprog B) : kprog B :=
  with_ok (if isLegacy cr
           then r ← request (Get KDaemonSet (namespace, MultiPurposeHostPathProvisionerName));
                mret (match r with Ok ds => Ok (Some ds) | Err err => Err err end)
           else mret (Ok None)) h (λ legacy,
    with_ok (request (Get KDaemonSet (namespace, MultiPurposeHostPathProvisionerName +:+ "-csi"))) h
      (λ csi, body legacy csi)).

Section Controller.
Context `{PL : Platform, CD : Codec}.

(** [getHppList] *)
Definition getHppList : kprog (result (list HostPathProvisioner)) :=
  request (ListObjs KHostPathProvisioner {| lo_Selector := []; lo_Namespace := "" |}).

Definition reconcileCleanup (cr : HostPathProvisioner) (namespace : string) (deploymentCount : Z) :
    kprog reconciled :=
  with_ok (currentStoragePoolDeployments cr namespace) (λ err, mret (failed err)) (λ spDeployments,
    with_ok (hasCleanUpFinished namespace) (λ err, mret (failed err)) (λ cleanupFinished,
      if (Z.of_nat (size spDeployments) =? deploymentCount) && cleanupFinished then
        on_err (removeCleanUpJobs namespace) (λ err, mret (failed err)) (mret done_ok)
      else mret (requeue_in_a_second, None))).

(** [checkDegraded]: whether the resource is degraded, and the resource *)
Definition checkDegraded (cr : HostPathProvisioner) (namespace : string) :
    kprog (result (bool * HostPathProvisioner)) :=
  get_daemonsets cr namespace (λ err, mret (Err err)) (λ legacy csi,
    let degraded := negb (daemonsets_ready cr legacy csi) in
    cr ← (if degraded && negb (isDeploying cr)
          then MarkCrFailed cr "Degraded" "CR is deployed but DaemonSets are not ready"
          else mret cr);
    mret (Ok (degraded, cr))).

(** [reconcileStatus]: the error, and the resource as it is afterwards *)
Definition reconcileStatus (cr : HostPathProvisioner) (namespace versionString : string) :
    kprog (reconciled * HostPathProvisioner) :=
  with_ok (checkDegraded cr namespace) (λ err, mret (failed err, cr)) (λ '(degraded, cr),
    r ← reconcileStoragePoolStatus cr namespace;
    match r with
    | Err err =>
        cr ← MarkCrFailedHealing cr "StoragePoolNotReady" (err_text err);
        mret (failed err, cr)
    | Ok cr =>
        mret (done_ok,
              if negb degraded && bool_decide (ObservedVersion (cr_Status cr) ≠ versionString)
              then with_Status (set_ObservedVersion versionString) cr else cr)
    end).

(** The managed resources, in the order [reconcileUpdate] takes them *)
Definition reconcile_resources (cr : HostPathProvisioner) (namespace : string) : kprog error :=
  let fail err := mret (Some err) in
  on_err (reconcileDaemonSet cr namespace) fail
  (on_err (reconcileStoragePools cr namespace) fail
  (on_err (reconcileServiceAccount cr namespace) fail
  (on_err (reconcileClusterRole cr) fail
  (on_err (reconcileClusterRoleBinding cr namespace) fail
  (on_err (reconcileRole cr namespace) fail
  (on_err (reconcileRoleBinding cr namespace) fail
  (on_err (reconcileCSIDriver cr) fail
  (on_err (reconcileSecurityContextConstraints cr namespace) fail
          (reconcilePrometheusInfra cr namespace))))))))).

Definition provisionerHealthy := "ProvisionerHealthy".
Definition provisionerHealthyMessage := "Provisioner Healthy".

(** [reconcileUpdate] *)
Definition reconcileUpdate (cr : HostPathProvisioner) (namespace : string) :
    kprog (reconciled * HostPathProvisioner) :=
  on_err (reconcile_resources cr namespace) (λ err, mret (failed err, cr))
    (get_daemonsets cr namespace (λ err, mret (failed err, cr)) (λ legacy csi,
      cr ← (if daemonsets_ready cr legacy csi then
              cr ← MarkCrHealthyMessage cr "Complete" "Application Available";
              record_event cr EventTypeNormal provisionerHealthy provisionerHealthyMessage;;
              mret cr
            else mret cr);
      res ← reconcileCleanup cr namespace (DesiredNumberScheduled (ds_Status csi));
      mret (res, cr))).

(** The deletion of the resources that have fixed names (lines 382-402 of
    [Reconcile]), up to the first error *)
Definition delete_managed (namespace : string) : kprog error :=
  let fail err := mret (Some err) in
  on_err (deleteSCC MultiPurposeHostPathProvisionerName) fail
  (on_err (deleteSCC (MultiPurposeHostPathProvisionerName +:+ "-csi")) fail
  (on_err (deletePrometheusResources namespace) fail
  (on_err (deleteAllRbac namespace) fail deleteCSIDriver))).

(** The deletion of the custom resource (lines 371-410 of [Reconcile]) *)
Definition reconcile_deletion (cr : HostPathProvisioner) (namespace : string) : kprog reconciled :=
  let fail err := mret (failed err) in
  on_err (cleanDeployments cr namespace) fail
    ('(res, err) ← reconcileCleanup cr namespace 0;
     if match err with Some _ => true | None => RequeueAfter res =? second end then mret (res, err)
     else
       on_err (delete_managed namespace) fail
       (with_ok (request (Update KHostPathProvisioner (with_meta (RemoveFinalizer hppFinalizer) cr))) fail
          (λ _, mret done_ok))).

(** The readiness gauge (lines 361-366) *)
Definition set_gauge (cr : HostPathProvisioner) : kprog unit :=
  if IsHppAvailable cr then request (SetReadyGaugeValue 1)
  else if negb (IsHppProgressing cr) then request (SetReadyGaugeValue 0)
  else mret tt.

Definition deployStarted := "DeployStarted".
Definition deployStartedMessage := "Started Deployment".
Definition upgradeStarted := "UpgradeStarted".
Definition reconcileFailed := "Reconcile Failed".

(** Mark the start of a deployment (lines 426-437) *)
Definition start_deploying (cr : HostPathProvisioner) : kprog (result HostPathProvisioner) :=
  if isDeploying cr then
    cr ← MarkCrDeploying cr deployStarted deployStartedMessage;
    record_event cr EventTypeNormal deployStarted deployStartedMessage;;
    request (Update KHostPathProvisioner cr)
  else mret (Ok cr).

(** Mark the start of an upgrade (lines 439-449) *)
Definition start_upgrading (canUpgrade : bool) (cr : HostPathProvisioner) :
    kprog (result HostPathProvisioner) :=
  if canUpgrade && isUpgrading cr then
    let message := "Started upgrade to version " +:+ TargetVersion (cr_Status cr) in
    cr ← MarkCrUpgradeHealingDegraded cr upgradeStarted message;
    record_event cr EventTypeWarning upgradeStarted message;;
    request (Update KHostPathProvisioner cr)
  else mret (Ok cr).

(** Write the resource back when more than its heartbeats changed (lines 459-468) *)
Definition update_changed (currentCopy cr : HostPathProvisioner) (res : Result) (err : error) :
    kprog reconciled :=
  currentCopy ← ignoreHeartBeatTimestamp currentCopy cr;
  if DeepEqual currentCopy cr then mret (res, err)
  else
    r ← request (Update KHostPathProvisioner cr);
    mret (res, match r with Err updateErr => Some updateErr | Ok _ => err end).

(** Reconcile the resources and the status (lines 451-457) *)
Definition reconcile_all (cr : HostPathProvisioner) (namespace versionString : string) :
    kprog (reconciled * HostPathProvisioner) :=
  '((res, err), cr) ← reconcileUpdate cr namespace;
  match err with
  | None => reconcileStatus cr namespace versionString
  | Some err =>
      let message := "Unable to successfully reconcile: " +:+ err_text err in
      cr ← MarkCrFailedHealing cr reconcileFailed message;
      record_event cr EventTypeWarning reconcileFailed message;;
      mret ((res, Some err), cr)
  end.

(** A resource that is not being deleted (lines 413-468) *)
Definition reconcile_active (currentCopy : HostPathProvisioner) (namespace versionString : string) :
    kprog reconciled :=
  let fail err := mret (failed err) in
  with_ok (addFinalizer currentCopy) fail (λ cr,
    let cr := with_Status (set_Versions versionString versionString) cr in
    match canUpgrade (ObservedVersion (cr_Status cr)) versionString with
    | Err err => fail err
    | Ok canUpgrade =>
        with_ok (start_deploying cr) fail (λ cr,
          with_ok (start_upgrading canUpgrade cr) fail (λ cr,
            '((res, err), cr) ← reconcile_all cr namespace versionString;
            update_changed currentCopy cr res err))
    end).

Definition multiple_hpps (size : nat) : goerror :=
  Errorf ("there should be a single hostpath provisioner, " +:+ sprintf_d (Z.of_nat size) +:+ " items found").

(** [Reconcile] *)
Definition Reconcile (request_key : ObjectKey) : kprog reconciled :=
  let fail err := mret (failed err) in
  with_ok getHppList fail (λ items,
    if (1 <? length items)%nat then fail (multiple_hpps (length items))
    else
      match VersionStringFunc with
      | Err err => fail err
      | Ok versionString =>
          r ← request (Get KHostPathProvisioner request_key);
          match r with
          | Err err => mret (if IsNotFound err then done_ok else failed err)
          | Ok cr =>
              set_gauge cr;;
              let namespace := getNamespace in
              if bool_decide (DeletionTimestamp (o_meta cr) ≠ None)
              then reconcile_deletion cr namespace
              else reconcile_active cr namespace versionString
          end
      end).
End Controller.
