(* ===== verification/Permissions.v ===== *)
(** * The operator's permissions

    Does the API server let the operator do what it does?  [needs] says which
    accesses a request is; the rules of Install.v are what the operator is granted;
    the theorems compare the two for every request of [Reconcile].  How the API
    server evaluates RBAC rules is not part of the repository: it is the class
    [Authorizer], whose law is the documented evaluation. *)
From S2P Require Import Prelude GoStrings Prog Names Semver Api K8s Json JsonMerge Meta Conditions.
From S2P Require Import CryptoPolicy Rules Rbac ServiceAccount Scc CsiDriver Prometheus DaemonSet Install StoragePool.
From S2P Require Import Pools Controller.

(** ** Accesses *)

(** An access to a resource: verb, API group, resource, and the name (empty
    when the verb has none: create, list, watch) *)
Record access := {
  a_verb : string; a_group : string; a_resource : string; a_namespace : string; a_name : string }.

(** The API group and the resource of a kind, and whether it is namespaced *)
Definition resource_of (k : kind) : string * string * bool :=
  match k with
  | KHostPathProvisioner => ("hostpathprovisioner.kubevirt.io", "hostpathprovisioners", false)
  | KDaemonSet => ("apps", "daemonsets", true)
  | KDeployment => ("apps", "deployments", true)
  | KPod => ("", "pods", true)
  | KNode => ("", "nodes", false)
  | KJob => ("batch", "jobs", true)
  | KServiceAccount => ("", "serviceaccounts", true)
  | KClusterRole => ("rbac.authorization.k8s.io", "clusterroles", false)
  | KClusterRoleBinding => ("rbac.authorization.k8s.io", "clusterrolebindings", false)
  | KRole => ("rbac.authorization.k8s.io", "roles", true)
  | KRoleBinding => ("rbac.authorization.k8s.io", "rolebindings", true)
  | KCSIDriver => ("storage.k8s.io", "csidrivers", false)
  | KStorageClass => ("storage.k8s.io", "storageclasses", false)
  | KPersistentVolumeClaim => ("", "persistentvolumeclaims", true)
  | KSecurityContextConstraints => ("security.openshift.io", "securitycontextconstraints", false)
  | KPrometheusRule => ("monitoring.coreos.com", "prometheusrules", true)
  | KServiceMonitor => ("monitoring.coreos.com", "servicemonitors", true)
  | KService => ("", "services", true)
  | KAPIServer => ("config.openshift.io", "apiservers", false)
  end.
Definition namespaced (k : kind) : bool := (resource_of k).2.

Definition access_to (verb : string) (k : kind) (key : ObjectKey) : access :=
  {| a_verb := verb; a_group := (resource_of k).1.1; a_resource := (resource_of k).1.2;
     a_namespace := key.1; a_name := key.2 |}.

(** The accesses a request of the reconciler is.  Reads go to the manager's
    cache, which lists and watches the kind, in the operator's namespace when it
    is namespaced; the events of a cluster-scoped object are in [default]. *)
Definition needs `{PL : Platform} {T} (r : kreq T) : list access :=
  let read k := let ns := if namespaced k then getNamespace else "" in
                [access_to "list" k (ns, ""); access_to "watch" k (ns, "")] in
  match r with
  | Get k _ | ListObjs k _ => read k
  | Create k o => [access_to "create" k (o_namespace o, "")]
  | Update k o => [access_to "update" k (ObjectKeyFromObject o)]
  | Delete k key _ => [access_to "delete" k key]
  | Event _ _ => [{| a_verb := "create"; a_group := ""; a_resource := "events"; a_namespace := "default"; a_name := "" |}]
  | _ => []
  end.

(** ** RBAC *)

Definition listed_in (x : string) (l : list string) : bool := bool_decide (x ∈ l) || bool_decide ("*" ∈ l).

(** A rule matches an access: the group, the resource and the verb are listed, or
    everything is; a rule for some names lists the name. *)
Definition matches (r : PolicyRule) (a : access) : bool :=
  listed_in (a_group a) (APIGroups r) && listed_in (a_resource a) (Resources r) &&
  listed_in (a_verb a) (Verbs r) &&
  (bool_decide (ResourceNames r = []) || bool_decide (a_name a ∈ ResourceNames r)).

(** The API server's decisions about the operator's service account, which is
    bound to the two roles of Install.v: a request is allowed exactly when a rule
    of the ClusterRole matches it or, in the operator's namespace, one of the
    Role. *)
Class Authorizer `{PL : Platform} := {
  authorized : access → bool;
  authorized_spec a : authorized a = true ↔
    existsb (λ r, matches r a) getOperatorClusterRules = true ∨
    (a_namespace a = getNamespace ∧ existsb (λ r, matches r a) getOperatorRules = true) }.

(** The API server lets a subject create a role only if the subject already has
    every permission in it (privilege escalation prevention): some rule of its own
    without names lists the group, the resource and the verb. *)
Definition held (own : list PolicyRule) (group resource verb : string) : bool :=
  existsb (λ r, bool_decide (ResourceNames r = []) && listed_in group (APIGroups r) &&
                listed_in resource (Resources r) && listed_in verb (Verbs r)) own.

Definition covered (own rules : list PolicyRule) : bool :=
  forallb (λ r, forallb (λ g, forallb (λ s, forallb (held own g s) (Verbs r)) (Resources r)) (APIGroups r)) rules.

Definition no_escalation {T} (r : kreq T) : Prop :=
  match r with
  | Create k o =>
      match k return obj k → Prop with
      | KClusterRole => λ o, covered getOperatorClusterRules (o_body o) = true
      | KRole => λ o, covered (getOperatorClusterRules ++ getOperatorRules) (o_body o) = true
      | _ => λ _, True
      end o
  | _ => True
  end.

Section Permissions.
Context `{PL : Platform, AU : !Authorizer}.

Definition permitted : ∀ T, kreq T → Prop := λ T r,
  Forall (λ a, authorized a = true) (needs r) ∧ no_escalation r.

(** ** Deciding permissions *)

(** The namespace a key has to have *)
Definition in_place (k : kind) (key : ObjectKey) : Prop := namespaced k = true → key.1 = getNamespace.

Definition may (verb : string) (k : kind) (name : string) : bool :=
  existsb (λ r, matches r (access_to verb k ("", name)))
    (getOperatorClusterRules ++ if namespaced k then getOperatorRules else []).

Lemma matches_namespace r verb k ns ns' name :
  matches r (access_to verb k (ns, name)) = matches r (access_to verb k (ns', name)).
Proof. done. Qed.

Lemma may_authorized verb k key : may verb k key.2 = true → in_place k key → authorized (access_to verb k key) = true.
Proof.
  intros Hm Hp. apply authorized_spec. unfold may in Hm. rewrite existsb_app in Hm. destruct key as [ns name].
  apply orb_true_iff in Hm as [Hm|Hm]; [by left|].
  destruct (namespaced k) eqn:Hk; [|done]. right. split; [by apply Hp|done].
Qed.

(** What [may] means for the requests *)
Definition readable (k : kind) : bool := may "list" k "" && may "watch" k "".

Lemma permitted_read {T} (r : kreq T) k :
  needs r = [access_to "list" k (if namespaced k then getNamespace else "", "");
             access_to "watch" k (if namespaced k then getNamespace else "", "")] →
  no_escalation r → readable k = true → permitted T r.
Proof.
  intros Hn He [Hl Hw]%andb_prop. split; [|done]. rewrite Hn.
  assert (Hp : ∀ name, in_place k (if namespaced k then getNamespace else "", name))
    by (intros ? Hk; simpl; by rewrite Hk).
  repeat constructor; apply may_authorized; auto.
Qed.

Lemma permitted_get k key : readable k = true → permitted _ (Get k key).
Proof. by apply permitted_read. Qed.

Lemma permitted_list k opts : readable k = true → permitted _ (ListObjs k opts).
Proof. by apply permitted_read. Qed.

Lemma permitted_create k (o : obj k) :
  may "create" k "" = true → in_place k (ObjectKeyFromObject o) → no_escalation (Create k o) →
  permitted _ (Create k o).
Proof. intros Hm Hp He. split; [|done]. repeat constructor. by apply may_authorized. Qed.

Lemma permitted_update k (o : obj k) :
  may "update" k (o_name o) = true → in_place k (ObjectKeyFromObject o) → permitted _ (Update k o).
Proof. intros Hm Hp. split; [|done]. repeat constructor. by apply may_authorized. Qed.

Lemma permitted_delete k key p : may "delete" k key.2 = true → in_place k key → permitted _ (Delete k key p).
Proof. intros Hm Hp. split; [|done]. repeat constructor. by apply may_authorized. Qed.

Lemma permitted_event key e : permitted _ (Event key e).
Proof. split; [|done]. repeat constructor. apply authorized_spec. by left. Qed.
End Permissions.

(** ** The answers relied on *)

(** An object that belongs to the provisioner: a custom resource owns it, or its
    pods run under an account of the provisioner. *)
Definition provisioner_accounts : list string := [ProvisionerServiceAccountName; ProvisionerServiceAccountNameCsi].
Definition owned (m : ObjectMeta) : Prop := ∃ cr_name, owned_by_cr cr_name m = true.

(** The DaemonSets and service accounts of the provisioner have the names this
    version gives them. *)
Definition current_name {k} (o : obj k) : Prop :=
  match k return obj k → Prop with
  | KDaemonSet => λ ds,
      owned (o_meta ds) ∨ ServiceAccountName (template_Spec (ds_Template (ds_Spec ds))) ∈ provisioner_accounts →
      o_name ds ∈ [MultiPurposeHostPathProvisionerName; MultiPurposeHostPathProvisionerName +:+ "-csi"]
  | KServiceAccount => λ sa, owned (o_meta sa) → o_name sa ∈ provisioner_accounts
  | _ => λ _, True
  end o.

(** The server answers a [Get] with the object asked for and a [Create] with the
    object created; the manager's cache holds the operator's namespace only; and no DaemonSet or service account of
    an older version is left. *)
Definition up_to_date `{PL : Platform} : rely kreq := λ T r x,
  (∀ k key (o : obj k), Ev r x = Ev (Get k key) (Ok o) → ObjectKeyFromObject o = key) ∧
  (∀ k (desired o : obj k), Ev r x = Ev (Create k desired) (Ok o) →
     ObjectKeyFromObject o = ObjectKeyFromObject desired) ∧
  (∀ k opts (l : list (obj k)), Ev r x = Ev (ListObjs k opts) (Ok l) →
     Forall (λ o, in_place k (ObjectKeyFromObject o) ∧ current_name o) l).

(** The JSON encoding keeps the key of an object: merging an object into one of
    the same key gives an object of that key. *)
Definition keeps_key `{CD : Codec} : Prop :=
  ∀ k (desired found merged : obj k), ObjectKeyFromObject desired = ObjectKeyFromObject found →
    (mergeObject desired found).2 = Ok merged → ObjectKeyFromObject merged = ObjectKeyFromObject found.

(** ** What each function asks for *)

Create HintDb perm discriminated.

Section Allowed.
Context `{PL : Platform, AU : !Authorizer, CD : Codec} (keys_kept : keeps_key).
Abbreviation allowed p := (triple false up_to_date permitted p always).
Abbreviation ns := getNamespace.

Ltac perm_request :=
  first
    [ apply permitted_get; vm_compute; reflexivity
    | apply permitted_list; vm_compute; reflexivity
    | apply permitted_event
    | apply (permitted_update KHostPathProvisioner); [vm_compute; reflexivity|by intros ?]
    | split; [by constructor|exact I]
    | idtac ].
Ltac perm_solve := triple_solve_with ltac:(perm_request) ltac:(eauto 2 with perm nocore).

Lemma request_allowed {T} (r : kreq T) : permitted T r → allowed (request r).
Proof. intros. by apply triple_request. Qed.

Lemma record_event_allowed cr t r m : allowed (record_event cr t r m).
Proof. unfold record_event. perm_solve. Qed.
#[local] Hint Resolve record_event_allowed : perm.

(** An object the operator may manage: it is in its place, and its kind and name
    are in the rules. *)
Definition manageable (k : kind) (key : ObjectKey) : Prop :=
  in_place k key ∧ readable k && may "create" k "" && may "update" k key.2 = true.

Lemma manageable_request k key :
  manageable k key → permitted _ (Get k key) ∧
  (∀ o : obj k, ObjectKeyFromObject o = key → no_escalation (Create k o) → permitted _ (Create k o)) ∧
  (∀ o : obj k, ObjectKeyFromObject o = key → permitted _ (Update k o)).
Proof.
  intros [Hp [[Hr Hc]%andb_prop Hu]%andb_prop]. split; [by apply permitted_get|].
  split; intros o <-; intros; [by apply permitted_create|by apply permitted_update].
Qed.

Lemma create_resource_allowed {k} cr (desired : obj k) after :
  permitted _ (Create k desired) →
  (∀ o, ObjectKeyFromObject o = ObjectKeyFromObject desired → allowed (after o)) →
  allowed (create_resource cr desired after).
Proof.
  intros Hp Ha. unfold create_resource.
  apply (triple_with_ok _ _ _ _ _ _ (λ o, ObjectKeyFromObject o = ObjectKeyFromObject desired)).
  - apply triple_request; [done|]. intros [o|e] (_ & Hc & _); [by eapply Hc|done].
  - intros. perm_solve.
  - intros o Ho. apply (triple_bind _ _ _ _ _ always); [perm_solve|]. intros _ _. by apply Ha.
Qed.

Lemma update_resource_allowed {k} cr name (found merged : obj k) :
  permitted _ (Update k merged) → allowed (update_resource cr name found merged).
Proof.
  intros Hp. unfold update_resource. destruct (DeepEqual found merged); [by apply triple_ret|].
  apply (triple_with_ok _ _ _ _ _ _ always); [by apply triple_always, request_allowed|..]; intros; perm_solve.
Qed.

Lemma merge_and_update_allowed {k} cr (desired found : obj k) :
  ObjectKeyFromObject desired = ObjectKeyFromObject found →
  manageable k (ObjectKeyFromObject found) → allowed (merge_and_update cr desired found).
Proof.
  intros Hd Hm. unfold merge_and_update. cbv zeta.
  destruct (mergeObject _ _).2 as [merged|e] eqn:Hmerge; [|by apply triple_ret].
  apply update_resource_allowed, (proj2 (proj2 (manageable_request _ _ Hm))).
  apply keys_kept in Hmerge as ->; by rewrite ObjectKey_with_meta.
Qed.

(** Read the object under [key]: what is found has that key. *)
Lemma get_allowed {k B} key (f : result (obj k) → kprog B) (Φ : B → Prop) :
  permitted _ (Get k key) →
  (∀ e, triple false up_to_date permitted (f (Err e)) Φ) →
  (∀ o, ObjectKeyFromObject o = key → triple false up_to_date permitted (f (Ok o)) Φ) →
  triple false up_to_date permitted (r ← request (Get k key); f r) Φ.
Proof.
  intros Hp He Ho. apply (triple_bind _ _ _ _ _ (λ x, ∀ o, x = Ok o → ObjectKeyFromObject o = key)).
  - apply triple_request; [done|]. intros x [Hx _] o ->. by eapply Hx.
  - intros [o|e] Hx; auto.
Qed.

Lemma create_or_update_allowed {k} cr (desired : obj k) after :
  manageable k (ObjectKeyFromObject desired) → no_escalation (Create k desired) →
  (∀ o, ObjectKeyFromObject o = ObjectKeyFromObject desired → allowed (after o)) →
  allowed (create_or_update cr (ObjectKeyFromObject desired) desired after).
Proof.
  intros Hm He Ha. destruct (manageable_request _ _ Hm) as (Hg & Hc & _).
  apply get_allowed; [done|intros e|intros o Ho].
  - destruct (IsNotFound e); [|by apply triple_ret]. by apply create_resource_allowed; [apply Hc|].
  - apply merge_and_update_allowed; [done|by rewrite Ho].
Qed.

Lemma delete_object_allowed k namespace name :
  may "delete" k name = true → in_place k (namespace, name) → allowed (delete_object k namespace name).
Proof.
  intros Hm Hp. unfold delete_object, ignore_not_found.
  apply triple_on_err; [by apply request_allowed, permitted_delete|..]; intros; perm_solve.
Qed.

#[local] Hint Resolve delete_object_allowed : perm.

(** ** The managed resources *)

Lemma no_escalation_applied {k} (o : obj k) :
  no_escalation (Create k o) → no_escalation (Create k (setLastAppliedConfiguration o)).
Proof. unfold setLastAppliedConfiguration. by destruct (Marshal o), k. Qed.

Lemma SetControllerReference_key {k} cr (o o' : obj k) :
  SetControllerReference cr o = Ok o' → ObjectKeyFromObject o' = ObjectKeyFromObject o.
Proof.
  unfold SetControllerReference. intros H.
  destruct (validateOwner _ _); [done|]. destruct (GetControllerOf _); [destruct (referSameObject _ _)|];
    simplify_eq; by rewrite ObjectKey_with_meta.
Qed.

Lemma applied_allowed {k} cr (desired : obj k) :
  manageable k (ObjectKeyFromObject desired) → no_escalation (Create k desired) →
  allowed (create_or_update cr (ObjectKeyFromObject desired) (setLastAppliedConfiguration desired) (λ _, mret None)).
Proof.
  intros Hm He. rewrite <-setLastAppliedConfiguration_key.
  apply create_or_update_allowed; [by rewrite setLastAppliedConfiguration_key|by apply no_escalation_applied|].
  intros. by apply triple_ret.
Qed.

Lemma prometheus_resource_allowed {k} cr (desired : obj k) same :
  manageable k (ObjectKeyFromObject desired) → no_escalation (Create k desired) →
  allowed (reconcilePrometheusResource cr desired desired same).
Proof.
  intros Hm He. unfold reconcilePrometheusResource. destruct (Marshal desired); [|by apply triple_ret]. cbv zeta.
  destruct (manageable_request _ _ Hm) as (Hg & Hc & _).
  apply get_allowed; [done|intros e|intros o Ho].
  - destruct (IsNotFound e); [|by apply triple_ret]. apply create_resource_allowed; [|intros; by apply triple_ret].
    apply Hc; [apply setLastAppliedConfiguration_key|by apply no_escalation_applied].
  - apply merge_and_update_allowed; [|by rewrite Ho]. destruct same; [done|].
    by rewrite setLastAppliedConfiguration_key.
Qed.

(** The operator has what it grants the provisioner, with and without snapshots. *)
Lemma csi_role_held cr : no_escalation (Create KClusterRole (createCsiClusterRoleObjectProvisioner cr)).
Proof.
  unfold no_escalation, createCsiClusterRoleObjectProvisioner. cbn [o_body].
  destruct (isFeatureGateEnabled _ _); vm_compute; reflexivity.
Qed.

(** Decide the permissions for an object with a fixed name. *)
Ltac manage :=
  first [apply applied_allowed | apply prometheus_resource_allowed];
  [split; [intros ?; first [done|reflexivity]|vm_compute; reflexivity]
  |lazymatch goal with
   | |- no_escalation (Create _ (createCsiClusterRoleObjectProvisioner _)) => apply csi_role_held
   | |- no_escalation (Create ?k _) =>
       lazymatch k with KClusterRole => vm_compute; reflexivity | KRole => vm_compute; reflexivity | _ => exact I end
   end].
#[local] Hint Extern 2 (triple _ _ _ (delete_object _ _ _) _) =>
  apply delete_object_allowed; [vm_compute; reflexivity|intros ?; first [done|reflexivity]] : perm.

Lemma ignore_not_found_allowed p : allowed p → allowed (ignore_not_found p).
Proof. intros. unfold ignore_not_found. perm_solve. Qed.
#[local] Hint Resolve ignore_not_found_allowed : perm.

Lemma when_used_allowed k p :
  readable k = true → allowed p → allowed (when_used (checkUsed k) p).
Proof.
  intros Hr Hp. unfold when_used, checkUsed.
  apply (triple_with_ok _ _ _ _ _ _ always); [apply triple_always|intros; by apply triple_ret|intros [] _; [done|by apply triple_ret]].
  apply (triple_with_ok _ _ _ _ _ _ always);
    [apply triple_always, request_allowed; by apply permitted_list|intros; perm_solve|intros; perm_solve].
Qed.

Lemma rbac_allowed cr :
  allowed (reconcileClusterRole cr) ∧ allowed (reconcileClusterRoleBinding cr ns) ∧
  allowed (reconcileRole cr ns) ∧ allowed (reconcileRoleBinding cr ns).
Proof.
  unfold reconcileClusterRole, reconcileClusterRoleBinding, reconcileRole, reconcileRoleBinding,
    deleteClusterRoleObject, deleteClusterRoleBindingObject, reconcileRbacResource.
  split_and!; perm_solve; manage.
Qed.

Lemma deleteSCC_allowed name :
  may "delete" KSecurityContextConstraints name = true → allowed (deleteSCC name).
Proof. intros. by apply when_used_allowed, delete_object_allowed. Qed.
#[local] Hint Extern 2 (triple _ _ _ (deleteSCC _) _) => apply deleteSCC_allowed; vm_compute; reflexivity : perm.

Lemma deleteAllRbac_allowed : allowed (deleteAllRbac ns).
Proof.
  unfold deleteAllRbac, deleteClusterRoleBindingObject, deleteClusterRoleObject, deleteRoleBindingObject,
    deleteRoleObject.
  apply triple_for_err. intros name Hn. repeat (apply elem_of_cons in Hn as [->|Hn]; [perm_solve|]).
  by apply elem_of_nil in Hn.
Qed.
#[local] Hint Resolve deleteAllRbac_allowed : perm.

Lemma deletePrometheusResources_allowed : allowed (deletePrometheusResources ns).
Proof. apply when_used_allowed; [vm_compute; reflexivity|perm_solve]. Qed.
#[local] Hint Resolve deletePrometheusResources_allowed : perm.

Lemma delete_managed_allowed : allowed (delete_managed ns).
Proof. unfold delete_managed, deleteCSIDriver. perm_solve. Qed.

Lemma reconcileSecurityContextConstraints_allowed cr : allowed (reconcileSecurityContextConstraints cr ns).
Proof.
  apply when_used_allowed; [vm_compute; reflexivity|].
  unfold reconcileSecurityContextConstraintsDesired. perm_solve; manage.
Qed.

Lemma reconcilePrometheusInfra_allowed cr : allowed (reconcilePrometheusInfra cr ns).
Proof.
  apply when_used_allowed; [vm_compute; reflexivity|]. destruct (BuildPrometheusRule ns) as [rule|] eqn:Hr; [|by intros tr].
  assert (Hk : ObjectKeyFromObject rule = (ns, ruleName)).
  { unfold BuildPrometheusRule in Hr. destruct GetRunbookURLTemplate; [|done]. by injection Hr as <-. }
  perm_solve; [|manage..]. apply prometheus_resource_allowed; [|done]. rewrite Hk. split; [done|vm_compute; reflexivity].
Qed.

Lemma reconcileCSIDriver_allowed cr : allowed (reconcileCSIDriver cr).
Proof.
  assert (Hm : manageable KCSIDriver ("", driverName)) by (split; [done|by vm_compute]).
  destruct (manageable_request _ _ Hm) as (Hg & Hc & Hu).
  unfold reconcileCSIDriver. cbv zeta. apply get_allowed; [done|intros e|intros o Ho].
  - destruct (IsNotFound e); [|by apply triple_ret]. apply create_resource_allowed; [|intros; by apply triple_ret].
    apply Hc; [apply setLastAppliedConfiguration_key|done].
  - destruct (mergeObject _ _).2 as [merged|e] eqn:Hmerge; [|by apply triple_ret].
    assert (Hk : ObjectKeyFromObject merged = ("", driverName)).
    { apply keys_kept in Hmerge as ->; rewrite ObjectKey_with_meta; try done. rewrite Ho. 
      apply (setLastAppliedConfiguration_key createCSIDriverObject). }
    destruct (DeepEqual o merged); [by apply triple_ret|].
    apply (triple_with_ok _ _ _ _ _ _ always); [by apply triple_always, request_allowed, Hu|..]; intros; perm_solve.
Qed.

(** ** DaemonSets and service accounts *)

Abbreviation yielding p Φ := (triple false up_to_date permitted p Φ).

Lemma list_allowed {k B} opts h (body : list (obj k) → kprog B) (Φ : B → Prop) :
  readable k = true → (∀ e, yielding (h e) Φ) →
  (∀ l, Forall (λ o, in_place k (ObjectKeyFromObject o) ∧ current_name o) l → yielding (body l) Φ) →
  yielding (with_ok (request (ListObjs k opts)) h body) Φ.
Proof.
  intros Hr Hh Hb. eapply triple_with_ok; [|exact Hh|exact Hb].
  apply triple_request; [by apply permitted_list|]. intros [l|e] (_ & _ & Hl); [by eapply Hl|done].
Qed.

Lemma list_or_empty_allowed {k B} opts h (body : list (obj k) → kprog B) (Φ : B → Prop) :
  readable k = true → (∀ e, yielding (h e) Φ) →
  (∀ l, Forall (λ o, in_place k (ObjectKeyFromObject o) ∧ current_name o) l → yielding (body l) Φ) →
  yielding (list_or_empty opts h body) Φ.
Proof.
  intros Hr Hh Hb. eapply triple_bind.
  { apply triple_request; [by apply permitted_list|]. intros x (_ & _ & Hl). exact (Hl k). }
  intros [l|e] Hl; [by eapply Hb, Hl|]. destruct (IsNotFound e); [by apply Hb|apply Hh].
Qed.

Lemma not_one_of_two (x a b : string) : x ∉ [a; b] ↔ x ≠ a ∧ x ≠ b.
Proof. rewrite not_elem_of_cons, list_elem_of_singleton. done. Qed.

(** The owned objects have one of two names: those with another are none. *)
Lemma no_duplicates {k} a b cr_name (l : list (obj k)) :
  Forall (λ o, owned (o_meta o) → o_name o ∈ [a; b]) l →
  filter (λ o, (bool_decide (o_name o ≠ a) && bool_decide (o_name o ≠ b) &&
                owned_by_cr cr_name (o_meta o)) = true) l = [].
Proof.
  induction 1 as [|o l Ho _ IH]; [done|]. rewrite filter_cons_False; [done|].
  intros [[H1 H2]%andb_prop H3]%andb_prop. apply bool_decide_eq_true in H1, H2.
  specialize (Ho (ex_intro _ _ H3)). apply elem_of_cons in Ho as [?|Hin]; [done|]. by apply list_elem_of_singleton in Hin.
Qed.

(** Nothing older than this version is found. *)
Lemma getDuplicateDaemonSet_allowed cr_name : yielding (getDuplicateDaemonSet cr_name ns) (ok_sat (λ l, l = [])).
Proof.
  unfold getDuplicateDaemonSet. destruct (labels_Parse _) as [ls|e]; [|by apply triple_ret].
  apply list_allowed; [by vm_compute|intros; by apply triple_ret|]. intros l Hl. apply triple_ret, no_duplicates.
  eapply Forall_impl; [exact Hl|]. intros ds [_ Hds] Ho. apply Hds. by left.
Qed.

Lemma getDuplicateServiceAccount_allowed cr_name :
  yielding (getDuplicateServiceAccount cr_name ns) (ok_sat (λ l, l = [])).
Proof.
  unfold getDuplicateServiceAccount. destruct (labels_Parse _) as [ls|e]; [|by apply triple_ret].
  apply list_allowed; [by vm_compute|intros; by apply triple_ret|]. intros l Hl. apply triple_ret, no_duplicates.
  eapply Forall_impl; [exact Hl|]. by intros sa [_ Hsa].
Qed.

Lemma reconcileDaemonSetForSa_allowed (desired : DaemonSet) cr :
  manageable KDaemonSet (ObjectKeyFromObject desired) → may "delete" KDaemonSet (o_name desired) = true →
  allowed (reconcileDaemonSetForSa desired cr).
Proof.
  intros Hm Hd. unfold reconcileDaemonSetForSa.
  destruct (SetControllerReference _ _) as [owned_ds|e] eqn:Hc; [|by apply triple_ret].
  apply SetControllerReference_key in Hc. rewrite setLastAppliedConfiguration_key in Hc.
  rewrite <-Hc in Hm. assert (Hn : o_name owned_ds = o_name desired) by by injection Hc.
  destruct (manageable_request _ _ Hm) as (Hg & Hcr & Hu).
  apply get_allowed; [done|intros e|intros found Hf]; cbn [daemonset_answered].
  - destruct (IsNotFound e); [|by apply triple_ret].
    apply create_resource_allowed; [by apply Hcr|intros; by apply triple_ret].
  - case_bool_decide; [|apply update_resource_allowed, Hu; exact Hf].
    apply triple_on_err; [|intros; by apply triple_ret..].
    apply delete_object_allowed; [by rewrite Hn|by destruct Hm].
Qed.

Lemma GetTLSMinVersionString_allowed : allowed GetTLSMinVersionString.
Proof.
  unfold GetTLSMinVersionString. perm_solve. destruct (selectCipherSuitesAndMinTLSVersion _); by intros tr.
Qed.

Lemma createCSIDaemonSetObject_allowed cr :
  yielding (createCSIDaemonSetObject cr (getDaemonSetArgs ns false))
    (λ ds, ObjectKeyFromObject ds = (ns, MultiPurposeHostPathProvisionerName +:+ "-csi")).
Proof.
  unfold createCSIDaemonSetObject. apply (triple_bind _ _ _ _ _ always); [apply GetTLSMinVersionString_allowed|].
  intros tls _. by apply triple_ret.
Qed.

Lemma reconcileDaemonSet_allowed cr : allowed (reconcileDaemonSet cr ns).
Proof.
  unfold reconcileDaemonSet, deleteDaemonSet. cbv zeta.
  eapply triple_with_ok; [apply getDuplicateDaemonSet_allowed|intros; by apply triple_ret|]. intros dups ->.
  apply triple_on_err; [by apply triple_ret|intros; by apply triple_ret|].
  apply triple_on_err; [perm_solve|intros; by apply triple_ret|].
  - apply reconcileDaemonSetForSa_allowed; [split; [done|]|]; vm_compute; reflexivity.
  - eapply triple_bind; [apply createCSIDaemonSetObject_allowed|]. intros ds Hk.
    assert (Hn : o_name ds = MultiPurposeHostPathProvisionerName +:+ "-csi") by by injection Hk.
    apply reconcileDaemonSetForSa_allowed; [rewrite Hk; split; [done|]|rewrite Hn]; vm_compute; reflexivity.
Qed.

(** The workloads of an account of the provisioner are its own. *)
Lemma deleteRunningPodsWithSa_allowed name namespace :
  name ∈ provisioner_accounts → allowed (deleteRunningPodsWithSa name namespace).
Proof.
  intros Hname. unfold deleteRunningPodsWithSa, deleteDaemonSetWithSa, deleteDeploymentsWithSa.
  apply triple_on_err; [|intros; by apply triple_ret|].
  - apply list_or_empty_allowed; [by vm_compute|intros; by apply triple_ret|]. intros l Hl.
    apply triple_for_err. intros ds Hds. apply (proj1 (Forall_forall _ _) Hl) in Hds as [Hp Hc].
    case_bool_decide as Hsa; [|by apply triple_ret].
    destruct (0 <? _); [|by apply triple_ret]. apply delete_object_allowed; [|done].
    assert (Hin : o_name ds ∈ [MultiPurposeHostPathProvisionerName; MultiPurposeHostPathProvisionerName +:+ "-csi"])
      by (apply Hc; right; by rewrite Hsa).
    apply elem_of_cons in Hin as [->|Hin]; [by vm_compute|]. apply list_elem_of_singleton in Hin as ->. by vm_compute.
  - apply list_or_empty_allowed; [by vm_compute|intros; by apply triple_ret|]. intros l Hl.
    apply triple_for_err. intros d Hd. apply (proj1 (Forall_forall _ _) Hl) in Hd as [Hp _].
    destruct (_ && _); [|by apply triple_ret]. by apply delete_object_allowed; [vm_compute|].
Qed.

Lemma reconcileServiceAccount_allowed cr : allowed (reconcileServiceAccount cr ns).
Proof.
  unfold reconcileServiceAccount, deleteServiceAccount.
  eapply triple_with_ok; [apply getDuplicateServiceAccount_allowed|intros; by apply triple_ret|]. intros dups ->.
  apply triple_on_err; [by apply triple_ret|intros; by apply triple_ret|].
  apply triple_on_err; [perm_solve|intros; by apply triple_ret|].
  apply triple_for_err. intros sa Hsa.
  assert (Hk : ObjectKeyFromObject sa = (ns, o_name sa) ∧ o_name sa ∈ provisioner_accounts).
  { destruct (isLegacy cr); set_unfold; naive_solver. }
  destruct Hk as [Hk Hn]. unfold reconcileOneServiceAccount.
  destruct (SetControllerReference _ _) as [desired|e] eqn:Hc; [|by apply triple_ret].
  apply SetControllerReference_key in Hc. rewrite setLastAppliedConfiguration_key, Hk in Hc.
  apply create_or_update_allowed; [|done|].
  - rewrite Hc. split; [done|]. clear Hc Hk.
    apply elem_of_cons in Hn as [->|Hn]; [by vm_compute|]. apply list_elem_of_singleton in Hn as ->. by vm_compute.
  - intros o Ho. apply deleteRunningPodsWithSa_allowed. rewrite Hc in Ho. by injection Ho as _ ->.
Qed.

(** ** Storage pools *)

Definition deployment_in_place (d : Deployment) : Prop := in_place KDeployment (ObjectKeyFromObject d).
Definition all_in_place (m : deployments) : Prop := map_Forall (λ _, deployment_in_place) m.

Lemma manageable_deployment key : in_place KDeployment key → manageable KDeployment key.
Proof. by split; [|vm_compute]. Qed.

Lemma list_labelled_allowed {k B} labels namespace h (body : list (obj k) → kprog B) (Φ : B → Prop) :
  readable k = true → (∀ e, yielding (h e) Φ) →
  (∀ l, Forall (λ o, in_place k (ObjectKeyFromObject o) ∧ current_name o) l → yielding (body l) Φ) →
  yielding (list_labelled k labels namespace h body) Φ.
Proof. intros. unfold list_labelled. destruct (LabelSelectorAsSelector labels); [by apply list_allowed|auto]. Qed.

Lemma currentStoragePoolDeployments_allowed cr :
  yielding (currentStoragePoolDeployments cr ns) (ok_sat all_in_place).
Proof.
  apply list_labelled_allowed; [by vm_compute|intros; by apply triple_ret|]. intros l Hl.
  apply triple_ret. intros name d [Hd _]%by_name_lookup. apply list_elem_of_filter in Hd as [_ Hd].
  by apply (proj1 (Forall_forall _ _) Hl) in Hd as [Hd _].
Qed.

Lemma getNodesByDaemonSet_allowed : allowed (getNodesByDaemonSet ns).
Proof.
  unfold getNodesByDaemonSet. perm_solve.
  apply list_labelled_allowed; [by vm_compute|intros; by apply triple_ret|]. intros l _. perm_solve.
Qed.
#[local] Hint Resolve getNodesByDaemonSet_allowed : perm.

Lemma ensure_exists_allowed {k} cr (desired : obj k) :
  readable k && may "create" k "" = true → in_place k (ObjectKeyFromObject desired) →
  no_escalation (Create k desired) → allowed (ensure_exists cr desired).
Proof.
  intros [Hr Hc]%andb_prop Hp He. unfold ensure_exists.
  apply (triple_bind _ _ _ _ _ always); [by apply request_allowed, permitted_get|]. intros x _. perm_solve.
  by apply permitted_create.
Qed.

Lemma reconcileStoragePoolDeploymentByNode_allowed cr pool template node current :
  all_in_place current →
  yielding (reconcileStoragePoolDeploymentByNode cr ns pool template node current) (ok_sat all_in_place).
Proof.
  intros Hcur. unfold reconcileStoragePoolDeploymentByNode.
  destruct (SetControllerReference _ _) as [desired|e] eqn:Hc; [|by apply triple_ret].
  apply SetControllerReference_key in Hc. rewrite setLastAppliedConfiguration_key in Hc.
  assert (Hm : manageable KDeployment (ObjectKeyFromObject desired))
    by (rewrite Hc; by apply manageable_deployment).
  destruct (manageable_request _ _ Hm) as (Hg & Hcr & Hu).
  apply get_allowed; [done|intros e|intros found Hf].
  - destruct (IsNotFound e); [|by apply triple_ret].
    apply triple_on_err; [|intros; by apply triple_ret|by apply triple_ret].
    apply create_resource_allowed; [by apply Hcr|intros; by apply triple_ret].
  - apply triple_on_err; [|intros; by apply triple_ret|by apply triple_ret, map_Forall_delete].
    apply update_resource_allowed, Hu. exact Hf.
Qed.

Lemma reconcile_pool_allowed cr nodes current pool :
  all_in_place current → yielding (reconcile_pool cr ns nodes current pool) (ok_sat all_in_place).
Proof.
  intros Hc. unfold reconcile_pool. destruct (PVCTemplate pool) as [template|]; [|by apply triple_ret].
  assert (Hpvc : ∀ node, allowed (ensure_exists cr (storagePoolPVC pool template ns node)))
    by (intros; by apply ensure_exists_allowed; [vm_compute|..]).
  assert (Hsc : allowed (reconcileBackendStorageClass cr pool)) by (unfold reconcileBackendStorageClass; by apply ensure_exists_allowed; [vm_compute|..]).
  destruct (isShared _).
  - destruct nodes as [|node nodes]; [by apply triple_ret|].
    apply triple_on_err; [apply Hpvc|intros; by apply triple_ret|].
    apply (triple_with_ok _ _ _ _ _ _ all_in_place); [|intros; by apply triple_ret|].
    + apply triple_for_state; [done|]. intros. by apply reconcileStoragePoolDeploymentByNode_allowed.
    + intros cur Hcur. apply triple_on_err; [exact Hsc|..]; intros; by apply triple_ret.
  - apply triple_for_state; [done|]. intros cur node _ Hcur.
    apply triple_on_err; [apply Hpvc|intros; by apply triple_ret|].
    by apply reconcileStoragePoolDeploymentByNode_allowed.
Qed.

Lemma createCleanupJobForDeployment_allowed cr d pool : allowed (createCleanupJobForDeployment cr ns d pool).
Proof.
  unfold createCleanupJobForDeployment, createCleanupJobForNode.
  destruct (deployment_node d) as [m|node]; [by intros tr|]. perm_solve.
  by apply permitted_create; [vm_compute|..].
Qed.

Lemma delete_deployment_allowed d : deployment_in_place d → allowed (delete_deployment d).
Proof. by apply delete_object_allowed; vm_compute. Qed.

Lemma for_deployments_allowed m body :
  all_in_place m → (∀ d, deployment_in_place d → allowed (body d)) → allowed (for_deployments m body).
Proof.
  intros Hm Hb. unfold for_deployments. apply (triple_bind _ _ _ _ _ always); [perm_solve|].
  intros names _. apply triple_for_err. intros d (name & _ & Hd)%list_elem_of_omap. apply Hb. by eapply Hm.
Qed.

Lemma reconcileStoragePools_allowed cr : allowed (reconcileStoragePools cr ns).
Proof.
  unfold reconcileStoragePools. cbv zeta.
  apply (triple_with_ok _ _ _ _ _ _ always); [apply triple_always; perm_solve|intros; by apply triple_ret|].
  intros nodes _. eapply triple_with_ok; [apply currentStoragePoolDeployments_allowed|intros; by apply triple_ret|].
  intros current Hc. apply (triple_with_ok _ _ _ _ _ _ all_in_place); [|intros; by apply triple_ret|].
  { apply triple_for_state; [done|]. intros. by apply reconcile_pool_allowed. }
  intros unused Hu. apply for_deployments_allowed; [done|]. intros d Hd.
  apply triple_on_err; [by apply delete_deployment_allowed|intros; by apply triple_ret|].
  destruct (getStoragePoolForDeployment cr d); [|by apply triple_ret].
  apply (triple_with_ok _ _ _ _ _ _ always); [apply triple_always, createCleanupJobForDeployment_allowed|..];
    intros; by apply triple_ret.
Qed.

Lemma cleanDeployments_allowed cr : allowed (cleanDeployments cr ns).
Proof.
  unfold cleanDeployments. apply triple_for_err. intros pool _.
  destruct (PVCTemplate pool) as [template|]; [|by apply triple_ret].
  eapply triple_with_ok; [apply currentStoragePoolDeployments_allowed|intros; by apply triple_ret|].
  intros current Hc. apply for_deployments_allowed; [done|]. intros d Hd. unfold clean_deployment. cbv zeta.
  apply (triple_with_ok _ _ _ _ _ _ always);
    [apply triple_always, createCleanupJobForDeployment_allowed|intros; by apply triple_ret|].
  intros [node|] _; [|by apply delete_deployment_allowed].
  apply get_allowed; [by apply permitted_get|intros; by apply triple_ret|].
  intros found Hf. apply delete_deployment_allowed. unfold deployment_in_place. by rewrite Hf.
Qed.

Lemma getCleanUpJobs_allowed :
  yielding (getCleanUpJobs ns) (ok_sat (Forall (λ o, in_place KJob (ObjectKeyFromObject o)))).
Proof.
  apply list_labelled_allowed; [by vm_compute|intros; by apply triple_ret|]. intros l Hl. apply triple_ret.
  eapply Forall_impl; [exact Hl|]. by intros o [].
Qed.

Lemma hasCleanUpFinished_allowed : allowed (hasCleanUpFinished ns).
Proof.
  eapply triple_with_ok; [apply getCleanUpJobs_allowed|..]; intros; by apply triple_ret.
Qed.

Lemma removeCleanUpJobs_allowed : allowed (removeCleanUpJobs ns).
Proof.
  eapply triple_with_ok; [apply getCleanUpJobs_allowed|intros; by apply triple_ret|].
  intros jobs Hj. apply triple_for_err. intros job Hin. apply (proj1 (Forall_forall _ _) Hj) in Hin.
  by apply ignore_not_found_allowed, request_allowed, permitted_delete; [vm_compute|].
Qed.

Lemma currentStoragePoolDeployments_only cr : allowed (currentStoragePoolDeployments cr ns).
Proof. by eapply triple_mono; [apply currentStoragePoolDeployments_allowed|]. Qed.
#[local] Hint Resolve hasCleanUpFinished_allowed removeCleanUpJobs_allowed currentStoragePoolDeployments_only : perm.

Lemma reconcileCleanup_allowed cr n : allowed (reconcileCleanup cr ns n).
Proof. unfold reconcileCleanup. perm_solve. Qed.

Lemma reconcileStoragePoolStatus_allowed cr : allowed (reconcileStoragePoolStatus cr ns).
Proof.
  unfold reconcileStoragePoolStatus, storage_pool_status, storagePoolDeploymentsByStoragePool,
    getClaimStatusesByStoragePool. perm_solve;
    (apply list_labelled_allowed; [by vm_compute|intros; by apply triple_ret..]).
Qed.

(** ** The reconciler *)

Lemma set_cr_condition_allowed c cr : allowed (set_cr_condition c cr).
Proof. unfold set_cr_condition, SetStatusCondition. perm_solve. Qed.
#[local] Hint Resolve set_cr_condition_allowed : perm.

Lemma mark_allowed m cr reason message : allowed (mark_cr m cr reason message).
Proof.
  destruct m; cbn [mark_cr]; unfold MarkCrHealthyMessage, MarkCrUpgradeHealingDegraded, MarkCrFailed,
    MarkCrFailedHealing, MarkCrDeploying; perm_solve.
Qed.

#[local] Hint Extern 2 (triple _ _ _ (MarkCrHealthyMessage _ _ _) _) => apply (mark_allowed Healthy) : perm.
#[local] Hint Extern 2 (triple _ _ _ (MarkCrUpgradeHealingDegraded _ _ _) _) =>
  apply (mark_allowed UpgradeHealingDegraded) : perm.
#[local] Hint Extern 2 (triple _ _ _ (MarkCrFailed _ _ _) _) => apply (mark_allowed Failed) : perm.
#[local] Hint Extern 2 (triple _ _ _ (MarkCrFailedHealing _ _ _) _) => apply (mark_allowed FailedHealing) : perm.
#[local] Hint Extern 2 (triple _ _ _ (MarkCrDeploying _ _ _) _) => apply (mark_allowed Deploying) : perm.
#[local] Hint Resolve
  reconcileCleanup_allowed reconcileStoragePoolStatus_allowed cleanDeployments_allowed reconcileDaemonSet_allowed
  reconcileStoragePools_allowed reconcileServiceAccount_allowed reconcileCSIDriver_allowed
  reconcileSecurityContextConstraints_allowed reconcilePrometheusInfra_allowed delete_managed_allowed : perm.

Lemma reconcile_resources_allowed cr : allowed (reconcile_resources cr ns).
Proof. destruct (rbac_allowed cr) as (? & ? & ? & ?). unfold reconcile_resources. perm_solve. Qed.
#[local] Hint Resolve reconcile_resources_allowed : perm.

Lemma get_daemonsets_allowed {B} cr h (body : option DaemonSet → DaemonSet → kprog B) :
  (∀ e, allowed (h e)) → (∀ legacy csi, allowed (body legacy csi)) → allowed (get_daemonsets cr ns h body).
Proof. intros. unfold get_daemonsets. perm_solve; auto. Qed.

Lemma reconcileUpdate_allowed cr : allowed (reconcileUpdate cr ns).
Proof.
  unfold reconcileUpdate. perm_solve. apply get_daemonsets_allowed; intros; perm_solve.
Qed.

Lemma reconcileStatus_allowed cr version : allowed (reconcileStatus cr ns version).
Proof.
  unfold reconcileStatus, checkDegraded. perm_solve.
  apply get_daemonsets_allowed; intros; perm_solve.
Qed.
#[local] Hint Resolve reconcileUpdate_allowed reconcileStatus_allowed : perm.

Lemma reconcile_deletion_allowed cr : allowed (reconcile_deletion cr ns).
Proof. unfold reconcile_deletion. perm_solve. Qed.

Lemma reconcile_active_allowed cr version : allowed (reconcile_active cr ns version).
Proof.
  unfold reconcile_active, addFinalizer, start_deploying, start_upgrading, reconcile_all, update_changed,
    ignoreHeartBeatTimestamp. perm_solve. by intros tr.
Qed.
#[local] Hint Resolve reconcile_deletion_allowed reconcile_active_allowed : perm.

(** C6: the operator is granted what it needs.  In a cluster without leftovers of
    older versions, every request [Reconcile] makes is permitted by the rules of
    the generated manifests, whatever the API server answers, errors included:
    each access is allowed by the ClusterRole or, in the operator's namespace, by
    the Role; and it creates no role with a permission it does not have itself. *)
Theorem requests_are_permitted key : wp up_to_date (λ _, permitted) (Reconcile key) (λ _ _, True) [].
Proof.
  assert (H : allowed (Reconcile key)) by (unfold Reconcile, getHppList, set_gauge; perm_solve).
  eapply wp_post; [apply H|done].
Qed.
End Allowed.

(** ** Leftovers of older versions *)

Section Denied.
Context `{PL : Platform, AU : !Authorizer, CD : Codec}.

(** A rule that has the verb on the kind only for some of the names *)
Definition only_named (names : list string) (verb : string) (k : kind) (r : PolicyRule) : bool :=
  negb (listed_in (resource_of k).1.1 (APIGroups r) && listed_in (resource_of k).1.2 (Resources r) &&
        listed_in verb (Verbs r)) ||
  (negb (bool_decide (ResourceNames r = [])) && forallb (λ n, bool_decide (n ∈ names)) (ResourceNames r)).

Lemma only_named_matches names verb k key rules :
  forallb (only_named names verb k) rules = true → key.2 ∉ names →
  existsb (λ r, matches r (access_to verb k key)) rules = false.
Proof.
  intros Hr Hn. apply not_true_is_false. intros (r & Hin & Hm)%existsb_exists.
  apply (proj1 (forallb_forall _ _) Hr) in Hin. unfold matches, only_named, access_to in *.
  cbn [a_group a_resource a_verb a_name] in Hm.
  apply andb_prop in Hm as [Hl [Hm|Hm]%orb_prop]; rewrite Hl in Hin; cbn [negb orb] in Hin.
  - by rewrite Hm in Hin.
  - apply andb_prop in Hin as [_ Hall]. apply bool_decide_eq_true, list_elem_of_In in Hm.
    apply Hn. eapply bool_decide_eq_true, (proj1 (forallb_forall _ _) Hall), Hm.
Qed.

Lemma denied names verb k key :
  forallb (only_named names verb k) getOperatorClusterRules = true →
  forallb (only_named names verb k) getOperatorRules = true →
  key.2 ∉ names → authorized (access_to verb k key) = false.
Proof.
  intros Hc Hr Hn. apply not_true_is_false. intros [H|[_ H]]%authorized_spec.
  - by rewrite (only_named_matches names) in H.
  - by rewrite (only_named_matches names) in H.
Qed.
(** The server refuses what is not authorized: with an error that is not
    [NotFound], since it decides before it looks. *)
Definition enforced : rely kreq := λ T r x, ∀ k key p e,
  Ev r x = Ev (Delete k key p) e → authorized (access_to "delete" k key) = false →
  ∃ err, e = Some err ∧ IsNotFound err = false.

(** A list of the kind, if it succeeds, has the object. *)
Definition lists {k} (o : obj k) : rely kreq := λ T r x, ∀ opts l,
  Ev r x = Ev (ListObjs k opts) (Ok l) → o ∈ l.

(** Programs that, if they return, return an error *)
Definition fails : error → Prop := λ e, ∃ err, e = Some err.
Abbreviation failing R p := (triple false R (λ _ _, True) p fails).

Lemma triple_any {A} (R : rely kreq) (p : kprog A) : triple false R (λ _ _, True) p always.
Proof. intros tr. eapply wp_post; [by eapply footprint_wp, footprint_any|]. by intros _ []. Qed.

Lemma failing_first R (p k : kprog error) : failing R p → failing R (on_err p (λ err, mret (Some err)) k).
Proof. intros Hp. eapply triple_bind; [exact Hp|]. intros ? [err ->]. apply triple_ret. by eexists. Qed.

Lemma failing_later R (p k : kprog error) : failing R k → failing R (on_err p (λ err, mret (Some err)) k).
Proof.
  intros Hk. eapply triple_bind; [apply triple_any|]. intros [err|] _; [|done]. apply triple_ret. by eexists.
Qed.

Lemma failing_loop {A} R (l : list A) (body : A → kprog error) :
  l ≠ [] → (∀ a, a ∈ l → failing R (body a)) → failing R (for_err l body).
Proof. destruct l as [|a l]; [done|]. intros _ Hb. apply failing_first, Hb. by left. Qed.

Lemma failing_delete (R : rely kreq) k namespace name :
  (∀ T r x, R T r x → enforced T r x) → authorized (access_to "delete" k (namespace, name)) = false →
  failing R (delete_object k namespace name).
Proof.
  intros HR Hd. unfold delete_object, ignore_not_found. eapply triple_bind.
  - apply triple_request; [done|]. intros x Hx. exact (HR _ _ _ Hx k _ _ x eq_refl Hd).
  - intros x (err & -> & Hn). cbv beta iota. rewrite Hn. apply triple_ret. by eexists.
Qed.

(** The objects another version of the operator left under other names *)
Definition leftover {k} (cr : HostPathProvisioner) (o : obj k) : Prop :=
  owned_by_cr (o_name cr) (o_meta o) = true ∧
  match k with
  | KDaemonSet => o_name o ∉ [MultiPurposeHostPathProvisionerName; MultiPurposeHostPathProvisionerName +:+ "-csi"]
  | KServiceAccount => o_name o ∉ provisioner_accounts
  | _ => False
  end.

(** The duplicates found include the leftover, and the operator may delete none. *)
Lemma failing_duplicates {k} (R : rely kreq) (cr : HostPathProvisioner) a b namespace selector (o : obj k) (rest : kprog error) :
  (∀ T r x, R T r x → enforced T r x ∧ lists o T r x) →
  forallb (only_named [a; b] "delete" k) getOperatorClusterRules = true →
  forallb (only_named [a; b] "delete" k) getOperatorRules = true →
  owned_by_cr (o_name cr) (o_meta o) = true → o_name o ∉ [a; b] →
  failing R
    (with_ok
       match labels_Parse selector with
       | Err err => mret (Err err)
       | Ok ls => with_ok (request (ListObjs k {| lo_Selector := ls; lo_Namespace := namespace |}))
                    (λ err, mret (Err err))
                    (λ l, mret (Ok (filter (λ x : obj k, (bool_decide (o_name x ≠ a) && bool_decide (o_name x ≠ b) &&
                                                  owned_by_cr (o_name cr) (o_meta x)) = true) l)))
       end (λ err, mret (Some err))
       (λ dups, on_err (for_err dups (λ dup : obj k, delete_object k namespace (o_name dup))) (λ err, mret (Some err)) rest)).
Proof.
  intros HR Hc Hr Ho Hn.
  apply (triple_with_ok _ _ _ _ _ _ (λ l, o ∈ l ∧ ∀ x, x ∈ l → o_name x ∉ [a; b]));
    [|intros; apply triple_ret; by eexists|].
  - destruct (labels_Parse selector) as [ls|e]; [|by apply triple_ret].
    apply (triple_with_ok _ _ _ _ _ _ (λ l, o ∈ l)); [|intros; by apply triple_ret|].
    + apply triple_request; [done|]. intros [l|e] [_ Hl]%HR; [by eapply Hl|done].
    + intros l Hl. apply triple_ret. split.
      * apply list_elem_of_filter. split; [|done]. rewrite Ho, andb_true_r, andb_true_iff, !bool_decide_eq_true. by apply not_one_of_two.
      * intros x [[[H1 H2]%andb_prop _]%andb_prop _]%list_elem_of_filter. apply bool_decide_eq_true in H1, H2. by apply not_one_of_two.
  - intros l [Hin Hl]. apply failing_first, failing_loop; [by destruct l; [apply elem_of_nil in Hin|]|].
    intros x Hx%Hl. apply failing_delete; [by intros T r y [? _]%HR|]. by apply (denied [a; b]).
Qed.

End Denied.
