(* ===== verification/Watches.v ===== *)
(** * The manager and its watches

    cmd/manager/main.go and [add] (controller.go): how the operator starts, what
    the controller watches, and which changes lead to a reconciliation.  The
    manager, its controllers and its work queue are not part of the repository:
    what the start-up asks of them are the requests [mreq].  The event handlers
    are those of the vendored controller-runtime (pkg/handler). *)
From S2P Require Import Prelude GoStrings Prog Names Semver Api K8s Json JsonMerge Meta Conditions.
From S2P Require Import CryptoPolicy Rules Rbac ServiceAccount Scc CsiDriver Prometheus DaemonSet StoragePool.
From S2P Require Import Controller.

(** ** Event handlers *)

(** [EnqueueRequestForObject]; [EnqueueRequestForOwner] with
    [OnlyControllerOwner]; [EnqueueRequestsFromMapFunc] with [mapFn] *)
Inductive event_handler := ForObject | ForOwner | ForLabelled.

#[export] Instance event_handler_eq_dec : EqDecision event_handler.
Proof. solve_decision. Defined.

(** What happened to an object of a watched kind *)
Inductive change (k : kind) :=
| Created (o : obj k)
| Updated (old new : obj k)
| Deleted (o : obj k).
Arguments Created {k} o.
Arguments Updated {k} old new.
Arguments Deleted {k} o.

(** The REST mapping of a kind: whether it is cluster-scoped.  It comes from the
    discovery of the API server. *)
Class RESTMapper := { RESTMapping : string → string → string → result bool }.

(** [schema.ParseGroupVersion]: the version *)
Definition api_version (gv : string) : string :=
  match Split gv "/" with
  | [v] => v
  | [_; v] => v
  | _ => ""
  end.

Definition hpp_group := "hostpathprovisioner.kubevirt.io".

(** [getOwnerReconcileRequest], for the controller owner only *)
Definition getOwnerReconcileRequest `{RM : RESTMapper} {k} (o : obj k) : list ObjectKey :=
  match GetControllerOf (o_meta o) with
  | None => []
  | Some ref =>
      match api_group (owner_APIVersion ref) with
      | None => []
      | Some group =>
          if bool_decide (owner_Kind ref = HostPathProvisionerKind) && bool_decide (group = hpp_group) then
            match RESTMapping hpp_group HostPathProvisionerKind (api_version (owner_APIVersion ref)) with
            | Err _ => []
            | Ok root => [(if root then "" else o_namespace o, owner_Name ref)]
            end
          else []
      end
  end.

(** [mapFn] *)
Definition mapFn {k} (o : obj k) : kprog (list ObjectKey) :=
  match map_get (Labels (o_meta o)) "k8s-app" with
  | None => mret []
  | Some val =>
      if bool_decide (val = MultiPurposeHostPathProvisionerName) then
        r ← getHppList;
        match r with
        | Ok [hpp] => mret [("", o_name hpp)]
        | _ => mret []
        end
      else mret []
  end.

(** The requests of a handler for one object *)
Definition requests_for `{RM : RESTMapper} {k} (h : event_handler) (o : obj k) : kprog (list ObjectKey) :=
  match h with
  | ForObject => mret [ObjectKeyFromObject o]
  | ForOwner => mret (getOwnerReconcileRequest o)
  | ForLabelled => mapFn o
  end.

(** The objects of a change a handler looks at *)
Definition looked_at {k} (h : event_handler) (c : change k) : list (obj k) :=
  match c with
  | Created o | Deleted o => [o]
  | Updated old new => match h with ForObject => [new] | _ => [old; new] end
  end.

(** What a change adds to the work queue; the queue holds a request once. *)
Fixpoint collect `{RM : RESTMapper} {k} (h : event_handler) (os : list (obj k)) : kprog (list ObjectKey) :=
  match os with
  | [] => mret []
  | o :: os => l ← requests_for h o; l' ← collect h os; mret (l ++ l')
  end.

Definition enqueued `{RM : RESTMapper} {k} (h : event_handler) (c : change k) : kprog (list ObjectKey) :=
  collect h (looked_at h c).

(** ** Setting up *)

(** What the start-up asks of the libraries.  [Client] is a request of the
    manager's client, which is not started yet. *)
Inductive mreq : Type → Type :=
| GetConfig : mreq error
| NewManager (cacheNamespace leaderElectionNamespace leaderElectionID probeAddress metricsAddress : string)
    (secureServing : bool) : mreq error
| AddRunnable (what : string) : mreq error
| AddToScheme (what : string) : mreq error
| NewController (name : string) : mreq error
| Watch (k : kind) (h : event_handler) : mreq error
| SetupWebhook : mreq error
| AddHealthzCheck (name : string) : mreq error
| AddReadyzCheck (name : string) : mreq error
| StartManager : mreq error
| Client (T : Type) (r : kreq T) : mreq T.
Arguments Client {T} r.

Abbreviation mprog := (prog mreq).

(** A program of the client as one of the start-up *)
Fixpoint client {A} (p : kprog A) : mprog A :=
  match p with
  | Ret a => Ret a
  | Panic m => Panic m
  | Exit c => Exit c
  | Do r k => Do (Client r) (λ x, client (k x))
  end.

Definition isErrCacheNotStarted (err : goerror) : bool := bool_decide (err_kind err = KCacheNotStarted).

(** [if used, err := check(); used || isErrCacheNotStarted(err)] *)
Definition if_used (check : kprog (result bool)) (yes no : mprog error) : mprog error :=
  r ← client check;
  if match r with Ok used => used | Err err => isErrCacheNotStarted err end then yes else no.

(** [if err := c.Watch(...); err != nil { if IsNoMatchError(err) { return nil }; return err }] *)
Definition watch_optional (k : kind) (rest : mprog error) : mprog error :=
  on_err (request (Watch k ForLabelled)) (λ err, mret (if IsNoMatchError err then None else Some err)) rest.

(** The kinds that are always watched, and how *)
Definition base_watches : list (kind * event_handler) :=
  [(KHostPathProvisioner, ForObject); (KDaemonSet, ForOwner); (KDeployment, ForOwner);
   (KServiceAccount, ForOwner); (KRoleBinding, ForOwner); (KRole, ForOwner); (KCSIDriver, ForLabelled);
   (KClusterRoleBinding, ForLabelled); (KClusterRole, ForLabelled); (KRole, ForLabelled);
   (KRoleBinding, ForLabelled); (KService, ForLabelled)].

(** [add] *)
Definition add : mprog error :=
  let fail err := mret (Some err) in
  on_err (request (NewController "hostpathprovisioner-controller")) fail
    (on_err (for_err base_watches (λ '(k, h), request (Watch k h))) fail
      (let monitoring :=
         if_used checkPrometheusUsed
           (watch_optional KPrometheusRule (watch_optional KServiceMonitor (mret None)))
           (mret None) in
       if_used checkSCCUsed (watch_optional KSecurityContextConstraints monitoring) monitoring)).

(** [newReconciler]: a scheme that cannot be extended is a panic. *)
Definition newReconciler : mprog unit :=
  let must what := err ← request (AddToScheme what);
                   match err with Some err => Panic (err_text err) | None => mret tt end in
  must "hostpathprovisioner";; must "monitoring".

(** [Add], the only function [controller.AddToManager] calls *)
Definition Add : mprog error := newReconciler;; add.
Definition AddToManager : mprog error := for_err [Add] (λ f, f).

(** [main]: an error ends the process. *)
Definition main `{PL : Platform} : mprog unit :=
  let namespace := getNamespace in
  let die := λ _ : goerror, Exit 1 in
  on_err (request GetConfig) die
  (on_err (request (NewManager namespace namespace "hostpath-provisioner-operator-lock" "0.0.0.0:6060" ":8443" true)) die
  (on_err (request (AddRunnable "TLS watcher")) die
  (on_err (request (AddToScheme "apis")) die
  (on_err (request (AddToScheme "monitoring")) die
  (on_err (request (AddToScheme "security")) die
  (on_err (request (AddToScheme "config")) die
  (on_err AddToManager die
  (on_err (request SetupWebhook) die
  (on_err (request (AddHealthzCheck "healthz")) die
  (on_err (request (AddReadyzCheck "healthz")) die
  (on_err (request (AddReadyzCheck "webhook")) die
  (on_err (request StartManager) die (mret tt))))))))))))).

(** ** The order of the start-up *)

Section StartUp.
Context `{PL : Platform}.

Definition done_in (tr : trace mreq) (r : mreq error) : Prop := Ev r None ∈ tr.

(** What has to succeed before the manager is started *)
Definition controller_steps : list (mreq error) :=
  NewController "hostpathprovisioner-controller" :: ((λ kh, Watch kh.1 kh.2) <$> base_watches).

Definition start_up_steps : list (mreq error) :=
  [NewManager getNamespace getNamespace "hostpath-provisioner-operator-lock" "0.0.0.0:6060" ":8443" true;
   AddRunnable "TLS watcher"; AddToScheme "apis"; AddToScheme "monitoring"; AddToScheme "security";
   AddToScheme "config"] ++ controller_steps ++
  [SetupWebhook; AddHealthzCheck "healthz"; AddReadyzCheck "healthz"; AddReadyzCheck "webhook"].

Definition set_up (tr : trace mreq) : Prop := Forall (done_in tr) start_up_steps.

Definition not_start : ∀ T, mreq T → Prop := λ T r,
  match r with StartManager => False | _ => True end.

Lemma footprint_client {A} (p : kprog A) : footprint not_start (client p).
Proof. by induction p. Qed.

Lemma watch_optional_not_start k rest : footprint not_start rest → footprint not_start (watch_optional k rest).
Proof. intros. by apply footprint_on_err. Qed.

Lemma if_used_not_start check yes no :
  footprint not_start yes → footprint not_start no → footprint not_start (if_used check yes no).
Proof. intros. apply footprint_bind; [apply footprint_client|]. intros [used|e]; [by destruct used|by destruct (isErrCacheNotStarted e)]. Qed.

Lemma ensures_request (r : mreq error) : not_start _ r → ensures not_start (request r) (λ tr, done_in tr r).
Proof. intros Hr R tr. split; [done|]. intros x _ [= ->]. apply last_event. Qed.

Lemma all_done_monotone l : monotone (λ tr, Forall (done_in tr) l).
Proof. intros tr tr' Hp H. eapply Forall_impl; [exact H|]. intros r. by apply elem_of_monotone. Qed.

Lemma add_ensures : ensures not_start add (λ tr, Forall (done_in tr) controller_steps).
Proof.
  eapply ensures_mono.
  - apply ensures_on_err; [by apply ensures_request| |apply elem_of_monotone].
    apply (ensures_on_err _ _ _ (λ tr, ∀ kh, kh ∈ base_watches → done_in tr (Watch kh.1 kh.2)) (λ _, True)).
    + apply ensures_for_err; [|intros [k h]; apply elem_of_monotone].
      intros [k h] _. by apply ensures_request.
    + apply ensures_footprint. cbv zeta.
      repeat first [apply if_used_not_start | apply watch_optional_not_start | done].
    + intros tr tr' Hp H kh Hkh. eapply elem_of_monotone; [exact Hp|by apply H].
  - intros tr (Hc & Hw & _). constructor; [done|]. by apply Forall_fmap, Forall_forall.
Qed.

Lemma newReconciler_not_start : footprint not_start newReconciler.
Proof.
  split; [done|]. intros [e|]; [done|]. split; [done|]. by intros [e|].
Qed.

Lemma AddToManager_ensures : ensures not_start AddToManager (λ tr, Forall (done_in tr) controller_steps).
Proof.
  intros R tr. unfold AddToManager. cbn [for_err]. apply wp_on_err. unfold Add. apply wp_bind.
  eapply wp_footprint; [apply newReconciler_not_start|done|]. intros tr1 [[]| |] _; cbn [post_bind]; try done.
  eapply wp_post; [apply add_ensures|]. by intros tr2 [[e|]| |] H2.
Qed.

(** The exit codes of a program *)
Fixpoint exits {E A} (P : Z → Prop) (p : prog E A) : Prop :=
  match p with
  | Ret _ | Panic _ => True
  | Exit c => P c
  | Do r k => ∀ x, exits P (k x)
  end.

Lemma exits_bind {E A B} P (p : prog E A) (f : A → prog E B) :
  exits P p → (∀ a, exits P (f a)) → exits P (p ≫= f).
Proof. intros Hp Hf. induction p as [| | |T r k IH]; simpl in *; auto. intros x. by apply IH. Qed.

Lemma exits_on_err {E B} P (p : prog E error) h (k : prog E B) :
  exits P p → (∀ e, exits P (h e)) → exits P k → exits P (on_err p h k).
Proof. intros. apply exits_bind; [done|]. by intros [e|]. Qed.

Lemma exits_for_err {E A} P (l : list A) (body : A → prog E error) :
  (∀ a, exits P (body a)) → exits P (for_err l body).
Proof. intros Hb. induction l as [|a l IH]; [done|]. by apply exits_on_err. Qed.

Lemma exits_client {A} P (p : kprog A) : exits P p → exits P (client p).
Proof. induction p; simpl; auto. Qed.

Lemma exits_wp {E A} R P (p : prog E A) tr :
  exits P p → wp R any_request p (λ _ o, ∀ c, o = Exited c → P c) tr.
Proof.
  revert tr. induction p as [| |c|T r k IH]; intros tr He; try done; [by intros c' [= <-]|]. split; [done|]. auto.
Qed.

Lemma exits_watch_optional P k rest : exits P rest → exits P (watch_optional k rest).
Proof. intros. by apply exits_on_err. Qed.

Lemma exits_if_used P k yes no : exits P yes → exits P no → exits P (if_used (checkUsed k) yes no).
Proof.
  intros. apply exits_bind; [apply exits_client; by intros [l|e]|].
  intros [used|e]; [by destruct used|by destruct (isErrCacheNotStarted e)].
Qed.

Lemma exits_AddToManager P : exits P AddToManager.
Proof.
  apply exits_on_err; [|done..]. apply exits_bind; [intros [e|]; [done|]; by intros [e|]|intros _].
  apply exits_on_err; [done..|]. apply exits_on_err; [by apply exits_for_err; intros [k h]|done|]. cbv zeta.
  repeat first [apply exits_if_used | apply exits_watch_optional | done].
Qed.

Definition starts_set_up : guarantee mreq := λ tr T r, ¬ not_start T r → set_up tr.

(** A step that succeeds is added to those done; one that fails ends the process. *)
Lemma start_step (p : mprog error) (new l : list (mreq error)) (k : mprog unit) Q :
  ensures not_start p (λ tr, Forall (done_in tr) new) →
  (∀ tr, Forall (done_in tr) (l ++ new) → wp any_answer starts_set_up k Q tr) →
  (∀ tr, Q tr (Exited 1)) → (∀ tr m, Q tr (Panicked m)) → (∀ tr c, Q tr (Exited c)) →
  ∀ tr, Forall (done_in tr) l → wp any_answer starts_set_up (on_err p (λ _, Exit 1) k) Q tr.
Proof.
  intros Hp Hk HQ Hm Hc tr Hl. apply wp_on_err. eapply wp_ensures; [exact Hp|..]; simpl; auto.
  - by intros tr' T r _ Hr [].
  - intros tr' Hpre Hn. apply Hk, Forall_app. split; [|done]. by eapply all_done_monotone.
Qed.

Definition started_normally (tr : trace mreq) (o : outcome unit) : Prop :=
  match o with Returned _ => done_in tr StartManager | _ => True end.

Lemma main_started : wp any_answer starts_set_up main started_normally [].
Proof.
  assert (Hr : ∀ r : mreq error, not_start _ r → ensures not_start (request r) (λ tr, Forall (done_in tr) [r])).
  { intros r Hr. eapply ensures_mono; [by apply ensures_request|]. by repeat constructor. }
  assert (Hlast : ∀ tr, set_up tr → wp any_answer starts_set_up
    (on_err (request StartManager) (λ _, Exit 1) (mret tt)) started_normally tr).
  { intros tr Hs. apply wp_on_err. split; [by intros _|]. intros [e|] _; [done|]. apply last_event. }
  unfold main. cbv zeta.
  eapply (start_step _ _ []); [by apply Hr|intros tr0 H|done|done|done|by constructor].
  do 11 (eapply start_step; [first [apply AddToManager_ensures|by apply Hr]|clear dependent tr0; intros tr0 H|done|done|done|exact H]).
  apply Hlast. rewrite !Forall_app, !Forall_cons in H. unfold set_up, start_up_steps.
  rewrite !Forall_app, !Forall_cons. tauto.
Qed.

Lemma main_exits : exits (λ c, c = 1) main.
Proof.
  unfold main. cbv zeta.
  repeat (apply exits_on_err; [first [done|apply exits_AddToManager]|done|]). done.
Qed.

End StartUp.

(** ** Optional watches *)

(** [cache.ErrCacheNotStarted], which the client of a manager that is not started
    answers with *)
Definition ErrCacheNotStarted : goerror :=
  GoError KCacheNotStarted "the cache is not started, can not read objects".

Definition not_started : rely mreq := λ T r x,
  ∀ k opts y, Ev r x = Ev (Client (ListObjs k opts)) y → y = Err ErrCacheNotStarted.

Definition optional_watches : list kind := [KSecurityContextConstraints; KPrometheusRule; KServiceMonitor].

(** A kind is watched, unless a watch found that the API server lacks a kind. *)
Definition watched_unless_missing (tr : trace mreq) (k : kind) : Prop :=
  done_in tr (Watch k ForLabelled) ∨
  ∃ k' err, k' ∈ optional_watches ∧ Ev (Watch k' ForLabelled) (Some err) ∈ tr ∧ IsNoMatchError err = true.

Lemma watched_monotone l : monotone (λ tr, Forall (watched_unless_missing tr) l).
Proof.
  intros tr tr' Hp Hl. eapply Forall_impl; [exact Hl|]. intros k [Hw|(k' & err & ? & Hw & ?)].
  - left. by eapply elem_of_monotone.
  - right. exists k', err. split_and!; [done| |done]. by eapply elem_of_monotone.
Qed.

Lemma wp_watch_optional k rest l Q tr :
  k ∈ optional_watches → Forall (watched_unless_missing tr) l →
  (∀ tr, Forall (watched_unless_missing tr) (k :: l) → wp not_started any_request rest Q tr) →
  (∀ tr k' err, k' ∈ optional_watches → Ev (Watch k' ForLabelled) (Some err) ∈ tr → IsNoMatchError err = true →
     Q tr (Returned None)) →
  (∀ tr err, Q tr (Returned (Some err))) →
  wp not_started any_request (watch_optional k rest) Q tr.
Proof.
  intros Hk Hl Hrest Hmiss Herr. apply wp_on_err. split; [done|]. intros [err|] _; cbn.
  - destruct (IsNoMatchError err) eqn:He; [|apply Herr]. eapply Hmiss; [exact Hk|apply last_event|done].
  - apply Hrest. constructor; [left; apply last_event|]. eapply watched_monotone; [|exact Hl]. by apply prefix_app_r.
Qed.

Lemma wp_if_used k yes no Q tr :
  (∀ tr', tr `prefix_of` tr' → wp not_started any_request yes Q tr') →
  wp not_started any_request (if_used (checkUsed k) yes no) Q tr.
Proof.
  intros Hy. split; [done|]. intros x Hx. rewrite (Hx _ _ _ eq_refl). apply Hy. by apply prefix_app_r.
Qed.

(** The optional kinds are watched as well.  At start-up, when the manager's
    cache is not started, [add] assumes that the API server has the security
    context constraints and the monitoring kinds: when it reports no error they
    are all watched, unless a watch found that the server lacks one of them. *)
Theorem optional_kinds_are_watched :
  wp not_started any_request add
    (λ tr o, o = Returned None → Forall (watched_unless_missing tr) optional_watches) [].
Proof.
  assert (Hm : ∀ tr k' err, k' ∈ optional_watches → Ev (Watch k' ForLabelled) (Some err) ∈ tr →
    IsNoMatchError err = true → Forall (watched_unless_missing tr) optional_watches).
  { intros tr k' err ???. apply Forall_forall. intros k _. right. by exists k', err. }
  apply wp_on_err. split; [done|]. intros [err|] _; [done|]. apply wp_on_err.
  eapply wp_footprint; [apply (footprint_any _)|done|]. intros tr1 [[err|]| |] _; cbn [post_on_err]; try done.
  cbv zeta. apply wp_if_used. intros tr2 _.
  apply (wp_watch_optional _ _ []); [by left|done| |eauto|done]. intros tr3 H3. apply wp_if_used. intros tr4 H4.
  eapply wp_watch_optional; [by right; left|by eapply watched_monotone| |eauto|done]. intros tr5 H5.
  eapply wp_watch_optional; [by right; right; left|exact H5| |eauto|done]. intros tr6 H6 _.
  unfold optional_watches. rewrite !Forall_cons in H6 |- *. tauto.
Qed.

(** When the watch of the security context constraints ends in a NoMatch error,
    [add] returns nil there and starts no watch of the monitoring kinds.  (The
    controllers of controller-runtime start their watches later and do not return
    this error here.) *)
Lemma missing_constraints_skip_monitoring :
  wp (λ T r x, not_started T r x ∧
        ∀ y, Ev r x = Ev (Watch KSecurityContextConstraints ForLabelled) y →
          ∃ err, y = Some err ∧ IsNoMatchError err = true)
    (λ _ T r, match r with Watch KPrometheusRule _ => False | _ => True end)
    add (λ _ _, True) [].
Proof.
  apply wp_on_err. split; [done|]. intros [err|] _; [done|]. apply wp_on_err.
  eapply (wp_footprint _ (λ T r, match r with Watch KPrometheusRule _ => False | _ => True end)); [|done|].
  - by repeat (split; [done|]; intros [err|]).
  - intros tr1 [[err|]| |] _; cbn [post_on_err]; try done.
    split; [done|]. intros x [Hx _]. rewrite (Hx _ _ _ eq_refl). split; [done|].
    intros y [_ Hy]. destruct (Hy _ eq_refl) as (err & -> & He). exact I.
Qed.
