(* ===== verification/Watched.v ===== *)
(** * What the watches notice

    The objects the reconciler creates, and the changes of them that lead back to
    the custom resource: [created_objects_lead_back] connects the requests of
    [Reconcile] (Controller.v) with the watches of [add] (Watches.v). *)
From S2P Require Import Prelude GoStrings Prog Names Semver Api K8s Json JsonMerge Meta Conditions.
From S2P Require Import CryptoPolicy Rules Rbac ServiceAccount Scc CsiDriver Prometheus DaemonSet StoragePool.
From S2P Require Import Controller.
From S2P Require Import Watches.

(** ** Leading back to the custom resource *)

(** The kinds that are watched, and the ones the reconciler creates that are not *)
Definition watches : list (kind * event_handler) :=
  base_watches ++ ((λ k, (k, ForLabelled)) <$> optional_watches).
Definition unwatched : list kind := [KPersistentVolumeClaim; KStorageClass; KJob].

(** The custom resource of this name is the only one. *)
Definition lists_only (name : string) : rely kreq := λ T r x,
  ∀ opts y, Ev r x = Ev (ListObjs KHostPathProvisioner opts) y → ∃ cr, y = Ok [cr] ∧ o_name cr = name.

(** Every change of an object with the labels and the owners of [o] makes the
    handler ask for the reconciliation of the custom resource. *)
Definition leads_back `{RM : RESTMapper} (name : string) (h : event_handler) {k} (o : obj k) : Prop :=
  ∀ (o' : obj k) (c : change k),
    Labels (o_meta o') = Labels (o_meta o) → OwnerReferences (o_meta o') = OwnerReferences (o_meta o) →
    o' ∈ looked_at h c → yields (lists_only name) (enqueued h c) (λ keys, ("", name) ∈ keys).

(** How the reconciler marks what it creates: the custom resource is the
    controller, or the object has the label *)
Definition marked (name : string) {k} (o : obj k) : Prop :=
  (∃ ref, GetControllerOf (o_meta o) = Some ref ∧ owner_APIVersion ref = SchemeGroupVersion ∧
     owner_Kind ref = HostPathProvisionerKind ∧ owner_Name ref = name ∧ (k, ForOwner) ∈ watches) ∨
  (map_get (Labels (o_meta o)) "k8s-app" = Some MultiPurposeHostPathProvisionerName ∧ (k, ForLabelled) ∈ watches).

Section LeadsBack.
Context `{RM : RESTMapper}.
(** The discovery knows the custom resource as cluster-scoped. *)
Context (Hscope : RESTMapping hpp_group HostPathProvisionerKind "v1beta1" = Ok true).

Lemma yields_mapFn name {k} (o : obj k) : yields (lists_only name) (mapFn o) always.
Proof.
  unfold mapFn, getHppList. triple_solve_with ltac:(exact I) ltac:(idtac).
Qed.

Lemma yields_requests name {k} h (o : obj k) : yields (lists_only name) (requests_for h o) always.
Proof. destruct h; [by apply triple_ret..|apply yields_mapFn]. Qed.

Lemma yields_collect name h {k} (os : list (obj k)) : yields (lists_only name) (collect h os) always.
Proof.
  induction os as [|o os IH]; [by apply triple_ret|]. cbn [collect].
  apply (triple_bind _ _ _ _ _ always); [apply yields_requests|]. intros l _.
  apply (triple_bind _ _ _ _ _ always); [exact IH|]. intros l' _. by apply triple_ret.
Qed.

Lemma collect_leads_back name h {k} (o : obj k) os :
  yields (lists_only name) (requests_for h o) (λ keys, ("", name) ∈ keys) → o ∈ os →
  yields (lists_only name) (collect h os) (λ keys, ("", name) ∈ keys).
Proof.
  intros Ho. induction os as [|o' os IH]; intros Hin; [by apply elem_of_nil in Hin|]. cbn [collect].
  apply elem_of_cons in Hin as [<-|Hin].
  - eapply triple_bind; [exact Ho|]. intros l Hl.
    apply (triple_bind _ _ _ _ _ always); [apply yields_collect|]. intros l' _. apply triple_ret. set_solver.
  - apply (triple_bind _ _ _ _ _ always); [apply yields_requests|]. intros l _.
    eapply triple_bind; [by apply IH|]. intros l' Hl. apply triple_ret. set_solver.
Qed.

Lemma marked_leads_back name {k} (o : obj k) :
  marked name o → ∃ h, (k, h) ∈ watches ∧ leads_back name h o.
Proof.
  intros [(ref & Hc & Hv & Hk & Hn & Hw)|[Hl Hw]].
  - exists ForOwner. split; [done|]. intros o' c _ Ho Hin. eapply collect_leads_back; [|exact Hin].
    apply triple_ret. unfold getOwnerReconcileRequest, GetControllerOf in *. rewrite Ho, Hc, Hv, Hk.
    cbn -[RESTMapping]. rewrite Hscope, Hn. by left.
  - exists ForLabelled. split; [done|]. intros o' c Hlab _ Hin. eapply collect_leads_back; [|exact Hin].
    cbn [requests_for]. unfold mapFn. rewrite Hlab, Hl, bool_decide_eq_true_2 by done.
    eapply triple_bind.
    + apply triple_request; [done|]. intros x Hx. exact (Hx _ x eq_refl).
    + intros x (cr & -> & Hcr). apply triple_ret. rewrite Hcr. by left.
Qed.
End LeadsBack.

(** ** What the reconciler creates *)

Definition creates_marked (name : string) : ∀ T, kreq T → Prop := λ T r,
  match r with
  | Create k o => k ∈ unwatched ∨ marked name o
  | _ => True
  end.

(** The server answers with the custom resource asked for, or sent. *)
Definition answers_cr : rely kreq := λ T r x,
  (∀ key cr, Ev r x = Ev (Get KHostPathProvisioner key) (Ok cr) → ObjectKeyFromObject cr = key) ∧
  (∀ sent stored, Ev r x = Ev (Update KHostPathProvisioner sent) (Ok stored) → o_name stored = o_name sent).

Create HintDb marked discriminated.

Section Creates.
Context `{PL : Platform, CD : Codec} (name : string).
Abbreviation marks p Φ := (triple false answers_cr (creates_marked name) p Φ).
Abbreviation marks_all p := (marks p always).

Ltac marked_solve := triple_solve_with ltac:(first [exact I|idtac]) ltac:(eauto 2 with marked nocore).

(** Objects with the recommended labels *)
Lemma recommended_labels : GetRecommendedLabels !! "k8s-app" = Some MultiPurposeHostPathProvisionerName.
Proof. unfold GetRecommendedLabels. repeat case_bool_decide; by rewrite ?lookup_insert_ne by done. Qed.

Definition labelled {k} (o : obj k) : Prop :=
  map_get (Labels (o_meta o)) "k8s-app" = Some MultiPurposeHostPathProvisionerName.

Lemma labelled_marked {k} (o : obj k) : labelled o → (k, ForLabelled) ∈ watches → marked name o.
Proof. by right. Qed.

Lemma setLastAppliedConfiguration_labels {k} (o : obj k) :
  Labels (o_meta (setLastAppliedConfiguration o)) = Labels (o_meta o).
Proof. unfold setLastAppliedConfiguration. by destruct (Marshal o). Qed.

Lemma controlled_marked {k} cr (o o' : obj k) :
  SetControllerReference cr o = Ok o' → o_name cr = name → OwnerReferences (o_meta o) = [] →
  (k, ForOwner) ∈ watches → marked name o'.
Proof.
  unfold SetControllerReference, GetControllerOf. intros H Hn Ho Hw. rewrite Ho in H. cbn in H.
  destruct (validateOwner _ _); [done|]. injection H as <-. left. exists (controller_ref cr).
  by rewrite <-Hn.
Qed.

Lemma record_event_marks cr t r m : marks_all (record_event cr t r m).
Proof. unfold record_event. marked_solve. Qed.
#[local] Hint Resolve record_event_marks : marked.

Lemma delete_object_marks k namespace n : marks_all (delete_object k namespace n).
Proof. unfold delete_object, ignore_not_found. marked_solve. Qed.
#[local] Hint Resolve delete_object_marks : marked.

Lemma create_resource_marks {k} cr (desired : obj k) after :
  (k ∈ unwatched ∨ marked name desired) → (∀ o, marks_all (after o)) → marks_all (create_resource cr desired after).
Proof. intros Hm Ha. unfold create_resource. marked_solve; auto. Qed.

Lemma update_resource_marks {k} cr n (found merged : obj k) : marks_all (update_resource cr n found merged).
Proof. unfold update_resource. marked_solve. Qed.
#[local] Hint Resolve update_resource_marks : marked.

Lemma create_or_update_marks {k} cr key (desired : obj k) after :
  (k ∈ unwatched ∨ marked name desired) → (∀ o, marks_all (after o)) →
  marks_all (create_or_update cr key desired after).
Proof.
  intros Hm Ha. unfold create_or_update, merge_and_update. marked_solve. by apply create_resource_marks.
Qed.

Lemma applied_marks {k} cr key (desired : obj k) :
  labelled desired → (k, ForLabelled) ∈ watches →
  marks_all (create_or_update cr key (setLastAppliedConfiguration desired) (λ _, mret None)).
Proof.
  intros Hl Hw. apply create_or_update_marks; [right; apply labelled_marked; [|done]|intros; by apply triple_ret].
  unfold labelled. by rewrite setLastAppliedConfiguration_labels.
Qed.

Lemma prometheus_marks {k} cr (desired found : obj k) same :
  labelled desired → (k, ForLabelled) ∈ watches → marks_all (reconcilePrometheusResource cr desired found same).
Proof.
  intros Hl Hw. unfold reconcilePrometheusResource, merge_and_update. marked_solve.
  apply create_resource_marks; [right; apply labelled_marked; [|done]|intros; by apply triple_ret].
  unfold labelled. by rewrite setLastAppliedConfiguration_labels.
Qed.

Ltac mark :=
  first [apply applied_marks | apply prometheus_marks];
  [unfold labelled; cbn; rewrite ?lookup_insert_ne by done; apply recommended_labels
  |apply (bool_decide_unpack _); vm_compute; exact I].

Lemma rbac_marks cr ns :
  marks_all (reconcileClusterRole cr) ∧ marks_all (reconcileClusterRoleBinding cr ns) ∧
  marks_all (reconcileRole cr ns) ∧ marks_all (reconcileRoleBinding cr ns).
Proof.
  unfold reconcileClusterRole, reconcileClusterRoleBinding, reconcileRole, reconcileRoleBinding,
    deleteClusterRoleObject, deleteClusterRoleBindingObject, reconcileRbacResource, ignore_not_found.
  split_and!; marked_solve; mark.
Qed.

(** ** The other managed resources *)

Lemma when_used_marks k p : marks_all p → marks_all (when_used (checkUsed k) p).
Proof. intros. unfold when_used, checkUsed. marked_solve. Qed.

Lemma deleteSCC_marks n : marks_all (deleteSCC n).
Proof. apply when_used_marks. marked_solve. Qed.
#[local] Hint Resolve deleteSCC_marks : marked.

Lemma reconcileSecurityContextConstraints_marks cr ns : marks_all (reconcileSecurityContextConstraints cr ns).
Proof.
  apply when_used_marks. unfold reconcileSecurityContextConstraintsDesired. marked_solve; mark.
Qed.

Lemma reconcilePrometheusInfra_marks cr ns : marks_all (reconcilePrometheusInfra cr ns).
Proof.
  apply when_used_marks. destruct (BuildPrometheusRule ns) as [rule|] eqn:Hr; [|by intros tr].
  assert (Hl : labelled rule).
  { unfold BuildPrometheusRule in Hr. destruct GetRunbookURLTemplate; [|done]. injection Hr as <-.
    unfold labelled. cbn. rewrite lookup_insert_ne by done. apply recommended_labels. }
  marked_solve; [apply prometheus_marks; [exact Hl|apply (bool_decide_unpack _); vm_compute; exact I]|mark..].
Qed.

Lemma reconcileCSIDriver_marks cr : marks_all (reconcileCSIDriver cr).
Proof.
  unfold reconcileCSIDriver. marked_solve.
  apply create_resource_marks; [right; apply labelled_marked|intros; by apply triple_ret].
  - unfold labelled. rewrite setLastAppliedConfiguration_labels. apply recommended_labels.
  - apply (bool_decide_unpack _). vm_compute. exact I.
Qed.

Section Owned.
Context (cr : HostPathProvisioner) (Hcr : o_name cr = name).

Lemma applied_controlled {k} (o o' : obj k) :
  SetControllerReference cr (setLastAppliedConfiguration o) = Ok o' → OwnerReferences (o_meta o) = [] →
  (k, ForOwner) ∈ watches → marked name o'.
Proof.
  intros H Ho. eapply controlled_marked; [exact H|done|]. rewrite <-Ho.
  unfold setLastAppliedConfiguration. by destruct (Marshal o).
Qed.

Lemma reconcileDaemonSetForSa_marks (ds : DaemonSet) :
  OwnerReferences (o_meta ds) = [] → marks_all (reconcileDaemonSetForSa ds cr).
Proof.
  intros Ho. unfold reconcileDaemonSetForSa.
  destruct (SetControllerReference _ _) as [desired|e] eqn:Hd; [|by apply triple_ret].
  unfold daemonset_answered, deleteDaemonSet. marked_solve.
  apply create_resource_marks; [right|intros; by apply triple_ret].
  eapply applied_controlled; [exact Hd|exact Ho|]. apply (bool_decide_unpack _); vm_compute; exact I.
Qed.

Lemma createCSIDaemonSetObject_marks args :
  marks (createCSIDaemonSetObject cr args) (λ ds, OwnerReferences (o_meta ds) = []).
Proof.
  apply (triple_bind _ _ _ _ _ always); [|intros tls _; by apply triple_ret].
  unfold GetTLSMinVersionString. marked_solve. destruct (selectCipherSuitesAndMinTLSVersion _); by intros tr.
Qed.

Lemma reconcileDaemonSet_marks ns : marks_all (reconcileDaemonSet cr ns).
Proof.
  unfold reconcileDaemonSet, getDuplicateDaemonSet, deleteDaemonSet.
  apply (triple_with_ok _ _ _ _ _ _ always); [apply triple_always; marked_solve|intros; by apply triple_ret|].
  intros dups _. apply triple_on_err; [marked_solve|intros; by apply triple_ret|]. cbv zeta.
  apply triple_on_err; [marked_solve; by apply reconcileDaemonSetForSa_marks|intros; by apply triple_ret|].
  eapply triple_bind; [apply createCSIDaemonSetObject_marks|]. intros. by apply reconcileDaemonSetForSa_marks.
Qed.

Lemma reconcileServiceAccount_marks ns : marks_all (reconcileServiceAccount cr ns).
Proof.
  unfold reconcileServiceAccount, getDuplicateServiceAccount, deleteServiceAccount.
  apply (triple_with_ok _ _ _ _ _ _ always); [apply triple_always; marked_solve|intros; by apply triple_ret|].
  intros dups _. apply triple_on_err; [marked_solve|intros; by apply triple_ret|].
  apply triple_on_err; [marked_solve|intros; by apply triple_ret|].
  apply triple_for_err. intros sa Hsa.
  assert (Ho : OwnerReferences (o_meta sa) = []) by (destruct (isLegacy cr); set_unfold; naive_solver).
  unfold reconcileOneServiceAccount. destruct (SetControllerReference _ _) as [desired|e] eqn:Hd; [|by apply triple_ret].
  apply create_or_update_marks.
  - right. eapply applied_controlled; [exact Hd|exact Ho|]. apply (bool_decide_unpack _); vm_compute; exact I.
  - intros o. unfold deleteRunningPodsWithSa, deleteDaemonSetWithSa, deleteDeploymentsWithSa, list_or_empty.
    marked_solve.
Qed.

(** ** Storage pools *)

Lemma list_labelled_marks {k B} labels ns h (body : list (obj k) → kprog B) :
  (∀ e, marks_all (h e)) → (∀ l, marks_all (body l)) → marks_all (list_labelled k labels ns h body).
Proof. intros. unfold list_labelled. marked_solve; auto. Qed.

Lemma getNodesByDaemonSet_marks ns : marks_all (getNodesByDaemonSet ns).
Proof.
  unfold getNodesByDaemonSet. marked_solve. apply list_labelled_marks; intros; marked_solve.
Qed.

Lemma currentStoragePoolDeployments_marks ns : marks_all (currentStoragePoolDeployments cr ns).
Proof. apply list_labelled_marks; intros; by apply triple_ret. Qed.
#[local] Hint Resolve getNodesByDaemonSet_marks currentStoragePoolDeployments_marks : marked.

Lemma ensure_exists_marks {k} (desired : obj k) : k ∈ unwatched → marks_all (ensure_exists cr desired).
Proof. intros Hk. unfold ensure_exists. marked_solve. by left. Qed.

Lemma reconcileStoragePoolDeploymentByNode_marks ns pool template node current :
  marks_all (reconcileStoragePoolDeploymentByNode cr ns pool template node current).
Proof.
  unfold reconcileStoragePoolDeploymentByNode.
  destruct (SetControllerReference _ _) as [desired|e] eqn:Hd; [|by apply triple_ret]. marked_solve.
  apply create_resource_marks; [right|intros; by apply triple_ret].
  eapply applied_controlled; [exact Hd|done|]. apply (bool_decide_unpack _); vm_compute; exact I.
Qed.
#[local] Hint Resolve reconcileStoragePoolDeploymentByNode_marks : marked.

Lemma reconcile_pool_marks ns nodes current pool : marks_all (reconcile_pool cr ns nodes current pool).
Proof.
  unfold reconcile_pool, reconcileSharedStoragePoolPVC, reconcileBackendStorageClass, reconcileStoragePoolPVCByNode.
  marked_solve; apply ensure_exists_marks; apply (bool_decide_unpack _); vm_compute; exact I.
Qed.

Lemma createCleanupJobForDeployment_marks ns d pool : marks_all (createCleanupJobForDeployment cr ns d pool).
Proof.
  unfold createCleanupJobForDeployment, createCleanupJobForNode.
  destruct (deployment_node d) as [m|node]; [by intros tr|]. marked_solve.
  left. apply (bool_decide_unpack _); vm_compute; exact I.
Qed.
#[local] Hint Resolve reconcile_pool_marks createCleanupJobForDeployment_marks : marked.

Lemma for_deployments_marks m body : (∀ d, marks_all (body d)) → marks_all (for_deployments m body).
Proof. intros Hb. unfold for_deployments. by marked_solve. Qed.

Lemma reconcileStoragePools_marks ns : marks_all (reconcileStoragePools cr ns).
Proof.
  unfold reconcileStoragePools, delete_deployment. marked_solve. apply for_deployments_marks. intros d. marked_solve.
Qed.

Lemma cleanDeployments_marks ns : marks_all (cleanDeployments cr ns).
Proof.
  unfold cleanDeployments. marked_solve. apply for_deployments_marks. intros d.
  unfold clean_deployment, delete_deployment. marked_solve.
Qed.

Lemma reconcileCleanup_marks ns n : marks_all (reconcileCleanup cr ns n).
Proof.
  unfold reconcileCleanup, hasCleanUpFinished, removeCleanUpJobs, getCleanUpJobs, ignore_not_found. marked_solve;
    (apply list_labelled_marks; intros; by apply triple_ret).
Qed.

Lemma reconcile_resources_marks ns : marks_all (reconcile_resources cr ns).
Proof.
  destruct (rbac_marks cr ns) as (? & ? & ? & ?). unfold reconcile_resources. marked_solve;
    [apply reconcileDaemonSet_marks|apply reconcileStoragePools_marks|apply reconcileServiceAccount_marks
    |apply reconcileCSIDriver_marks|apply reconcileSecurityContextConstraints_marks
    |apply reconcilePrometheusInfra_marks].
Qed.
End Owned.

(** ** The reconciler *)

(** The resource keeps its name through the reconciliation. *)
Abbreviation named := (λ cr : HostPathProvisioner, o_name cr = name).
Abbreviation with_named := (λ x, o_name x.2 = name).

Lemma mark_named m cr reason message : o_name cr = name → marks (mark_cr m cr reason message) named.
Proof.
  intros Hn. assert (Hc : ∀ c cr, o_name cr = name → marks (set_cr_condition c cr) named).
  { intros c cr' Hn'. apply (triple_bind _ _ _ _ _ always); [unfold SetStatusCondition; marked_solve|].
    intros conds _. by apply triple_ret. }
  destruct m; (eapply triple_bind; [by apply Hc|]; intros cr1 H1; eapply triple_bind; [by apply Hc|]; auto).
Qed.

Lemma update_named cr : o_name cr = name → marks (request (Update KHostPathProvisioner cr)) (ok_sat named).
Proof. intros Hn. apply triple_request; [done|]. intros [cr'|e] [_ Hu]; [|done]. simpl. by rewrite (Hu _ _ eq_refl). Qed.

Lemma start_named m cr t reason message :
  o_name cr = name →
  marks (cr ← mark_cr m cr reason message; record_event cr t reason message;;
         request (Update KHostPathProvisioner cr)) (ok_sat named).
Proof.
  intros Hn. eapply triple_bind; [by apply mark_named|]. intros cr' Hn'.
  apply (triple_bind _ _ _ _ _ always); [marked_solve|]. intros _ _. by apply update_named.
Qed.

Lemma get_daemonsets_marks {B} cr ns h (body : option DaemonSet → DaemonSet → kprog B) (Φ : B → Prop) :
  (∀ e, marks (h e) Φ) → (∀ legacy csi, marks (body legacy csi) Φ) → marks (get_daemonsets cr ns h body) Φ.
Proof.
  intros Hh Hb. unfold get_daemonsets. apply (triple_with_ok _ _ _ _ _ _ always); [apply triple_always; marked_solve|done|].
  intros legacy _. apply (triple_with_ok _ _ _ _ _ _ always); [apply triple_always; marked_solve|done|auto].
Qed.

Lemma reconcileUpdate_named cr ns : o_name cr = name → marks (reconcileUpdate cr ns) with_named.
Proof.
  intros Hn. unfold reconcileUpdate.
  apply triple_on_err; [by apply reconcile_resources_marks|intros; by apply triple_ret|].
  apply get_daemonsets_marks; [intros; by apply triple_ret|]. intros legacy csi.
  apply (triple_bind _ _ _ _ _ named).
  - destruct (daemonsets_ready _ _ _); [|by apply triple_ret].
    apply (triple_bind _ _ _ (mark_cr Healthy cr _ _) _ named); [by apply mark_named|]. intros cr1 H1.
    apply (triple_bind _ _ _ _ _ always); [marked_solve|]. intros; by apply triple_ret.
  - intros cr1 H1. apply (triple_bind _ _ _ _ _ always); [apply reconcileCleanup_marks|].
    intros; by apply triple_ret.
Qed.

Lemma reconcileStatus_named cr ns version : o_name cr = name → marks (reconcileStatus cr ns version) with_named.
Proof.
  intros Hn. unfold reconcileStatus, checkDegraded. 
  apply (triple_with_ok _ _ _ _ _ _ (λ x, o_name x.2 = name)); [|intros; by apply triple_ret|].
  - apply get_daemonsets_marks; [intros; by apply triple_ret|]. intros legacy csi. cbv zeta.
    apply (triple_bind _ _ _ _ _ named); [|intros; by apply triple_ret].
    destruct (_ && _); [|by apply triple_ret]. by apply (mark_named Failed).
  - intros [degraded cr1] H1. apply (triple_bind _ _ _ _ _ (ok_sat named)).
    + unfold reconcileStoragePoolStatus. apply (triple_with_ok _ _ _ _ _ _ always); [|intros; by apply triple_ret..].
      unfold storage_pool_status, storagePoolDeploymentsByStoragePool, getClaimStatusesByStoragePool.
      apply triple_always. marked_solve; (apply list_labelled_marks; intros; marked_solve).
    + intros [cr2|e] H2; simpl in H2.
      * apply triple_ret. simpl. by destruct (_ && _).
      * apply (triple_bind _ _ _ (mark_cr FailedHealing cr1 _ _) _ named); [by apply mark_named|].
        intros; by apply triple_ret.
Qed.

Lemma reconcile_all_named cr ns version : o_name cr = name → marks (reconcile_all cr ns version) with_named.
Proof.
  intros Hn. unfold reconcile_all. eapply triple_bind; [by apply reconcileUpdate_named|].
  intros [[res [e|]] cr1] H1; [|by apply reconcileStatus_named]. cbv zeta.
  apply (triple_bind _ _ _ (mark_cr FailedHealing cr1 _ _) _ named); [by apply mark_named|]. intros cr2 H2.
  apply (triple_bind _ _ _ _ _ always); [marked_solve|]. intros; by apply triple_ret.
Qed.

Lemma reconcile_active_marks cr ns version : o_name cr = name → marks_all (reconcile_active cr ns version).
Proof.
  intros Hn. unfold reconcile_active. cbv zeta.
  apply (triple_with_ok _ _ _ _ _ _ named); [|intros; by apply triple_ret|].
  { unfold addFinalizer. cbv zeta. case_bool_decide; [|by apply triple_ret].
    assert (o_name (with_meta (AddFinalizer hppFinalizer) cr) = name)
      by (unfold AddFinalizer, o_name; simpl; by destruct (HasFinalizer _ _)).
    case_bool_decide; [by apply triple_ret|by apply update_named]. }
  intros cr1 H1. destruct (canUpgrade _ _) as [b|e]; [|by apply triple_ret].
  apply (triple_with_ok _ _ _ _ _ _ named); [|intros; by apply triple_ret|].
  { unfold start_deploying. destruct (isDeploying _); [by apply (start_named Deploying)|by apply triple_ret]. }
  intros cr2 H2. apply (triple_with_ok _ _ _ _ _ _ named); [|intros; by apply triple_ret|].
  { unfold start_upgrading. destruct (_ && _); [by apply (start_named UpgradeHealingDegraded)|by apply triple_ret]. }
  intros cr3 H3. eapply triple_bind; [by apply reconcile_all_named|]. intros [[res err] cr4] _.
  unfold update_changed, ignoreHeartBeatTimestamp. marked_solve. by intros tr.
Qed.

Lemma reconcile_deletion_marks cr ns : marks_all (reconcile_deletion cr ns).
Proof.
  unfold reconcile_deletion, delete_managed, deleteAllRbac, deleteCSIDriver, deletePrometheusResources,
    deleteClusterRoleBindingObject, deleteClusterRoleObject, deleteRoleBindingObject, deleteRoleObject.
  marked_solve; [apply cleanDeployments_marks|apply reconcileCleanup_marks|apply when_used_marks; marked_solve].
Qed.

Lemma Reconcile_marks ns_key : ns_key.2 = name → marks_all (Reconcile ns_key).
Proof.
  intros Hk. unfold Reconcile, getHppList.
  apply (triple_with_ok _ _ _ _ _ _ always); [apply triple_always; marked_solve|intros; by apply triple_ret|].
  intros items _. cbv zeta. destruct (1 <? length items)%nat; [by apply triple_ret|].
  destruct VersionStringFunc as [version|e]; [|by apply triple_ret].
  apply (triple_bind _ _ _ _ _ (ok_sat named)).
  - apply triple_request; [done|]. intros [cr|e] [Hg _]; [|done]. simpl. rewrite <-Hk.
    by rewrite <-(Hg _ _ eq_refl).
  - intros [cr|e] Hn; [|by apply triple_ret]. simpl in Hn.
    apply (triple_bind _ _ _ _ _ always); [unfold set_gauge; marked_solve|]. intros _ _.
    case_bool_decide; [apply reconcile_deletion_marks|by apply reconcile_active_marks].
Qed.
End Creates.

(** C11: nothing the reconciler creates drifts unseen.  Of the objects [Reconcile]
    creates, the claims, the StorageClasses and the cleanup Jobs are not watched;
    every other one has a kind that is watched with a handler to which each
    change of the object, or of one with its labels and owners, means the
    reconciliation of the custom resource that [Reconcile] was asked about, as
    long as it is the only one. *)
Theorem created_objects_lead_back `{PL : Platform, CD : Codec, RM : RESTMapper} key :
  RESTMapping hpp_group HostPathProvisionerKind "v1beta1" = Ok true →
  wp answers_cr
    (λ _ T r, match r with
              | Create k o => k ∈ unwatched ∨ ∃ h, (k, h) ∈ watches ∧ leads_back key.2 h o
              | _ => True
              end)
    (Reconcile key) (λ _ _, True) [].
Proof.
  intros Hscope. eapply wp_mono; [done| |done|apply (Reconcile_marks key.2 key eq_refl)].
  intros tr T [] Hr; try done. destruct Hr as [Hu|Hm]; [by left|right]. by apply marked_leads_back.
Qed.
