(* ===== verification/Managed.v ===== *)
(** * What the reconcile functions of the managed resources guarantee

    Theorems about Rbac.v, ServiceAccount.v, Scc.v, Prometheus.v and Rules.v:
    order of the writes, optional kinds, restarts of workloads, alerts. *)
From S2P Require Import Prelude GoStrings Prog Names Api K8s Json JsonMerge Meta Rules Rbac ServiceAccount Scc.
From S2P Require Import CsiDriver Prometheus DaemonSet StoragePool Controller.

(** ** Optional kinds *)

(** Programs that first check that the server has a kind *)
Section Optional.
Context (k : kind).

(** The answer to the check of the kind *)
Definition has_kind (tr : ktrace) : Prop :=
  ∃ opts l, Ev (ListObjs k opts) (Ok l) ∈ tr.

Definition optional_post (tr : ktrace) (o : outcome error) : Prop :=
  has_kind tr ∨
  ∃ opts e, Ev (ListObjs k opts) (Err e) ∈ tr ∧
    o = Returned (if api_group_missing e then None else Some e).

Lemma wp_when_used R p tr :
  wp R (λ tr T r, is_write r = true → has_kind tr) (when_used (checkUsed k) p) optional_post tr.
Proof.
  unfold when_used, checkUsed. apply wp_with_ok, wp_with_ok. cbn [wp request]. split; [done|].
  intros [l|e] _; cbn [post_with_ok wp mret prog_mret].
  - set (opts := {| lo_Selector := []; lo_Namespace := "" |}).
    assert (Hk : ∀ tr', (tr ++ [Ev (ListObjs k opts) (Ok l)]) `prefix_of` tr' → has_kind tr').
    { intros tr' Hp. exists opts, l. eapply elem_of_monotone; [exact Hp|]. apply last_event. }
    eapply (wp_footprint _ (λ _ _, True)); [apply footprint_any|auto|]. intros. left. auto.
  - destruct (api_group_missing e) eqn:He; cbn; right; eexists _, e; rewrite He; (split; [apply last_event|done]).
Qed.
End Optional.

(** ** Roles before bindings *)

(** The role a binding refers to was there, or was created. *)
Definition role_present (k : kind) (key : ObjectKey) (tr : ktrace) : Prop :=
  (∃ o, Ev (Get k key) (Ok o) ∈ tr) ∨ (∃ o x, Ev (Create k o) (Ok x) ∈ tr ∧ ObjectKeyFromObject o = key).

Definition created_binding {T} (r : kreq T) : option (kind * ObjectKey) :=
  match r with
  | Create k o =>
      match k return obj k → option (kind * ObjectKey) with
      | KClusterRoleBinding => λ o, Some (KClusterRole, ("", ref_Name (binding_RoleRef (o_body o))))
      | KRoleBinding => λ o, Some (KRole, (o_namespace o, ref_Name (binding_RoleRef (o_body o))))
      | _ => λ _, None
      end o
  | _ => None
  end.

Definition bindings_after_roles : guarantee kreq := λ tr T r,
  ∀ k key, created_binding r = Some (k, key) → role_present k key tr.

Lemma role_present_mono k key : monotone (role_present k key).
Proof.
  intros tr tr' Hp [(o & ?)|(o & x & ? & ?)]; [left; exists o|right; exists o, x; split; [|done]];
    by eapply elem_of_monotone.
Qed.

Definition no_binding : ∀ T, kreq T → Prop := λ T r, created_binding r = None.

(** The kinds of which the creation binds nothing *)
Definition binds_nothing (k : kind) : bool := negb (bool_decide (k ∈ [KClusterRoleBinding; KRoleBinding])).

Lemma create_binds_nothing k (o : obj k) : binds_nothing k = true → no_binding _ (Create k o).
Proof. by destruct k. Qed.

Lemma writes_no_binding {A} ks (p : kprog A) :
  footprint (writes_only ks) p → forallb binds_nothing ks = true → footprint no_binding p.
Proof.
  intros Hp Hk. eapply footprint_mono; [exact Hp|]. intros T r Hr. destruct r as [| |k o| | | | | |]; try done.
  destruct Hr as (k' & [= <-] & Hin); [done|]. apply create_binds_nothing.
  rewrite List.forallb_forall in Hk. by apply Hk, list_elem_of_In.
Qed.

Section Roles.
Context `{PL : Platform, CD : Codec} (cr : HostPathProvisioner) (ns : string).

Lemma merge_and_update_no_binding {k} (a b : obj k) : footprint no_binding (merge_and_update cr a b).
Proof.
  unfold merge_and_update, update_resource. destruct (mergeObject _ _).2; [|done].
  destruct (DeepEqual _ _); [done|]. split; [done|]. by intros [x|e].
Qed.

(** After a role was reconciled with no error, it is there. *)
Lemma role_ensures k (o : obj k) :
  binds_nothing k = true →
  ensures no_binding (reconcileRbacResource o o cr) (role_present k (ObjectKeyFromObject o)).
Proof.
  intros Hk R tr. unfold reconcileRbacResource, create_or_update. apply wp_bind. cbn [wp request].
  split; [done|]. intros [found|e] _; cbn [post_bind].
  - eapply wp_footprint; [apply merge_and_update_no_binding|auto|]. intros tr' out Hp _.
    left. exists found. eapply elem_of_monotone; [exact Hp|apply last_event].
  - destruct (IsNotFound e); [|done]. unfold create_resource. apply wp_with_ok. cbn [wp request].
    split; [by apply create_binds_nothing|]. intros [x|e'] _; cbn; (split; [done|]); intros ? _; [|done].
    intros _. right. exists (setLastAppliedConfiguration o), x. split; [|apply setLastAppliedConfiguration_key].
    eapply elem_of_monotone; [by eexists|apply last_event].
Qed.

(** Reconciling a binding creates no other binding. *)
Lemma binding_footprint k (o : obj k) :
  footprint (λ T r, created_binding r = None ∨
               created_binding r = created_binding (Create k (setLastAppliedConfiguration o)))
    (reconcileRbacResource o o cr).
Proof.
  unfold reconcileRbacResource, create_or_update. split; [by left|]. intros [found|e].
  - eapply footprint_mono; [apply merge_and_update_no_binding|]. intros; by left.
  - cbn. destruct (IsNotFound e); [|done]. split; [by right|]. intros [x|e']; cbn; (split; [by left|done]).
Qed.

Lemma with_meta_body {k} f (o : obj k) : o_body (with_meta f o) = o_body o.
Proof. done. Qed.

Lemma setLastApplied_body {k} (o : obj k) : o_body (setLastAppliedConfiguration o) = o_body o.
Proof. unfold setLastAppliedConfiguration. by destruct (Marshal o). Qed.

Lemma setLastApplied_namespace {k} (o : obj k) : o_namespace (setLastAppliedConfiguration o) = o_namespace o.
Proof. unfold setLastAppliedConfiguration. by destruct (Marshal o). Qed.

Lemma wp_binding R k (o : obj k) rk key (Q : ktrace → outcome error → Prop) tr :
  (∀ o' : obj k, o_body o' = o_body o → o_namespace o' = o_namespace o →
     created_binding (Create k o') = Some (rk, key)) →
  role_present rk key tr → (∀ tr' out, tr `prefix_of` tr' → Q tr' out) →
  wp R bindings_after_roles (reconcileRbacResource o o cr) Q tr.
Proof.
  intros Hb Hr HQ. eapply wp_footprint; [apply binding_footprint| |done].
  intros tr' T r Hp [Hn|He] rk' key' Hc; [congruence|].
  rewrite He, (Hb _ (setLastApplied_body o) (setLastApplied_namespace o)) in Hc. injection Hc as <- <-.
  by eapply role_present_mono.
Qed.

Lemma delete_no_binding k n name : footprint no_binding (ignore_not_found (delete_object k n name)).
Proof. split; [done|]. intros [e|]; [|done]. cbn. destruct (IsNotFound e); cbn; [done|]. by destruct (IsNotFound e). Qed.

Lemma on_err_done_ensures P p (Φ : ktrace → Prop) :
  ensures P p Φ → monotone Φ → ensures P (on_err p (λ e, mret (Some e)) (mret None)) Φ.
Proof.
  intros Hp HΦ. eapply ensures_mono; [eapply (ensures_on_err P p (mret None) Φ (λ _, True)); try done|].
  by intros tr [].
Qed.

Lemma reconcileClusterRole_ensures :
  ensures no_binding (reconcileClusterRole cr) (λ tr,
    (isLegacy cr = true → role_present KClusterRole ("", MultiPurposeHostPathProvisionerName) tr) ∧
    role_present KClusterRole ("", ProvisionerServiceAccountNameCsi) tr).
Proof.
  unfold reconcileClusterRole. cbv zeta. apply ensures_on_err.
  - destruct (isLegacy cr).
    + eapply ensures_mono; [apply role_ensures; reflexivity|]. done.
    + eapply ensures_mono; [apply ensures_footprint|done].
      eapply (writes_no_binding [KClusterRole]); [fp_solve|done].
  - apply on_err_done_ensures; [by apply role_ensures|apply role_present_mono].
  - intros tr tr' Hp H Hl. eapply role_present_mono; eauto.
Qed.

Lemma reconcileRole_ensures :
  ensures no_binding (reconcileRole cr ns) (role_present KRole (ns, ProvisionerServiceAccountNameCsi)).
Proof. apply on_err_done_ensures; [by apply role_ensures|apply role_present_mono]. Qed.

Abbreviation G := bindings_after_roles.

Lemma no_binding_G tr T (r : kreq T) : no_binding T r → G tr T r.
Proof. unfold no_binding, bindings_after_roles. intros ->. done. Qed.

Lemma wp_no_binding {A} R ks (p : kprog A) (Q : ktrace → outcome A → Prop) tr :
  footprint (writes_only ks) p → forallb binds_nothing ks = true →
  (∀ tr' o, tr `prefix_of` tr' → Q tr' o) → wp R G p Q tr.
Proof. intros Hp Hk HQ. eapply wp_footprint; [by eapply writes_no_binding| |done]. intros. by apply no_binding_G. Qed.

Lemma wp_reconcileClusterRoleBinding R (Q : ktrace → outcome error → Prop) tr :
  (isLegacy cr = true → role_present KClusterRole ("", MultiPurposeHostPathProvisionerName) tr) →
  role_present KClusterRole ("", ProvisionerServiceAccountNameCsi) tr →
  (∀ tr' o, tr `prefix_of` tr' → Q tr' o) →
  wp R G (reconcileClusterRoleBinding cr ns) Q tr.
Proof.
  intros Hl Hc HQ. unfold reconcileClusterRoleBinding. cbv zeta. apply wp_on_err.
  eapply (wp_binding _ KClusterRoleBinding); [|exact Hc|].
  { intros o' Hb _. cbn. by rewrite Hb. }
  intros tr1 [[e|]| |] Hp1; cbn [post_on_err]; [by apply HQ| |by apply HQ..].
  destruct (isLegacy cr).
  - apply wp_on_err. eapply (wp_binding _ KClusterRoleBinding); [|eapply role_present_mono; [exact Hp1|by apply Hl]|].
    { intros o' Hb _. cbn. by rewrite Hb. }
    intros tr2 [[e|]| |] Hp2; cbn [post_on_err wp mret prog_mret]; apply HQ; by etrans.
  - eapply wp_footprint; [apply delete_no_binding|intros; by apply no_binding_G|]. intros. apply HQ. by etrans.
Qed.

Lemma wp_reconcileRoleBinding R (Q : ktrace → outcome error → Prop) tr :
  role_present KRole (ns, ProvisionerServiceAccountNameCsi) tr →
  (∀ tr' o, tr `prefix_of` tr' → Q tr' o) → wp R G (reconcileRoleBinding cr ns) Q tr.
Proof.
  intros Hr HQ. unfold reconcileRoleBinding. cbv zeta. apply wp_on_err.
  eapply (wp_binding _ KRoleBinding); [|exact Hr|].
  { intros o' Hb Hns. cbn. by rewrite Hb, Hns. }
  intros tr1 [[e|]| |] Hp1; cbn [post_on_err wp mret prog_mret]; by apply HQ.
Qed.

Lemma wp_prometheus_bindings R tr :
  wp R G (reconcilePrometheusInfra cr ns) (λ _ _, True) tr.
Proof.
  unfold reconcilePrometheusInfra, when_used. apply wp_with_ok.
  eapply (wp_no_binding _ []); [apply checkUsed_fp|done|].
  intros tr1 [[[]|e]| |] _; cbn [post_with_ok]; try done.
  destruct (BuildPrometheusRule ns) as [rule|]; [|done]. cbv zeta. apply wp_on_err.
  eapply (wp_no_binding _ [KPrometheusRule]); [apply reconcilePrometheusResource_fp|done|].
  intros tr2 [[e|]| |] _; cbn [post_on_err]; try done.
  (* the role, then its binding *)
  assert (Hrbac : ∀ k (o : obj k), reconcilePrometheusResource cr o o false =
    match Marshal o with Err err => mret (Some err) | Ok _ => reconcileRbacResource o o cr end) by done.
  rewrite !Hrbac. apply wp_on_err.
  destruct (Marshal (createPrometheusRole ns)); [|done].
  eapply wp_ensures; [by apply role_ensures|intros; by apply no_binding_G|done| |done..].
  intros tr3 _ Hr. cbn [post_on_err]. apply wp_on_err.
  destruct (Marshal (createPrometheusRoleBinding ns)); [|done].
  eapply (wp_binding _ KRoleBinding); [|exact Hr|].
  { intros o' Hb Hns. cbn. by rewrite Hb, Hns. }
  intros tr4 [[e|]| |] _; cbn [post_on_err]; try done. apply wp_on_err.
  eapply (wp_no_binding _ [KService]); [|done|].
  { destruct (Marshal (createPrometheusService ns)); [apply reconcileRbacResource_fp|done]. }
  intros tr5 [[e|]| |] _; cbn [post_on_err]; try done.
  eapply (wp_no_binding _ [KServiceMonitor]); [|done|done].
  destruct (Marshal (createPrometheusServiceMonitor ns)); [apply reconcileRbacResource_fp|done].
Qed.
End Roles.

(** ** Workloads of a new service account *)

(** The server confirmed that the object is gone: it deleted it, or did not have it. *)
Definition deleted (k : kind) (key : ObjectKey) (tr : ktrace) : Prop :=
  ∃ p x, Ev (Delete k key p) x ∈ tr ∧ match x with None => True | Some e => IsNotFound e = true end.

Lemma deleted_mono k key : monotone (deleted k key).
Proof. intros tr tr' Hp (p & x & Hev & Hx). exists p, x. split; [by eapply elem_of_monotone|done]. Qed.

Lemma delete_ensures (P : ∀ T, kreq T → Prop) k ns name :
  P _ (Delete k (ns, name) None) → ensures P (delete_object k ns name) (deleted k (ns, name)).
Proof.
  intros HP R tr. unfold delete_object, ignore_not_found. apply wp_on_err. simpl. split; [done|].
  intros x _. unfold post_on_err. destruct x as [e|]; simpl.
  - destruct (IsNotFound e) eqn:He; simpl; [|done]. intros _. exists None, (Some e). split; [apply last_event|done].
  - intros _. exists None, None. split; [apply last_event|done].
Qed.

Definition runs_as_ds (name : string) (ds : DaemonSet) : bool :=
  bool_decide (ServiceAccountName (template_Spec (ds_Template (ds_Spec ds))) = name) &&
  (0 <? NumberAvailable (ds_Status ds)).
Definition runs_as_deployment (name : string) (d : Deployment) : bool :=
  bool_decide (ServiceAccountName (template_Spec (dep_Template (dep_Spec d))) = name) &&
  (0 <? ReadyReplicas (dep_Status d)).

(** The items the code works on after a list: none when the server has none *)
Definition listed_items {k} (opts : ListOptions) (items : list (obj k)) (tr : ktrace) : Prop :=
  Ev (ListObjs k opts) (Ok items) ∈ tr ∨
  (items = [] ∧ ∃ e, Ev (ListObjs k opts) (Err e) ∈ tr ∧ IsNotFound e = true).

(** Every running workload of the account the server listed was deleted. *)
Definition removes_running {k} (runs : obj k → bool) (namespace : string) (tr : ktrace) : Prop :=
  ∃ opts (items : list (obj k)), lo_Namespace opts = namespace ∧ listed_items opts items tr ∧
    ∀ o, o ∈ items → runs o = true → deleted k (ObjectKeyFromObject o) tr.

Definition workloads_removed (name namespace : string) (tr : ktrace) : Prop :=
  removes_running (k:=KDaemonSet) (runs_as_ds name) namespace tr ∧
  removes_running (k:=KDeployment) (runs_as_deployment name) namespace tr.

Definition any_kreq : ∀ T, kreq T → Prop := λ _ _, True.

Lemma deletes_running {k} (runs : obj k → bool) (items : list (obj k)) :
  ensures any_kreq
    (for_err items (λ o, if runs o then delete_object k (o_namespace o) (o_name o) else mret None))
    (λ tr, ∀ o, o ∈ items → runs o = true → deleted k (ObjectKeyFromObject o) tr).
Proof.
  apply (ensures_for_err any_kreq items _ (λ o tr, runs o = true → deleted k (ObjectKeyFromObject o) tr)).
  - intros o _. destruct (runs o); [|by apply ensures_mono with (λ _, True); [apply ensures_footprint|]].
    eapply ensures_mono; [by apply delete_ensures|done].
  - intros o tr tr' Hp H Hr. eapply deleted_mono; eauto.
Qed.

Lemma removes_running_mono {k} (runs : obj k → bool) ns : monotone (removes_running runs ns).
Proof.
  intros tr tr' Hp (opts & items & Hns & Hl & Hd). exists opts, items. split; [done|]. split.
  - destruct Hl as [Hl|(-> & e & Hl & He)]; [left|right; split; [done|]; exists e; split; [|done]];
      by eapply elem_of_monotone.
  - intros. eapply deleted_mono; eauto.
Qed.

Lemma list_then_delete {k} (runs : obj k → bool) ns :
  ensures any_kreq
    (list_or_empty {| lo_Selector := []; lo_Namespace := ns |} (λ err, mret (Some err))
      (λ items : list (obj k), for_err items (λ o,
         if runs o then delete_object k (o_namespace o) (o_name o) else mret None)))
    (removes_running runs ns).
Proof.
  intros R tr. unfold list_or_empty. apply wp_bind. cbn [wp request]. split; [done|].
  set (opts := {| lo_Selector := []; lo_Namespace := ns |}).
  assert (Hgo : ∀ items tr', listed_items opts items tr' →
    wp R (λ _, any_kreq) (for_err items (λ o, if runs o then delete_object k (o_namespace o) (o_name o) else mret None))
      (λ tr'' o, o = Returned None → removes_running runs ns tr'') tr').
  { intros items tr' Hl. eapply wp_strengthen; [apply deletes_running|]. intros tr'' o Hp Hd Ho.
    exists opts, items. split; [done|]. split; [|by apply Hd].
    destruct Hl as [Hl|(-> & e & Hl & He)]; [left|right; split; [done|]; exists e; split; [|done]];
      by eapply elem_of_monotone. }
  intros [items|e] _; cbn [post_bind]; [apply Hgo; left; apply last_event|].
  destruct (IsNotFound e) eqn:He; [|done]. apply Hgo. right. split; [done|]. exists e. split; [apply last_event|done].
Qed.

Lemma deleteRunningPodsWithSa_ensures name ns :
  ensures any_kreq (deleteRunningPodsWithSa name ns) (workloads_removed name ns).
Proof. apply ensures_on_err; [apply list_then_delete..|apply removes_running_mono]. Qed.

(** ** The runbook template *)

Lemma sprintf_s_cons c s arg :
  sprintf_s (String c s) arg =
  if HasPrefix (String c s) "%s" then arg +:+ str_drop 1 s else String c (sprintf_s s arg).
Proof.
  destruct (ascii_dec c "%") as [->|Hc].
  - destruct s as [|d s]; [done|]. destruct (ascii_dec d "s") as [->|Hd]; [by destruct s|].
    destruct d as [[] [] [] [] [] [] [] []]; try reflexivity; by destruct Hd.
  - destruct c as [[] [] [] [] [] [] [] []]; try reflexivity; by destruct Hc.
Qed.

(** With one verb, the template is text around it. *)
Lemma sprintf_s_spec template :
  count_verbs template = 1%nat →
  ∃ pre post, template = pre +:+ "%s" +:+ post ∧ ∀ arg, sprintf_s template arg = pre +:+ arg +:+ post.
Proof.
  induction template as [|c s IH]; [done|]. cbn [count_verbs]. pose proof (sprintf_s_cons c s) as Hs.
  destruct (HasPrefix (String c s) "%s") eqn:Hp; intros Hc.
  - apply HasPrefix_spec in Hp as [post Hpost]. injection Hpost as -> ->. exists "", post. split; [done|].
    intros arg. by rewrite Hs.
  - destruct (IH Hc) as (pre & post & Ht & Hpost). exists (String c pre), post. split; [by rewrite Ht|].
    intros arg. rewrite Hs, Hpost. done.
Qed.

Lemma insert_rule_perm r l : insert_rule r l ≡ₚ r :: l.
Proof. induction l as [|q l IH]; [done|]. cbn. destruct (str_lt _ _); [|done]. rewrite IH. constructor. Qed.

Lemma sort_rules_perm l : sort_rules l ≡ₚ l.
Proof. induction l as [|r l IH]; [done|]. cbn. rewrite insert_rule_perm. by constructor. Qed.

Definition label (r : Rule) (key : string) : option string := map_get (rule_Labels r) key.

(** What the operator's documentation of alerts asks of each of them *)
Definition alert_complete (runbook : string → string) (r : Rule) : Prop :=
  map_get (rule_Annotations r) prometheusRunbookAnnotationKey = Some (runbook (rule_Alert r)) ∧
  (∃ text, map_get (rule_Annotations r) "summary" = Some text) ∧
  (∃ s, label r severityAlertLabelKey = Some s ∧ s ∈ ["critical"; "warning"; "info"]) ∧
  (∃ s, label r healthImpactAlertLabelKey = Some s ∧ s ∈ ["critical"; "warning"; "none"]) ∧
  label r partOfAlertLabelKey = Some partOfAlertLabelValue ∧
  label r componentAlertLabelKey = Some componentAlertLabelValue.

Lemma decorated_complete template name expr for_ summary severity impact runbook :
  severity ∈ ["critical"; "warning"; "info"] → impact ∈ ["critical"; "warning"; "none"] →
  sprintf_s template name = runbook name →
  alert_complete runbook (decorate_alert template (alert name expr for_ summary severity impact)).
Proof.
  intros Hs Hi Hr. unfold alert_complete, label, decorate_alert, alert.
  cbn [rule_Annotations rule_Labels rule_Alert fmap option_fmap option_map map_get mbind option_bind]. rewrite Hr. split_and!.
  - by rewrite lookup_insert_eq.
  - exists summary. by rewrite lookup_insert_ne.
  - exists severity. split; [|done]. do 2 rewrite lookup_insert_ne by done. by rewrite lookup_insert_eq.
  - exists impact. split; [|done]. rewrite !lookup_insert_ne by done. by rewrite lookup_singleton_eq.
  - rewrite lookup_insert_ne by done. by rewrite lookup_insert_eq.
  - by rewrite lookup_insert_eq.
Qed.

(** ** Properties *)

Section Properties.
Context `{PL : Platform, CD : Codec}.


(** Kinds the cluster may lack are optional.  The reconciliation and the
    deletion of the SecurityContextConstraints and of the monitoring objects
    write nothing unless the server has listed the kind; when it has not, they
    return no error if the reason is that the kind is missing, and the server's
    error otherwise. *)
Theorem missing_kinds_are_skipped R cr ns name tr :
  let skips k p := wp R (λ tr T r, is_write r = true → has_kind k tr) p (optional_post k) tr in
  skips KSecurityContextConstraints (reconcileSecurityContextConstraints cr ns) ∧
  skips KSecurityContextConstraints (deleteSCC name) ∧
  skips KPrometheusRule (reconcilePrometheusInfra cr ns) ∧
  skips KPrometheusRule (deletePrometheusResources ns).
Proof. cbv zeta. split_and!; apply wp_when_used. Qed.

(** A new service account restarts its workloads.  When the reconciliation
    of a service account reports no error, the server either had the account,
    or created it; and in the second case every DaemonSet with available pods
    and every Deployment with ready replicas that runs as the account, among
    those the client lists in the namespace of the custom resource (none, for a
    cluster-scoped resource: every namespace the manager's cache holds), was
    deleted. *)
Theorem new_account_restarts_workloads R cr desired tr :
  wp R any_request (reconcileOneServiceAccount cr desired)
    (λ tr' o, o = Returned None →
       (∃ key found, Ev (Get KServiceAccount key) (Ok found) ∈ tr') ∨
       (∃ sent stored, Ev (Create KServiceAccount sent) (Ok stored) ∈ tr' ∧
          workloads_removed (o_name stored) (o_namespace cr) tr')) tr.
Proof.
  unfold reconcileOneServiceAccount. destruct (SetControllerReference _ _) as [o|e]; [|done].
  unfold create_or_update. apply wp_bind. cbn [wp request]. split; [done|].
  intros [found|e] _; cbn [post_bind].
  - eapply (wp_footprint _ any_kreq); [apply footprint_any|done|]. intros tr' out Hp _. left.
    eexists _, found. eapply elem_of_monotone; [exact Hp|apply last_event].
  - destruct (IsNotFound e); [|done]. unfold create_resource. apply wp_with_ok. cbn [wp request].
    split; [done|]. intros [stored|e'] _; cbn [post_with_ok].
    + apply wp_bind. cbn [wp request record_event]. split; [done|]. intros x _. cbn [post_bind].
      eapply wp_guarantee; [eapply wp_strengthen; [apply deleteRunningPodsWithSa_ensures|]|done].
      intros tr' out Hp Hw Hout. right. exists o, stored. split; [|by apply Hw].
      eapply elem_of_monotone; [exact Hp|]. eapply elem_of_monotone; [by eexists|apply last_event].
    + cbn. split; [done|]. by intros x _.
Qed.

(** Alerts are complete.  The PrometheusRule cannot be built (the operator
    panics) exactly when the runbook template of the environment does not hold
    exactly one [%s]; otherwise every alert of the operator is in it, once, and
    each alert of it has a severity, a health impact, the labels that say whose
    it is, a summary, and the runbook URL of its own name. *)
Theorem alerts_are_complete ns :
  let template := default defaultRunbookURLTemplate (LookupEnv runbookURLTemplateEnv) in
  match BuildPrometheusRule ns with
  | None => count_verbs template ≠ 1%nat
  | Some rule =>
      ∃ pre post alerts recording, template = pre +:+ "%s" +:+ post ∧
        (Rules <$> o_body rule) = [recording; alerts] ∧
        rule_Alert <$> alerts ≡ₚ rule_Alert <$> operatorAlerts ∧ NoDup (rule_Alert <$> alerts) ∧
        Forall (alert_complete (λ name, pre +:+ name +:+ post)) alerts
  end.
Proof.
  intros template. unfold BuildPrometheusRule, GetRunbookURLTemplate. fold template. cbv zeta.
  case_bool_decide as Hc; cbn [mbind option_bind]; [done|].
  destruct (sprintf_s_spec template Hc) as (pre & post & Ht & Hs).
  exists pre, post, (sort_rules (decorate_alert template <$> operatorAlerts)),
    (sort_rules (operatorRecordingRules ns)). split; [done|]. split; [done|].
  assert (Hp : rule_Alert <$> sort_rules (decorate_alert template <$> operatorAlerts) ≡ₚ rule_Alert <$> operatorAlerts)
    by (rewrite sort_rules_perm; done).
  split; [done|]. split.
  - rewrite Hp. apply (bool_decide_unpack _). vm_compute. done.
  - rewrite sort_rules_perm. unfold operatorAlerts. rewrite !fmap_cons, fmap_nil.
    repeat (apply Forall_cons; split); [..|by apply Forall_nil];
      (apply decorated_complete; [set_solver|set_solver|apply Hs]).
Qed.

(** An existing PrometheusRule is never changed.  [reconcilePrometheusInfra]
    passes one object as both the desired and the found one, so reading the
    rule of the cluster overwrites the desired rule: whatever the operator
    wants, if the server has a rule (one that carries an annotation the operator
    can read back), reconciling it changes nothing and sends no write. *)
Theorem existing_rule_is_never_changed {S} (h : handler kreq S) lookup `{!Server h lookup}
    cr {k} (desired found : obj k) d m v original s :
  Marshal desired = Ok d → encodes found m →
  map_get (Annotations (o_meta found)) lastAppliedConfigAnnotation = Some v →
  parse_original v = Ok (JObj original) →
  lookup s k (ObjectKeyFromObject desired) = Some found →
  ∃ s', run h (reconcilePrometheusResource cr desired desired true) s = (Returned None, s') ∧
    lookup s' = lookup s ∧
    Forall (λ '(Ev r _), is_write r = false) (run_trace h (reconcilePrometheusResource cr desired desired true) s).
Proof.
  intros Hd He Hv Ho Hs. unfold reconcilePrometheusResource. rewrite Hd. cbv zeta.
  destruct (run_get h lookup (ObjectKeyFromObject desired) s found
    (λ r, match r with
          | Err err => if IsNotFound err then create_resource cr (setLastAppliedConfiguration desired) (λ _, mret None)
                       else mret (Some err)
          | Ok found => merge_and_update cr found found
          end) Hs) as (s' & Hl & Hr & Ht).
  assert (Hm : merge_and_update cr found found = mret None).
  { unfold merge_and_update. rewrite with_meta_id by apply merge_same.
    rewrite (mergeObject_same _ _ _ _ He Hv Ho); cbn [snd]. apply update_same. }
  exists s'. rewrite Hr, Ht, Hm. split; [done|]. split; [done|]. by repeat constructor.
Qed.
End Properties.

(** ** Witness *)

(** A codec that reads PrometheusRules without groups *)
Definition rule_codec : Codec := {|
  Marshal k := Marshal (Codec:=account_codec) (k:=k);
  Unmarshal k := match k return json → result (obj k) with
                 | KPrometheusRule => λ d, match d with
                     | JObj m => Ok (Obj (k:=KPrometheusRule) no_type (doc_meta m) [])
                     | _ => Err (Errorf "not an object")
                     end
                 | _ => λ _, Err (Errorf "not supported")
                 end;
  print_json := print_json (Codec:=account_codec);
  parse_json := parse_json (Codec:=account_codec);
  patch_error := patch_error (Codec:=account_codec) |}.

(** The rule of an older operator: it has no alerts. *)
Definition old_rule : obj KPrometheusRule :=
  Obj (k:=KPrometheusRule) no_type
    (set_Annotations (Some {[ lastAppliedConfigAnnotation := "old" ]}) (object_meta ruleName "hpp" None)) [].

Definition new_rule : obj KPrometheusRule :=
  default old_rule (BuildPrometheusRule (PL:=simple_platform ∅ "1.2.3" "hpp") "hpp").

Lemma existing_rule_is_never_changed_witness :
  ∃ s', run cluster_handler (reconcilePrometheusResource (CD:=rule_codec) example_cr new_rule new_rule true)
          (put old_rule empty_cluster) = (Returned None, s') ∧
        cluster_lookup s' = cluster_lookup (put old_rule empty_cluster) ∧
        o_body new_rule ≠ o_body old_rule.
Proof.
  destruct (existing_rule_is_never_changed (CD:=rule_codec) cluster_handler cluster_lookup example_cr
    new_rule old_rule (JObj (meta_doc (o_meta new_rule))) (meta_doc (o_meta old_rule)) "old"
    {[ "metadata" := JObj {[ "name" := JStr "old" ]} ]} (put old_rule empty_cluster)) as (s' & Hr & Hl & _).
  - reflexivity.
  - split; [reflexivity|vm_compute; reflexivity|exists ruleName; reflexivity|vm_compute; reflexivity].
  - reflexivity.
  - reflexivity.
  - vm_compute. reflexivity.
  - exists s'. split; [exact Hr|]. split; [exact Hl|]. discriminate.
Defined.

