(* ===== verification/Deployed.v ===== *)
(** * What a successful reconciliation has deployed

    The abstract specification of the managed resources: [managed_objects] lists
    the objects of a custom resource, each with what is created when it is not
    there and what an existing one is updated to.  [success_means_deployed] shows
    that [reconcile_resources] refines it: no error means that every object of the
    list is in place. *)
From S2P Require Import Prelude GoStrings Prog Names Semver Api K8s Json JsonMerge Meta Conditions.
From S2P Require Import CryptoPolicy Rules Rbac ServiceAccount Scc CsiDriver Prometheus DaemonSet StoragePool.
From S2P Require Import Controller Managed.

(** ** Managed objects *)

(** An object the operator manages: where it is, what is created when it is not
    there, and what an existing one is updated to *)
Record managed := Managed {
  m_kind : kind;
  m_key : ObjectKey;
  m_object : obj m_kind;
  m_update : obj m_kind → result (obj m_kind) }.

(** The API server acknowledged the object: it stored the object or an update of
    it, or showed one that needs no update, or said that there is one where any
    will do. *)
Definition in_place (m : managed) (tr : ktrace) : Prop :=
  (∃ stored, Ev (Create (m_kind m) (m_object m)) (Ok stored) ∈ tr) ∨
  (∃ found, Ev (Get (m_kind m) (m_key m)) (Ok found) ∈ tr ∧
     (m_update m found = Ok found ∨
      ∃ o stored, m_update m found = Ok o ∧ Ev (Update (m_kind m) o) (Ok stored) ∈ tr)) ∨
  (∃ e, Ev (Create (m_kind m) (m_object m)) (Err e) ∈ tr ∧ IsAlreadyExists e = true ∧
     ∀ found, m_update m found = Ok found).

Lemma in_place_mono m : monotone (in_place m).
Proof.
  intros tr tr' Hp.
  intros [(s & H)|[(f & H & [Hu|(o & s & Hu & H')])|(e & H & He)]];
    [left; exists s|right; left; exists f..|right; right; exists e].
  - by eapply elem_of_monotone.
  - split; [by eapply elem_of_monotone|by left].
  - split; [by eapply elem_of_monotone|]. right. exists o, s. split; [done|by eapply elem_of_monotone].
  - split; [by eapply elem_of_monotone|done].
Qed.

Definition all_in_place (l : list managed) (tr : ktrace) : Prop := ∀ m, m ∈ l → in_place m tr.

Lemma all_in_place_mono l : monotone (all_in_place l).
Proof. intros tr tr' Hp H m Hm. eapply in_place_mono; [exact Hp|auto]. Qed.

Lemma all_in_place_app l l' tr : all_in_place (l ++ l') tr ↔ all_in_place l tr ∧ all_in_place l' tr.
Proof. unfold all_in_place. setoid_rewrite elem_of_app. naive_solver. Qed.

Lemma all_in_place_one m tr : all_in_place [m] tr ↔ in_place m tr.
Proof. unfold all_in_place. setoid_rewrite list_elem_of_singleton. naive_solver. Qed.

Section Managed.
Context `{PL : Platform, CD : Codec}.

(** The three-way merge of the desired object into the one found *)
Definition merged_into {k} (desired found : obj k) : result (obj k) :=
  (mergeObject desired (with_meta (mergeLabelsAndAnnotations (o_meta desired)) found)).2.

(** An object with its last applied configuration, merged into what is there *)
Definition applied {k} (desired : obj k) : managed :=
  Managed k (ObjectKeyFromObject desired) (setLastAppliedConfiguration desired)
    (merged_into (setLastAppliedConfiguration desired)).

(** The same, with the custom resource as its controller and its own update *)
Definition controlled_object (cr : HostPathProvisioner) {k} (o : obj k) : obj k :=
  with_meta (set_OwnerReferences [controller_ref cr]) (setLastAppliedConfiguration o).
Definition controlled (cr : HostPathProvisioner) {k} (desired : obj k)
    (update : obj k → obj k → result (obj k)) : managed :=
  Managed k (ObjectKeyFromObject desired) (controlled_object cr desired)
    (update (controlled_object cr desired)).

(** An object that is left as it is once it exists *)
Definition created_once {k} (desired : obj k) : managed :=
  Managed k (ObjectKeyFromObject desired) desired Ok.

Definition update_daemonset (desired found : DaemonSet) : result DaemonSet :=
  if bool_decide (MatchLabels (ds_Selector (ds_Spec found)) = MatchLabels (ds_Selector (ds_Spec desired)))
  then Ok (updated_daemonset desired found) else Err extra_selector_error.
Definition update_deployment (desired found : Deployment) : result Deployment :=
  Ok (updated_deployment desired found).

(** [l] for a legacy resource only *)
Definition for_legacy (cr : HostPathProvisioner) (l : list managed) : list managed :=
  if isLegacy cr then l else [].

Definition daemonset_objects (cr : HostPathProvisioner) (ns tlsVersion : string) : list managed :=
  for_legacy cr [controlled cr (k:=KDaemonSet) (createDaemonSetObject cr (getDaemonSetArgs ns true)) update_daemonset] ++
  [controlled cr (k:=KDaemonSet) (csi_daemonset cr (getDaemonSetArgs ns false) tlsVersion) update_daemonset].

Definition account_objects (cr : HostPathProvisioner) (ns : string) : list managed :=
  for_legacy cr [controlled cr (createServiceAccountObject ns) merged_into] ++
  [controlled cr (createCsiServiceAccountObject ns) merged_into].

Definition cluster_role_objects (cr : HostPathProvisioner) : list managed :=
  for_legacy cr [applied createClusterRoleObjectProvisioner] ++
  [applied (createCsiClusterRoleObjectProvisioner cr)].

Definition cluster_role_binding_objects (cr : HostPathProvisioner) (ns : string) : list managed :=
  [applied (createClusterRoleBindingObject ProvisionerServiceAccountNameCsi ns ProvisionerServiceAccountNameCsi)] ++
  for_legacy cr
    [applied (createClusterRoleBindingObject MultiPurposeHostPathProvisionerName ns ProvisionerServiceAccountName)].

Definition role_object (ns : string) : managed := applied (createRoleObjectProvisioner ns).
Definition role_binding_object (ns : string) : managed :=
  applied (createRoleBindingObject ProvisionerServiceAccountNameCsi ns ProvisionerServiceAccountNameCsi).

Definition csi_driver_object : managed :=
  Managed KCSIDriver ("", driverName) (setLastAppliedConfiguration createCSIDriverObject)
    (λ found, merged_into (copyImmutableFields (setLastAppliedConfiguration createCSIDriverObject) found) found).

Definition access_objects (cr : HostPathProvisioner) (ns : string) : list managed :=
  account_objects cr ns ++ cluster_role_objects cr ++ cluster_role_binding_objects cr ns ++
  [role_object ns; role_binding_object ns; csi_driver_object].

Definition constraint_objects (cr : HostPathProvisioner) (ns : string) : list managed :=
  for_legacy cr [applied (createSecurityContextConstraintsObject ns)] ++
  [applied (createCsiSecurityContextConstraintsObject ns)].

(** An existing PrometheusRule is merged into itself. *)
Definition monitoring_objects (ns : string) : list managed :=
  match BuildPrometheusRule ns with
  | None => []
  | Some rule =>
      [Managed KPrometheusRule (ObjectKeyFromObject rule) (setLastAppliedConfiguration rule)
         (λ found, merged_into found found);
       applied (createPrometheusRole ns); applied (createPrometheusRoleBinding ns);
       applied (createPrometheusService ns); applied (createPrometheusServiceMonitor ns)]
  end.

(** The objects of a storage pool on a node *)
Definition pool_objects (cr : HostPathProvisioner) (ns : string) (pool : StoragePool) (node : Node) : list managed :=
  match PVCTemplate pool with
  | None => []
  | Some template =>
      let deployment :=
        controlled cr (k:=KDeployment) (storagePoolDeploymentByNode cr pool template ns node) update_deployment in
      if isShared (Some template) then
        [created_once (storagePoolPVC pool template ns None); deployment; created_once (backendStorageClass pool)]
      else [created_once (storagePoolPVC pool template ns (Some node)); deployment]
  end.
End Managed.

(** ** Putting an object in place *)

Abbreviation achieves p Φ := (ensures any_kreq p Φ).

Lemma achieves_nothing (p : kprog error) (Φ : ktrace → Prop) : (∀ tr, Φ tr) → achieves p Φ.
Proof. intros HΦ. eapply ensures_mono; [apply ensures_footprint, footprint_any|auto]. Qed.

Lemma achieves_and p k (Φ Ψ Χ : ktrace → Prop) :
  achieves p Φ → achieves k Ψ → monotone Φ → (∀ tr, Φ tr → Ψ tr → Χ tr) →
  achieves (on_err p (λ e, mret (Some e)) k) Χ.
Proof. intros Hp Hk HΦ HΧ. eapply ensures_mono; [by apply ensures_on_err|]. intros tr []. auto. Qed.

(** Only one of the two parts matters. *)
Lemma achieves_first p k (Φ : ktrace → Prop) :
  achieves p Φ → monotone Φ → achieves (on_err p (λ e, mret (Some e)) k) Φ.
Proof. intros Hp HΦ. eapply achieves_and; [exact Hp|by apply (achieves_nothing _ (λ _, True))|done|auto]. Qed.

Lemma achieves_second p k (Φ : ktrace → Prop) :
  achieves k Φ → achieves (on_err p (λ e, mret (Some e)) k) Φ.
Proof. intros Hk. by eapply (achieves_and _ _ (λ _, True)); [apply achieves_nothing|exact Hk|..]. Qed.

Lemma achieves_then {A} (p : kprog (result A)) k (Φ : ktrace → Prop) :
  (∀ a, achieves (k a) Φ) → achieves (with_ok p (λ e, mret (Some e)) k) Φ.
Proof.
  intros Hk. eapply ensures_mono.
  - apply (ensures_with_ok _ _ _ (λ _ _, True) (λ _, Φ)); [apply gives_footprint, footprint_any|done|done].
  - naive_solver.
Qed.

Section Establish.
Context `{PL : Platform, CD : Codec} (cr : HostPathProvisioner).

Lemma create_establishes m after : achieves (create_resource cr (m_object m) after) (in_place m).
Proof.
  intros R tr. unfold create_resource. apply wp_with_ok. cbn [wp request]. split; [done|].
  intros [stored|e] _; cbn [post_with_ok]; [|by repeat split].
  eapply (wp_footprint _ any_kreq (λ _, any_kreq)); [apply footprint_any|done|]. intros tr' o Hp _.
  left. exists stored. eapply elem_of_monotone; [exact Hp|apply last_event].
Qed.

Lemma update_establishes m name found o :
  m_update m found = Ok o →
  achieves (update_resource cr name found o)
    (λ tr, Ev (Get (m_kind m) (m_key m)) (Ok found) ∈ tr → in_place m tr).
Proof.
  intros Hu R tr. unfold update_resource. destruct (DeepEqual found o) eqn:He.
  - apply bool_decide_eq_true in He as <-. intros _ Hg. right; left. exists found. split; [done|by left].
  - apply wp_with_ok. cbn [wp request]. split; [done|]. intros [stored|e] _; cbn [post_with_ok]; [|by repeat split].
    eapply (wp_footprint _ any_kreq (λ _, any_kreq)); [apply footprint_any|done|]. intros tr' x Hp _ Hg.
    right; left. exists found. split; [done|]. right. exists o, stored. split; [done|].
    eapply elem_of_monotone; [exact Hp|apply last_event].
Qed.

(** Update an object that was found, if it can be merged. *)
Lemma merge_establishes m name found :
  achieves match m_update m found with
           | Err err => mret (Some err)
           | Ok o => update_resource cr name found o
           end (λ tr, Ev (Get (m_kind m) (m_key m)) (Ok found) ∈ tr → in_place m tr).
Proof. destruct (m_update m found) eqn:Hu; [by apply update_establishes|]. by intros R tr. Qed.

(** Look the object up, and create or update it. *)
Lemma upsert_establishes m (p : result (obj (m_kind m)) → kprog error) :
  (∀ found, achieves (p (Ok found)) (λ tr, Ev (Get (m_kind m) (m_key m)) (Ok found) ∈ tr → in_place m tr)) →
  (∀ e, (∃ after, p (Err e) = create_resource cr (m_object m) after) ∨ ∃ e', p (Err e) = mret (Some e')) →
  achieves (r ← request (Get (m_kind m) (m_key m)); p r) (in_place m).
Proof.
  intros Hf He. apply ensures_read; [done|]. intros [found|e]; [apply Hf|].
  destruct (He e) as [[after ->]|[e' ->]].
  - eapply ensures_mono; [apply create_establishes|]. auto.
  - by intros R tr.
Qed.

Lemma create_or_update_establishes m after :
  (∀ found, m_update m found = merged_into (m_object m) found) →
  achieves (create_or_update cr (m_key m) (m_object m) after) (in_place m).
Proof.
  intros Hm. apply upsert_establishes.
  - intros found. unfold merge_and_update. cbv zeta. fold (merged_into (m_object m) found). rewrite <-Hm.
    apply merge_establishes.
  - intros e. destruct (IsNotFound e); eauto.
Qed.

Lemma applied_establishes {k} (o : obj k) : achieves (reconcileRbacResource o o cr) (in_place (applied o)).
Proof. by apply (create_or_update_establishes (applied o)). Qed.

Lemma legacy_establishes p q l :
  achieves p (all_in_place l) → achieves (if isLegacy cr then p else q) (all_in_place (for_legacy cr l)).
Proof.
  intros Hp. unfold for_legacy. destruct (isLegacy cr); [done|]. apply achieves_nothing. intros tr m Hm.
  by apply elem_of_nil in Hm.
Qed.

(** The object to create is the one with the custom resource as its controller. *)
Lemma controlled_by_cr {k} (o d : obj k) :
  OwnerReferences (o_meta o) = [] → SetControllerReference cr (setLastAppliedConfiguration o) = Ok d →
  d = controlled_object cr o.
Proof.
  intros Ho. unfold SetControllerReference, controlled_object. destruct (validateOwner _ _); [done|].
  assert (Hn : OwnerReferences (o_meta (setLastAppliedConfiguration o)) = []).
  { unfold setLastAppliedConfiguration. by destruct (Marshal o). }
  unfold GetControllerOf. rewrite Hn. cbn [List.find]. intros [= <-]. unfold with_meta. cbn [o_type o_body o_meta].
  f_equal.
Qed.

Lemma controlled_key {k} (o : obj k) : ObjectKeyFromObject (controlled_object cr o) = ObjectKeyFromObject o.
Proof. rewrite <-(setLastAppliedConfiguration_key o). done. Qed.

(** ** The managed resources, one after the other *)

Lemma daemonset_establishes (ds : DaemonSet) :
  OwnerReferences (o_meta ds) = [] →
  achieves (reconcileDaemonSetForSa ds cr) (in_place (controlled cr ds update_daemonset)).
Proof.
  intros Ho. unfold reconcileDaemonSetForSa.
  destruct (SetControllerReference _ _) as [d|e] eqn:Hd; [|by intros R tr].
  pose proof (controlled_by_cr _ _ Ho Hd) as ->. change (o_namespace (controlled_object cr ds), o_name (controlled_object cr ds))
    with (ObjectKeyFromObject (controlled_object cr ds)). rewrite controlled_key.
  apply (upsert_establishes (controlled cr ds update_daemonset)); unfold daemonset_answered.
  - intros found. case_bool_decide as Hs.
    + apply achieves_second. by intros R tr.
    + apply (update_establishes (controlled cr ds update_daemonset)).
      cbn [m_update controlled]. unfold update_daemonset. by rewrite bool_decide_eq_true_2.
  - intros e. cbn [m_object controlled]. destruct (IsNotFound e); eauto.
Qed.

Lemma csi_daemonset_establishes ns :
  achieves (ds ← createCSIDaemonSetObject cr (getDaemonSetArgs ns false); reconcileDaemonSetForSa ds cr)
    (λ tr, ∃ tls, in_place (controlled cr (k:=KDaemonSet)
       (csi_daemonset cr (getDaemonSetArgs ns false) tls) update_daemonset) tr).
Proof.
  intros R tr. apply wp_bind. unfold createCSIDaemonSetObject. apply wp_bind.
  apply (wp_footprint _ any_kreq (λ _, any_kreq)); [apply footprint_any|done|].
  intros tr' [tls| |] _; cbn [post_bind wp mret prog_mret]; [|done..].
  eapply wp_post; [by apply daemonset_establishes|]. intros tr2 o H Ho. exists tls. by apply H.
Qed.

Lemma reconcileDaemonSet_establishes ns :
  achieves (reconcileDaemonSet cr ns) (λ tr, ∃ tls, all_in_place (daemonset_objects cr ns tls) tr).
Proof.
  unfold reconcileDaemonSet. cbv zeta. apply achieves_then. intros dups. apply achieves_second.
  eapply achieves_and; [|apply csi_daemonset_establishes|apply all_in_place_mono|].
  - apply legacy_establishes. eapply ensures_mono; [by apply daemonset_establishes|].
    intros tr. apply all_in_place_one.
  - intros tr Hl [tls Hc]. exists tls. apply all_in_place_app. split; [exact Hl|]. by apply all_in_place_one.
Qed.

Lemma account_establishes (o : obj KServiceAccount) :
  OwnerReferences (o_meta o) = [] →
  achieves (reconcileOneServiceAccount cr o) (in_place (controlled cr o merged_into)).
Proof.
  intros Ho. unfold reconcileOneServiceAccount.
  destruct (SetControllerReference _ _) as [d|e] eqn:Hd; [|by intros R tr].
  pose proof (controlled_by_cr _ _ Ho Hd) as ->. rewrite controlled_key.
  by apply (create_or_update_establishes (controlled cr o merged_into)).
Qed.

Lemma reconcileServiceAccount_establishes ns :
  achieves (reconcileServiceAccount cr ns) (all_in_place (account_objects cr ns)).
Proof.
  unfold reconcileServiceAccount. apply achieves_then. intros dups. do 2 apply achieves_second.
  eapply ensures_mono; [apply (ensures_for_err _ _ _ (λ o, in_place (controlled cr o merged_into)))|].
  - intros o Ho. apply account_establishes. destruct (isLegacy cr); set_solver.
  - intros o. apply in_place_mono.
  - intros tr H. unfold account_objects, for_legacy, all_in_place in *. destruct (isLegacy cr); set_solver.
Qed.

Lemma reconcileClusterRole_establishes :
  achieves (reconcileClusterRole cr) (all_in_place (cluster_role_objects cr)).
Proof.
  unfold reconcileClusterRole. cbv zeta.
  eapply achieves_and; [|apply achieves_first; [apply applied_establishes|apply in_place_mono]|apply all_in_place_mono|].
  - apply legacy_establishes. eapply ensures_mono; [apply applied_establishes|]. intros tr. apply all_in_place_one.
  - intros tr Hl Hc. apply all_in_place_app. split; [exact Hl|by apply all_in_place_one].
Qed.

Lemma reconcileClusterRoleBinding_establishes ns :
  achieves (reconcileClusterRoleBinding cr ns) (all_in_place (cluster_role_binding_objects cr ns)).
Proof.
  unfold reconcileClusterRoleBinding. cbv zeta.
  eapply achieves_and; [apply applied_establishes|apply legacy_establishes|apply in_place_mono|].
  - eapply ensures_mono; [apply achieves_first; [apply applied_establishes|apply in_place_mono]|].
    intros tr. apply all_in_place_one.
  - intros tr Hc Hl. apply all_in_place_app. split; [by apply all_in_place_one|exact Hl].
Qed.

Lemma reconcileRole_establishes ns : achieves (reconcileRole cr ns) (in_place (role_object ns)).
Proof. apply achieves_first; [apply applied_establishes|apply in_place_mono]. Qed.

Lemma reconcileRoleBinding_establishes ns :
  achieves (reconcileRoleBinding cr ns) (in_place (role_binding_object ns)).
Proof. apply achieves_first; [apply applied_establishes|apply in_place_mono]. Qed.

Lemma reconcileCSIDriver_establishes : achieves (reconcileCSIDriver cr) (in_place csi_driver_object).
Proof.
  apply (upsert_establishes csi_driver_object).
  - intros found. cbv zeta. set (d := copyImmutableFields _ found).
    change ((mergeObject d (with_meta (mergeLabelsAndAnnotations (o_meta d)) found)).2) with (m_update csi_driver_object found).
    destruct (m_update csi_driver_object found) as [o|e] eqn:Hu; [|by intros R tr].
    destruct (DeepEqual (k:=KCSIDriver) found o) eqn:He.
    + apply bool_decide_eq_true in He as <-. intros R tr _ Hg. right; left. exists found. split; [done|by left].
    + intros R tr. apply wp_with_ok. cbn [wp request]. split; [done|]. intros [stored|e] _; cbn [post_with_ok]; [|done].
      intros _ Hg. right; left. exists found. split; [done|]. right. exists o, stored. split; [done|apply last_event].
  - intros e. cbn [m_object csi_driver_object]. destruct (IsNotFound e); eauto.
Qed.

(** ** Optional kinds *)

(** The server does not have the kind. *)
Definition lacks (k : kind) (tr : ktrace) : Prop :=
  ∃ opts e, Ev (ListObjs k opts) (Err e) ∈ tr ∧ api_group_missing e = true.

Lemma lacks_mono k : monotone (lacks k).
Proof. intros tr tr' Hp (opts & e & H & He). exists opts, e. split; [by eapply elem_of_monotone|done]. Qed.

Definition in_place_if_used (k : kind) (l : list managed) (tr : ktrace) : Prop :=
  lacks k tr ∨ all_in_place l tr.

Lemma in_place_if_used_mono k l : monotone (in_place_if_used k l).
Proof. intros tr tr' Hp [H|H]; [left; by eapply lacks_mono|right; by eapply all_in_place_mono]. Qed.

Lemma when_used_establishes k p l :
  achieves p (all_in_place l) → achieves (when_used (checkUsed k) p) (in_place_if_used k l).
Proof.
  intros Hp R tr. apply wp_with_ok. unfold checkUsed. apply wp_with_ok. cbn [wp request]. split; [done|].
  intros [items|e] _; cbn [post_with_ok wp mret prog_mret].
  - eapply wp_post; [apply Hp|]. intros tr' o H Ho. right. by apply H.
  - destruct (api_group_missing e) eqn:He; cbn [wp]; intros Ho; [|done].
    left. eexists _, e. split; [apply last_event|done].
Qed.

Lemma reconcileSecurityContextConstraints_establishes ns :
  achieves (reconcileSecurityContextConstraints cr ns)
    (in_place_if_used KSecurityContextConstraints (constraint_objects cr ns)).
Proof.
  apply when_used_establishes. eapply achieves_and; [apply legacy_establishes| |apply all_in_place_mono|].
  - eapply ensures_mono; [by apply (create_or_update_establishes (applied (createSecurityContextConstraintsObject ns)))|].
    intros tr. apply all_in_place_one.
  - by apply (create_or_update_establishes (applied (createCsiSecurityContextConstraintsObject ns))).
  - intros tr Hl Hc. apply all_in_place_app. split; [exact Hl|by apply all_in_place_one].
Qed.

Lemma prometheus_establishes {k} (o : obj k) same :
  achieves (reconcilePrometheusResource cr o o same)
    (in_place (if same then Managed k (ObjectKeyFromObject o) (setLastAppliedConfiguration o)
                              (λ found, merged_into found found)
               else applied o)).
Proof.
  unfold reconcilePrometheusResource. destruct (Marshal o); [|by intros R tr]. cbv zeta.
  destruct same; [eapply (upsert_establishes (Managed _ _ _ _))|apply (upsert_establishes (applied o))].
  1,3: intros found; unfold merge_and_update; cbv zeta.
  - apply (merge_establishes (Managed k (ObjectKeyFromObject o) (setLastAppliedConfiguration o)
      (λ found, merged_into found found))).
  - apply (merge_establishes (applied o)).
  - intros e. cbn [m_object]. destruct (IsNotFound e); eauto.
  - intros e. cbn [m_object applied]. destruct (IsNotFound e); eauto.
Qed.

Lemma reconcilePrometheusInfra_establishes ns :
  achieves (reconcilePrometheusInfra cr ns) (in_place_if_used KPrometheusRule (monitoring_objects ns)).
Proof.
  apply when_used_establishes. unfold monitoring_objects. destruct (BuildPrometheusRule ns) as [rule|]; [|by intros R tr].
  cbv zeta. eapply ensures_mono.
  - do 4 (apply ensures_on_err; [apply prometheus_establishes| |apply in_place_mono]).
    apply prometheus_establishes.
  - intros tr (H1 & H2 & H3 & H4 & H5) m. rewrite !elem_of_cons, elem_of_nil. naive_solver.
Qed.

(** ** Storage pools *)

Lemma ensure_exists_establishes {k} (o : obj k) : achieves (ensure_exists cr o) (in_place (created_once o)).
Proof.
  intros R tr. unfold ensure_exists. apply wp_bind. cbn [wp request]. split; [done|].
  intros [found|e] _; cbn [post_bind].
  - intros _. right; left. exists found. split; [apply last_event|by left].
  - destruct (IsNotFound e); [|done]. apply wp_with_ok. cbn [wp request]. split; [done|].
    intros [stored|e'] _; cbn [post_with_ok].
    + eapply (wp_footprint _ any_kreq (λ _, any_kreq)); [apply footprint_any|done|]. intros tr' x Hp _.
      left. exists stored. eapply elem_of_monotone; [exact Hp|apply last_event].
    + destruct (IsAlreadyExists e') eqn:He; [|by repeat split]. intros _.
      right; right. exists e'. split; [apply last_event|done].
Qed.

Lemma deployment_establishes ns pool template node cur :
  gives any_kreq (reconcileStoragePoolDeploymentByNode cr ns pool template node cur)
    (λ _, in_place (controlled cr (k:=KDeployment) (storagePoolDeploymentByNode cr pool template ns node) update_deployment)).
Proof.
  intros R tr. unfold reconcileStoragePoolDeploymentByNode. cbv zeta. set (d := storagePoolDeploymentByNode _ _ _ _ _).
  destruct (SetControllerReference _ _) as [desired|e] eqn:Hd; [|done].
  pose proof (controlled_by_cr d _ eq_refl Hd) as ->. rewrite controlled_key. set (m := controlled cr d update_deployment).
  apply wp_bind. cbn [wp request]. split; [done|]. intros [found|e] _; cbn [post_bind].
  - apply wp_on_err. eapply wp_strengthen; [by apply (update_establishes m)|].
    intros tr' [[e|]| |] Hp H; cbn [post_on_err]; try done. intros c _. apply H; [done|].
    eapply elem_of_monotone; [exact Hp|apply last_event].
  - destruct (IsNotFound e); [|done]. apply wp_on_err. eapply wp_post; [apply (create_establishes m)|].
    intros tr' [[e'|]| |] H; cbn [post_on_err]; try done. intros c _. by apply H.
Qed.

Lemma reconcile_pool_establishes ns nodes cur pool :
  gives any_kreq (reconcile_pool cr ns nodes cur pool)
    (λ _ tr, ∀ node, node ∈ nodes → all_in_place (pool_objects cr ns pool node) tr).
Proof.
  unfold reconcile_pool, pool_objects. cbv zeta. destruct (PVCTemplate pool) as [template|].
  2: { apply gives_ret. intros c tr _ node _ m Hm. by apply elem_of_nil in Hm. }
  destruct (isShared (Some template)).
  - destruct nodes as [|n nodes']; [apply gives_ret; intros c tr _ node Hn; by apply elem_of_nil in Hn|].
    set (nodes := n :: nodes'). eapply gives_mono.
    + apply gives_on_err; [apply ensure_exists_establishes| |apply in_place_mono].
      eapply gives_with_ok; [apply gives_for_state|intros cur2; apply gives_on_err|].
      * intros s node _. apply deployment_establishes.
      * intros node. apply in_place_mono.
      * apply ensure_exists_establishes.
      * by apply (gives_ret _ _ (λ _ _, True)).
      * apply in_place_mono.
      * intros cur2 tr tr' Hp H node Hn. eapply in_place_mono; [exact Hp|by apply H].
    + intros c tr (Hc & s & Hd & Hs & _) node Hn m. rewrite !elem_of_cons, elem_of_nil. specialize (Hd node Hn). naive_solver.
  - eapply gives_mono; [apply (gives_for_state _ _ _ _ (λ node, all_in_place
      [created_once (storagePoolPVC pool template ns (Some node));
       controlled cr (k:=KDeployment) (storagePoolDeploymentByNode cr pool template ns node) update_deployment]))|done].
    + intros s node _. eapply gives_mono.
      * apply gives_on_err; [apply ensure_exists_establishes|apply deployment_establishes|apply in_place_mono].
      * intros c tr (H1 & H2) m. rewrite !elem_of_cons, elem_of_nil. naive_solver.
    + intros node. apply all_in_place_mono.
Qed.

(** The nodes the reconciliation works on: those the pods of the CSI DaemonSet
    run on, or none when there is no DaemonSet yet *)
Inductive nodes_read (ns : string) (tr : ktrace) : list Node → Prop :=
| no_daemonset e :
    Ev (Get KDaemonSet (ns, MultiPurposeHostPathProvisionerName +:+ "-csi")) (Err e) ∈ tr →
    IsNotFound e = true → nodes_read ns tr []
| nodes_of_pods ds opts pods names nodes :
    Ev (Get KDaemonSet (ns, MultiPurposeHostPathProvisionerName +:+ "-csi")) (Ok ds) ∈ tr →
    Ev (ListObjs KPod opts) (Ok pods) ∈ tr → lo_Namespace opts = ns →
    Ev (RangeOver (node_names ds pods)) names ∈ tr →
    Forall2 (λ name node, Ev (Get KNode ("", name)) (Ok node) ∈ tr) names nodes →
    nodes_read ns tr nodes.

Lemma nodes_read_mono ns nodes : monotone (λ tr, nodes_read ns tr nodes).
Proof.
  intros tr tr' Hp [e ? ?|ds opts pods names nodes' ? ? ? ? Hn].
  - eapply no_daemonset; [by eapply elem_of_monotone|done].
  - eapply nodes_of_pods; [by eapply elem_of_monotone..|done|by eapply elem_of_monotone|].
    eapply Forall2_impl; [exact Hn|]. intros. by eapply elem_of_monotone.
Qed.

Lemma getNodesByDaemonSet_gives ns :
  gives any_kreq (getNodesByDaemonSet ns) (λ nodes tr, nodes_read ns tr nodes).
Proof.
  intros R tr. unfold getNodesByDaemonSet. cbv zeta. apply wp_bind. cbn [wp request]. split; [done|].
  intros [ds|e] _; cbn [post_bind].
  2: { destruct (IsNotFound e) eqn:He; [|done]. intros nodes [= <-]. eapply no_daemonset; [apply last_event|done]. }
  set (tr1 := tr ++ _). unfold list_labelled. destruct (LabelSelectorAsSelector _) as [sel|e]; [|done].
  apply wp_with_ok. cbn [wp request]. split; [done|]. intros [pods|e] _; cbn [post_with_ok]; [|done].
  set (tr2 := tr1 ++ _). apply wp_bind. cbn [wp request]. split; [done|]. intros names _. cbn [post_bind].
  set (tr3 := tr2 ++ _). eapply wp_strengthen.
  - apply (wp_for_state _ _ names [] _
      (λ past tr nodes, Forall2 (λ name node, Ev (Get KNode ("", name)) (Ok node) ∈ tr) past nodes)); [done|].
    intros past name rest tr' nodes _ Hn. apply wp_with_ok. cbn [wp request]. split; [done|].
    intros [node|e] _; cbn [post_with_ok wp mret prog_mret]; [|done]. intros s [= <-].
    apply Forall2_app; [|constructor; [apply last_event|done]].
    eapply Forall2_impl; [exact Hn|]. intros. eapply elem_of_monotone; [by eexists|done].
  - intros tr' o Hp H nodes Ho. eapply (nodes_of_pods _ _ ds _ pods names); [..|by apply H].
    + eapply elem_of_monotone; [exact Hp|]. do 2 (eapply elem_of_monotone; [by eexists|]). apply last_event.
    + eapply elem_of_monotone; [exact Hp|]. eapply elem_of_monotone; [by eexists|]. apply last_event.
    + done.
    + eapply elem_of_monotone; [exact Hp|]. apply last_event.
Qed.

(** The objects of all pools on all nodes *)
Definition pools_in_place (ns : string) (tr : ktrace) : Prop :=
  ∃ nodes, nodes_read ns tr nodes ∧
    ∀ pool node, pool ∈ StoragePools (cr_Spec cr) → node ∈ nodes → all_in_place (pool_objects cr ns pool node) tr.

Lemma reconcileStoragePools_establishes ns : achieves (reconcileStoragePools cr ns) (pools_in_place ns).
Proof.
  unfold reconcileStoragePools. cbv zeta. eapply ensures_mono.
  - apply ensures_with_ok; [apply getNodesByDaemonSet_gives| |intros nodes; apply nodes_read_mono].
    intros nodes. apply achieves_then. intros current. eapply ensures_mono.
    + apply (ensures_with_ok _ _ _ (λ _ tr, ∀ pool, pool ∈ StoragePools (cr_Spec cr) →
        ∀ node, node ∈ nodes → all_in_place (pool_objects cr ns pool node) tr) (λ _ _, True)).
      * apply (gives_for_state _ _ _ _ (λ pool tr, ∀ node, node ∈ nodes → all_in_place (pool_objects cr ns pool node) tr)).
        -- intros s pool _. apply reconcile_pool_establishes.
        -- intros pool tr tr' Hp H node Hn. eapply all_in_place_mono; [exact Hp|by apply H].
      * intros unused. by apply achieves_nothing.
      * intros _ tr tr' Hp H pool Hpool node Hn. eapply all_in_place_mono; [exact Hp|by apply H].
    + intros tr (unused & H & _). exact H.
  - intros tr (nodes & Hn & H). exists nodes. split; [exact Hn|]. intros pool node Hp. by apply H.
Qed.

Lemma pools_in_place_mono ns : monotone (pools_in_place ns).
Proof.
  intros tr tr' Hp (nodes & Hn & H). exists nodes. split; [by eapply nodes_read_mono|].
  intros pool node Hpool Hnode. eapply all_in_place_mono; [exact Hp|by apply H].
Qed.
End Establish.

(** ** The theorem *)

(** Everything the custom resource asks for is in place. *)
Definition deployed `{PL : Platform, CD : Codec} (cr : HostPathProvisioner) (ns : string) (tr : ktrace) : Prop :=
  (∃ tls, all_in_place (daemonset_objects cr ns tls) tr) ∧
  pools_in_place cr ns tr ∧
  all_in_place (access_objects cr ns) tr ∧
  in_place_if_used KSecurityContextConstraints (constraint_objects cr ns) tr ∧
  in_place_if_used KPrometheusRule (monitoring_objects ns) tr.

(** C5: a successful reconciliation has deployed everything.  When
    [reconcile_resources] reports no error, whatever the API server answered,
    every object of the custom resource is in place: the server stored the object
    the operator wants, or stored the update of the one it had, or showed one that
    needs no update.  These are the DaemonSets, the access control objects with
    the CSIDriver, the claims and Deployments of every storage pool on every node
    the DaemonSet's pods run on, and, unless the server lacks the kinds, the
    security context constraints and the monitoring objects. *)
Theorem success_means_deployed `{PL : Platform, CD : Codec} R cr ns tr :
  wp R any_request (reconcile_resources cr ns) (λ tr' o, o = Returned None → deployed cr ns tr') tr.
Proof.
  eapply wp_post; [eapply (wp_guarantee _ any_kreq); [|done]|].
  - unfold reconcile_resources. cbv zeta.
    apply ensures_on_err; [apply reconcileDaemonSet_establishes| |].
    1: apply ensures_on_err; [apply reconcileStoragePools_establishes| |apply pools_in_place_mono].
    1: apply ensures_on_err; [apply reconcileServiceAccount_establishes| |apply all_in_place_mono].
    1: apply ensures_on_err; [apply reconcileClusterRole_establishes| |apply all_in_place_mono].
    1: apply ensures_on_err; [apply reconcileClusterRoleBinding_establishes| |apply all_in_place_mono].
    1: apply ensures_on_err; [apply reconcileRole_establishes| |apply in_place_mono].
    1: apply ensures_on_err; [apply reconcileRoleBinding_establishes| |apply in_place_mono].
    1: apply ensures_on_err; [apply reconcileCSIDriver_establishes| |apply in_place_mono].
    1: apply ensures_on_err; [apply reconcileSecurityContextConstraints_establishes|
         apply reconcilePrometheusInfra_establishes|apply in_place_if_used_mono].
    intros tr1 tr2 Hp [tls H]. exists tls. by eapply all_in_place_mono.
  - intros tr' o H Ho. destruct (H Ho) as (Hds & Hsp & Hsa & Hcr & Hcrb & Hr & Hrb & Hcsi & Hscc & Hp).
    split_and!; try done. unfold access_objects. rewrite !all_in_place_app. split_and!; try done.
    intros m. rewrite !elem_of_cons, elem_of_nil. naive_solver.
Qed.
