(* ===== verification/Steady.v ===== *)
(** * A settled cluster is left alone

    When every object a custom resource asks for is as the operator would leave
    it, and the status says so, [Reconcile] changes nothing: it creates nothing,
    updates nothing, and deletes only what is not there.  The cluster is a
    [snapshot], what it answers to reads as long as nobody writes; [steady] says
    when it is settled, in terms of the objects of Deployed.v. *)
From S2P Require Import Prelude GoStrings Prog Names Semver Api K8s Json JsonMerge Meta Conditions.
From S2P Require Import CryptoPolicy Rules Rbac ServiceAccount Scc CsiDriver Prometheus DaemonSet StoragePool.
From S2P Require Import Pools Controller Managed Deployed.

(** ** Snapshots *)

Record snapshot := {
  found_in : ∀ k, ObjectKey → result (obj k);
  lists_in : ∀ k, ListOptions → result (list (obj k)) }.

(** The answers of a cluster nobody changes; the order of a map is free, and so
    are the clock and the results of writes. *)
Definition reads_from (c : snapshot) : rely kreq := λ T r,
  match r in kreq T return T → Prop with
  | Get k key => λ x, x = found_in c k key
  | ListObjs k opts => λ x, x = lists_in c k opts
  | Delete k key _ => λ x, ∀ e, found_in c k key = Err e → IsNotFound e = true →
                           ∃ e', x = Some e' ∧ IsNotFound e' = true
  | RangeOver ks => λ ks', ks' ≡ₚ ks
  | _ => λ _, True
  end.

(** The object is not there. *)
Definition absent (c : snapshot) (k : kind) (key : ObjectKey) : Prop :=
  ∃ e, found_in c k key = Err e ∧ IsNotFound e = true.

(** Requests that change nothing *)
Definition quiet (c : snapshot) : ∀ T, kreq T → Prop := λ T r,
  match r with
  | Create _ _ | Update _ _ => False
  | Delete k key _ => absent c k key
  | _ => True
  end.

(** A quiet program, and what it returns *)
Abbreviation calm c p Φ := (triple true (reads_from c) (quiet c) p Φ).
Definition no_error : error → Prop := λ e, e = None.
Definition is_value {A} (Φ : A → Prop) (r : result A) : Prop := ∃ a, r = Ok a ∧ Φ a.

(** The value of a program that only reads *)
Fixpoint evaluate {A} (c : snapshot) (p : kprog A) : option A :=
  match p with
  | Ret a => Some a
  | Panic _ | Exit _ => None
  | @Do _ _ T r k =>
      match r in kreq T return (T → kprog A) → (T → option A) → option A with
      | Get kd key => λ _ ev, ev (found_in c kd key)
      | ListObjs kd opts => λ _ ev, ev (lists_in c kd opts)
      | _ => λ _ _, None
      end k (λ x, evaluate c (k x))
  end.

Section Calm.
Context (c : snapshot).

Lemma calm_evaluate {A} (p : kprog A) a : evaluate c p = Some a → calm c p (eq a).
Proof.
  induction p as [a'|m|code|T r k IH]; try done.
  - intros [= ->] tr. done.
  - destruct r; cbn [evaluate]; try done; intros He tr; (split; [done|]); intros x ->; by apply IH.
Qed.

Lemma calm_on_err {B} p h (k : kprog B) Φ : calm c p no_error → calm c k Φ → calm c (on_err p h k) Φ.
Proof. intros Hp Hk. eapply triple_bind; [exact Hp|]. by intros e ->. Qed.

Lemma calm_with_ok {A B} p h (k : A → kprog B) Φ Ψ :
  calm c p (is_value Φ) → (∀ a, Φ a → calm c (k a) Ψ) → calm c (with_ok p h k) Ψ.
Proof. intros Hp Hk. eapply triple_bind; [exact Hp|]. intros r (a & -> & Ha). auto. Qed.

(** Read a value, and go on with it. *)
Lemma calm_read {A B} p h (k : A → kprog B) a Ψ :
  evaluate c p = Some (Ok a) → calm c (k a) Ψ → calm c (with_ok p h k) Ψ.
Proof.
  intros Hp Hk. apply (calm_with_ok _ _ _ (eq a)).
  - eapply triple_mono; [by apply calm_evaluate|]. intros r <-. by exists a.
  - by intros a' <-.
Qed.

Lemma calm_ret {A} (a : A) Φ : Φ a → calm c (mret a) Φ.
Proof. apply triple_ret. Qed.

Lemma calm_nil : calm c (mret None) no_error.
Proof. by apply calm_ret. Qed.

Lemma calm_for_err {A} (l : list A) body :
  (∀ a, a ∈ l → calm c (body a) no_error) → calm c (for_err l body) no_error.
Proof.
  induction l as [|a l IH]; intros Hb; [apply calm_nil|]. cbn [for_err].
  apply calm_on_err; [apply Hb; left|]. apply IH. intros. apply Hb. by right.
Qed.

Lemma calm_for_state {A S} (l : list A) (s : S) body (Inv : list A → S → Prop) :
  Inv [] s →
  (∀ past a s, a ∈ l → Inv past s → calm c (body s a) (is_value (Inv (past ++ [a])))) →
  calm c (for_state l s body) (is_value (Inv l)).
Proof.
  intros Hs Hb.
  assert (H : ∀ rest past s, l = past ++ rest → Inv past s → calm c (for_state rest s body) (is_value (Inv l))).
  { induction rest as [|a rest IH]; intros past s' -> HI; cbn [for_state].
    - apply calm_ret. rewrite app_nil_r. by exists s'.
    - eapply calm_with_ok; [apply Hb; [apply elem_of_app; right; left|exact HI]|].
      intros s2 Hs2. apply (IH (past ++ [a])); [by rewrite <-app_assoc|done]. }
  by apply (H l []).
Qed.

Lemma calm_delete k ns name : absent c k (ns, name) → calm c (delete_object k ns name) no_error.
Proof.
  intros Hg. apply (triple_bind _ _ _ _ _ (λ x, ∃ e, x = Some e ∧ IsNotFound e = true)).
  - apply triple_request; [exact Hg|]. intros x Hx. destruct Hg as (e & He & Hn). by eapply Hx.
  - intros x (e & -> & He). rewrite He. apply calm_nil.
Qed.

Lemma calm_ignore_not_found p : calm c p no_error → calm c (ignore_not_found p) no_error.
Proof. intros Hp. apply calm_on_err; [done|apply calm_nil]. Qed.

(** ** Objects that are as wanted *)

Definition as_wanted (m : managed) : Prop :=
  ∃ found, found_in c (m_kind m) (m_key m) = Ok found ∧ m_update m found = Ok found.
Definition all_as_wanted (l : list managed) : Prop := ∀ m, m ∈ l → as_wanted m.

Lemma all_as_wanted_app l l' : all_as_wanted (l ++ l') ↔ all_as_wanted l ∧ all_as_wanted l'.
Proof. unfold all_as_wanted. setoid_rewrite elem_of_app. naive_solver. Qed.

Lemma all_as_wanted_one m : all_as_wanted [m] ↔ as_wanted m.
Proof. unfold all_as_wanted. setoid_rewrite list_elem_of_singleton. naive_solver. Qed.

(** Get the object, which needs no update. *)
Lemma calm_get {B} m (p : result (obj (m_kind m)) → kprog B) Φ :
  as_wanted m → (∀ found, m_update m found = Ok found → calm c (p (Ok found)) Φ) →
  calm c (r ← request (Get (m_kind m) (m_key m)); p r) Φ.
Proof.
  intros (found & Hf & Hu) Hp. apply (triple_bind _ _ _ _ _ (eq (Ok found))); [|intros r <-; by apply Hp].
  apply triple_request; [done|]. intros x ->. by symmetry.
Qed.
End Calm.

(** ** The reconcile functions on a settled cluster *)

(** What a resource that is not legacy no longer wants *)
Definition legacy_objects (ns : string) : list (kind * ObjectKey) :=
  [(KDaemonSet, (ns, MultiPurposeHostPathProvisionerName)); (KServiceAccount, (ns, ProvisionerServiceAccountName));
   (KClusterRole, ("", MultiPurposeHostPathProvisionerName));
   (KClusterRoleBinding, ("", MultiPurposeHostPathProvisionerName));
   (KSecurityContextConstraints, ("", MultiPurposeHostPathProvisionerName))].

Definition legacy_gone (c : snapshot) (cr : HostPathProvisioner) (ns : string) : Prop :=
  isLegacy cr = false → ∀ k key, (k, key) ∈ legacy_objects ns → absent c k key.

Section Resources.
Context `{PL : Platform, CD : Codec} (c : snapshot) (cr : HostPathProvisioner).

Lemma calm_update m name found :
  calm c match Ok found with Err err => mret (Some err) | Ok o => update_resource (k:=m_kind m) cr name found o end no_error.
Proof.
  change (calm c (update_resource cr name found found) no_error). rewrite update_same. apply calm_nil.
Qed.

Lemma calm_create_or_update m after :
  (∀ found, m_update m found = merged_into (m_object m) found) → as_wanted c m →
  calm c (create_or_update cr (m_key m) (m_object m) after) no_error.
Proof.
  intros Hm Hw. apply calm_get; [done|]. intros found Hu. unfold merge_and_update. cbv zeta.
  fold (merged_into (m_object m) found). rewrite <-Hm, Hu. apply calm_update.
Qed.

Lemma calm_applied {k} (o : obj k) : as_wanted c (applied o) → calm c (reconcileRbacResource o o cr) no_error.
Proof. intros. by apply (calm_create_or_update (applied o)). Qed.

(** A part for legacy resources, and one for the others *)
Lemma calm_legacy p q l :
  all_as_wanted c (for_legacy cr l) → (all_as_wanted c l → calm c p no_error) →
  (isLegacy cr = false → calm c q no_error) → calm c (if isLegacy cr then p else q) no_error.
Proof. unfold for_legacy. destruct (isLegacy cr); auto. Qed.

(** The custom resource is cluster-scoped, so it can own everything. *)
Context (Hscope : Namespace (o_meta cr) = "").

Lemma set_controlled {k} (o : obj k) :
  OwnerReferences (o_meta o) = [] →
  SetControllerReference cr (setLastAppliedConfiguration o) = Ok (controlled_object cr o).
Proof.
  intros Ho. destruct (SetControllerReference cr (setLastAppliedConfiguration o)) as [d|e] eqn:Hd.
  - f_equal. by apply controlled_by_cr.
  - assert (Hn : OwnerReferences (o_meta (setLastAppliedConfiguration o)) = []).
    { unfold setLastAppliedConfiguration. by destruct (Marshal o). }
    revert Hd. unfold SetControllerReference, validateOwner, GetControllerOf. by rewrite Hscope, Hn.
Qed.

Lemma calm_daemonset (ds : DaemonSet) :
  OwnerReferences (o_meta ds) = [] → as_wanted c (controlled cr ds update_daemonset) →
  calm c (reconcileDaemonSetForSa ds cr) no_error.
Proof.
  intros Ho Hw. unfold reconcileDaemonSetForSa. rewrite set_controlled by done.
  change (o_namespace (controlled_object cr ds), o_name (controlled_object cr ds))
    with (ObjectKeyFromObject (controlled_object cr ds)). rewrite controlled_key.
  apply (calm_get c (controlled cr ds update_daemonset)); [done|]. intros found. unfold daemonset_answered.
  cbn [m_update controlled]. unfold update_daemonset. case_bool_decide as Hs; [|done]. intros [= Hu].
  rewrite bool_decide_eq_false_2 by (by intros []). rewrite Hu, update_same. apply calm_nil.
Qed.

Lemma calm_account (o : obj KServiceAccount) :
  OwnerReferences (o_meta o) = [] → as_wanted c (controlled cr o merged_into) →
  calm c (reconcileOneServiceAccount cr o) no_error.
Proof.
  intros Ho Hw. unfold reconcileOneServiceAccount. rewrite set_controlled by done. rewrite controlled_key.
  by apply (calm_create_or_update (controlled cr o merged_into)).
Qed.

Context (ns : string).
Context (Hgone : legacy_gone c cr ns).

Lemma calm_delete_legacy k n name :
  (k, (n, name)) ∈ legacy_objects ns → isLegacy cr = false → calm c (delete_object k n name) no_error.
Proof. intros Hk Hl. by apply calm_delete, Hgone. Qed.

Lemma calm_reconcileDaemonSet tls :
  evaluate c (getDuplicateDaemonSet (o_name cr) ns) = Some (Ok []) →
  evaluate c GetTLSMinVersionString = Some tls → all_as_wanted c (daemonset_objects cr ns tls) →
  calm c (reconcileDaemonSet cr ns) no_error.
Proof.
  intros Hd Ht [Hl Hc]%all_as_wanted_app. unfold reconcileDaemonSet. cbv zeta. eapply calm_read; [exact Hd|].
  apply calm_on_err; [apply calm_nil|]. apply calm_on_err.
  - eapply calm_legacy; [exact Hl| |].
    + intros Hl1%all_as_wanted_one. by apply calm_daemonset.
    + apply calm_delete_legacy. left.
  - unfold createCSIDaemonSetObject. eapply triple_bind.
    + eapply triple_bind; [by apply calm_evaluate|]. intros tls' <-.
      apply (calm_ret _ _ (eq (csi_daemonset cr (getDaemonSetArgs ns false) tls))). done.
    + intros ds <-. apply calm_daemonset; [done|]. by apply all_as_wanted_one.
Qed.

Lemma calm_reconcileServiceAccount :
  evaluate c (getDuplicateServiceAccount (o_name cr) ns) = Some (Ok []) →
  all_as_wanted c (account_objects cr ns) → calm c (reconcileServiceAccount cr ns) no_error.
Proof.
  intros Hd Hw. unfold reconcileServiceAccount. eapply calm_read; [exact Hd|].
  apply calm_on_err; [apply calm_nil|]. apply calm_on_err.
  - destruct (isLegacy cr) eqn:Hl; [apply calm_nil|]. apply calm_delete_legacy; [right; left|done].
  - apply calm_for_err. intros o Ho. unfold account_objects, for_legacy in Hw.
    apply calm_account; [destruct (isLegacy cr); set_solver|apply Hw]. destruct (isLegacy cr); set_solver.
Qed.

Lemma calm_reconcileClusterRole :
  all_as_wanted c (cluster_role_objects cr) → calm c (reconcileClusterRole cr) no_error.
Proof.
  intros [Hl Hc]%all_as_wanted_app. unfold reconcileClusterRole. cbv zeta. apply calm_on_err.
  - eapply calm_legacy; [exact Hl| |].
    + intros Hl1%all_as_wanted_one. by apply calm_applied.
    + intros. apply calm_ignore_not_found, calm_delete_legacy; [right; right; left|done].
  - apply calm_on_err; [|apply calm_nil]. apply calm_applied. by apply all_as_wanted_one.
Qed.

Lemma calm_reconcileClusterRoleBinding :
  all_as_wanted c (cluster_role_binding_objects cr ns) → calm c (reconcileClusterRoleBinding cr ns) no_error.
Proof.
  intros [Hc Hl]%all_as_wanted_app. unfold reconcileClusterRoleBinding. cbv zeta. apply calm_on_err.
  - apply calm_applied. by apply all_as_wanted_one.
  - eapply calm_legacy; [exact Hl| |].
    + intros Hl1%all_as_wanted_one. apply calm_on_err; [by apply calm_applied|apply calm_nil].
    + intros. apply calm_ignore_not_found, calm_delete_legacy; [do 3 right; left|done].
Qed.

Lemma calm_reconcileRole : as_wanted c (role_object ns) → calm c (reconcileRole cr ns) no_error.
Proof. intros. apply calm_on_err; [by apply calm_applied|apply calm_nil]. Qed.

Lemma calm_reconcileRoleBinding : as_wanted c (role_binding_object ns) → calm c (reconcileRoleBinding cr ns) no_error.
Proof. intros. apply calm_on_err; [by apply calm_applied|apply calm_nil]. Qed.

Lemma calm_reconcileCSIDriver : as_wanted c csi_driver_object → calm c (reconcileCSIDriver cr) no_error.
Proof.
  intros Hw. apply (calm_get c csi_driver_object); [done|]. intros found Hu. cbv zeta.
  set (d := copyImmutableFields _ found).
  change ((mergeObject d (with_meta (mergeLabelsAndAnnotations (o_meta d)) found)).2)
    with (m_update csi_driver_object found). rewrite Hu.
  unfold DeepEqual. rewrite bool_decide_eq_true_2 by done. apply calm_nil.
Qed.

Lemma calm_when_used k used p :
  evaluate c (checkUsed k) = Some (Ok used) → (used = true → calm c p no_error) →
  calm c (when_used (checkUsed k) p) no_error.
Proof. intros Hu Hp. eapply calm_read; [exact Hu|]. destruct used; [auto|apply calm_nil]. Qed.

Lemma calm_reconcileSecurityContextConstraints used :
  evaluate c checkSCCUsed = Some (Ok used) → (used = true → all_as_wanted c (constraint_objects cr ns)) →
  calm c (reconcileSecurityContextConstraints cr ns) no_error.
Proof.
  intros Hu Hw. eapply calm_when_used; [exact Hu|]. intros [Hl Hc]%Hw%all_as_wanted_app.
  apply calm_on_err.
  - eapply calm_legacy; [exact Hl| |].
    + intros Hl1%all_as_wanted_one. by apply (calm_create_or_update (applied (createSecurityContextConstraintsObject ns))).
    + intros. eapply calm_when_used; [exact Hu|]. intros _. apply calm_delete_legacy; [do 4 right; left|done].
  - apply (calm_create_or_update (applied (createCsiSecurityContextConstraintsObject ns))); [done|].
    by apply all_as_wanted_one.
Qed.

(** Every object can be encoded. *)
Context (Hencode : ∀ k (o : obj k), is_ok (Marshal o) = true).

Lemma calm_prometheus m (same : bool) (o : obj (m_kind m)) :
  m_key m = ObjectKeyFromObject o →
  (∀ found, m_update m found = merged_into (if same then found else setLastAppliedConfiguration o) found) →
  as_wanted c m → calm c (reconcilePrometheusResource cr o o same) no_error.
Proof.
  intros Hk Hm Hw. unfold reconcilePrometheusResource. specialize (Hencode _ o). destruct (Marshal o); [|done].
  cbv zeta. rewrite <-Hk. apply calm_get; [done|]. intros found Hu. unfold merge_and_update. cbv zeta.
  fold (merged_into (if same then found else setLastAppliedConfiguration o) found). rewrite <-Hm, Hu.
  apply calm_update.
Qed.

Lemma calm_reconcilePrometheusInfra used :
  evaluate c checkPrometheusUsed = Some (Ok used) →
  (used = true → BuildPrometheusRule ns ≠ None ∧ all_as_wanted c (monitoring_objects ns)) →
  calm c (reconcilePrometheusInfra cr ns) no_error.
Proof.
  intros Hu Hw. eapply calm_when_used; [exact Hu|]. intros Ht. destruct (Hw Ht) as [Hr Ho].
  unfold monitoring_objects in Ho. destruct (BuildPrometheusRule ns) as [rule|]; [|done]. cbv zeta.
  assert (Hm : ∀ k (o : obj k), as_wanted c (applied o) → calm c (reconcilePrometheusResource cr o o false) no_error).
  { intros k o. by apply (calm_prometheus (applied o) false o). }
  apply calm_on_err; [eapply (calm_prometheus (Managed KPrometheusRule _ _ _) true rule); [| |apply Ho; left]; done|].
  apply calm_on_err; [apply Hm, Ho; right; left|].
  apply calm_on_err; [apply Hm, Ho; right; right; left|].
  apply calm_on_err; [apply Hm, Ho; do 3 right; left|].
  apply Hm, Ho. do 4 right; left.
Qed.

(** ** Storage pools *)

Lemma calm_ensure_exists {k} (o : obj k) : as_wanted c (created_once o) → calm c (ensure_exists cr o) no_error.
Proof. intros Hw. apply (calm_get c (created_once o)); [done|]. intros found _. apply calm_nil. Qed.

Definition deployment_of (pool : StoragePool) (node : Node) : string :=
  storagePoolDeploymentName (pool_Name pool) (o_name node).

Lemma calm_deployment pool template node cur :
  as_wanted c (controlled cr (k:=KDeployment) (storagePoolDeploymentByNode cr pool template ns node) update_deployment) →
  calm c (reconcileStoragePoolDeploymentByNode cr ns pool template node cur)
    (is_value (eq (delete (deployment_of pool node) cur))).
Proof.
  intros Hw. unfold reconcileStoragePoolDeploymentByNode. cbv zeta. rewrite set_controlled by done.
  set (d := storagePoolDeploymentByNode _ _ _ _ _) in *.
  assert (Hn : o_name (controlled_object cr d) = deployment_of pool node).
  { pose proof (controlled_key cr d) as Hk. by injection Hk. }
  rewrite controlled_key. apply (calm_get c (controlled cr d update_deployment)); [done|]. intros found [= Hu].
  apply calm_on_err; [rewrite Hu, update_same; apply calm_nil|]. apply calm_ret. rewrite Hn. by eexists.
Qed.

(** The Deployments of a pool are off the map. *)
Definition taken_off (pool : StoragePool) (nodes : list Node) (cur0 cur : deployments) : Prop :=
  cur ⊆ cur0 ∧ ∀ node, node ∈ nodes → cur !! deployment_of pool node = None.

Lemma taken_off_step pool nodes node cur0 cur :
  taken_off pool nodes cur0 cur → taken_off pool (nodes ++ [node]) cur0 (delete (deployment_of pool node) cur).
Proof.
  intros [Hs Hn]. split; [etrans; [apply delete_subseteq|done]|].
  intros n [Hin| ->%list_elem_of_singleton]%elem_of_app; [|apply lookup_delete_eq].
  eapply lookup_weaken_None; [by apply Hn|apply delete_subseteq].
Qed.

Lemma calm_deployments pool nodes cur body :
  (∀ node cur, node ∈ nodes → calm c (body cur node) (is_value (eq (delete (deployment_of pool node) cur)))) →
  calm c (for_state nodes cur body) (is_value (taken_off pool nodes cur)).
Proof.
  intros Hb. apply (calm_for_state c nodes cur body (λ past, taken_off pool past cur)).
  { split; [done|]. intros n Hn. by apply elem_of_nil in Hn. }
  intros past node s Hn Hs. eapply triple_mono; [by apply Hb|]. intros r (a & -> & <-). eexists. split; [done|].
  by apply taken_off_step.
Qed.

Lemma calm_reconcile_pool nodes cur pool :
  (∀ node, node ∈ nodes → all_as_wanted c (pool_objects cr ns pool node)) →
  calm c (reconcile_pool cr ns nodes cur pool)
    (is_value (λ cur', cur' ⊆ cur ∧ (PVCTemplate pool ≠ None → taken_off pool nodes cur cur'))).
Proof.
  intros Hw. unfold reconcile_pool, pool_objects in *. cbv zeta in *.
  destruct (PVCTemplate pool) as [template|]; [|apply calm_ret; by exists cur].
  assert (Hv : ∀ r, is_value (taken_off pool nodes cur) r → is_value (λ cur', cur' ⊆ cur ∧
    (Some template ≠ None → taken_off pool nodes cur cur')) r).
  { intros r (a & -> & Ha). exists a. split; [done|]. split; [apply Ha|done]. }
  destruct (isShared (Some template)).
  - destruct nodes as [|n nodes'] eqn:Hnodes.
    { apply calm_ret. exists cur. split; [done|]. split; [done|]. intros _. split; [done|]. intros n Hn.
      by apply elem_of_nil in Hn. }
    rewrite <-Hnodes in *. assert (Hn : n ∈ nodes) by (rewrite Hnodes; left).
    apply calm_on_err; [apply calm_ensure_exists; apply (Hw n Hn); left|].
    eapply calm_with_ok.
    + apply (calm_deployments pool). intros node cur1 Hnode. apply calm_deployment. apply (Hw node Hnode). right; left.
    + intros cur1 Hc. apply calm_on_err; [apply calm_ensure_exists; apply (Hw n Hn); right; right; left|].
      apply calm_ret, Hv. by exists cur1.
  - eapply triple_mono; [|exact Hv]. apply (calm_deployments pool). intros node cur1 Hnode.
    apply calm_on_err; [apply calm_ensure_exists; apply (Hw node Hnode); left|].
    apply calm_deployment. apply (Hw node Hnode). right; left.
Qed.

(** The nodes the pods of the CSI DaemonSet run on *)
Definition runs_on (nodes : list Node) : Prop :=
  ∃ ds pods sel, found_in c KDaemonSet (ns, MultiPurposeHostPathProvisionerName +:+ "-csi") = Ok ds ∧
    LabelSelectorAsSelector {[ "k8s-app" := MultiPurposeHostPathProvisionerName ]} = Ok sel ∧
    lists_in c KPod {| lo_Selector := sel; lo_Namespace := ns |} = Ok pods ∧
    Forall2 (λ name node, found_in c KNode ("", name) = Ok node) (node_names ds pods) nodes.

Lemma Forall2_image {A B} (f : A → result B) l l' :
  Forall2 (λ a b, f a = Ok b) l l' → ∀ b, b ∈ l' ↔ ∃ a, a ∈ l ∧ f a = Ok b.
Proof.
  induction 1 as [|a b l l' Hab _ IH]; intros x.
  - split; [intros Hx; by apply elem_of_nil in Hx|]. by intros (a & Ha%elem_of_nil & _).
  - rewrite elem_of_cons, IH. setoid_rewrite elem_of_cons. split.
    + intros [->|(y & ? & ?)]; eauto.
    + intros (y & [->|?] & Hy); [left; congruence|eauto].
Qed.

Lemma calm_getNodesByDaemonSet nodes :
  runs_on nodes → calm c (getNodesByDaemonSet ns) (is_value (λ l, ∀ node, node ∈ l ↔ node ∈ nodes)).
Proof.
  intros (ds & pods & sel & Hds & Hsel & Hpods & Hnodes). unfold getNodesByDaemonSet. cbv zeta.
  apply (triple_bind _ _ _ _ _ (eq (Ok ds))); [apply triple_request; [done|]; intros x ->; by symmetry|].
  intros r <-. unfold list_labelled. rewrite Hsel. apply (calm_with_ok c _ _ _ (eq pods)).
  { apply triple_request; [done|]. intros x ->. by exists pods. }
  intros l <-. apply (triple_bind _ _ _ _ _ (λ names, names ≡ₚ node_names ds pods)); [by apply triple_request|].
  intros names Hn. eapply triple_mono.
  - apply (calm_for_state c names [] _ (λ past l, Forall2 (λ name node, found_in c KNode ("", name) = Ok node) past l)).
    { constructor. }
    intros past name l Hname Hl. rewrite Hn in Hname.
    assert (∃ node, found_in c KNode ("", name) = Ok node) as [node Hnode].
    { apply list_elem_of_lookup in Hname as [i Hi]. destruct (Forall2_lookup_l _ _ _ _ _ Hnodes Hi) as (node & _ & ?). eauto. }
    apply (calm_with_ok c _ _ _ (eq node)).
    + apply triple_request; [done|]. intros x ->. by exists node.
    + intros n <-. apply calm_ret. eexists. split; [done|]. apply Forall2_app; [done|]. by repeat constructor.
  - intros r (l & -> & Hl). exists l. split; [done|]. intros node.
    rewrite (Forall2_image _ _ _ Hl), (Forall2_image _ _ _ Hnodes). by setoid_rewrite Hn.
Qed.

(** No Deployment of the custom resource is left over. *)
Definition all_used (nodes : list Node) (current : deployments) : Prop :=
  ∀ name d, current !! name = Some d → ∃ pool node, pool ∈ StoragePools (cr_Spec cr) ∧
    PVCTemplate pool ≠ None ∧ node ∈ nodes ∧ name = deployment_of pool node.

Lemma calm_for_deployments_empty body : calm c (for_deployments ∅ body) no_error.
Proof.
  unfold for_deployments. apply (triple_bind _ _ _ _ _ (eq [])).
  - apply triple_request; [done|]. intros x Hx. rewrite map_to_list_empty in Hx. simpl in Hx.
    symmetry in Hx. by apply Permutation_nil in Hx as ->.
  - intros names <-. apply calm_nil.
Qed.

Lemma calm_reconcileStoragePools nodes current :
  runs_on nodes → evaluate c (currentStoragePoolDeployments cr ns) = Some (Ok current) → all_used nodes current →
  (∀ pool node, pool ∈ StoragePools (cr_Spec cr) → node ∈ nodes → all_as_wanted c (pool_objects cr ns pool node)) →
  calm c (reconcileStoragePools cr ns) no_error.
Proof.
  intros Hr Hc Hu Hw. unfold reconcileStoragePools. cbv zeta.
  eapply calm_with_ok; [by apply calm_getNodesByDaemonSet|]. intros nodes' Hnodes. simpl in Hnodes.
  eapply calm_read; [exact Hc|]. eapply (calm_with_ok c _ _ _ (λ cur, cur = ∅)).
  - eapply triple_mono.
    + apply (calm_for_state c _ current _ (λ past cur, cur ⊆ current ∧
        ∀ pool, pool ∈ past → PVCTemplate pool ≠ None → taken_off pool nodes' current cur)).
      { split; [done|]. intros pool Hp. by apply elem_of_nil in Hp. }
      intros past pool cur Hp [Hs Ht]. eapply triple_mono; [apply calm_reconcile_pool|].
      { intros node Hn. apply Hw; [done|]. by apply Hnodes. }
      intros r (cur' & -> & Hs' & Ht'). exists cur'. split; [done|]. split; [by etrans|].
      intros p [Hin| ->%list_elem_of_singleton]%elem_of_app Hpt.
      * destruct (Ht p Hin Hpt) as [_ Hn]. split; [by etrans|]. intros node Hnode. by eapply lookup_weaken_None; [apply Hn|].
      * destruct (Ht' Hpt) as [_ Hn]. split; [by etrans|done].
    + intros r (cur & -> & Hs & Ht). exists cur. split; [done|]. apply map_empty. intros name.
      destruct (cur !! name) as [d|] eqn:Hd; [|done]. exfalso.
      destruct (Hu name d) as (pool & node & Hp & Hpt & Hn & ->); [by eapply lookup_weaken|].
      destruct (Ht pool Hp Hpt) as [_ Hoff]. rewrite Hoff in Hd; [done|]. by apply Hnodes.
  - intros cur ->. apply calm_for_deployments_empty.
Qed.
End Resources.

(** ** Heartbeats *)

(** The same condition, up to its heartbeat *)
Definition only_heartbeat (a b : Condition) : Prop := set_Heartbeat 0 a = set_Heartbeat 0 b.

#[export] Instance only_heartbeat_equivalence : Equivalence only_heartbeat.
Proof. split; unfold only_heartbeat; [done|by intros ?|intros ??? -> ->; done]. Qed.

Lemma only_heartbeat_spec a b :
  only_heartbeat a b ↔ cond_Type a = cond_Type b ∧ cond_Status a = cond_Status b ∧ Reason a = Reason b ∧
    Message a = Message b ∧ LastTransitionTime a = LastTransitionTime b.
Proof.
  unfold only_heartbeat, set_Heartbeat. split; [by intros [=]|]. by intros (-> & -> & -> & -> & ->).
Qed.

Lemma find_heartbeats conds conds' ty x :
  Forall2 only_heartbeat conds conds' → FindStatusCondition conds ty = Some x →
  ∃ x', FindStatusCondition conds' ty = Some x' ∧ only_heartbeat x x'.
Proof.
  unfold FindStatusCondition. induction 1 as [|a b conds conds' Hab _ IH]; [done|]. cbn [List.find].
  assert (has_type ty a = has_type ty b) as -> by (unfold has_type; by apply only_heartbeat_spec in Hab as [-> _]).
  destruct (has_type ty b); [|exact IH]. intros [= <-]. eauto.
Qed.

Lemma carries_heartbeats conds conds' new :
  Forall2 only_heartbeat conds conds' → carries conds new → carries conds' new.
Proof.
  intros Hc (x & Hx & Hs & Hr & Hm). destruct (find_heartbeats _ _ _ _ Hc Hx) as (x' & Hx' & He).
  exists x'. split; [done|]. apply only_heartbeat_spec in He as (_ & <- & <- & <- & _). done.
Qed.

Lemma update_heartbeat conds ty f x :
  FindStatusCondition conds ty = Some x → only_heartbeat x (f x) →
  Forall2 only_heartbeat conds (update_condition ty f conds).
Proof.
  unfold FindStatusCondition. intros Hx Hf. induction conds as [|a conds IH]; [done|]. cbn [List.find update_condition] in *.
  destruct (has_type ty a).
  - injection Hx as ->. by constructor.
  - constructor; [done|]. by apply IH.
Qed.

(** Setting a condition that is there only writes its heartbeat. *)
Lemma calm_SetStatusCondition c conds new :
  carries conds new → calm c (SetStatusCondition conds new) (Forall2 only_heartbeat conds).
Proof.
  intros (x & Hx & Hs & Hr & Hm). unfold SetStatusCondition. rewrite Hx, bool_decide_eq_false_2 by (by intros []).
  intros tr. split; [done|]. intros t _. apply update_heartbeat with (x := x); [done|].
  by apply only_heartbeat_spec.
Qed.

Definition beats (cr cr' : HostPathProvisioner) : Prop :=
  ∃ conds, Forall2 only_heartbeat (cr_Conditions cr) conds ∧ cr' = with_Status (set_Conditions conds) cr.

Lemma calm_set_cr_condition c cr0 cr new :
  carries (cr_Conditions cr) new → beats cr0 cr → calm c (set_cr_condition new cr) (beats cr0).
Proof.
  intros Hc (conds & Hb & ->). unfold set_cr_condition. eapply triple_bind; [by apply calm_SetStatusCondition|].
  intros conds' Hc'. apply calm_ret. exists conds'. split; [|done].
  change (cr_Conditions (with_Status (set_Conditions conds) cr0)) with conds in Hc'.
  by etrans.
Qed.

(** Marking a healthy resource as healthy *)
Lemma calm_MarkCrHealthyMessage c cr reason message :
  (∀ new, new ∈ mark_conditions Healthy reason message → carries (cr_Conditions cr) new) →
  calm c (MarkCrHealthyMessage cr reason message) (beats cr).
Proof.
  intros Hc.
  assert (Hstep : ∀ new cr', new ∈ mark_conditions Healthy reason message → beats cr cr' →
    calm c (set_cr_condition new cr') (beats cr)).
  { intros new cr' Hn Hb. apply calm_set_cr_condition; [|done]. destruct Hb as (conds & Hb & ->).
    by eapply carries_heartbeats; [|apply Hc]. }
  assert (Hself : beats cr cr).
  { exists (cr_Conditions cr). split; [done|by destruct cr as [? ? [? []]]]. }
  unfold MarkCrHealthyMessage. eapply triple_bind; [apply Hstep; [left|done]|]. intros cr1 H1.
  eapply triple_bind; [apply Hstep; [right; left|done]|]. intros cr2 H2. apply Hstep; [right; right; left|done].
Qed.

(** The comparison with the earlier copy then finds nothing to write. *)
Lemma heartbeats_back conds conds' :
  Forall2 only_heartbeat conds conds' → zip_with set_Heartbeat (LastHeartbeatTime <$> conds) conds' = conds.
Proof.
  induction 1 as [|a b conds conds' Hab _ IH]; [done|]. rewrite fmap_cons. cbn [zip_with]. rewrite IH. f_equal.
  apply only_heartbeat_spec in Hab as (H1 & H2 & H3 & H4 & H5). unfold set_Heartbeat.
  rewrite <-H1, <-H2, <-H3, <-H4, <-H5. by destruct a.
Qed.

Lemma heartbeat_types conds conds' :
  Forall2 only_heartbeat conds conds' → cond_Type <$> conds' = cond_Type <$> conds.
Proof.
  induction 1 as [|a b conds conds' Hab _ IH]; [done|]. rewrite !fmap_cons, IH.
  by apply only_heartbeat_spec in Hab as [-> _].
Qed.

Lemma calm_update_changed c cr cr' :
  NoDup (cond_Type <$> cr_Conditions cr) → beats cr cr' →
  calm c (update_changed cr cr' no_requeue None) (eq done_ok).
Proof.
  intros Hn (conds & Hb & ->). unfold update_changed, ignoreHeartBeatTimestamp.
  change (cr_Conditions (with_Status (set_Conditions conds) cr)) with conds.
  rewrite <-(heartbeats_back _ _ Hb). rewrite ignore_heartbeats_only; [| |done|].
  - apply (triple_bind _ _ _ _ _ (eq (with_Status (set_Conditions conds) cr))); [by apply calm_ret|].
    intros copy <-. unfold DeepEqual. rewrite bool_decide_eq_true_2 by done. by apply calm_ret.
  - by rewrite (heartbeat_types _ _ Hb).
  - rewrite length_fmap. by eapply Forall2_length.
Qed.

(** ** A settled custom resource *)

(** What the cluster shows *)
Record view := {
  v_nodes : list Node;            (* where the pods of the CSI DaemonSet run *)
  v_deployments : deployments;    (* the Deployments of the pools *)
  v_tls : string;                 (* the minimal TLS version *)
  v_constraints : bool;           (* it has security context constraints *)
  v_monitoring : bool;            (* it has the monitoring kinds *)
  v_legacy : option DaemonSet;
  v_csi : DaemonSet;
  v_statuses : list StoragePoolStatus;
  v_version : string }.

Section Settled.
Context `{PL : Platform, CD : Codec} (c : snapshot) (cr : HostPathProvisioner) (ns : string) (v : view).

(** The statuses of the pools, before they are sorted *)
Definition pool_statuses : kprog (result (list StoragePoolStatus)) :=
  if isLegacy cr then mret (Ok [pool_status legacyStoragePoolName 0 0 None])
  else for_state (StoragePools (cr_Spec cr)) [] (λ statuses storagePool,
         with_ok (storage_pool_status cr ns storagePool) (λ err, mret (Err err))
           (λ s, mret (Ok (statuses ++ [s])))).

(** Every object is as the operator would leave it, and none is left over. *)
Record steady_objects : Prop := {
  so_scope : Namespace (o_meta cr) = "";
  so_encode : ∀ k (o : obj k), is_ok (Marshal o) = true;
  so_tls : evaluate c GetTLSMinVersionString = Some (v_tls v);
  so_daemonsets : all_as_wanted c (daemonset_objects cr ns (v_tls v));
  so_access : all_as_wanted c (access_objects cr ns);
  so_has_constraints : evaluate c checkSCCUsed = Some (Ok (v_constraints v));
  so_constraints : v_constraints v = true → all_as_wanted c (constraint_objects cr ns);
  so_has_monitoring : evaluate c checkPrometheusUsed = Some (Ok (v_monitoring v));
  so_monitoring : v_monitoring v = true →
    BuildPrometheusRule ns ≠ None ∧ all_as_wanted c (monitoring_objects ns);
  so_nodes : runs_on c ns (v_nodes v);
  so_pools pool node : pool ∈ StoragePools (cr_Spec cr) → node ∈ v_nodes v →
    all_as_wanted c (pool_objects cr ns pool node);
  so_listed : evaluate c (currentStoragePoolDeployments cr ns) = Some (Ok (v_deployments v));
  so_used : all_used cr (v_nodes v) (v_deployments v);
  so_legacy_gone : legacy_gone c cr ns;
  so_no_old_daemonset : evaluate c (getDuplicateDaemonSet (o_name cr) ns) = Some (Ok []);
  so_no_old_account : evaluate c (getDuplicateServiceAccount (o_name cr) ns) = Some (Ok []) }.

(** The status of the custom resource says so. *)
Record steady_status : Prop := {
  ss_finalizer : HasFinalizer (o_meta cr) hppFinalizer = true;
  ss_kept : DeletionTimestamp (o_meta cr) = None;
  ss_operator : OperatorVersion (cr_Status cr) = v_version v;
  ss_target : TargetVersion (cr_Status cr) = v_version v;
  ss_observed : ObservedVersion (cr_Status cr) = v_version v;
  ss_version : v_version v ≠ "";
  ss_types : NoDup (cond_Type <$> cr_Conditions cr);
  ss_healthy new : new ∈ mark_conditions Healthy "Complete" "Application Available" →
    carries (cr_Conditions cr) new;
  ss_legacy : (if isLegacy cr
               then ∃ ds, v_legacy v = Some ds ∧
                 found_in c KDaemonSet (ns, MultiPurposeHostPathProvisionerName) = Ok ds
               else v_legacy v = None);
  ss_csi : found_in c KDaemonSet (ns, MultiPurposeHostPathProvisionerName +:+ "-csi") = Ok (v_csi v);
  ss_ready : daemonsets_ready cr (v_legacy v) (v_csi v) = true;
  ss_no_jobs : evaluate c (getCleanUpJobs ns) = Some (Ok []);
  ss_computed : evaluate c pool_statuses = Some (Ok (v_statuses v));
  ss_recorded : StoragePoolStatuses (cr_Status cr) = Some (sort_statuses (v_statuses v)) }.

Lemma calm_reconcile_resources : steady_objects → calm c (reconcile_resources cr ns) no_error.
Proof.
  intros []. unfold reconcile_resources, access_objects in *. cbv zeta.
  rewrite !all_as_wanted_app in so_access0. destruct so_access0 as (Ha & Hcr & Hcrb & Hr).
  apply calm_on_err; [by eapply calm_reconcileDaemonSet|].
  apply calm_on_err; [by eapply calm_reconcileStoragePools|].
  apply calm_on_err; [by apply calm_reconcileServiceAccount|].
  apply calm_on_err; [by eapply calm_reconcileClusterRole|].
  apply calm_on_err; [by apply calm_reconcileClusterRoleBinding|].
  apply calm_on_err; [apply calm_reconcileRole, Hr; left|].
  apply calm_on_err; [apply calm_reconcileRoleBinding, Hr; right; left|].
  apply calm_on_err; [apply calm_reconcileCSIDriver, Hr; right; right; left|].
  apply calm_on_err; [by eapply calm_reconcileSecurityContextConstraints|].
  by eapply calm_reconcilePrometheusInfra.
Qed.

Lemma calm_get_daemonsets {B} h (body : option DaemonSet → DaemonSet → kprog B) Φ :
  steady_status → calm c (body (v_legacy v) (v_csi v)) Φ → calm c (get_daemonsets cr ns h body) Φ.
Proof.
  intros Hs Hb. unfold get_daemonsets. apply (calm_with_ok c _ _ _ (eq (v_legacy v))).
  - pose proof (ss_legacy Hs) as Hl. destruct (isLegacy cr).
    + destruct Hl as (ds & -> & Hds). apply (triple_bind _ _ _ _ _ (eq (Ok ds))).
      * apply triple_request; [done|]. intros x ->. by symmetry.
      * intros x <-. apply calm_ret. by eexists.
    + apply calm_ret. rewrite Hl. by eexists.
  - intros l <-. apply (calm_with_ok c _ _ _ (eq (v_csi v))); [|by intros ds <-].
    apply triple_request; [done|]. intros x ->. rewrite (ss_csi Hs). by eexists.
Qed.

Lemma calm_reconcileCleanup n cr' :
  o_meta cr' = o_meta cr → steady_objects → steady_status →
  calm c (reconcileCleanup cr' ns n) (λ r, r.2 = None).
Proof.
  intros Hm Ho Hs. unfold reconcileCleanup, currentStoragePoolDeployments, controlled_by. rewrite Hm.
  eapply calm_read; [apply (so_listed Ho)|].
  assert (Hj : evaluate c (hasCleanUpFinished ns) = Some (Ok true)).
  { pose proof (ss_no_jobs Hs) as Hj. revert Hj. unfold hasCleanUpFinished, getCleanUpJobs, list_labelled.
    destruct (LabelSelectorAsSelector _) as [sel|e]; [|done]. cbn. destruct (lists_in c KJob _); [|done]. by intros [= ->]. }
  eapply calm_read; [exact Hj|]. destruct (_ && _); [|by apply calm_ret].
  apply calm_on_err; [|by apply calm_ret]. unfold removeCleanUpJobs.
  eapply calm_read; [apply (ss_no_jobs Hs)|]. apply calm_nil.
Qed.

Lemma calm_record_event cr' t r m : calm c (record_event cr' t r m) always.
Proof. by apply triple_request. Qed.

Lemma calm_reconcileUpdate :
  steady_objects → steady_status →
  calm c (reconcileUpdate cr ns) (λ r, r.1.2 = None ∧ beats cr r.2).
Proof.
  intros Ho Hs. unfold reconcileUpdate. apply calm_on_err; [by apply calm_reconcile_resources|].
  apply calm_get_daemonsets; [done|]. rewrite (ss_ready Hs).
  eapply triple_bind; [eapply triple_bind; [apply calm_MarkCrHealthyMessage, Hs|]|].
  - intros cr' Hb. apply (triple_bind _ _ _ _ _ always); [apply calm_record_event|]. intros _ _.
    apply calm_ret. exact Hb.
  - intros cr' Hb. simpl in Hb. eapply triple_bind.
    + apply calm_reconcileCleanup; [|done..]. by destruct Hb as (conds & _ & ->).
    + intros res Hres. by apply calm_ret.
Qed.

Lemma calm_reconcileStatus cr' :
  beats cr cr' → steady_status →
  calm c (reconcileStatus cr' ns (v_version v)) (λ r, r = (done_ok, cr')).
Proof.
  intros (conds & Hb & ->) Hs. set (cr' := with_Status _ _). unfold reconcileStatus, checkDegraded.
  apply (calm_with_ok c _ _ _ (eq (false, cr'))).
  - change (get_daemonsets cr' ns) with (get_daemonsets (B:=result (bool * HostPathProvisioner)) cr ns).
    apply calm_get_daemonsets; [done|]. cbv zeta.
    change (daemonsets_ready cr' (v_legacy v) (v_csi v)) with (daemonsets_ready cr (v_legacy v) (v_csi v)).
    rewrite (ss_ready Hs). cbn [negb andb]. apply (triple_bind _ _ _ _ _ (eq cr')); [by apply calm_ret|].
    intros x <-. apply calm_ret. by eexists.
  - intros x <-. apply (triple_bind _ _ _ _ _ (eq (Ok cr'))).
    + unfold reconcileStoragePoolStatus.
      change (calm c (with_ok pool_statuses (λ err, mret (Err err))
        (λ statuses, mret (Ok (with_Status (set_StoragePoolStatuses (sort_statuses statuses)) cr')))) (eq (Ok cr'))).
      eapply calm_read; [apply (ss_computed Hs)|]. apply calm_ret. f_equal.
      unfold cr'. pose proof (ss_recorded Hs) as Hr. destruct cr as [ty m [sp [co ov tv obs sps]]].
      cbn in Hr. by rewrite Hr.
    + intros x <-. apply calm_ret. cbn [negb andb]. rewrite bool_decide_eq_false_2; [done|].
      intros Hn. apply Hn. exact (ss_observed Hs).
Qed.
End Settled.

Section Reconcile.
Context `{PL : Platform, CD : Codec} (c : snapshot) (cr : HostPathProvisioner) (v : view).
Abbreviation ns := getNamespace.

Lemma steady_addFinalizer : steady_status c cr ns v → addFinalizer cr = mret (Ok cr).
Proof.
  intros Hs. unfold addFinalizer. rewrite bool_decide_eq_true_2 by apply (ss_kept _ _ _ _ Hs).
  assert (with_meta (AddFinalizer hppFinalizer) cr = cr) as ->.
  { apply with_meta_id. unfold AddFinalizer. by rewrite (ss_finalizer _ _ _ _ Hs). }
  by rewrite bool_decide_eq_true_2.
Qed.

Lemma steady_versions :
  steady_status c cr ns v → with_Status (set_Versions (v_version v) (v_version v)) cr = cr.
Proof.
  intros Hs. pose proof (ss_operator _ _ _ _ Hs) as Ho. pose proof (ss_target _ _ _ _ Hs) as Ht.
  destruct cr as [ty m [sp [co ov tv obs sps]]]. cbn in Ho, Ht. by subst.
Qed.

Lemma calm_reconcile_active :
  steady_objects c cr ns v → steady_status c cr ns v →
  calm c (reconcile_active cr ns (v_version v)) (eq done_ok).
Proof.
  intros Ho Hs. unfold reconcile_active. cbv zeta. rewrite steady_addFinalizer by done.
  apply (calm_with_ok c _ _ _ (eq cr)); [apply calm_ret; by eexists|]. intros x <-.
  rewrite steady_versions by done. pose proof (ss_observed _ _ _ _ Hs) as Hobs.
  unfold canUpgrade. rewrite Hobs, bool_decide_eq_false_2 by apply (ss_version _ _ _ _ Hs).
  rewrite bool_decide_eq_true_2 by done.
  unfold start_deploying, isDeploying. rewrite Hobs, bool_decide_eq_false_2 by apply (ss_version _ _ _ _ Hs).
  apply (calm_with_ok c _ _ _ (eq cr)); [apply calm_ret; by eexists|]. intros x <-.
  unfold start_upgrading. cbn [andb]. apply (calm_with_ok c _ _ _ (eq cr)); [apply calm_ret; by eexists|]. intros x <-.
  apply (triple_bind _ _ _ _ _ (λ r, r.1 = done_ok ∧ beats cr r.2)).
  - unfold reconcile_all. eapply triple_bind; [by eapply calm_reconcileUpdate|].
    intros [[res err] cr'] [He Hb]. cbn in He, Hb. subst err.
    eapply triple_mono; [by eapply calm_reconcileStatus|]. by intros r ->.
  - intros [[res err] cr'] [[= -> ->] Hb]. apply calm_update_changed; [apply (ss_types _ _ _ _ Hs)|done].
Qed.

(** What [Reconcile] reads before it starts *)
Definition shown (key : ObjectKey) : Prop :=
  VersionStringFunc = Ok (v_version v) ∧ found_in c KHostPathProvisioner key = Ok cr ∧
  ∃ items, evaluate c getHppList = Some (Ok items) ∧ (length items ≤ 1)%nat.

(** C4: a settled cluster is left alone.  Take a cluster that answers reads
    from a fixed snapshot, in which every object of the custom resource is as the
    operator would leave it (an update would not change it), none of an older
    version is left, and the status of the resource says that it is deployed in
    this version.  Then [Reconcile] reports no error, asks for nothing to be run
    again, and changes nothing: it creates and updates nothing, and deletes only
    what is not there. *)
Theorem settled_cluster_is_left_alone key :
  shown key → steady_objects c cr ns v → steady_status c cr ns v →
  calm c (Reconcile key) (eq done_ok).
Proof.
  intros (Hv & Hcr & items & Hl & Hn) Ho Hs. unfold Reconcile. cbv zeta. eapply calm_read; [exact Hl|].
  replace (1 <? length items)%nat with false by (symmetry; apply Nat.ltb_ge; lia). rewrite Hv.
  apply (triple_bind _ _ _ _ _ (eq (Ok cr))); [apply triple_request; [done|]; intros x ->; by symmetry|].
  intros r <-. apply (triple_bind _ _ _ _ _ always).
  { unfold set_gauge. destruct (IsHppAvailable cr); [by apply triple_request|].
    destruct (negb _); [by apply triple_request|by apply calm_ret]. }
  intros _ _. rewrite bool_decide_eq_false_2; [by apply calm_reconcile_active|].
  intros Hd. apply Hd. exact (ss_kept _ _ _ _ Hs).
Qed.
End Reconcile.
