(* ===== verification/Deletion.v ===== *)
(** * Deletion of the custom resource

    What the operator promises before it lets the API server delete the custom
    resource: [torn_down] is the abstract specification, over the history of
    requests and answers, and the theorems show that the deletion path of
    Controller.v implements it whatever the API server answers. *)
From S2P Require Import Prelude GoStrings Prog Names Semver Api K8s Json JsonMerge Meta Conditions.
From S2P Require Import CryptoPolicy Rules Rbac ServiceAccount Scc CsiDriver Prometheus DaemonSet StoragePool Controller Managed.

(** ** The specification *)

(** The server does not know the kind at all. *)
Definition kind_missing (k : kind) (tr : ktrace) : Prop :=
  ∃ opts e, Ev (ListObjs k opts) (Err e) ∈ tr ∧ api_group_missing e = true.

Definition gone (k k' : kind) (key : ObjectKey) (tr : ktrace) : Prop :=
  deleted k key tr ∨ kind_missing k' tr.

(** Every managed resource with a fixed name: its kind, its key, and the kind
    whose absence from the server excuses it. *)
Definition rbac_names : list string :=
  [ProvisionerServiceAccountName; ProvisionerServiceAccountNameCsi; MultiPurposeHostPathProvisionerName].

Definition managed_resources (namespace : string) : list (kind * kind * ObjectKey) :=
  [(KSecurityContextConstraints, KSecurityContextConstraints, ("", MultiPurposeHostPathProvisionerName));
   (KSecurityContextConstraints, KSecurityContextConstraints, ("", MultiPurposeHostPathProvisionerName +:+ "-csi"));
   (KPrometheusRule, KPrometheusRule, (namespace, ruleName));
   (KRole, KPrometheusRule, (namespace, rbacName));
   (KRoleBinding, KPrometheusRule, (namespace, rbacName));
   (KServiceMonitor, KPrometheusRule, (namespace, monitorName));
   (KService, KPrometheusRule, (namespace, PrometheusServiceName));
   (KCSIDriver, KCSIDriver, ("", driverName))] ++
  (rbac_names ≫= λ name,
    [(KClusterRoleBinding, KClusterRoleBinding, ("", name)); (KClusterRole, KClusterRole, ("", name));
     (KRoleBinding, KRoleBinding, (namespace, name)); (KRole, KRole, (namespace, name))]).

Definition all_gone (namespace : string) (tr : ktrace) : Prop :=
  ∀ k k' key, (k, k', key) ∈ managed_resources namespace → gone k k' key tr.

(** The server listed no Deployment controlled by the resource, and no cleanup
    Job that has not succeeded. *)
Definition pools_cleaned (cr : HostPathProvisioner) (tr : ktrace) : Prop :=
  (∃ opts items, Ev (ListObjs KDeployment opts) (Ok items) ∈ tr ∧ controlled_by cr items = []) ∧
  (∃ opts jobs, Ev (ListObjs KJob opts) (Ok jobs) ∈ tr ∧
                ∀ job, job ∈ jobs → Succeeded (snd (o_body job)) ≠ 0).

Definition torn_down (cr : HostPathProvisioner) (namespace : string) (tr : ktrace) : Prop :=
  pools_cleaned cr tr ∧ all_gone namespace tr.

(** The custom resource a request writes, if it does *)
Definition hpp_update {T} (r : kreq T) : option HostPathProvisioner :=
  match r with
  | Update k o => match k return obj k → option HostPathProvisioner with
                  | KHostPathProvisioner => Some
                  | _ => λ _, None
                  end o
  | _ => None
  end.

Definition not_hpp : ∀ T, kreq T → Prop := λ T r, hpp_update r = None.

(** ** Lemmas *)

Lemma writes_not_hpp ks T (r : kreq T) : KHostPathProvisioner ∉ ks → writes_only ks T r → not_hpp T r.
Proof.
  unfold writes_only, not_hpp. intros Hk Hr. destruct r as [| | |k o| | | | |]; try done.
  destruct Hr as (k' & Hk' & Hin); [done|]. injection Hk' as <-. by destruct k.
Qed.

Lemma fp_not_hpp {A} ks (p : kprog A) :
  footprint (writes_only ks) p → kinds_in [KHostPathProvisioner] ks = false → footprint not_hpp p.
Proof.
  intros Hp Hk. eapply footprint_mono; [exact Hp|]. intros T r. apply writes_not_hpp.
  unfold kinds_in in Hk; simpl in Hk. rewrite andb_true_r in Hk. by apply bool_decide_eq_false in Hk.
Qed.

Lemma gone_mono k k' key : monotone (gone k k' key).
Proof.
  intros tr tr' Hp [Hd|(o & e & Hev & He)]; [left; by eapply deleted_mono|].
  right. exists o, e. split; [by eapply elem_of_monotone|done].
Qed.

Lemma pools_cleaned_mono cr : monotone (pools_cleaned cr).
Proof.
  intros tr tr' Hp ((o & i & Hi & ?) & (o' & j & Hj & ?)). split.
  - exists o, i. split; [by eapply elem_of_monotone|done].
  - exists o', j. split; [by eapply elem_of_monotone|done].
Qed.

Lemma gone_deleted k k' key p : ensures not_hpp p (deleted k key) → ensures not_hpp p (gone k k' key).
Proof. intros. eapply ensures_mono; [done|]. intros tr ?. by left. Qed.

(** What holds after the check that a kind exists. *)
Lemma when_used_ensures k p (Φ : ktrace → Prop) :
  ensures not_hpp p Φ → ensures not_hpp (when_used (checkUsed k) p) (λ tr, kind_missing k tr ∨ Φ tr).
Proof.
  intros Hp R tr. unfold when_used, checkUsed. apply wp_with_ok, wp_with_ok. simpl. split; [done|].
  intros [l|e] _; simpl.
  - eapply wp_post; [apply Hp|]. naive_solver.
  - destruct (api_group_missing e) eqn:He; simpl; [|done]. intros _. left.
    exists {| lo_Selector := []; lo_Namespace := "" |}, e. split; [apply last_event|done].
Qed.

Lemma deleteSCC_ensures `{PL : Platform} name :
  ensures not_hpp (deleteSCC name)
    (gone KSecurityContextConstraints KSecurityContextConstraints ("", name)).
Proof.
  eapply ensures_mono; [by apply when_used_ensures, delete_ensures|]. intros tr [?|?]; [by right|by left].
Qed.

Definition prometheus_resources (namespace : string) : list (kind * ObjectKey) :=
  [(KPrometheusRule, (namespace, ruleName)); (KRole, (namespace, rbacName)); (KRoleBinding, (namespace, rbacName));
   (KServiceMonitor, (namespace, monitorName)); (KService, (namespace, PrometheusServiceName))].

Lemma deletePrometheusResources_ensures `{PL : Platform} ns :
  ensures not_hpp (deletePrometheusResources ns)
    (λ tr, ∀ k key, (k, key) ∈ prometheus_resources ns → gone k KPrometheusRule key tr).
Proof.
  eapply ensures_mono.
  - apply when_used_ensures.
    repeat (eapply ensures_on_err; [by apply delete_ensures| |apply deleted_mono]). by apply delete_ensures.
  - intros tr [Hm|Hd] k key Hin; [by right|]. left. unfold prometheus_resources in Hin.
    rewrite !elem_of_cons, elem_of_nil in Hin. naive_solver.
Qed.

Lemma deleteAllRbac_ensures ns :
  ensures not_hpp (deleteAllRbac ns) (λ tr, ∀ name, name ∈ rbac_names →
    deleted KClusterRoleBinding ("", name) tr ∧ deleted KClusterRole ("", name) tr ∧
    deleted KRoleBinding (ns, name) tr ∧ deleted KRole (ns, name) tr).
Proof.
  unfold deleteAllRbac. apply (ensures_for_err _ _ _ (λ name tr,
    deleted KClusterRoleBinding ("", name) tr ∧ deleted KClusterRole ("", name) tr ∧
    deleted KRoleBinding (ns, name) tr ∧ deleted KRole (ns, name) tr)).
  - intros name _. eapply ensures_mono.
    + do 3 (eapply ensures_on_err; [by apply delete_ensures| |apply deleted_mono]).
      eapply ensures_on_err; [by apply delete_ensures|by apply ensures_footprint|apply deleted_mono].
    + naive_solver.
  - intros name tr tr' Hp (? & ? & ? & ?). split_and!; by eapply deleted_mono.
Qed.

Lemma deleteCSIDriver_ensures : ensures not_hpp deleteCSIDriver (deleted KCSIDriver ("", driverName)).
Proof. by apply delete_ensures. Qed.

(** ** Waiting for the pools *)

Lemma wp_list_labelled `{PL : Platform} {B} R (G : guarantee kreq) k labels ns h
    (body : list (obj k) → kprog B) Q tr :
  (∀ opts, G tr _ (ListObjs k opts)) →
  (∀ tr' e, tr `prefix_of` tr' → wp R G (h e) Q tr') →
  (∀ opts l, wp R G (body l) Q (tr ++ [Ev (ListObjs k opts) (Ok l)])) →
  wp R G (list_labelled k labels ns h body) Q tr.
Proof.
  intros HG Hh Hb. unfold list_labelled. destruct (LabelSelectorAsSelector labels) as [s|e]; [|by apply Hh].
  apply wp_with_ok. simpl. split; [apply HG|]. intros [l|e] _; simpl; [apply Hb|].
  apply Hh. by apply prefix_app_r.
Qed.

Lemma by_name_empty l : by_name l = ∅ → l = [].
Proof.
  unfold by_name. destruct l as [|d l _] using rev_ind; [done|]. rewrite foldl_app; simpl.
  intros H. by apply insert_non_empty in H.
Qed.

(** What the cleanup reports: an error comes with no request to run again; no
    error and no such request, when no Deployment is wanted, mean that the pools
    are cleaned. *)
Definition cleanup_post (cr : HostPathProvisioner) (count : Z) (tr : ktrace) (o : outcome reconciled) : Prop :=
  ∀ res err, o = Returned (res, err) →
    (res = requeue_in_a_second ∧ err = None) ∨
    (res = no_requeue ∧ (err = None → count = 0 → pools_cleaned cr tr)).

Lemma wp_reconcileCleanup `{PL : Platform} R cr ns count tr :
  wp R (λ _, not_hpp) (reconcileCleanup cr ns count) (cleanup_post cr count) tr.
Proof.
  assert (Hfail : ∀ e tr, cleanup_post cr count tr (Returned (failed e))).
  { intros e tr' res err [= <- <-]. by right. }
  unfold reconcileCleanup. apply wp_with_ok. unfold currentStoragePoolDeployments.
  apply wp_list_labelled; [done|simpl; auto|]. intros opts items; simpl.
  set (tr1 := tr ++ _). apply wp_with_ok. unfold hasCleanUpFinished. apply wp_with_ok. unfold getCleanUpJobs.
  apply wp_list_labelled; [done|simpl; auto|]. intros opts' jobs; simpl. set (tr2 := tr1 ++ _).
  destruct (_ && _) eqn:Hc; simpl; [|intros res err [= <- <-]; by left].
  bool_simpl. destruct Hc as [Hs Hj].
  assert (Hp : count = 0 → pools_cleaned cr tr2).
  { intros ->. split.
    - exists opts, items. split; [eapply elem_of_monotone; [by eexists|]; apply last_event|].
      apply by_name_empty, map_size_empty_iff. lia.
    - exists opts', jobs. split; [apply last_event|]. rewrite List.forallb_forall in Hj.
      intros job Hjob%list_elem_of_In%Hj. bool_simpl. done. }
  apply wp_on_err. eapply (wp_footprint _ not_hpp); [eapply fp_not_hpp; [apply removeCleanUpJobs_fp|done]|done|].
  intros tr' [[e|]| |] Hpre; simpl; [by apply Hfail| |done..].
  intros res err [= <- <-]. right. split; [done|]. intros _ Hn. eapply pools_cleaned_mono; [done|auto].
Qed.

(** ** The deletion path *)

Section DeletionPath.
Context `{PL : Platform}.

Lemma delete_managed_ensures ns : ensures not_hpp (delete_managed ns) (all_gone ns).
Proof.
  eapply ensures_mono.
  - eapply ensures_on_err; [apply deleteSCC_ensures| |apply gone_mono].
    eapply ensures_on_err; [apply deleteSCC_ensures| |apply gone_mono].
    eapply ensures_on_err; [apply deletePrometheusResources_ensures| |].
    + eapply ensures_on_err; [apply deleteAllRbac_ensures|apply deleteCSIDriver_ensures|].
      intros tr tr' Hp H name Hn. destruct (H name Hn) as (? & ? & ? & ?).
      split_and!; by eapply deleted_mono.
    + intros tr tr' Hp H k key Hk. eapply gone_mono; eauto.
  - intros tr (Hs1 & Hs2 & Hp & Hr & Hc) k k' key Hin.
    apply elem_of_app in Hin as [Hin|(name & Hin & Hname)%list_elem_of_bind].
    + rewrite !elem_of_cons, elem_of_nil in Hin.
      destruct Hin as [[= -> -> ->]|[[= -> -> ->]|Hin]]; [done..|].
      assert (Hcsi : (k, k', key) = (KCSIDriver, KCSIDriver, ("", driverName)) ∨
                     k' = KPrometheusRule ∧ (k, key) ∈ prometheus_resources ns)
        by (unfold prometheus_resources; set_solver).
      destruct Hcsi as [[= -> -> ->]|[-> Hk]]; [by left|by apply Hp].
    + destruct (Hr name Hname) as (? & ? & ? & ?). rewrite !elem_of_cons, elem_of_nil in Hin.
      left. naive_solver.
Qed.

(** The only write of the custom resource a deletion may make *)
Definition final_update (cr : HostPathProvisioner) (namespace : string) : guarantee kreq :=
  λ tr T r, ∀ cr', hpp_update r = Some cr' →
    cr' = with_meta (RemoveFinalizer hppFinalizer) cr ∧ torn_down cr namespace tr.

Lemma not_hpp_final cr ns tr T (r : kreq T) : not_hpp T r → final_update cr ns tr T r.
Proof. unfold not_hpp, final_update. intros ->. done. Qed.

(** How a deletion may end without an error: it waits, or it is complete. *)
Definition deletion_post (cr : HostPathProvisioner) (namespace : string) (tr : ktrace)
    (o : outcome reconciled) : Prop :=
  ∀ res, o = Returned (res, None) →
    res = requeue_in_a_second ∨
    (res = no_requeue ∧ torn_down cr namespace tr ∧
     ∃ x, Ev (Update KHostPathProvisioner (with_meta (RemoveFinalizer hppFinalizer) cr)) (Ok x) ∈ tr).

Lemma torn_down_mono cr ns : monotone (torn_down cr ns).
Proof.
  intros tr tr' Hp [Hc Hg]. split; [by eapply pools_cleaned_mono|].
  intros k k' key Hk. eapply gone_mono; eauto.
Qed.

Lemma wp_reconcile_deletion R cr ns tr :
  wp R (final_update cr ns) (reconcile_deletion cr ns) (deletion_post cr ns) tr.
Proof.
  assert (Hfail : ∀ e tr, deletion_post cr ns tr (Returned (failed e))) by (intros e tr' res [=]).
  pose proof (not_hpp_final cr ns) as HG.
  unfold reconcile_deletion. apply wp_on_err.
  eapply (wp_footprint _ not_hpp); [eapply fp_not_hpp; [apply cleanDeployments_fp|done]|auto|].
  intros tr1 [[e|]| |] _; simpl; auto; [|done..].
  apply wp_bind. eapply wp_guarantee; [eapply wp_post; [apply wp_reconcileCleanup|]|auto].
  intros tr2 [[res err]| |] Hc; cbn [post_bind]; [|done..].
  specialize (Hc res err eq_refl) as [[-> ->]|[-> Hc]]; [intros res [= <-]; by left|].
  destruct err as [e|]; cbn [no_requeue RequeueAfter Z.eqb second]; [by intros res [=]|]. specialize (Hc eq_refl eq_refl). apply wp_on_err.
  eapply wp_ensures; [apply delete_managed_ensures|auto|by intros; apply Hfail| |done..].
  intros tr3 Hpre Hall. apply wp_with_ok.
  assert (Ht : torn_down cr ns tr3) by (split; [by eapply pools_cleaned_mono|done]).
  simpl. split; [intros cr' [= <-]; done|]. intros [x|e] _; simpl; [|by intros res [=]].
  intros res [= <-]. right. split; [done|]. split; [eapply torn_down_mono; [by eexists|done]|].
  exists x. apply last_event.
Qed.
End DeletionPath.
