(* ===== verification/Lifecycle.v ===== *)
(** * The life of the custom resource

    What [Reconcile] (Controller.v) promises about the custom resource itself,
    whatever the API server answers: which writes it makes of it, what must have
    been observed before each, and how it ends. *)
From S2P Require Import Prelude GoStrings Prog Names Semver Api K8s Json JsonMerge Meta Conditions.
From S2P Require Import CryptoPolicy Rules Rbac ServiceAccount Scc CsiDriver Prometheus DaemonSet StoragePool Pools Controller Deletion.

(** ** The answers relied on *)

(** An update that the server accepts stores the finalizers, the spec and the
    status that were sent (a concurrent writer makes the update fail instead). *)
Definition stored_as_sent (sent stored : HostPathProvisioner) : Prop :=
  Finalizers (o_meta stored) = Finalizers (o_meta sent) ∧
  cr_Spec stored = cr_Spec sent ∧ cr_Status stored = cr_Status sent.

Definition hpp_sent {T} (r : kreq T) : T → HostPathProvisioner → HostPathProvisioner → Prop :=
  match r in kreq T return T → HostPathProvisioner → HostPathProvisioner → Prop with
  | Update k o =>
      match k return obj k → result (obj k) → HostPathProvisioner → HostPathProvisioner → Prop with
      | KHostPathProvisioner => λ o x sent stored, sent = o ∧ x = Ok stored
      | _ => λ _ _ _ _, False
      end o
  | _ => λ _ _ _, False
  end.

Definition faithful_updates : rely kreq := λ T r x,
  ∀ sent stored, hpp_sent r x sent stored → stored_as_sent sent stored.

Lemma cluster_faithful T (r : kreq T) c : faithful_updates T r (cluster_handler T r c).1.
Proof.
  intros sent stored. destruct r as [| | |k o| | | | |]; try done. destruct k; try done.
  simpl. intros [-> Hx]. destruct (store c _ !! _); [|done]. case_bool_decide; simplify_eq/=; done.
Qed.

(** ** The kinds the reconciler writes *)

(** The kinds of the managed resources *)
Definition managed_kinds : list kind :=
  [KDaemonSet; KServiceAccount; KClusterRole; KClusterRoleBinding; KRole; KRoleBinding; KCSIDriver;
   KSecurityContextConstraints; KPrometheusRule; KService; KServiceMonitor; KDeployment;
   KPersistentVolumeClaim; KStorageClass; KJob].

Section Kinds.
Context `{PL : Platform, CD : Codec}.

Lemma reconcile_resources_fp cr ns : footprint (writes_only managed_kinds) (reconcile_resources cr ns).
Proof. unfold reconcile_resources. fp_solve. Qed.

Lemma reconcileCleanup_fp cr ns n : footprint (writes_only [KJob]) (reconcileCleanup cr ns n).
Proof. unfold reconcileCleanup. fp_solve. Qed.

Lemma set_cr_condition_fp new cr : footprint (writes_only []) (set_cr_condition new cr).
Proof. unfold set_cr_condition, SetStatusCondition. fp_solve. Qed.
End Kinds.
#[export] Hint Resolve reconcile_resources_fp reconcileCleanup_fp set_cr_condition_fp : fp.

(** ** What the reconciler has seen *)

Definition csi_key (namespace : string) : ObjectKey := (namespace, MultiPurposeHostPathProvisionerName +:+ "-csi").
Definition legacy_key (namespace : string) : ObjectKey := (namespace, MultiPurposeHostPathProvisionerName).

Definition seen_ready (key : ObjectKey) (tr : ktrace) : Prop :=
  ∃ ds, Ev (Get KDaemonSet key) (Ok ds) ∈ tr ∧ checkDaemonSetReady ds = true.

(** The server showed every DaemonSet of the resource to be ready. *)
Definition ready_seen (cr : HostPathProvisioner) (namespace : string) (tr : ktrace) : Prop :=
  seen_ready (csi_key namespace) tr ∧ (isLegacy cr = true → seen_ready (legacy_key namespace) tr).

Lemma seen_ready_mono key : monotone (seen_ready key).
Proof. intros tr tr' Hp (ds & ? & ?). exists ds. split; [by eapply elem_of_monotone|done]. Qed.

Lemma ready_seen_mono cr ns : monotone (ready_seen cr ns).
Proof. intros tr tr' Hp [? ?]. split; intros; eapply seen_ready_mono; eauto. Qed.

(** The state of the custom resource while the reconciler works on it: [cr0] is
    the resource it read. *)
Record upkeep (cr0 : HostPathProvisioner) (ns version : string) (tr : ktrace) (cr : HostPathProvisioner) : Prop := {
  up_finalizer : HasFinalizer (o_meta cr) hppFinalizer = true;
  up_spec : cr_Spec cr = cr_Spec cr0;
  up_observed : ObservedVersion (cr_Status cr) = ObservedVersion (cr_Status cr0) ∨
    (ObservedVersion (cr_Status cr) = version ∧ ready_seen cr0 ns tr);
  up_healthy : IsCrHealthy cr = true → IsCrHealthy cr0 = true ∨ ready_seen cr0 ns tr }.

Definition keeps_up (cr0 : HostPathProvisioner) (ns version : string) : guarantee kreq := λ tr T r,
  ∀ cr, hpp_update r = Some cr → upkeep cr0 ns version tr cr.

Lemma IsCrHealthy_status cr cr' : cr_Status cr' = cr_Status cr → IsCrHealthy cr' = IsCrHealthy cr.
Proof. unfold IsCrHealthy, cr_Conditions. by intros ->. Qed.

Lemma isLegacy_spec cr cr' : cr_Spec cr' = cr_Spec cr → isLegacy cr' = isLegacy cr.
Proof. unfold isLegacy. by intros ->. Qed.

Section Upkeep.
Context (cr0 : HostPathProvisioner) (ns version : string).
Abbreviation up := (upkeep cr0 ns version).
Abbreviation G := (keeps_up cr0 ns version).

Lemma up_mono tr tr' cr : tr `prefix_of` tr' → up tr cr → up tr' cr.
Proof.
  intros Hp [? ? Ho Hh]. pose proof (ready_seen_mono cr0 ns _ _ Hp). split; naive_solver.
Qed.

Lemma not_hpp_keeps tr T (r : kreq T) : not_hpp T r → G tr T r.
Proof. unfold not_hpp, keeps_up. intros ->. done. Qed.

(** Changing other parts of the status is fine. *)
Lemma up_status tr cr f :
  up tr cr → Conditions (f (cr_Status cr)) = Conditions (cr_Status cr) →
  (ObservedVersion (f (cr_Status cr)) = ObservedVersion (cr_Status cr) ∨
   ObservedVersion (f (cr_Status cr)) = version ∧ ready_seen cr0 ns tr) →
  up tr (with_Status f cr).
Proof.
  intros [Hf Hs Ho Hh] Hc Hov. split; [done|done|..].
  - change (cr_Status (with_Status f cr)) with (f (cr_Status cr)). naive_solver congruence.
  - intros Hy. apply Hh. unfold IsCrHealthy, cr_Conditions in *.
    change (cr_Status (with_Status f cr)) with (f (cr_Status cr)) in Hy. by rewrite Hc in Hy.
Qed.

(** An accepted update gives back a resource of the same kind. *)
Lemma up_stored tr cr cr' : up tr cr → stored_as_sent cr cr' → up tr cr'.
Proof.
  intros [Hf Hs Ho Hh] (Hfin & Hsp & Hst). split.
  - unfold HasFinalizer in *. by rewrite Hfin.
  - congruence.
  - by rewrite Hst.
  - by rewrite (IsCrHealthy_status _ _ Hst).
Qed.

Lemma up_marked tr tr' m re msg cr cr' :
  up tr cr → tr `prefix_of` tr' → (m = Healthy → ready_seen cr0 ns tr) →
  marked cr (mark_conditions m re msg) cr' → up tr' cr'.
Proof.
  intros Hup Hp Hr Hm. pose proof (up_mono _ _ _ Hp Hup) as [Hf Hs Ho Hh].
  pose proof (marked_statuses _ _ _ _ _ Hm) as Hst.
  assert (Hy : IsCrHealthy cr' = true → m = Healthy).
  { unfold IsCrHealthy, IsStatusConditionTrue, IsStatusConditionFalse. rewrite !present_and_equal.
    destruct (mark_statuses m) as [[a p] d] eqn:Hms. destruct Hst as (-> & -> & ->).
    destruct m; simplify_eq/=; done. }
  rewrite (mk_frame _ _ _ Hm) in *. split; [done..|].
  intros H. right. eapply ready_seen_mono; [done|]. auto.
Qed.

Lemma extends_clock_prefix tr tr' : extends_clock tr tr' → tr `prefix_of` tr'.
Proof. intros (l & -> & _). by eexists. Qed.

Context (R : rely kreq).

Lemma wp_mark_up m re msg cr tr (Q : ktrace → outcome HostPathProvisioner → Prop) :
  up tr cr → (m = Healthy → ready_seen cr0 ns tr) →
  (∀ tr' cr', tr `prefix_of` tr' → up tr' cr' → Q tr' (Returned cr')) →
  wp R G (mark_cr m cr re msg) Q tr.
Proof.
  intros Hup Hr HQ. apply wp_mark; [done|]. intros tr' cr' Hm Hx%extends_clock_prefix.
  apply HQ; [done|]. by eapply up_marked.
Qed.

Lemma wp_step {A} (p : kprog A) (Q : ktrace → outcome A → Prop) ks tr :
  footprint (writes_only ks) p → kinds_in [KHostPathProvisioner] ks = false →
  (∀ tr' o, tr `prefix_of` tr' → Q tr' o) → wp R G p Q tr.
Proof.
  intros Hp Hk HQ. eapply (wp_footprint _ not_hpp); [by eapply fp_not_hpp| |done].
  intros. by apply not_hpp_keeps.
Qed.

Lemma wp_get_daemonsets {B} cr h (body : option DaemonSet → DaemonSet → kprog B) Q tr :
  (∀ tr' e, tr `prefix_of` tr' → wp R G (h e) Q tr') →
  (∀ tr' legacy csi, tr `prefix_of` tr' →
     (daemonsets_ready cr legacy csi = true → ready_seen cr ns tr') → wp R G (body legacy csi) Q tr') →
  wp R G (get_daemonsets cr ns h body) Q tr.
Proof.
  intros Hh Hb. unfold get_daemonsets.
  assert (Hcsi : ∀ tr' legacy, tr `prefix_of` tr' →
    (isLegacy cr = true → match legacy with Some ds => checkDaemonSetReady ds | None => false end = true →
       seen_ready (legacy_key ns) tr') →
    wp R G (with_ok (request (Get KDaemonSet (csi_key ns))) h (λ csi, body legacy csi)) Q tr').
  { intros tr' legacy Hp Hl. apply wp_with_ok. simpl. split; [done|]. intros [csi|e] _; simpl.
    - apply Hb; [by apply prefix_app_r|]. unfold daemonsets_ready. intros [Hlr Hr]%andb_prop. split.
      + exists csi. split; [apply last_event|done].
      + intros Hleg. rewrite Hleg in Hlr. simpl in Hlr.
        eapply seen_ready_mono; [by eexists|]. auto.
    - apply Hh. by apply prefix_app_r. }
  apply wp_with_ok. destruct (isLegacy cr) eqn:Hleg; [|simpl; by apply Hcsi].
  simpl. split; [done|]. intros [ds|e] _; simpl; [|apply Hh; by apply prefix_app_r].
  apply Hcsi; [by apply prefix_app_r|]. intros _ Hr. exists ds. split; [apply last_event|done].
Qed.

(** What the functions that return the resource keep *)
Definition up_returned {A} : ktrace → outcome (A * HostPathProvisioner) → Prop :=
  λ tr o, ∀ a cr, o = Returned (a, cr) → up tr cr.

Lemma ready_seen_up tr cr : up tr cr → ∀ tr', ready_seen cr ns tr' ↔ ready_seen cr0 ns tr'.
Proof. intros Hup tr'. unfold ready_seen. by rewrite (isLegacy_spec cr0 cr) by apply (up_spec _ _ _ _ _ Hup). Qed.
End Upkeep.

Section ActivePath.
Context `{PL : Platform, CD : Codec} (cr0 : HostPathProvisioner) (ns version : string) (R : rely kreq).
Abbreviation up := (upkeep cr0 ns version).
Abbreviation G := (keeps_up cr0 ns version).

(** With no error, a resource that is not degraded was seen to be ready. *)
Lemma wp_checkDegraded cr tr :
  up tr cr →
  wp R G (checkDegraded cr ns)
    (λ tr' o, ∀ degraded cr', o = Returned (Ok (degraded, cr')) →
       up tr' cr' ∧ (degraded = false → ready_seen cr0 ns tr')) tr.
Proof.
  intros Hup. unfold checkDegraded. apply wp_get_daemonsets; [by intros tr' e _ ? ? [=]|].
  intros tr1 legacy csi Hp Hr. cbv zeta.
  assert (Hup1 : up tr1 cr) by by eapply up_mono.
  assert (Hr1 : negb (daemonsets_ready cr legacy csi) = false → ready_seen cr0 ns tr1).
  { intros H%negb_false_iff. apply (ready_seen_up cr0 ns version tr cr); auto. }
  apply wp_bind. destruct (_ && _) eqn:Hm.
  - apply (wp_mark_up _ _ _ _ Failed); [done|done|]. intros tr2 cr2 Hp2 Hup2.
    intros degraded cr' [= <- <-]. split; [done|]. intros H. eapply ready_seen_mono; eauto.
  - intros degraded cr' [= <- <-]. auto.
Qed.

Lemma reconcileStoragePoolStatus_status cr tr :
  wp R (λ _, not_hpp) (reconcileStoragePoolStatus cr ns)
    (λ _ o, ∀ cr', o = Returned (Ok cr') → ∃ l, cr' = with_Status (set_StoragePoolStatuses l) cr) tr.
Proof.
  unfold reconcileStoragePoolStatus. apply wp_with_ok.
  eapply (wp_footprint _ not_hpp); [|done|].
  - eapply (fp_not_hpp []); [|done]. fp_solve. apply storage_pool_status_fp.
  - intros tr' [[l|e]| |] _; simpl; [|by intros ? [=]..]. intros cr' [= <-]. eauto.
Qed.

Lemma wp_reconcileStatus cr tr :
  up tr cr → wp R G (reconcileStatus cr ns version) (up_returned cr0 ns version) tr.
Proof.
  intros Hup. unfold reconcileStatus. apply wp_with_ok. eapply wp_strengthen; [by apply wp_checkDegraded|].
  intros tr1 [[[degraded cr1]|e]| |] Hp1 H1; simpl; [|intros ? ? [= <- <-]; by eapply up_mono|by intros ? ? [=]..].
  destruct (H1 _ _ eq_refl) as [Hup1 Hr1]. apply wp_bind.
  eapply wp_strengthen; [eapply wp_guarantee; [apply reconcileStoragePoolStatus_status|]|].
  { intros. by apply not_hpp_keeps. }
  intros tr2 [[cr2|e]| |] Hp2 H2; simpl; [..|by intros ? ? [=]|by intros ? ? [=]].
  - destruct (H2 _ eq_refl) as [l ->]. intros ? ? [= <- <-].
    assert (Hup2 : up tr2 (with_Status (set_StoragePoolStatuses l) cr1))
      by (apply up_status; [by eapply up_mono|done|by left]).
    destruct (_ && _) eqn:Hd; [|done]. apply andb_prop in Hd as [Hd _]. apply negb_true_iff in Hd.
    apply up_status; [done|done|]. right. split; [done|]. eapply ready_seen_mono; eauto.
  - apply (wp_bind R G (mark_cr FailedHealing cr1 "StoragePoolNotReady" (err_text e))).
    apply wp_mark_up; [by eapply up_mono|done|]. intros tr3 cr3 _ Hup3 ? ? [= <- <-]. done.
Qed.

Lemma wp_reconcileUpdate cr tr :
  up tr cr → wp R G (reconcileUpdate cr ns) (up_returned cr0 ns version) tr.
Proof.
  intros Hup. unfold reconcileUpdate. apply wp_on_err.
  eapply wp_step; [apply reconcile_resources_fp|done|].
  intros tr1 [[e|]| |] Hp1; cbn [post_on_err]; [| |by intros ? ? [=]..].
  { intros ? ? [= <- <-]. by eapply up_mono. }
  apply wp_get_daemonsets; [intros tr2 e Hp2 ? ? [= <- <-]; eapply up_mono; [|exact Hup]; by etrans|].
  intros tr2 legacy csi Hp2 Hr2. apply wp_bind.
  assert (Hup2 : up tr2 cr) by (eapply up_mono; [|exact Hup]; by etrans).
  assert (Hend : ∀ tr3 cr3, up tr3 cr3 →
    wp R G (res ← reconcileCleanup cr3 ns (DesiredNumberScheduled (ds_Status csi)); mret (res, cr3))
      (up_returned cr0 ns version) tr3).
  { intros tr3 cr3 Hup3. apply wp_bind. eapply wp_step; [apply reconcileCleanup_fp|done|].
    intros tr4 [res| |] Hp4; simpl; [|by intros ? ? [=]..]. intros ? ? [= <- <-]. by eapply up_mono. }
  destruct (daemonsets_ready cr legacy csi) eqn:Hr; [|by apply Hend].
  apply (wp_bind R G (mark_cr Healthy cr "Complete" "Application Available")).
  apply wp_mark_up; [done|intros _; apply (ready_seen_up cr0 ns version tr2 cr); auto|].
  intros tr3 cr3 _ Hup3. cbn [post_bind]. apply wp_bind. simpl. split; [done|]. intros x _.
  apply Hend. eapply up_mono; [by eexists|done].
Qed.

Lemma wp_reconcile_all cr tr :
  up tr cr → wp R G (reconcile_all cr ns version) (up_returned cr0 ns version) tr.
Proof.
  intros Hup. unfold reconcile_all. apply wp_bind. eapply wp_post; [by apply wp_reconcileUpdate|].
  intros tr1 [[[res [e|]] cr1]| |] H1; cbn [post_bind]; [| |by intros ? ? [=]..].
  - specialize (H1 _ _ eq_refl).
    apply (wp_bind R G (mark_cr FailedHealing cr1 reconcileFailed _)).
    apply wp_mark_up; [done|done|]. intros tr2 cr2 _ Hup2. cbn [post_bind]. apply wp_bind. simpl.
    split; [done|]. intros x _ ? ? [= <- <-]. eapply up_mono; [by eexists|done].
  - apply wp_reconcileStatus. by eapply H1.
Qed.

End ActivePath.

Section ActiveUpdates.
Context `{PL : Platform, CD : Codec} (cr0 : HostPathProvisioner) (ns version : string).
Abbreviation up := (upkeep cr0 ns version).
Abbreviation G := (keeps_up cr0 ns version).

Lemma wp_update_up cr tr :
  up tr cr →
  wp faithful_updates G (request (Update KHostPathProvisioner cr))
    (λ tr' o, ∃ x, o = Returned x ∧ ∀ cr', x = Ok cr' → up tr' cr') tr.
Proof.
  intros Hup. simpl. split; [by intros cr' [= <-]|]. intros x Hx. eexists; split; [done|].
  intros cr' ->. eapply up_mono; [by eexists|]. eapply up_stored; [done|]. by apply (Hx cr cr').
Qed.

Abbreviation up_result := (λ tr o, ∀ cr', o = Returned (Ok cr') → up tr cr').

(** A mark, an event and an update: how a deployment and an upgrade start *)
Lemma wp_start m cr t re msg tr :
  m ≠ Healthy → up tr cr →
  wp faithful_updates G
    (cr ← mark_cr m cr re msg; record_event cr t re msg;; request (Update KHostPathProvisioner cr))
    up_result tr.
Proof.
  intros Hm Hup. apply wp_bind, wp_mark_up; [done|done|]. intros tr1 cr1 _ Hup1. cbn [post_bind].
  apply wp_bind. eapply wp_step; [apply record_event_fp|done|]. intros tr1' [x| |] Hp; [|done..].
  cbn [post_bind].
  eapply wp_post; [by eapply wp_update_up, up_mono|].
  intros tr2 o (y & -> & Hy) cr' [= ->]. auto.
Qed.

Lemma wp_start_deploying cr tr :
  up tr cr → wp faithful_updates G (start_deploying cr) up_result tr.
Proof.
  intros Hup. unfold start_deploying. destruct (isDeploying cr); [|by intros cr' [= <-]].
  by apply (wp_start Deploying).
Qed.

Lemma wp_start_upgrading b cr tr :
  up tr cr → wp faithful_updates G (start_upgrading b cr) up_result tr.
Proof.
  intros Hup. unfold start_upgrading. destruct (_ && _); [|by intros cr' [= <-]].
  by apply (wp_start UpgradeHealingDegraded).
Qed.

Lemma wp_update_changed copy cr res err tr :
  up tr cr → wp faithful_updates G (update_changed copy cr res err) (λ _ _, True) tr.
Proof.
  intros Hup. unfold update_changed, ignoreHeartBeatTimestamp.
  destruct (ignore_heartbeats _ _) as [conds|]; [|done]. cbn [mbind prog_mbind prog_bind mret prog_mret].
  destruct (DeepEqual _ _); [done|]. apply wp_bind. eapply wp_post; [by apply wp_update_up|].
  intros tr1 o (x & -> & _). done.
Qed.

Lemma HasFinalizer_added m : HasFinalizer (AddFinalizer hppFinalizer m) hppFinalizer = true.
Proof.
  unfold AddFinalizer. destruct (HasFinalizer m hppFinalizer) eqn:Hf; [done|].
  unfold HasFinalizer; cbn [Finalizers set_Finalizers]. rewrite existsb_app. cbn [existsb].
  by rewrite bool_decide_eq_true_2, orb_true_r.
Qed.

Lemma wp_addFinalizer tr :
  DeletionTimestamp (o_meta cr0) = None → wp faithful_updates G (addFinalizer cr0) up_result tr.
Proof.
  intros Hd. unfold addFinalizer. rewrite bool_decide_eq_true_2 by done. cbv zeta.
  assert (Hup : up tr (with_meta (AddFinalizer hppFinalizer) cr0)).
  { split; [apply HasFinalizer_added|done|by left|by left]. }
  destruct (bool_decide _); [by intros cr' [= <-]|].
  eapply wp_post; [by apply wp_update_up|]. intros tr1 o (x & -> & Hx) cr' [= ->]. auto.
Qed.

Lemma wp_reconcile_active tr :
  DeletionTimestamp (o_meta cr0) = None →
  wp faithful_updates G (reconcile_active cr0 ns version) (λ _ _, True) tr.
Proof.
  intros Hd. unfold reconcile_active. apply wp_with_ok. eapply wp_post; [by apply wp_addFinalizer|].
  intros tr1 [[cr1|e]| |] H1; cbn [post_with_ok]; [|done..]. cbv zeta. set (cr1' := with_Status _ cr1).
  assert (Hup1 : up tr1 cr1') by (apply up_status; [by apply H1|done|by left]).
  destruct (canUpgrade _ _) as [b|e]; [|done].
  apply wp_with_ok. eapply wp_post; [by apply wp_start_deploying|].
  intros tr2 [[cr2|e]| |] H2; cbn [post_with_ok]; [|done..].
  apply wp_with_ok. eapply wp_post; [by apply wp_start_upgrading, H2|].
  intros tr3 [[cr3|e]| |] H3; cbn [post_with_ok]; [|done..].
  apply wp_bind. eapply wp_post; [by apply wp_reconcile_all, H3|].
  intros tr4 [[[res err] cr4]| |] H4; cbn [post_bind]; [|done..].
  apply wp_update_changed. by eapply H4.
Qed.
End ActiveUpdates.

(** ** The whole reconciler *)

(** What was read: the answer to the [Get] of the custom resource *)
Definition hpp_got {T} (r : kreq T) : T → ObjectKey → result HostPathProvisioner → Prop :=
  match r in kreq T return T → ObjectKey → result HostPathProvisioner → Prop with
  | Get k key =>
      match k return result (obj k) → ObjectKey → result HostPathProvisioner → Prop with
      | KHostPathProvisioner => λ x key' y, key' = key ∧ y = x
      | _ => λ _ _ _, False
      end
  | _ => λ _ _ _, False
  end.

(** The server holds [cr0] under [key], and stores updates as they are sent. *)
Definition holds (key : ObjectKey) (cr0 : HostPathProvisioner) : rely kreq := λ T r x,
  faithful_updates T r x ∧ ∀ y, hpp_got r x key y → y = Ok cr0.

(** Every write of the reconciler comes after it saw at most one custom resource
    and read the one it was asked about. *)
Definition gated `{PL : Platform} (key : ObjectKey) : guarantee kreq := λ tr T r,
  is_write r = true →
  ∃ opts items version cr, Ev (ListObjs KHostPathProvisioner opts) (Ok items) ∈ tr ∧ (length items ≤ 1)%nat ∧
    VersionStringFunc = Ok version ∧ Ev (Get KHostPathProvisioner key) (Ok cr) ∈ tr.

Section Whole.
Context `{PL : Platform, CD : Codec}.

(** [Reconcile] after its guards: a rule for what follows the [Get] *)
Lemma wp_Reconcile (R : rely kreq) (G : guarantee kreq) key (Q : ktrace → outcome reconciled → Prop) tr :
  (∀ tr T (r : kreq T), is_write r = false → G tr T r) →
  (∀ tr' e, Q tr' (Returned (failed e))) →
  (∀ tr', (∃ e, R _ (Get KHostPathProvisioner key) (Err e) ∧ IsNotFound e = true) → Q tr' (Returned done_ok)) →
  (∀ tr' opts items version cr, 
     Ev (ListObjs KHostPathProvisioner opts) (Ok items) ∈ tr' → (length items ≤ 1)%nat →
     VersionStringFunc = Ok version → Ev (Get KHostPathProvisioner key) (Ok cr) ∈ tr' →
     R _ (Get KHostPathProvisioner key) (Ok cr) →
     wp R G (if bool_decide (DeletionTimestamp (o_meta cr) ≠ None) then reconcile_deletion cr getNamespace
             else reconcile_active cr getNamespace version) Q tr') →
  wp R G (Reconcile key) Q tr.
Proof.
  intros HG Hfail Hdone Hrest. unfold Reconcile, getHppList. apply wp_with_ok. simpl. split; [by apply HG|].
  intros [items|e] _; simpl; [|apply Hfail]. set (tr1 := tr ++ _).
  destruct (1 <? length items)%nat eqn:Hlen; [apply Hfail|]. apply Nat.ltb_ge in Hlen.
  destruct VersionStringFunc as [version|e] eqn:Hv; [|apply Hfail].
  split; [by apply HG|]. intros [cr|e] Hx; cbv beta iota.
  - set (tr2 := tr1 ++ _).
    assert (Hbody : ∀ tr', tr2 `prefix_of` tr' →
      wp R G (if bool_decide (DeletionTimestamp (o_meta cr) ≠ None) then reconcile_deletion cr getNamespace
              else reconcile_active cr getNamespace version) Q tr').
    { intros tr' Hp. eapply Hrest; [|done|done|eapply elem_of_monotone; [done|apply last_event]|done].
      eapply elem_of_monotone; [|apply last_event]. etrans; [by eexists|exact Hp]. }
    apply wp_bind. unfold set_gauge. cbv zeta.
    destruct (IsHppAvailable cr); [|destruct (negb _)]; cbn [wp request mret prog_mret post_bind];
      [split; [by apply HG|]; intros x _; apply Hbody; by apply prefix_app_r..|by apply Hbody].
  - destruct (IsNotFound e) eqn:He; [|apply Hfail]. apply Hdone. by exists e.
Qed.

Lemma not_write_hpp T (r : kreq T) : is_write r = false → hpp_update r = None.
Proof. by destruct r. Qed.
End Whole.

(** ** Failures *)

(** The conditions and the degraded message of [MarkCrFailedHealing] *)
Definition shows_failure (cr : HostPathProvisioner) (message : string) : Prop :=
  status_of (cr_Conditions cr) ConditionAvailable = Some ConditionFalse ∧
  status_of (cr_Conditions cr) ConditionProgressing = Some ConditionTrue ∧
  status_of (cr_Conditions cr) ConditionDegraded = Some ConditionTrue ∧
  ∃ c, FindStatusCondition (cr_Conditions cr) ConditionDegraded = Some c ∧ Message c = message.

Definition failure_messages (e : goerror) : list string :=
  [err_text e; "Unable to successfully reconcile: " +:+ err_text e].

(** How [reconcile_all] ends: never with a request to run again; an error is
    shown in the conditions, or it is one of reading a DaemonSet. *)
Definition reported : ktrace → outcome (reconciled * HostPathProvisioner) → Prop := λ tr o,
  ∀ res err cr, o = Returned ((res, err), cr) →
    res = no_requeue ∧
    ∀ e, err = Some e →
      (∃ msg, msg ∈ failure_messages e ∧ shows_failure cr msg) ∨
      ∃ key, Ev (Get KDaemonSet key) (Err e) ∈ tr.

Section Failures.
Context `{PL : Platform, CD : Codec} (R : rely kreq).

Lemma marked_failure cr re msg cr' :
  marked cr (mark_conditions FailedHealing re msg) cr' → shows_failure cr' msg.
Proof.
  intros Hm. pose proof (marked_statuses _ _ _ _ _ Hm) as Hs. simpl in Hs. destruct Hs as (Ha & Hp & Hd).
  split_and!; try done.
  destruct (mk_new _ _ _ Hm (new_condition ConditionDegraded ConditionTrue re msg)) as (c & ? & _ & _ & ?).
  - vm_compute. set_solver.
  - eauto.
Qed.

Lemma wp_get_daemonsets_error {B} cr ns h (body : option DaemonSet → DaemonSet → kprog B) Q tr :
  (∀ tr' e, (∃ key, Ev (Get KDaemonSet key) (Err e) ∈ tr') → wp R any_request (h e) Q tr') →
  (∀ tr' legacy csi, wp R any_request (body legacy csi) Q tr') →
  wp R any_request (get_daemonsets cr ns h body) Q tr.
Proof.
  intros Hh Hb. unfold get_daemonsets. apply wp_with_ok.
  assert (Hcsi : ∀ tr' legacy, wp R any_request
    (with_ok (request (Get KDaemonSet (csi_key ns))) h (λ csi, body legacy csi)) Q tr').
  { intros tr' legacy. apply wp_with_ok. cbn. split; [done|]. intros [csi|e] _; cbn; [apply Hb|].
    apply Hh. eexists. apply last_event. }
  destruct (isLegacy cr); [|by apply Hcsi]. cbn. split; [done|]. intros [ds|e] _; cbn; [by apply Hcsi|].
  apply Hh. eexists. apply last_event.
Qed.

(** [reconcileUpdate] never asks to run again together with an error. *)
Lemma wp_reconcileUpdate_result cr ns tr :
  wp R any_request (reconcileUpdate cr ns)
    (λ _ o, ∀ res e cr', o = Returned ((res, Some e), cr') → res = no_requeue) tr.
Proof.
  unfold reconcileUpdate. apply wp_on_err.
  eapply (wp_footprint _ (λ _ _, True)); [apply footprint_any|done|].
  intros tr1 [[e|]| |] _; cbn [post_on_err]; [by intros ??? [= <- _ _]| |done..].
  apply wp_get_daemonsets_error; [by intros tr2 e _ ? ? ? [= <- _ _]|].
  intros tr2 legacy csi. apply wp_bind.
  eapply (wp_footprint _ (λ _ _, True)); [apply footprint_any|done|].
  intros tr3 [cr3| |] _; cbn [post_bind]; [|done..]. apply wp_bind.
  eapply wp_guarantee; [eapply wp_post; [apply wp_reconcileCleanup|]|done].
  intros tr4 [[res err]| |] Hc; cbn [post_bind]; [|done..].
  intros ? e cr' [= <- -> <-]. by destruct (Hc _ _ eq_refl) as [[_ [=]]|[-> _]].
Qed.

Lemma wp_checkDegraded_error cr ns tr :
  wp R any_request (checkDegraded cr ns)
    (λ tr' o, ∀ e, o = Returned (Err e) → ∃ key, Ev (Get KDaemonSet key) (Err e) ∈ tr') tr.
Proof.
  unfold checkDegraded. apply wp_get_daemonsets_error; [intros tr' e He e' [= <-]; done|].
  intros tr' legacy csi. apply wp_bind.
  eapply (wp_footprint _ (λ _ _, True)); [apply footprint_any|done|]. by intros tr2 [] _.
Qed.

Lemma wp_reconcileStatus_reported cr ns version tr :
  wp R any_request (reconcileStatus cr ns version) reported tr.
Proof.
  unfold reconcileStatus. apply wp_with_ok. eapply wp_post; [apply wp_checkDegraded_error|].
  intros tr1 [[[degraded cr1]|e]| |] H1; cbn [post_with_ok]; [|by intros ??? [= <- <- _]; naive_solver|done..].
  apply wp_bind. eapply (wp_footprint _ (λ _ _, True)); [apply footprint_any|done|].
  intros tr2 [[cr2|e]| |] _; cbn [post_bind]; [by intros ??? [= <- <- _]| |done..].
  apply (wp_bind R any_request (mark_cr FailedHealing cr1 _ _)), wp_mark; [done|].
  intros tr3 cr3 Hm _ ? ? ? [= <- <- <-]. split; [done|]. intros e' [= <-]. left.
  eexists; split; [left|by eapply marked_failure].
Qed.

Lemma wp_reconcile_all_reported cr ns version tr :
  wp R any_request (reconcile_all cr ns version) reported tr.
Proof.
  unfold reconcile_all. apply wp_bind. eapply wp_post; [apply wp_reconcileUpdate_result|].
  intros tr1 [[[res [e|]] cr1]| |] H1; cbn [post_bind]; [|apply wp_reconcileStatus_reported|done..].
  rewrite (H1 _ _ _ eq_refl).
  apply (wp_bind R any_request (mark_cr FailedHealing cr1 _ _)), wp_mark; [done|].
  intros tr2 cr2 Hm _. cbn. split; [done|]. intros x _ ? ? ? [= <- <- <-].
  split; [done|]. intros e' [= <-]. left. eexists; split; [right; left|by eapply marked_failure].
Qed.

(** The steps before [reconcile_all] only fail when an update does. *)
Definition update_failed (e : goerror) (tr : ktrace) : Prop :=
  ∃ sent, Ev (Update KHostPathProvisioner sent) (Err e) ∈ tr.
Definition fails_by_update : ktrace → outcome (result HostPathProvisioner) → Prop :=
  λ tr o, ∀ e, o = Returned (Err e) → update_failed e tr.

Lemma wp_send cr tr : wp R any_request (request (Update KHostPathProvisioner cr)) fails_by_update tr.
Proof. cbn. split; [done|]. intros x _ e [= ->]. exists cr. apply last_event. Qed.

Lemma wp_addFinalizer_error cr tr : wp R any_request (addFinalizer cr) fails_by_update tr.
Proof.
  unfold addFinalizer. destruct (bool_decide _); [|done]. cbv zeta.
  destruct (bool_decide _); [done|apply wp_send].
Qed.

Lemma wp_start_error (m : mark) cr t re msg tr :
  wp R any_request
    (cr ← mark_cr m cr re msg; record_event cr t re msg;; request (Update KHostPathProvisioner cr))
    fails_by_update tr.
Proof.
  apply wp_bind. eapply (wp_footprint _ (λ _ _, True)); [apply footprint_any|done|].
  intros tr1 [cr1| |] _; cbn [post_bind]; [|done..]. apply wp_bind.
  eapply (wp_footprint _ (λ _ _, True)); [apply footprint_any|done|].
  intros tr2 [x| |] _; cbn [post_bind]; [|done..]. apply wp_send.
Qed.

Lemma wp_start_deploying_error cr tr : wp R any_request (start_deploying cr) fails_by_update tr.
Proof. unfold start_deploying. destruct (isDeploying cr); [|done]. apply (wp_start_error Deploying). Qed.

Lemma wp_start_upgrading_error b cr tr : wp R any_request (start_upgrading b cr) fails_by_update tr.
Proof. unfold start_upgrading. destruct (_ && _); [|done]. apply (wp_start_error UpgradeHealingDegraded). Qed.

(** Heartbeats do not change what the conditions show. *)
Lemma ignore_heartbeats_find copies conds l ty :
  ignore_heartbeats copies conds = Some l →
  match FindStatusCondition l ty, FindStatusCondition copies ty with
  | Some c, Some c' => ∃ t, c = set_Heartbeat t c'
  | None, None => True
  | _, _ => False
  end.
Proof.
  unfold FindStatusCondition. revert l. induction copies as [|c copies IH]; intros l; [by intros [= <-]|].
  cbn [ignore_heartbeats]. destruct (FindStatusCondition conds (cond_Type c)) as [d|]; [|done].
  destruct (ignore_heartbeats copies conds) as [rest|]; [|done]. cbn [mbind option_bind]. intros [= <-].
  set (c2 := if _ : bool then set_Heartbeat _ c else c).
  assert (Hc : ∃ t, c2 = set_Heartbeat t c).
  { unfold c2. destruct (_ && _); [by eexists|]. exists (LastHeartbeatTime c). by destruct c. }
  destruct Hc as (t & ->). cbn [List.find]. change (has_type ty (set_Heartbeat t c)) with (has_type ty c).
  destruct (has_type ty c); [by exists t|]. by apply IH.
Qed.

Lemma shows_failure_heartbeats copy conds l msg :
  ignore_heartbeats (cr_Conditions copy) conds = Some l →
  shows_failure (with_Status (set_Conditions l) copy) msg → shows_failure copy msg.
Proof.
  intros Hl. pose proof (λ ty, ignore_heartbeats_find _ _ _ ty Hl) as Hf.
  unfold shows_failure, status_of. change (cr_Conditions (with_Status (set_Conditions l) copy)) with l.
  pose proof (Hf ConditionAvailable) as Ha. pose proof (Hf ConditionProgressing) as Hp.
  pose proof (Hf ConditionDegraded) as Hd. clear Hf.
  intros (H1 & H2 & H3 & c & Hc & Hm). rewrite Hc in *.
  destruct (FindStatusCondition l ConditionAvailable), (FindStatusCondition (cr_Conditions copy) ConditionAvailable); try done.
  destruct (FindStatusCondition l ConditionProgressing), (FindStatusCondition (cr_Conditions copy) ConditionProgressing); try done.
  destruct (FindStatusCondition (cr_Conditions copy) ConditionDegraded); try done.
  destruct Ha as [? ->], Hp as [? ->], Hd as [? ->]. split_and!; eauto.
Qed.

(** Where an error of a reconciliation of [cr] comes from, or shows *)
Definition accounted_for (cr : HostPathProvisioner) (version : string) (e : goerror) (tr : ktrace) : Prop :=
  (∃ observed, canUpgrade observed version = Err e) ∨
  update_failed e tr ∨
  (∃ key, Ev (Get KDaemonSet key) (Err e) ∈ tr) ∨
  (∃ msg shown, msg ∈ failure_messages e ∧ shows_failure shown msg ∧
     (shown = cr ∨ ∃ x, Ev (Update KHostPathProvisioner shown) (Ok x) ∈ tr)).

Lemma wp_update_changed_reported copy cr res err tr :
  wp R any_request (update_changed copy cr res err)
    (λ tr' o, ∀ res' err', o = Returned (res', err') →
       res' = res ∧
       ∀ e, err' = Some e → update_failed e tr' ∨
         (err = Some e ∧ ∀ msg, shows_failure cr msg →
            shows_failure copy msg ∨ ∃ x, Ev (Update KHostPathProvisioner cr) (Ok x) ∈ tr')) tr.
Proof.
  unfold update_changed, ignoreHeartBeatTimestamp.
  destruct (ignore_heartbeats _ _) as [l|] eqn:Hl; [|done]. cbn [mbind prog_mbind prog_bind mret prog_mret].
  unfold DeepEqual. case_bool_decide as He.
  - intros ? ? [= <- <-]. split; [done|]. intros e ->. right. split; [done|]. intros msg. left.
    eapply shows_failure_heartbeats; [done|]. by rewrite He.
  - apply wp_bind. cbn. split; [done|]. intros [x|e'] _ ? ? [= <- <-]; (split; [done|]); intros e He'.
    + right. split; [done|]. intros msg _. right. exists x. apply last_event.
    + simplify_eq. left. exists cr. apply last_event.
Qed.
End Failures.

(** ** Properties *)

Section Properties.
Context `{PL : Platform, CD : Codec}.

Lemma holds_faithful key cr0 T (r : kreq T) x : holds key cr0 T r x → faithful_updates T r x.
Proof. by intros []. Qed.

Lemma holds_got key cr0 x : holds key cr0 _ (Get KHostPathProvisioner key) x → x = Ok cr0.
Proof. intros [_ H]. by apply H. Qed.


(** C3: the status does not run ahead of the cluster.  While a resource is not
    being deleted, every write [Reconcile] makes of it leaves the spec alone;
    the observed version is the one that was read, or it is the operator's
    version and the server had shown every DaemonSet of the resource to be
    ready; and the conditions say healthy only if they did when the resource was
    read, or after the DaemonSets were seen to be ready. *)
Theorem status_follows_cluster key cr0 :
  wp (holds key cr0)
    (λ tr T r, ∀ cr', DeletionTimestamp (o_meta cr0) = None → hpp_update r = Some cr' →
       cr_Spec cr' = cr_Spec cr0 ∧
       (ObservedVersion (cr_Status cr') = ObservedVersion (cr_Status cr0) ∨
        (VersionStringFunc = Ok (ObservedVersion (cr_Status cr')) ∧ ready_seen cr0 getNamespace tr)) ∧
       (IsCrHealthy cr' = true → IsCrHealthy cr0 = true ∨ ready_seen cr0 getNamespace tr))
    (Reconcile key) (λ _ _, True) [].
Proof.
  apply wp_Reconcile; [|done|done|].
  - intros tr T r Hr%not_write_hpp. by rewrite Hr.
  - intros tr opts items version cr _ _ Hv _ [= <-]%holds_got. case_bool_decide as Hd.
    { by eapply (wp_footprint _ (λ _ _, True)); [apply footprint_any|..]. }
    eapply wp_mono; [apply holds_faithful|..|by apply wp_reconcile_active]; [|done].
    intros tr' T r Hr cr' _ Hcr'. destruct (Hr cr' Hcr') as [_ Hs Ho Hh].
    split; [done|]. split; [|done]. destruct Ho as [?|[-> ?]]; auto.
Qed.

(** C26: nothing is written blindly.  Every write [Reconcile] makes, of any kind,
    comes after the server listed at most one custom resource, the operator
    knows its own version, and the server returned the resource asked about. *)
Theorem writes_are_gated R key : wp R (gated key) (Reconcile key) (λ _ _, True) [].
Proof.
  apply wp_Reconcile; [|done|done|].
  - intros tr T r Hr. unfold gated. by rewrite Hr.
  - intros tr opts items version cr Hl Hlen Hv Hg _.
    assert (HG : ∀ tr' T (r : kreq T), tr `prefix_of` tr' → True → gated key tr' T r).
    { intros tr' T r Hp _ _. exists opts, items, version, cr. split_and!; try done; by eapply elem_of_monotone. }
    eapply (wp_footprint _ (λ _ _, True)); [apply footprint_any|exact HG|done].
Qed.

(** The reconciler only ever writes the kinds of its managed resources and
    the custom resource: no answer of the API server makes it touch a node, a
    pod, a namespace, or anything else. *)
Theorem Reconcile_footprint key :
  footprint (writes_only (KHostPathProvisioner :: managed_kinds)) (Reconcile key).
Proof.
  unfold Reconcile, getHppList, set_gauge, reconcile_deletion, delete_managed, reconcile_active, addFinalizer,
    start_deploying, start_upgrading, reconcile_all, reconcileUpdate, reconcileStatus, checkDegraded,
    get_daemonsets, update_changed, ignoreHeartBeatTimestamp, MarkCrDeploying, MarkCrUpgradeHealingDegraded,
    MarkCrHealthyMessage, MarkCrFailed, MarkCrFailedHealing.
  fp_solve.
Qed.

(** C8: data is safe.  Whatever the API server answers, [Reconcile] never changes
    or deletes a claim or a storage class, whether the custom resource lives,
    changes its pools, or is being deleted: it only creates them. *)
Theorem data_is_safe key : footprint spares_data (Reconcile key).
Proof.
  unfold Reconcile, getHppList, set_gauge, reconcile_deletion, delete_managed, reconcile_active, addFinalizer,
    start_deploying, start_upgrading, reconcile_all, reconcileUpdate, reconcile_resources, reconcileStatus,
    checkDegraded, get_daemonsets, update_changed, ignoreHeartBeatTimestamp, MarkCrDeploying,
    MarkCrUpgradeHealingDegraded, MarkCrHealthyMessage, MarkCrFailed, MarkCrFailedHealing.
  spare_solve. apply reconcileStoragePools_spares.
Qed.

(** A second custom resource stops the operator.  When the server lists more
    than one, [Reconcile] returns an error that says how many, and has made no
    other request. *)
Theorem multiple_resources_refused {S} (h : handler kreq S) key s items :
  (h _ (ListObjs KHostPathProvisioner {| lo_Selector := []; lo_Namespace := "" |}) s).1 = Ok items →
  (1 < length items)%nat →
  (run h (Reconcile key) s).1 = Returned (failed (multiple_hpps (length items))) ∧
  run_trace h (Reconcile key) s =
    [Ev (ListObjs KHostPathProvisioner {| lo_Selector := []; lo_Namespace := "" |}) (Ok items)].
Proof.
  intros Hl Hlen. unfold Reconcile, getHppList, with_ok, request; simpl.
  destruct (h _ _ s) as [x s']; simpl in *; subst x. apply Nat.ltb_lt in Hlen. by rewrite Hlen.
Qed.

(** C29: a downgrade is refused.  When the version the resource was last brought
    to is newer than the operator's own ([canUpgrade] reports an error), the only
    write a reconciliation may make is the one that adds the operator's
    finalizer, and it ends with an error: the error of [canUpgrade] unless that
    write failed. *)
Theorem downgrade_is_refused cr ns version e :
  DeletionTimestamp (o_meta cr) = None → canUpgrade (ObservedVersion (cr_Status cr)) version = Err e →
  wp faithful_updates
    (λ _ T r, is_write r = true → hpp_update r = Some (with_meta (AddFinalizer hppFinalizer) cr) ∧
                                  HasFinalizer (o_meta cr) hppFinalizer = false)
    (reconcile_active cr ns version)
    (λ tr o, ∃ err, o = Returned (failed err) ∧
       (err = e ∨ Ev (Update KHostPathProvisioner (with_meta (AddFinalizer hppFinalizer) cr)) (Err err) ∈ tr)) [].
Proof.
  intros Hd He. unfold reconcile_active. apply wp_with_ok. unfold addFinalizer.
  assert (Hobs : ∀ cr', cr_Status cr' = cr_Status cr →
    canUpgrade (ObservedVersion (cr_Status (with_Status (set_Versions version version) cr'))) version = Err e)
    by (intros cr' Hs; rewrite <-He; cbn [cr_Status with_Status set_Versions ObservedVersion]; by rewrite <-Hs).
  rewrite bool_decide_eq_true_2 by done. cbv zeta. case_bool_decide as Hf.
  - cbn [wp mret prog_mret post_with_ok]. rewrite Hobs by done. cbn. exists e. auto.
  - cbn [wp request]. split.
    + intros _. split; [done|]. apply not_true_iff_false. intros H. apply Hf. cbn. unfold AddFinalizer. by rewrite H.
    + intros [stored|err] Hx; cbn [post_with_ok].
      * destruct (Hx (with_meta (AddFinalizer hppFinalizer) cr) stored) as (_ & _ & Hs); [done|].
        rewrite Hobs by (by rewrite Hs). cbn. exists e. auto.
      * cbn. exists err. split; [done|]. right. by left.
Qed.

(** C13: failures are reported on the resource.  A reconciliation of a resource
    that is not being deleted never asks to run again on its own.  When it
    returns an error, the error is the refusal of a downgrade, the failure of a
    write of the resource itself, or that of reading a DaemonSet; any other
    error is shown, with its text, by a degraded, unavailable, progressing
    resource: one that was written, or the one that was read. *)
Theorem failures_are_reported R cr ns version tr :
  wp R any_request (reconcile_active cr ns version)
    (λ tr' o, ∀ res err, o = Returned (res, err) →
       res = no_requeue ∧ ∀ e, err = Some e → accounted_for cr version e tr') tr.
Proof.
  assert (Hupd : ∀ tr' e, update_failed e tr' →
    wp R any_request (mret (failed e)) (λ tr' o, ∀ res err, o = Returned (res, err) →
       res = no_requeue ∧ ∀ e, err = Some e → accounted_for cr version e tr') tr').
  { intros tr' e He ? ? [= <- <-]. split; [done|]. intros ? [= <-]. by right; left. }
  unfold reconcile_active. apply wp_with_ok. eapply wp_post; [apply wp_addFinalizer_error|].
  intros tr1 [[cr1|e]| |] H1; cbn [post_with_ok]; [|apply Hupd; by apply H1|done..]. cbv zeta.
  destruct (canUpgrade _ _) as [b|e] eqn:Hu.
  2: { intros ? ? [= <- <-]. split; [done|]. intros ? [= <-]. left. eauto. }
  apply wp_with_ok. eapply wp_post; [apply wp_start_deploying_error|].
  intros tr2 [[cr2|e]| |] H2; cbn [post_with_ok]; [|apply Hupd; by apply H2|done..].
  apply wp_with_ok. eapply wp_post; [apply wp_start_upgrading_error|].
  intros tr3 [[cr3|e]| |] H3; cbn [post_with_ok]; [|apply Hupd; by apply H3|done..].
  apply wp_bind. eapply wp_post; [apply wp_reconcile_all_reported|].
  intros tr4 [[[res err] cr4]| |] H4; cbn [post_bind]; [|done..].
  eapply wp_strengthen; [apply (wp_update_changed_reported R cr cr4 res err)|].
  intros tr5 o Hp H5 res' err' Ho. destruct (H5 _ _ Ho) as [-> He]. destruct (H4 _ _ _ eq_refl) as [-> Hs].
  split; [done|]. intros e Hse. destruct (He e Hse) as [?|[-> Hshow]]; [by right; left|].
  destruct (Hs e eq_refl) as [(msg & Hmsg & Hf)|(key & Hk)].
  - right; right; right. exists msg. destruct (Hshow msg Hf) as [?|?]; [exists cr|exists cr4]; auto.
  - right; right; left. exists key. by eapply elem_of_monotone.
Qed.
End Properties.

(** ** Witnesses *)

Definition second_cr : HostPathProvisioner :=
  with_meta (λ m, object_meta "hpp2" (Namespace m) None) example_cr.
Definition crowded_cluster : cluster := put second_cr (put example_cr empty_cluster).

Lemma multiple_resources_refused_witness :
  (run cluster_handler (Reconcile (PL:=simple_platform ∅ "1.2.3" "hpp") (CD:=account_codec) ("", "hpp"))
     crowded_cluster).1 = Returned (failed (multiple_hpps 2)).
Proof.
  eapply (multiple_resources_refused (PL:=simple_platform ∅ "1.2.3" "hpp") (CD:=account_codec) cluster_handler
            ("", "hpp") crowded_cluster [_; _]); [vm_compute; reflexivity|cbn; lia].
Defined.

Lemma downgrade_is_refused_witness :
  ∃ e, wp faithful_updates
    (λ _ T r, is_write r = true → hpp_update r = Some (with_meta (AddFinalizer hppFinalizer) deployed_cr) ∧
                                  HasFinalizer (o_meta deployed_cr) hppFinalizer = false)
    (reconcile_active (PL:=simple_platform ∅ "v0.9.0" "hpp") (CD:=account_codec) deployed_cr "hpp" "v0.9.0")
    (λ tr o, ∃ err, o = Returned (failed err) ∧
       (err = e ∨ Ev (Update KHostPathProvisioner (with_meta (AddFinalizer hppFinalizer) deployed_cr)) (Err err) ∈ tr)) [].
Proof.
  eexists. eapply (downgrade_is_refused deployed_cr); [reflexivity|vm_compute; reflexivity].
Defined.
