(* ===== verification/System.v ===== *)
(** * The operator and its cluster, running

    The other files follow one call of [Reconcile]; here it runs again and again,
    in a cluster that others change in between its requests, where requests time
    out, answers get lost, and the operator crashes and starts anew.  The system
    is a step relation; [no_orphans] is an invariant of the states it reaches. *)
From stdpp Require Import relations.
From S2P Require Import Prelude GoStrings Prog Names Semver Api K8s Json JsonMerge Meta Conditions.
From S2P Require Import CryptoPolicy Rules Rbac ServiceAccount Scc CsiDriver Prometheus DaemonSet StoragePool.
From S2P Require Import Pools Controller Managed Deletion Lifecycle.

(** ** Answers *)

(** An error that says nothing about the cluster *)
Definition timeout (e : goerror) : Prop := err_kind e = KOther ∧ api_group_missing e = false.

(** The answer to a request that fails with an error *)
Definition failed_answer {T} (r : kreq T) (e : goerror) : option T :=
  match r with
  | Get _ _ | ListObjs _ _ | Create _ _ | Update _ _ => Some (Err e)
  | Delete _ _ _ => Some (Some e)
  | _ => None
  end.

(** How a cluster may answer, and what it is afterwards *)
Inductive answers (c : cluster) : ∀ T, kreq T → T → cluster → Prop :=
| served T (r : kreq T) : answers c T r (cluster_handler T r c).1 (cluster_handler T r c).2
| ranged ks ks' : ks' ≡ₚ ks → answers c _ (RangeOver ks) ks' c
| request_lost T (r : kreq T) e x : timeout e → failed_answer r e = Some x → answers c T r x c
| answer_lost T (r : kreq T) e x :
    timeout e → failed_answer r e = Some x → answers c T r x (cluster_handler T r c).2.

(** ** The system *)

(** The cluster, and what is left of the reconciliation that is under way *)
Record system := { objects : cluster; running : option (kprog reconciled) }.

Section System.
Context `{PL : Platform, CD : Codec} (key : ObjectKey) (others : cluster → cluster → Prop).

(** One worker: a reconciliation starts when none is under way. *)
Inductive step : system → system → Prop :=
| starts c : step {| objects := c; running := None |} {| objects := c; running := Some (Reconcile key) |}
| requests c T (r : kreq T) k x c' :
    answers c T r x c' →
    step {| objects := c; running := Some (Do r k) |} {| objects := c'; running := Some (k x) |}
| ends c result : step {| objects := c; running := Some (Ret result) |} {| objects := c; running := None |}
| crashes c p : step {| objects := c; running := Some p |} {| objects := c; running := None |}
| others_act c c' p : others c c' → step {| objects := c; running := p |} {| objects := c'; running := p |}.

(** The runs of the other files are among the behaviours of the system. *)
Lemma run_steps p c result c' :
  run cluster_handler p c = (Returned result, c') →
  rtc step {| objects := c; running := Some p |} {| objects := c'; running := None |}.
Proof.
  revert c. induction p as [a| | |T r k IH]; intros c; cbn [run]; try done.
  - intros [= -> ->]. apply rtc_once, ends.
  - intros Hr. eapply rtc_l; [apply requests, served|]. apply IH. by destruct (cluster_handler T r c).
Qed.

Lemma reconcile_steps c result c' :
  run cluster_handler (Reconcile key) c = (Returned result, c') →
  rtc step {| objects := c; running := None |} {| objects := c'; running := None |}.
Proof. intros Hr%run_steps. eapply rtc_l; [apply starts|done]. Qed.

(** ** What the others respect *)

(** The custom resource is there, with the operator's finalizer. *)
Definition guarded (c : cluster) : Prop :=
  ∃ cr, cluster_lookup c KHostPathProvisioner key = Some cr ∧ HasFinalizer (o_meta cr) hppFinalizer = true.

(** There is no such object, or it is being deleted. *)
Definition going (c : cluster) (k : kind) (mkey : ObjectKey) : Prop :=
  ∀ o, cluster_lookup c k mkey = Some o → DeletionTimestamp (o_meta o) ≠ None.

Definition fixed_name (k : kind) (mkey : ObjectKey) : Prop :=
  ∃ k', (k, k', mkey) ∈ managed_resources getNamespace.

Definition all_going (c : cluster) : Prop := ∀ k mkey, fixed_name k mkey → going c k mkey.

Definition well_keyed (c : cluster) : Prop :=
  ∀ cr, cluster_lookup c KHostPathProvisioner key = Some cr → ObjectKeyFromObject cr = key.

(** Nobody else removes the operator's finalizer, creates objects under the names
    of the operator, or takes back their deletion. *)
Record respectful : Prop := {
  others_guarded c c' : others c c' → guarded c → guarded c';
  others_going c c' k mkey : others c c' → fixed_name k mkey → going c k mkey → going c' k mkey;
  others_keyed c c' : others c c' → well_keyed c → well_keyed c' }.

(** ** What a request changes *)

Definition target {T} (r : kreq T) : option (kind * ObjectKey) :=
  match r with
  | Create k o | Update k o => Some (k, ObjectKeyFromObject o)
  | Delete k mkey _ => Some (k, mkey)
  | _ => None
  end.

Lemma handler_elsewhere {T} (r : kreq T) c k mkey :
  target r ≠ Some (k, mkey) →
  cluster_lookup (cluster_handler T r c).2 k mkey = cluster_lookup c k mkey.
Proof.
  intros Ht. destruct r as [k' key'|k' opts|k' o|k' o|k' key' p|about e|n| |ks]; cbn [target] in Ht; try done.
  - apply (server_create_other (h:=cluster_handler)). congruence.
  - apply (server_update_other (h:=cluster_handler)). congruence.
  - apply (server_delete_other (h:=cluster_handler)). congruence.
Qed.

Lemma answers_state c T (r : kreq T) x c' : answers c T r x c' → c' = c ∨ c' = (cluster_handler T r c).2.
Proof. destruct 1; auto. Qed.

Definition is_range {T} (r : kreq T) : bool := match r with RangeOver _ => true | _ => false end.

Lemma answers_cases c T (r : kreq T) x c' :
  answers c T r x c' →
  x = (cluster_handler T r c).1 ∧ c' = (cluster_handler T r c).2 ∨
  is_range r = true ∨ ∃ e, timeout e ∧ failed_answer r e = Some x.
Proof. destruct 1; [by left|by right; left|right; right; by exists e..]. Qed.

Lemma answers_elsewhere c T (r : kreq T) x c' k mkey :
  answers c T r x c' → target r ≠ Some (k, mkey) → cluster_lookup c' k mkey = cluster_lookup c k mkey.
Proof. intros [->| ->]%answers_state Ht; [done|]. by apply handler_elsewhere. Qed.

Lemma answers_faithful c T (r : kreq T) x c' : answers c T r x c' → faithful_updates T r x.
Proof.
  destruct 1 as [T r|ks ks'|T r e x _ Hx|T r e x _ Hx]; [apply cluster_faithful|done|..];
    intros sent stored; (destruct r as [| | |k o| | | | |]; try done); (destruct k; try done);
    injection Hx as <-; by intros [_ ?].
Qed.

Definition fixed_kinds : list kind :=
  [KSecurityContextConstraints; KPrometheusRule; KRole; KRoleBinding; KServiceMonitor; KService; KCSIDriver;
   KClusterRoleBinding; KClusterRole].

Lemma fixed_name_kind k mkey : fixed_name k mkey → k ∈ fixed_kinds.
Proof.
  intros [k' Hk]. apply (list_elem_of_fmap_2 (λ x, x.1.1)) in Hk.
  assert (Hs : kinds_in ((λ x, x.1.1) <$> managed_resources getNamespace) fixed_kinds = true)
    by (generalize getNamespace; intros ns; reflexivity).
  by apply kinds_in_subseteq in Hs; apply Hs.
Qed.

(** ** A step of the reconciliation *)

(** A deleted object is going, whether the answer arrives or not. *)
Lemma handler_delete c k mkey p : going (cluster_handler _ (Delete k mkey p) c).2 k mkey.
Proof.
  intros o. unfold cluster_lookup. cbn [cluster_handler].
  destruct (store c k !! mkey) as [o0|] eqn:Ho; cbn [snd]; [|congruence]. case_bool_decide; cbn [snd].
  - unfold remove, with_store. cbn [store]. by rewrite set_kind_same, lookup_delete_eq.
  - unfold with_store. cbn [store]. rewrite set_kind_same, lookup_insert_eq. intros [= <-]. cbn.
    by destruct (DeletionTimestamp (o_meta o0)).
Qed.

(** Requests that write an object under a name of the operator *)
Definition puts_fixed {T} (r : kreq T) : Prop :=
  match r with Create k o | Update k o => fixed_name k (ObjectKeyFromObject o) | _ => False end.

Lemma answers_going c T (r : kreq T) x c' k mkey :
  answers c T r x c' → ¬ puts_fixed r → fixed_name k mkey → going c k mkey → going c' k mkey.
Proof.
  intros [->| ->]%answers_state Hp Hf Hg; [done|].
  destruct (decide (target r = Some (k, mkey))) as [Ht|Ht].
  - destruct r as [| |k1 o|k1 o|k1 mkey1 p1| | | |]; try done; injection Ht as Hk Hm; subst; [done..|].
    apply handler_delete.
  - intros o. rewrite handler_elsewhere by done. apply Hg.
Qed.

(** Requests that create or delete a custom resource, which the operator never makes *)
Definition makes_hpp {T} (r : kreq T) : bool :=
  match r with Create KHostPathProvisioner _ | Delete KHostPathProvisioner _ _ => true | _ => false end.

Definition keeps_finalizer {T} (r : kreq T) : Prop :=
  ∀ cr, hpp_update r = Some cr → HasFinalizer (o_meta cr) hppFinalizer = true.

Lemma target_hpp {T} (r : kreq T) mkey :
  target r = Some (KHostPathProvisioner, mkey) → makes_hpp r = false →
  ∃ cr, hpp_update r = Some cr ∧ ObjectKeyFromObject cr = mkey.
Proof.
  destruct r as [| |k o|k o|k mkey1 p| | | |]; try done; cbn [target]; intros [= Hk Hm] Hn; destruct k; try done.
  by exists o.
Qed.

(** An update that keeps the finalizer stores the resource with it. *)
Lemma handler_update c cr :
  is_Some (cluster_lookup c KHostPathProvisioner (ObjectKeyFromObject cr)) →
  HasFinalizer (o_meta cr) hppFinalizer = true →
  cluster_lookup (cluster_handler _ (Update KHostPathProvisioner cr) c).2 KHostPathProvisioner
    (ObjectKeyFromObject cr) = Some cr.
Proof.
  unfold cluster_lookup. intros [o Ho] Hf. cbn [cluster_handler]. rewrite Ho.
  rewrite bool_decide_eq_false_2 by (intros [_ Hn]; unfold HasFinalizer in Hf; by rewrite Hn in Hf).
  unfold put, with_store. cbn [snd store]. by rewrite set_kind_same, lookup_insert_eq.
Qed.

Lemma hpp_update_spec {T} (r : kreq T) cr :
  hpp_update r = Some cr →
  ∀ c, (cluster_handler T r c).2 = (cluster_handler _ (Update KHostPathProvisioner cr) c).2.
Proof. destruct r as [| | |k o| | | | |]; try done. destruct k; try done. by intros [= ->]. Qed.

Lemma answers_guarded c T (r : kreq T) x c' :
  answers c T r x c' → makes_hpp r = false → keeps_finalizer r → guarded c → guarded c'.
Proof.
  intros [->| ->]%answers_state Hm Hk (cr & Hcr & Hf); [by exists cr|].
  destruct (decide (target r = Some (KHostPathProvisioner, key))) as [Ht|Ht].
  - apply target_hpp in Ht as (cr' & Hu & Hkey); [|done]. exists cr'. rewrite (hpp_update_spec r cr' Hu c).
    split; [|by apply Hk]. rewrite <-Hkey. apply handler_update; [by rewrite Hkey, Hcr|by apply Hk].
  - exists cr. by rewrite handler_elsewhere.
Qed.

Lemma answers_keyed c T (r : kreq T) x c' : answers c T r x c' → makes_hpp r = false → well_keyed c → well_keyed c'.
Proof.
  intros [->| ->]%answers_state Hm Hw; [done|].
  destruct (decide (target r = Some (KHostPathProvisioner, key))) as [Ht|Ht].
  - apply target_hpp in Ht as (cr' & Hu & Hkey); [|done]. intros cr. rewrite (hpp_update_spec r cr' Hu c).
    unfold cluster_lookup. cbn [cluster_handler]. rewrite Hkey.
    destruct (store c KHostPathProvisioner !! key) as [o|] eqn:Ho; cbn [snd]; [|congruence].
    case_bool_decide; cbn [snd].
    + unfold remove, with_store. cbn [store]. by rewrite set_kind_same, lookup_delete_eq.
    + unfold put, with_store. cbn [store]. rewrite set_kind_same, Hkey, lookup_insert_eq. by intros [= <-].
  - intros cr. rewrite handler_elsewhere by done. apply Hw.
Qed.

(** ** What the operator does *)

Definition updates_hpp : ∀ T, kreq T → Prop := λ T r, makes_hpp r = false.

(** Requests that write no object of a kind with fixed names *)
Definition puts_kind {T} (r : kreq T) : bool :=
  match r with Create k _ | Update k _ => bool_decide (k ∈ fixed_kinds) | _ => false end.
Definition only_removes : ∀ T, kreq T → Prop := λ T r, puts_kind r = false.

Lemma puts_kind_fixed {T} (r : kreq T) : puts_kind r = false → ¬ puts_fixed r.
Proof. destruct r; try (by intros _ []); cbn; intros Hk%bool_decide_eq_false Hf%fixed_name_kind; done. Qed.

Lemma writes_update_hpp {A} ks (p : kprog A) :
  footprint (writes_only ks) p → kinds_in [KHostPathProvisioner] ks = false → footprint updates_hpp p.
Proof.
  intros Hp Hk. eapply footprint_mono; [exact Hp|]. intros T r Hr.
  assert (Hn : KHostPathProvisioner ∉ ks).
  { unfold kinds_in in Hk. cbn in Hk. rewrite andb_true_r in Hk. by apply bool_decide_eq_false in Hk. }
  unfold updates_hpp. destruct r as [| |k o| |k mkey q| | | |]; try done;
    (destruct k; try done); (destruct Hr as (k' & [= <-] & Hin); done).
Qed.

Lemma writes_only_remove {A} ks (p : kprog A) :
  footprint (writes_only ks) p → existsb (λ k, bool_decide (k ∈ fixed_kinds)) ks = false → footprint only_removes p.
Proof.
  intros Hp Hk. eapply footprint_mono; [exact Hp|]. intros T r Hr.
  assert (Hn : ∀ k, k ∈ ks → bool_decide (k ∈ fixed_kinds) = false).
  { intros k Hin. apply not_true_iff_false. intros Ht. rewrite <-not_true_iff_false in Hk. apply Hk.
    apply List.existsb_exists. exists k. by rewrite list_elem_of_In in Hin. }
  unfold only_removes. destruct r; try done; (destruct Hr as (k' & [= <-] & Hin); [done|by apply Hn]).
Qed.

Ltac hpp_solve :=
  fp_solve; try (eapply writes_update_hpp; [solve [eauto 1 with fp nocore]|reflexivity]).

Lemma Reconcile_updates_hpp : footprint updates_hpp (Reconcile key).
Proof.
  unfold Reconcile, getHppList, set_gauge, reconcile_deletion, delete_managed, reconcile_active, addFinalizer,
    start_deploying, start_upgrading, reconcile_all, reconcileUpdate, reconcileStatus, checkDegraded,
    get_daemonsets, update_changed, ignoreHeartBeatTimestamp, MarkCrDeploying, MarkCrUpgradeHealingDegraded,
    MarkCrHealthyMessage, MarkCrFailed, MarkCrFailedHealing.
  hpp_solve.
Qed.

Lemma deletion_only_removes cr ns : footprint only_removes (reconcile_deletion cr ns).
Proof.
  unfold reconcile_deletion, delete_managed, deletePrometheusResources, deleteSCC, when_used, checkSCCUsed,
    checkPrometheusUsed, checkUsed, deleteAllRbac, deleteCSIDriver, deleteClusterRoleBindingObject,
    deleteClusterRoleObject, deleteRoleBindingObject, deleteRoleObject, delete_object, ignore_not_found.
  fp_solve; (eapply writes_only_remove; [solve [eauto 1 with fp nocore]|reflexivity]).
Qed.

(** The finalizer of the resource that was read, or of one that was written *)
Definition finalizer_seen (cr0 : HostPathProvisioner) (tr : ktrace) : Prop :=
  HasFinalizer (o_meta cr0) hppFinalizer = true ∨
  ∃ cr x, Ev (Update KHostPathProvisioner cr) (Ok x) ∈ tr ∧ HasFinalizer (o_meta cr) hppFinalizer = true ∧
          ObjectKeyFromObject cr = key.

Lemma finalizer_seen_mono cr0 : monotone (finalizer_seen cr0).
Proof. intros tr tr' Hp [H|(cr & x & H & Hf)]; [by left|]. right. exists cr, x. split; [by eapply elem_of_monotone|done]. Qed.

(** What a reconciliation that has read [cr0] may still do.  Alive, it writes
    objects under its names once the finalizer is there, and keeps the finalizer;
    deleted, it writes none, and touches the resource when all is gone. *)
Definition disciplined (cr0 : HostPathProvisioner) : guarantee kreq := λ tr T r,
  makes_hpp r = false ∧
  match DeletionTimestamp (o_meta cr0) with
  | None => (puts_fixed r → finalizer_seen cr0 tr) ∧ keeps_finalizer r
  | Some _ => ¬ puts_fixed r ∧ ((∃ cr, hpp_update r = Some cr) → all_gone getNamespace tr)
  end.

Lemma with_AddFinalizer_key (cr : obj KHostPathProvisioner) :
   ObjectKeyFromObject (with_meta (AddFinalizer hppFinalizer) cr) = ObjectKeyFromObject cr.
Proof.
  unfold ObjectKeyFromObject, o_namespace, o_name, AddFinalizer, with_meta; cbn [o_meta].
  by destruct (HasFinalizer _ _).
Qed.

Lemma wp_active_seen cr0 ns version tr :
  DeletionTimestamp (o_meta cr0) = None → ObjectKeyFromObject cr0 = key →
  wp any_answer (λ tr T r, puts_fixed r → finalizer_seen cr0 tr) (reconcile_active cr0 ns version) (λ _ _, True) tr.
Proof.
  intros Hd Hkey. unfold reconcile_active. cbv zeta. apply wp_with_ok.
  assert (Hrest : ∀ (p : kprog reconciled) tr', finalizer_seen cr0 tr' →
    wp any_answer (λ tr T r, puts_fixed r → finalizer_seen cr0 tr) p (λ _ _, True) tr').
  { intros p tr' Hs. eapply (wp_footprint _ (λ _ _, True)); [apply footprint_any| |done].
    intros tr2 T r Hp _ _. by eapply finalizer_seen_mono. }
  unfold addFinalizer. rewrite bool_decide_eq_true_2 by done. cbv zeta.
  set (cr1 := with_meta (AddFinalizer hppFinalizer) cr0).
  assert (Hf : HasFinalizer (o_meta cr1) hppFinalizer = true) by apply HasFinalizer_added.
  assert (Hkey1 : ObjectKeyFromObject cr1 = key)
    by (rewrite <-Hkey; apply with_AddFinalizer_key).
  case_bool_decide as Hsame.
  - cbn [wp mret prog_mret post_with_ok]. apply Hrest. left. unfold HasFinalizer in *. by rewrite Hsame.
  - cbn [wp request]. split.
    { intros Hp. by destruct (puts_kind_fixed (Update KHostPathProvisioner cr1) eq_refl). }
    intros [x|e] _; cbn [post_with_ok]; [|done]. apply Hrest. right. exists cr1, x. split; [apply last_event|].
    split; [exact Hf|exact Hkey1].
Qed.

Lemma wp_footprint_conj {A} (R : rely kreq) (P : ∀ T, kreq T → Prop) G (p : kprog A) Q tr :
  footprint P p → wp R G p Q tr → wp R (λ tr T r, P T r ∧ G tr T r) p Q tr.
Proof.
  intros Hf Hp. eapply wp_mono; [done| | |eapply wp_conj; [apply (footprint_wp R P p tr Hf)|exact Hp]]; [done|].
  by intros tr' o [_ H].
Qed.

(** The continuation of [Reconcile] after it has read [cr0] *)
Definition after_get (cr0 : HostPathProvisioner) (version : string) : kprog reconciled :=
  set_gauge cr0;;
  if bool_decide (DeletionTimestamp (o_meta cr0) ≠ None) then reconcile_deletion cr0 getNamespace
  else reconcile_active cr0 getNamespace version.

Lemma wp_after_get cr0 version :
  ObjectKeyFromObject cr0 = key → footprint updates_hpp (after_get cr0 version) →
  wp faithful_updates (disciplined cr0) (after_get cr0 version) (λ _ _, True) [].
Proof.
  intros Hkey Hfp. unfold disciplined. apply (wp_footprint_conj _ updates_hpp); [done|]. clear Hfp.
  unfold after_get. apply wp_bind.
  eapply (wp_footprint _ no_writes); [unfold set_gauge; fp_solve| |].
  { intros tr T r _ Hr. destruct r; try done; destruct (DeletionTimestamp _); (split; by intros []). }
  intros tr [[]| |] _; cbn [post_bind]; [|done..].
  destruct (DeletionTimestamp (o_meta cr0)) eqn:Hd.
  - rewrite bool_decide_eq_true_2 by done.
    pose proof (wp_footprint_conj faithful_updates only_removes _ _ _ tr (deletion_only_removes cr0 getNamespace)
                  (wp_reconcile_deletion faithful_updates cr0 getNamespace tr)) as Hp.
    eapply wp_mono; [done| | |exact Hp]; [|done].
    intros tr' T r [Hr Hu]. split; [by apply puts_kind_fixed|]. intros [cr Hcr]. by destruct (Hu cr Hcr) as [_ [_ ?]].
  - rewrite bool_decide_eq_false_2 by (by intros []).
    pose proof (wp_active_seen cr0 getNamespace version tr Hd Hkey) as Hs.
    apply (wp_mono _ faithful_updates _ _ _ _ _ _ (λ _ _ _ _, I) (λ _ _ _ H, H) (λ _ _ H, H)) in Hs.
    pose proof (wp_conj _ _ _ _ _ _ _ Hs (wp_reconcile_active cr0 getNamespace version tr Hd)) as Hp.
    eapply wp_mono; [done| | |exact Hp]; [|done].
    intros tr' T r [Hr Hu]. split; [exact Hr|]. intros cr Hcr. by apply (up_finalizer _ _ _ _ _ (Hu cr Hcr)).
Qed.

(** ** The reading of the custom resource *)

Definition got {T} (r : kreq T) : T → option (result HostPathProvisioner) :=
  match r in kreq T return T → option (result HostPathProvisioner) with
  | Get k mkey => match k return result (obj k) → option (result HostPathProvisioner) with
                  | KHostPathProvisioner => λ x, if bool_decide (mkey = key) then Some x else None
                  | _ => λ _, None
                  end
  | _ => λ _, None
  end.

(** A reconciliation that has not read the resource yet: it writes nothing, and
    is disciplined from then on. *)
Fixpoint reading (p : kprog reconciled) : Prop :=
  match p with
  | Do r k =>
      is_write r = false ∧
      ∀ x, match got r x with
           | Some (Ok cr0) =>
               ObjectKeyFromObject cr0 = key → wp faithful_updates (disciplined cr0) (k x) (λ _ _, True) []
           | Some (Err _) => footprint no_writes (k x)
           | None => reading (k x)
           end
  | _ => True
  end.

Lemma Reconcile_reading : reading (Reconcile key).
Proof.
  pose proof Reconcile_updates_hpp as Hf. unfold Reconcile, getHppList, with_ok, request in *.
  cbn [mbind prog_mbind prog_bind reading footprint] in *. split; [done|]. destruct Hf as [_ Hf].
  intros [items|e]; [|done]. specialize (Hf (Ok items)). cbn [got]. cbv beta match in Hf. revert Hf.
  destruct (1 <? length items)%nat; [done|]. destruct VersionStringFunc as [version|]; [|done].
  intros [_ Hf]. split; [done|]. cbn [got]. rewrite bool_decide_eq_true_2 by done.
  intros [cr0|e]; [|done]. intros Hkey. apply (wp_after_get cr0 version Hkey (Hf (Ok cr0))).
Qed.

(** ** The invariant *)

(** What a reconciliation that works on [cr0] knows of the cluster *)
Definition mindful (cr0 : HostPathProvisioner) (tr : ktrace) (c : cluster) : Prop :=
  match DeletionTimestamp (o_meta cr0) with
  | None => finalizer_seen cr0 tr → guarded c
  | Some _ => (∀ k mkey, fixed_name k mkey → deleted k mkey tr → going c k mkey) ∧ ∀ k, ¬ kind_missing k tr
  end.

Inductive working (c : cluster) (p : kprog reconciled) : Prop :=
| working_reads : reading p → working c p
| working_idles : footprint no_writes p → working c p
| working_on cr0 tr : wp faithful_updates (disciplined cr0) p (λ _ _, True) tr → mindful cr0 tr c → working c p.

Record sound (s : system) : Prop := {
  sound_keyed : well_keyed (objects s);
  sound_names : guarded (objects s) ∨ all_going (objects s);
  sound_run p : running s = Some p → working (objects s) p }.

(** *** Answers that tell something *)

Lemma answers_got c T (r : kreq T) x c' cr0 :
  answers c T r x c' → got r x = Some (Ok cr0) → c' = c ∧ cluster_lookup c KHostPathProvisioner key = Some cr0.
Proof.
  intros Ha Hg. destruct r as [k mkey| | | | | | | |]; try done. destruct k; try done. cbn [got] in Hg.
  case_bool_decide as Hk; [|done]. subst. injection Hg as ->.
  pose proof (answers_state _ _ _ _ _ Ha) as Hs. cbn [cluster_handler snd] in Hs.
  apply answers_cases in Ha as [[Hx _]|[[=]|(e & _ & [=])]].
  split; [tauto|]. unfold cluster_lookup. cbn [cluster_handler fst] in Hx. destruct (store c _ !! key); by simplify_eq.
Qed.

Lemma answers_deleted c k mkey p x c' :
  answers c _ (Delete k mkey p) x c' → match x with None => True | Some e => IsNotFound e = true end →
  going c' k mkey.
Proof.
  intros Ha Hx. pose proof (answers_state _ _ _ _ _ Ha) as Hs.
  apply answers_cases in Ha as [[_ ->]|[[=]|(e & [He _] & [= <-])]]; [apply handler_delete|].
  unfold IsNotFound in Hx. rewrite He in Hx. by apply bool_decide_eq_true in Hx.
Qed.

Lemma answers_stored c cr x c' :
  answers c _ (Update KHostPathProvisioner cr) (Ok x) c' → HasFinalizer (o_meta cr) hppFinalizer = true →
  ObjectKeyFromObject cr = key → guarded c'.
Proof.
  intros Ha Hf Hkey. apply answers_cases in Ha as [[Hx ->]|[[=]|(e & _ & [=])]].
  exists cr. split; [|done]. rewrite <-Hkey. apply handler_update; [|done]. unfold cluster_lookup. cbn [cluster_handler] in Hx.
  by destruct (store c _ !! _).
Qed.

Lemma answers_listed c k opts e c' : answers c _ (ListObjs k opts) (Err e) c' → api_group_missing e = false.
Proof. by intros [[[=] _]|[[=]|(e' & [_ He] & [= ->])]]%answers_cases. Qed.

(** *** One request *)

Definition event_answers (c c' : cluster) (ev : event kreq) : Prop :=
  match ev with Ev r x => answers c _ r x c' end.

#[global] Instance fixed_name_dec k mkey : Decision (fixed_name k mkey).
Proof.
  destruct (decide ((k, mkey) ∈ (λ m, (m.1.1, m.2)) <$> managed_resources getNamespace)) as [Hin|Hin]; [left|right].
  - apply list_elem_of_fmap in Hin as ([[? k'] ?] & [= -> ->] & ?). by exists k'.
  - intros [k' Hk]. apply Hin. apply list_elem_of_fmap. by exists (k, k', mkey).
Qed.

#[global] Instance puts_fixed_dec {T} (r : kreq T) : Decision (puts_fixed r).
Proof. destruct r; apply _. Defined.

Lemma deleted_last c c' tr ev k mkey :
  event_answers c c' ev → deleted k mkey (tr ++ [ev]) → deleted k mkey tr ∨ going c' k mkey.
Proof.
  intros Ha (p & x & [Hin|Hin%list_elem_of_singleton]%elem_of_app & Hx); [left; by exists p, x|]. subst ev.
  right. by eapply answers_deleted.
Qed.

Lemma kind_missing_last c c' tr ev k :
  event_answers c c' ev → kind_missing k (tr ++ [ev]) → kind_missing k tr.
Proof.
  intros Ha (opts & e & [Hin|Hin%list_elem_of_singleton]%elem_of_app & He); [by exists opts, e|]. subst ev.
  by rewrite (answers_listed _ _ _ _ _ Ha) in He.
Qed.

Lemma finalizer_seen_last c c' cr0 tr ev :
  event_answers c c' ev → finalizer_seen cr0 (tr ++ [ev]) → finalizer_seen cr0 tr ∨ guarded c'.
Proof.
  intros Ha [H|(cr & y & [Hin|Hin%list_elem_of_singleton]%elem_of_app & Hf & Hk)]; [by left; left|left; right; by eauto|].
  subst ev. right. by eapply answers_stored.
Qed.

(** A disciplined request keeps the names guarded or going, and the
    reconciliation mindful. *)
Lemma disciplined_names c cr0 tr T (r : kreq T) x c' :
  answers c T r x c' → disciplined cr0 tr T r → mindful cr0 tr c → guarded c ∨ all_going c → guarded c' ∨ all_going c'.
Proof.
  unfold disciplined, mindful. intros Ha [Hm Hd] Hw Hc. destruct (DeletionTimestamp (o_meta cr0)).
  - destruct Hd as [Hp Hu], Hw as [Hw Hk].
    assert (Hgo : all_going c → all_going c') by (intros Hg k mkey Hf; eapply answers_going; eauto).
    destruct (hpp_update r) as [cr|] eqn:Hr.
    + right. apply Hgo. intros k mkey [k' Hf]. destruct (Hu (ex_intro _ cr eq_refl) _ _ _ Hf) as [Hx|Hx].
      * apply Hw; [by exists k'|done].
      * by destruct (Hk _ Hx).
    + destruct Hc as [Hc|Hc]; [left|right; by apply Hgo]. eapply answers_guarded; eauto. intros cr. by rewrite Hr.
  - destruct Hd as [Hp Hu]. assert (Hgu : guarded c → guarded c') by (by eapply answers_guarded).
    destruct (decide (puts_fixed r)) as [Hr|Hr]; [left; auto|]. destruct Hc as [Hc|Hc]; [left; auto|right].
    intros k mkey Hf. eapply answers_going; eauto.
Qed.

Lemma disciplined_mindful c cr0 tr T (r : kreq T) x c' :
  answers c T r x c' → disciplined cr0 tr T r → mindful cr0 tr c → mindful cr0 (tr ++ [Ev r x]) c'.
Proof.
  unfold disciplined, mindful. intros Ha [Hm Hd] Hw. assert (He : event_answers c c' (Ev r x)) by done.
  destruct (DeletionTimestamp (o_meta cr0)).
  - destruct Hd as [Hp _], Hw as [Hw Hk]. split.
    + intros k mkey Hf [Hx|Hx]%(deleted_last c c'); [|done..]. eapply answers_going; eauto.
    + intros k Hx%(kind_missing_last c c'); [|done]. by apply (Hk k).
  - intros [Hs|Hs]%(finalizer_seen_last c c'); [|done..]. eapply answers_guarded; eauto. apply Hd.
Qed.

(** *** One step *)

Lemma quiet_request c T (r : kreq T) x c' :
  answers c T r x c' → is_write r = false →
  (well_keyed c → well_keyed c') ∧ (guarded c ∨ all_going c → guarded c' ∨ all_going c').
Proof.
  intros Ha Hw. assert (Hm : makes_hpp r = false) by (by destruct r).
  assert (Hp : ¬ puts_fixed r) by (intros Hx; by destruct r). split; [by eapply answers_keyed|].
  intros [Hc|Hc]; [left|right; intros k mkey Hf; eapply answers_going; eauto].
  eapply answers_guarded; eauto. intros cr Hx. by destruct r.
Qed.

Lemma mindful_start c cr0 : cluster_lookup c KHostPathProvisioner key = Some cr0 → mindful cr0 [] c.
Proof.
  intros Hc. unfold mindful. destruct (DeletionTimestamp (o_meta cr0)).
  - split; [by intros k mkey _ (p & x & []%not_elem_of_nil & _)|by intros k (opts & e & []%not_elem_of_nil & _)].
  - intros [Hf|(cr & x & []%not_elem_of_nil & _)]. by exists cr0.
Qed.

Lemma sound_request c T (r : kreq T) k x c' :
  answers c T r x c' → sound {| objects := c; running := Some (Do r k) |} →
  sound {| objects := c'; running := Some (k x) |}.
Proof.
  intros Ha [Hk Hn Hr]. cbn [objects running] in *. specialize (Hr _ eq_refl). split; cbn [objects running];
    [| |intros p [= <-]]; destruct Hr as [[Hw Hp]|[Hw Hp]|cr0 tr [Hd Hp] Hm];
    try (by apply (quiet_request c _ r x c' Ha Hw)).
  - apply (answers_keyed c _ r x c' Ha); [apply Hd|done].
  - by apply (disciplined_names c cr0 tr _ r x c').
  - specialize (Hp x). destruct (got r x) as [[cr0|e]|] eqn:Hg; [|by apply working_idles|by apply working_reads].
    destruct (answers_got _ _ _ _ _ _ Ha Hg) as [-> Hc]. apply (working_on _ _ cr0 []); [apply Hp; by apply Hk|].
    by apply mindful_start.
  - by apply working_idles.
  - apply (working_on _ _ cr0 (tr ++ [Ev r x])); [apply Hp; by eapply answers_faithful|].
    by apply (disciplined_mindful c cr0 tr _ r x c').
Qed.

Lemma sound_others c c' p :
  respectful → others c c' → sound {| objects := c; running := p |} → sound {| objects := c'; running := p |}.
Proof.
  intros [Hgu Hgo Hke] Ho [Hk Hn Hr]. cbn [objects running] in *. split; cbn [objects running].
  - by apply (Hke c).
  - destruct Hn as [Hn|Hn]; [left; eauto|right]. intros k mkey Hf. eapply Hgo; eauto.
  - intros q Hq. destruct (Hr q Hq) as [Hp|Hp|cr0 tr Hp Hm]; [by apply working_reads|by apply working_idles|].
    apply (working_on _ _ cr0 tr); [done|]. unfold mindful in *. destruct (DeletionTimestamp (o_meta cr0)); [|eauto].
    destruct Hm as [Hm Hx]. split; [|done]. eauto.
Qed.

Lemma sound_step s s' : respectful → step s s' → sound s → sound s'.
Proof.
  intros Ho. destruct 1 as [c|c T r k x c' Ha|c result|c p|c c' p Hc].
  - intros [Hk Hn _]. split; [done..|]. intros p [= <-]. apply working_reads, Reconcile_reading.
  - by apply sound_request.
  - intros [Hk Hn _]. by split.
  - intros [Hk Hn _]. by split.
  - by apply sound_others.
Qed.

Lemma sound_reachable s s' : respectful → rtc step s s' → sound s → sound s'.
Proof. intros Ho. induction 1; eauto using sound_step. Qed.

End System.
