(* ===== verification/NoPanic.v ===== *)
(** * The reconciler does not panic

    A panic in [Reconcile] takes the operator down.  This file finds every way
    the reconciler could panic and shows that there is no other: [sane] says what
    the API server's answers have to be, [BuildPrometheusRule] what the
    environment has to be. *)
From S2P Require Import Prelude GoStrings Prog Names Semver Api K8s Json JsonMerge Meta Conditions.
From S2P Require Import CryptoPolicy Rules Rbac ServiceAccount Scc CsiDriver Prometheus DaemonSet StoragePool.
From S2P Require Import Pools Controller Deletion Lifecycle.

(** ** The answers relied on *)

(** The Deployment is bound to a node, as [storagePoolDeploymentByNode] binds it. *)
Definition bound_to_node (d : Deployment) : Prop := ∃ node, deployment_node d = inr node.

(** The cluster's TLS profile is a named one, or a custom one with its section;
    the listed Deployments are bound to nodes; updates store what is sent. *)
Definition sane : rely kreq := λ T r x,
  go_answers T r x ∧ faithful_updates T r x ∧
  (∀ key (o : obj KAPIServer), Ev r x = Ev (Get KAPIServer key) (Ok o) → ¬ unknown_profile (o_body o)) ∧
  (∀ opts (l : list Deployment), Ev r x = Ev (ListObjs KDeployment opts) (Ok l) → Forall bound_to_node l).

(** ** Programs that return *)

Create HintDb yields discriminated.

Ltac yields_solve := triple_solve_with ltac:(exact I) ltac:(eauto 2 with yields nocore).

Section Returns.
Context `{PL : Platform, CD : Codec}.
Abbreviation returns p := (yields sane p always).

Lemma record_event_returns cr t r m : returns (record_event cr t r m).
Proof. unfold record_event. yields_solve. Qed.
#[local] Hint Resolve record_event_returns : yields.

Lemma ignore_not_found_returns p : returns p → returns (ignore_not_found p).
Proof. intros. unfold ignore_not_found. yields_solve. Qed.

Lemma delete_object_returns k ns name : returns (delete_object k ns name).
Proof. apply ignore_not_found_returns. yields_solve. Qed.
#[local] Hint Resolve ignore_not_found_returns delete_object_returns : yields.

Lemma create_resource_returns {k} cr (desired : obj k) after :
  (∀ o, returns (after o)) → returns (create_resource cr desired after).
Proof. intros. unfold create_resource. yields_solve. Qed.

Lemma update_resource_returns {k} cr name (found merged : obj k) : returns (update_resource cr name found merged).
Proof. unfold update_resource. yields_solve. Qed.
#[local] Hint Resolve update_resource_returns : yields.

Lemma create_or_update_returns {k} cr key (desired : obj k) after :
  (∀ o, returns (after o)) → returns (create_or_update cr key desired after).
Proof.
  intros. unfold create_or_update, merge_and_update. yields_solve. by apply create_resource_returns.
Qed.

Lemma create_only_returns {k} cr (desired : obj k) : returns (create_resource cr desired (λ _, mret None)).
Proof. apply create_resource_returns. intros. by apply triple_ret. Qed.

Lemma create_or_update_only_returns {k} cr key (desired : obj k) :
  returns (create_or_update cr key desired (λ _, mret None)).
Proof. apply create_or_update_returns. intros. by apply triple_ret. Qed.
#[local] Hint Resolve create_only_returns create_or_update_only_returns : yields.

(** ** The managed resources *)

Lemma when_used_returns k p : returns p → returns (when_used (checkUsed k) p).
Proof. intros. unfold when_used, checkUsed. yields_solve. Qed.

Lemma deleteSCC_returns name : returns (deleteSCC name).
Proof. apply when_used_returns. yields_solve. Qed.
#[local] Hint Resolve deleteSCC_returns : yields.

Lemma deletePrometheusResources_returns ns : returns (deletePrometheusResources ns).
Proof. apply when_used_returns. yields_solve. Qed.

Lemma delete_managed_returns ns : returns (delete_managed ns).
Proof.
  unfold delete_managed, deleteAllRbac, deleteCSIDriver, deleteClusterRoleBindingObject, deleteClusterRoleObject,
    deleteRoleBindingObject, deleteRoleObject.
  yields_solve. apply deletePrometheusResources_returns.
Qed.

Lemma reconcilePrometheusInfra_returns cr ns :
  BuildPrometheusRule ns ≠ None → returns (reconcilePrometheusInfra cr ns).
Proof.
  intros Hr. apply when_used_returns. destruct (BuildPrometheusRule ns); [|done].
  unfold reconcilePrometheusResource, merge_and_update. yields_solve.
Qed.

Lemma GetTLSMinVersionString_returns : returns GetTLSMinVersionString.
Proof.
  unfold GetTLSMinVersionString. cbv zeta. destruct (bool_decide _); [by apply triple_ret|].
  apply (triple_with_ok _ _ _ _ _ _ (λ o : obj KAPIServer, ¬ unknown_profile (o_body o))).
  - apply triple_request; [done|]. intros [o|e] (_ & _ & Hs & _); [|done]. by eapply Hs.
  - intros. by apply triple_ret.
  - intros o Ho. rewrite <-select_None in Ho.
    destruct (selectCipherSuitesAndMinTLSVersion (o_body o)) as [p|]; [|done]. by apply (triple_ret _ _ _ p.2).
Qed.
#[local] Hint Resolve GetTLSMinVersionString_returns : yields.

Lemma reconcileDaemonSet_returns cr ns : returns (reconcileDaemonSet cr ns).
Proof.
  unfold reconcileDaemonSet, getDuplicateDaemonSet, reconcileDaemonSetForSa, daemonset_answered,
    createCSIDaemonSetObject, deleteDaemonSet. yields_solve.
Qed.

Lemma reconcileServiceAccount_returns cr ns : returns (reconcileServiceAccount cr ns).
Proof.
  unfold reconcileServiceAccount, getDuplicateServiceAccount, deleteServiceAccount. yields_solve.
  unfold reconcileOneServiceAccount. yields_solve. apply create_or_update_returns. intros o.
  unfold deleteRunningPodsWithSa, deleteDaemonSetWithSa, deleteDeploymentsWithSa, list_or_empty. yields_solve.
Qed.

(** ** Storage pools *)

Definition all_bound (m : deployments) : Prop := map_Forall (λ _, bound_to_node) m.

Lemma list_labelled_yields {k B} labels ns h (body : list (obj k) → kprog B) (Φ : B → Prop) :
  (∀ e, yields sane (h e) Φ) →
  (∀ opts l, sane _ (ListObjs k opts) (Ok l) → yields sane (body l) Φ) →
  yields sane (list_labelled k labels ns h body) Φ.
Proof.
  intros Hh Hb. unfold list_labelled. destruct (LabelSelectorAsSelector labels) as [sel|e]; [|done].
  eapply (triple_with_ok _ _ _ _ _ _ (λ l, sane _ (ListObjs k {| lo_Selector := sel; lo_Namespace := ns |}) (Ok l)));
    [|done|by intros; eapply Hb].
  apply triple_request; [done|]. intros [l|e] Hx; [exact Hx|done].
Qed.

Lemma list_labelled_returns {k B} labels ns h (body : list (obj k) → kprog B) :
  (∀ e, returns (h e)) → (∀ l, returns (body l)) → returns (list_labelled k labels ns h body).
Proof. intros. by apply list_labelled_yields. Qed.

Lemma currentStoragePoolDeployments_yields cr ns :
  yields sane (currentStoragePoolDeployments cr ns) (ok_sat all_bound).
Proof.
  apply list_labelled_yields; [intros; by apply triple_ret|]. intros opts l (_ & _ & _ & Hl).
  apply triple_ret. intros name d [Hd _]%by_name_lookup. apply list_elem_of_filter in Hd as [_ Hd].
  specialize (Hl _ _ eq_refl). rewrite Forall_forall in Hl. auto.
Qed.

Lemma getNodesByDaemonSet_returns ns : returns (getNodesByDaemonSet ns).
Proof.
  unfold getNodesByDaemonSet. yields_solve. apply list_labelled_returns; intros; yields_solve.
Qed.
#[local] Hint Resolve getNodesByDaemonSet_returns : yields.

Lemma ensure_exists_returns {k} cr (desired : obj k) : returns (ensure_exists cr desired).
Proof. unfold ensure_exists. yields_solve. Qed.
#[local] Hint Resolve ensure_exists_returns : yields.

Lemma reconcileStoragePoolDeploymentByNode_yields cr ns pool template node current :
  all_bound current →
  yields sane (reconcileStoragePoolDeploymentByNode cr ns pool template node current) (ok_sat all_bound).
Proof.
  intros Hc. unfold reconcileStoragePoolDeploymentByNode.
  destruct (SetControllerReference _ _) as [desired|e]; [|by apply triple_ret].
  apply (triple_bind _ _ _ _ _ always); [by apply triple_request|]. intros [found|e] _.
  - apply triple_on_err; [yields_solve|intros; by apply triple_ret|].
    apply triple_ret. by apply map_Forall_delete.
  - destruct (IsNotFound e); [|by apply triple_ret].
    apply triple_on_err; [yields_solve|intros; by apply triple_ret|by apply triple_ret].
Qed.

Lemma reconcile_pool_yields cr ns nodes current pool :
  all_bound current → yields sane (reconcile_pool cr ns nodes current pool) (ok_sat all_bound).
Proof.
  intros Hc. unfold reconcile_pool. destruct (PVCTemplate pool) as [template|]; [|by apply triple_ret].
  destruct (isShared _).
  - destruct nodes as [|node nodes]; [by apply triple_ret|].
    apply triple_on_err; [unfold reconcileSharedStoragePoolPVC; yields_solve|intros; by apply triple_ret|].
    apply (triple_with_ok _ _ _ _ _ _ all_bound); [|intros; by apply triple_ret|].
    + apply triple_for_state; [done|]. intros. by apply reconcileStoragePoolDeploymentByNode_yields.
    + intros cur Hcur. apply triple_on_err; [unfold reconcileBackendStorageClass; yields_solve|..];
        intros; by apply triple_ret.
  - apply triple_for_state; [done|]. intros cur node _ Hcur.
    apply triple_on_err; [unfold reconcileStoragePoolPVCByNode; yields_solve|intros; by apply triple_ret|].
    by apply reconcileStoragePoolDeploymentByNode_yields.
Qed.

Lemma createCleanupJobForDeployment_returns cr ns d pool :
  bound_to_node d → returns (createCleanupJobForDeployment cr ns d pool).
Proof.
  intros [node Hn]. unfold createCleanupJobForDeployment, createCleanupJobForNode. rewrite Hn. yields_solve.
Qed.

Lemma for_deployments_returns m body :
  all_bound m → (∀ d, bound_to_node d → returns (body d)) → returns (for_deployments m body).
Proof.
  intros Hm Hb. unfold for_deployments. apply (triple_bind _ _ _ _ _ always); [by apply triple_request|].
  intros names _. apply triple_for_err. intros d (name & _ & Hd)%list_elem_of_omap. apply Hb. by eapply Hm.
Qed.

Lemma reconcileStoragePools_returns cr ns : returns (reconcileStoragePools cr ns).
Proof.
  unfold reconcileStoragePools. cbv zeta.
  apply (triple_with_ok _ _ _ _ _ _ always); [apply triple_always; yields_solve|intros; by apply triple_ret|].
  intros nodes _. eapply triple_with_ok; [apply currentStoragePoolDeployments_yields|intros; by apply triple_ret|].
  intros current Hc. apply (triple_with_ok _ _ _ _ _ _ all_bound); [|intros; by apply triple_ret|].
  { apply triple_for_state; [done|]. intros. by apply reconcile_pool_yields. }
  intros unused Hu. apply for_deployments_returns; [done|]. intros d Hd.
  apply triple_on_err; [unfold delete_deployment; yields_solve|intros; by apply triple_ret|].
  destruct (getStoragePoolForDeployment cr d); [|by apply triple_ret].
  apply (triple_with_ok _ _ _ _ _ _ always); [by apply triple_always, createCleanupJobForDeployment_returns|..];
    intros; by apply triple_ret.
Qed.

Lemma cleanDeployments_returns cr ns : returns (cleanDeployments cr ns).
Proof.
  unfold cleanDeployments. apply triple_for_err. intros pool _.
  destruct (PVCTemplate pool) as [template|]; [|by apply triple_ret].
  eapply triple_with_ok; [apply currentStoragePoolDeployments_yields|intros; by apply triple_ret|].
  intros current Hc. apply for_deployments_returns; [done|]. intros d Hd. unfold clean_deployment. cbv zeta.
  apply (triple_with_ok _ _ _ _ _ _ always);
    [by apply triple_always, createCleanupJobForDeployment_returns|intros; by apply triple_ret|].
  intros [node|] _; unfold delete_deployment; yields_solve.
Qed.

Lemma getCleanUpJobs_returns ns : returns (getCleanUpJobs ns).
Proof. apply list_labelled_returns; intros; yields_solve. Qed.
#[local] Hint Resolve getCleanUpJobs_returns : yields.

Lemma reconcileCleanup_returns cr ns n : returns (reconcileCleanup cr ns n).
Proof.
  unfold reconcileCleanup, hasCleanUpFinished, removeCleanUpJobs, ignore_not_found. yields_solve.
  eapply triple_mono; [apply currentStoragePoolDeployments_yields|done].
Qed.

Lemma reconcileStoragePoolStatus_yields cr ns :
  yields sane (reconcileStoragePoolStatus cr ns)
    (ok_sat (λ cr', cr_Conditions cr' = cr_Conditions cr)).
Proof.
  unfold reconcileStoragePoolStatus. apply (triple_with_ok _ _ _ _ _ _ always); [|intros; by apply triple_ret..].
  unfold storage_pool_status, storagePoolDeploymentsByStoragePool, getClaimStatusesByStoragePool.
  apply triple_always. yields_solve; apply list_labelled_returns; intros; yields_solve.
Qed.

(** ** The managed resources together *)

Lemma reconcile_resources_returns cr ns : BuildPrometheusRule ns ≠ None → returns (reconcile_resources cr ns).
Proof.
  intros Hr. pose proof reconcilePrometheusInfra_returns. pose proof reconcileDaemonSet_returns.
  pose proof reconcileStoragePools_returns. pose proof reconcileServiceAccount_returns.
  unfold reconcile_resources, reconcileClusterRole, reconcileClusterRoleBinding, reconcileRole, reconcileRoleBinding,
    reconcileCSIDriver, reconcileSecurityContextConstraints, reconcileRbacResource,
    deleteClusterRoleBindingObject, deleteClusterRoleObject.
  yields_solve. apply when_used_returns. unfold reconcileSecurityContextConstraintsDesired. yields_solve.
Qed.

(** ** Conditions are never lost *)

(** The resource has a condition of each type the copy has. *)
Definition covers (copy cr : HostPathProvisioner) : Prop :=
  ∀ ty, ty ∈ cond_Type <$> cr_Conditions copy → ty ∈ cond_Type <$> cr_Conditions cr.

Context (copy : HostPathProvisioner).
Abbreviation covering := (covers copy).
(** A value that comes with the resource *)
Abbreviation with_cr := (λ x, covering x.2).

Lemma covers_conditions cr cr' : cr_Conditions cr' = cr_Conditions cr → covering cr → covering cr'.
Proof. unfold covers. by intros ->. Qed.

Lemma mark_yields m cr reason message : covering cr → yields sane (mark_cr m cr reason message) covering.
Proof.
  intros Hc tr. apply wp_mark; [done|]. intros tr' cr' Hm _ ty Hty. apply (mk_types _ _ _ Hm). auto.
Qed.

Lemma update_yields cr : covering cr → yields sane (request (Update KHostPathProvisioner cr)) (ok_sat covering).
Proof.
  intros Hc. apply triple_request; [done|]. intros [cr'|e] (_ & Hf & _); [|done].
  destruct (Hf cr cr') as (_ & _ & Hs); [done|]. eapply covers_conditions; [|exact Hc].
  unfold cr_Conditions. by rewrite Hs.
Qed.

Lemma ignore_heartbeats_total copies conds :
  (∀ ty, ty ∈ cond_Type <$> copies → ty ∈ cond_Type <$> conds) → is_Some (ignore_heartbeats copies conds).
Proof.
  induction copies as [|c copies IH]; intros Hc; [by eexists|]. cbn [ignore_heartbeats].
  destruct (FindStatusCondition conds (cond_Type c)) as [x|] eqn:Hx.
  - destruct IH as [l Hl]; [intros ty Hty; apply Hc; by right|]. simpl. rewrite Hl. by eexists.
  - apply find_None_type in Hx. destruct Hx. apply Hc. by left.
Qed.

Lemma update_changed_returns cr res err : covering cr → returns (update_changed copy cr res err).
Proof.
  intros Hc. unfold update_changed, ignoreHeartBeatTimestamp.
  destruct (ignore_heartbeats_total _ _ Hc) as [l ->]. cbn [mbind prog_mbind prog_bind mret prog_mret].
  yields_solve.
Qed.

(** A mark, an event and an update *)
Lemma start_yields m cr t reason message :
  covering cr →
  yields sane (cr ← mark_cr m cr reason message; record_event cr t reason message;;
               request (Update KHostPathProvisioner cr)) (ok_sat covering).
Proof.
  intros Hc. eapply triple_bind; [by apply mark_yields|]. intros cr' Hc'.
  apply (triple_bind _ _ _ _ _ always); [yields_solve|]. intros _ _. by apply update_yields.
Qed.

Lemma get_daemonsets_yields {B} cr ns h (body : option DaemonSet → DaemonSet → kprog B) (Φ : B → Prop) :
  (∀ e, yields sane (h e) Φ) → (∀ legacy csi, yields sane (body legacy csi) Φ) →
  yields sane (get_daemonsets cr ns h body) Φ.
Proof.
  intros Hh Hb. unfold get_daemonsets. apply (triple_with_ok _ _ _ _ _ _ always); [apply triple_always|done|].
  { yields_solve. }
  intros legacy _. apply (triple_with_ok _ _ _ _ _ _ always); [apply triple_always; yields_solve|done|]. auto.
Qed.

Lemma checkDegraded_yields cr ns : covering cr → yields sane (checkDegraded cr ns) (ok_sat with_cr).
Proof.
  intros Hc. unfold checkDegraded. apply get_daemonsets_yields; [intros; by apply triple_ret|].
  intros legacy csi. cbv zeta. apply (triple_bind _ _ _ _ _ covering); [|intros; by apply triple_ret].
  destruct (_ && _); [|by apply triple_ret]. by apply (mark_yields Failed).
Qed.

Lemma reconcileStatus_yields cr ns version : covering cr → yields sane (reconcileStatus cr ns version) with_cr.
Proof.
  intros Hc. unfold reconcileStatus.
  eapply triple_with_ok; [by apply checkDegraded_yields|intros; by apply triple_ret|].
  intros [degraded cr1] Hc1. eapply triple_bind; [apply reconcileStoragePoolStatus_yields|].
  intros [cr2|e] H2; simpl in H2.
  - apply triple_ret. eapply covers_conditions; [|exact Hc1]. simpl. by destruct (_ && _).
  - apply (triple_bind _ _ _ (mark_cr FailedHealing cr1 _ _) _ covering); [by apply mark_yields|].
    intros; by apply triple_ret.
Qed.

Lemma reconcileUpdate_yields cr ns :
  BuildPrometheusRule ns ≠ None → covering cr → yields sane (reconcileUpdate cr ns) with_cr.
Proof.
  intros Hr Hc. unfold reconcileUpdate.
  apply triple_on_err; [by apply reconcile_resources_returns|intros; by apply triple_ret|].
  apply get_daemonsets_yields; [intros; by apply triple_ret|]. intros legacy csi.
  apply (triple_bind _ _ _ _ _ covering).
  - destruct (daemonsets_ready _ _ _); [|by apply triple_ret].
    apply (triple_bind _ _ _ (mark_cr Healthy cr _ _) _ covering); [by apply mark_yields|]. intros cr1 Hc1.
    apply (triple_bind _ _ _ _ _ always); [yields_solve|]. intros; by apply triple_ret.
  - intros cr1 Hc1. apply (triple_bind _ _ _ _ _ always); [apply reconcileCleanup_returns|].
    intros; by apply triple_ret.
Qed.

Lemma reconcile_all_yields cr ns version :
  BuildPrometheusRule ns ≠ None → covering cr → yields sane (reconcile_all cr ns version) with_cr.
Proof.
  intros Hr Hc. unfold reconcile_all. eapply triple_bind; [by apply reconcileUpdate_yields|].
  intros [[res [e|]] cr1] Hc1; [|by apply reconcileStatus_yields]. cbv zeta.
  apply (triple_bind _ _ _ (mark_cr FailedHealing cr1 _ _) _ covering); [by apply mark_yields|]. intros cr2 Hc2.
  apply (triple_bind _ _ _ _ _ always); [yields_solve|]. intros; by apply triple_ret.
Qed.

Lemma addFinalizer_yields : yields sane (addFinalizer copy) (ok_sat covering).
Proof.
  assert (Hc : covering copy) by by intros ty.
  unfold addFinalizer. cbv zeta. destruct (bool_decide (DeletionTimestamp _ = _)); [|by apply triple_ret].
  destruct (bool_decide _); [by apply triple_ret|by apply update_yields].
Qed.

Lemma reconcile_active_returns ns version :
  BuildPrometheusRule ns ≠ None → returns (reconcile_active copy ns version).
Proof.
  intros Hr. unfold reconcile_active. cbv zeta.
  eapply triple_with_ok; [apply addFinalizer_yields|intros; by apply triple_ret|]. intros cr1 Hc1.
  destruct (canUpgrade _ _) as [b|e]; [|by apply triple_ret].
  apply (triple_with_ok _ _ _ _ _ _ covering); [|intros; by apply triple_ret|].
  { unfold start_deploying. destruct (isDeploying _); [by apply (start_yields Deploying)|by apply triple_ret]. }
  intros cr2 Hc2. apply (triple_with_ok _ _ _ _ _ _ covering); [|intros; by apply triple_ret|].
  { unfold start_upgrading. destruct (_ && _); [|by apply triple_ret].
    by apply (start_yields UpgradeHealingDegraded). }
  intros cr3 Hc3. eapply triple_bind; [by apply reconcile_all_yields|].
  intros [[res err] cr4] Hc4. by apply update_changed_returns.
Qed.
End Returns.

(** ** The reconciler *)

Section NoPanic.
Context `{PL : Platform, CD : Codec}.

Lemma reconcile_deletion_returns cr ns : yields sane (reconcile_deletion cr ns) always.
Proof.
  unfold reconcile_deletion. cbv zeta.
  apply triple_on_err; [apply cleanDeployments_returns|intros; by apply triple_ret|].
  apply (triple_bind _ _ _ _ _ always); [apply reconcileCleanup_returns|]. intros [res err] _.
  destruct (match err with Some _ => _ | None => _ end); [by apply triple_ret|].
  apply triple_on_err; [apply delete_managed_returns|intros; by apply triple_ret|]. yields_solve.
Qed.

(** C9: the reconciler never panics.  When the runbook URL template of the
    environment is well formed, the cluster's TLS profile is a named one or has
    its custom section, the Deployments the server lists are bound to nodes, and
    accepted updates are stored as sent, [Reconcile] returns, whatever else the
    server answers, errors included: in particular no condition it looks up is
    missing. *)
Theorem reconcile_never_panics key :
  BuildPrometheusRule getNamespace ≠ None →
  wp sane any_request (Reconcile key) (λ _ o, ∃ result, o = Returned result) [].
Proof.
  intros Hr. eapply wp_post; [apply (wp_Reconcile sane any_request key (λ _ o, ∃ x, o = Returned x))|done];
    [done|eauto..|].
  intros tr opts items version cr _ _ _ _ _. case_bool_decide.
  - eapply wp_post; [apply reconcile_deletion_returns|]. intros ? [] ?; eauto || done.
  - eapply wp_post; [by apply reconcile_active_returns|]. intros ? [] ?; eauto || done.
Qed.
End NoPanic.
