(* ===== verification/Scenario.v ===== *)
(** * A custom resource from its creation to its end

    The whole reconciler run against the in-memory API server of K8s.v: a
    resource with one storage pool is deployed, becomes ready, settles, is
    deleted and goes away.  Between the reconciliations the cluster does its own
    part (the kubelet reports the pods, the claim is bound, the cleanup Job
    succeeds).  The examples show that the definitions run, and the witnesses
    that the environments the theorems of Lifecycle.v and Pools.v rely on exist. *)
From S2P Require Import Prelude GoStrings Prog Names Semver Api K8s Json JsonMerge Meta Conditions.
From S2P Require Import CryptoPolicy Rules Rbac ServiceAccount Scc CsiDriver Prometheus DaemonSet StoragePool.
From S2P Require Import Install Pools Controller Deployed Steady Permissions Watches Watched Deletion Lifecycle System NoPanic.

(** ** A codec *)

(** The metadata of an object as a document, owner references included *)
Definition owner_doc (r : OwnerReference) : json :=
  let flag (key : string) (b : option bool) (d : jdoc) : jdoc :=
    match b with Some b => <[key := JBool b]> d | None => d end in
  JObj (flag "controller" (owner_Controller r)
          (flag "blockOwnerDeletion" (owner_BlockOwnerDeletion r)
             {[ "apiVersion" := JStr (owner_APIVersion r); "kind" := JStr (owner_Kind r);
                "name" := JStr (owner_Name r); "uid" := JStr (owner_UID r) ]})).

Definition doc_owner (d : json) : OwnerReference :=
  let m := sub_doc (Some d) in
  let str key := match m !! key with Some (JStr s) => s | _ => "" end in
  let flag key := match m !! key with Some (JBool b) => Some b | _ => None end in
  {| owner_APIVersion := str "apiVersion"; owner_Kind := str "kind"; owner_Name := str "name";
     owner_UID := str "uid"; owner_Controller := flag "controller";
     owner_BlockOwnerDeletion := flag "blockOwnerDeletion" |}.

Definition full_meta_doc (m : ObjectMeta) : jdoc :=
  let md := sub_doc (meta_doc m !! "metadata") in
  {[ "metadata" := JObj match OwnerReferences m with
                        | [] => md
                        | refs => <["ownerReferences" := JArr (owner_doc <$> refs)]> md
                        end ]}.

Definition doc_full_meta (d : jdoc) : ObjectMeta :=
  set_OwnerReferences match sub_doc (d !! "metadata") !! "ownerReferences" with
                      | Some (JArr l) => doc_owner <$> l
                      | _ => []
                      end (doc_meta d).

(** A document holds the metadata of an object; its body is the one [known] has
    under that name. *)
Definition dictionary_codec (known : ∀ k, list (obj k)) : Codec := {|
  Marshal k o := Ok (JObj (full_meta_doc (o_meta o)));
  Unmarshal k d :=
    let m := doc_full_meta (sub_doc (Some d)) in
    match List.find (λ o, bool_decide (o_name o = Name m)) (known k) with
    | Some o => Ok (Obj (o_type o) m (o_body o))
    | None => Err (Errorf "unknown object")
    end;
  print_json := print_json (Codec:=account_codec);
  parse_json := parse_json (Codec:=account_codec);
  patch_error := Errorf "patch" |}.

(** The documents have no nulls, and carry the key of the object. *)
Lemma null_free_insert key v d :
  null_free v = true → null_free (JObj d) = true → null_free (JObj (<[key := v]> d)) = true.
Proof.
  intros Hv Hd. cbn [null_free]. apply all_doc_spec. intros k w [[<- <-]|[_ Hw]]%lookup_insert_Some; [done|].
  by eapply null_free_lookup.
Qed.

Lemma null_free_strings (m : gmap string string) : null_free (JObj (JStr <$> m)) = true.
Proof. cbn [null_free]. apply all_doc_spec. intros k v. rewrite lookup_fmap. by destruct (m !! k); intros [= <-]. Qed.

Lemma null_free_owner r : null_free (owner_doc r) = true.
Proof.
  unfold owner_doc. destruct (owner_Controller r), (owner_BlockOwnerDeletion r);
    repeat apply null_free_insert; done.
Qed.

Lemma full_meta_doc_facts m :
  null_free (JObj (full_meta_doc m)) = true ∧
  sub_doc (full_meta_doc m !! "metadata") !! "name" = Some (JStr (Name m)) ∧
  sub_doc (full_meta_doc m !! "metadata") !! "namespace" = Some (JStr (Namespace m)).
Proof.
  assert (Hmd : null_free (JObj (sub_doc (meta_doc m !! "metadata"))) = true).
  { unfold meta_doc, doc_of_map. rewrite lookup_singleton_eq. cbn [sub_doc].
    destruct (Labels m), (Annotations m); repeat (apply null_free_insert; [by try apply null_free_strings|]); done. }
  assert (Hkey : ∀ key, key ≠ "labels" → key ≠ "annotations" → sub_doc (meta_doc m !! "metadata") !! key =
    ({[ "name" := JStr (Name m); "namespace" := JStr (Namespace m) ]} : jdoc) !! key).
  { intros key ??. unfold meta_doc. rewrite lookup_singleton_eq. cbn [sub_doc].
    destruct (doc_of_map (Labels m)), (doc_of_map (Annotations m)); by rewrite ?lookup_insert_ne by done. }
  unfold full_meta_doc. rewrite lookup_singleton_eq. cbn [sub_doc].
  destruct (OwnerReferences m) as [|r refs]; rewrite ?lookup_insert_ne by done; rewrite !Hkey by done;
    (split; [|done]); (apply null_free_insert; [|done]); [done|].
  apply null_free_insert; [|done]. cbn [null_free]. apply forallb_forall.
  intros d (r' & -> & _)%list_elem_of_In%list_elem_of_fmap. apply null_free_owner.
Qed.

Lemma dictionary_keeps_key known : keeps_key (CD:=dictionary_codec known).
Proof.
  intros k desired found merged [Hns Hname]%pair_equal_spec Hm. unfold mergeObject in Hm. cbn [Marshal dictionary_codec] in Hm.
  destruct (map_get _ _) as [v|]; [|done]. cbn [snd] in Hm.
  assert (∃ o, parse_original (CD:=dictionary_codec known) v = Ok (JObj o)) as [o Ho].
  { unfold parse_original. case_bool_decide; by eexists. }
  rewrite Ho in Hm. set (desired' := with_meta _ desired) in Hm.
  destruct (full_meta_doc_facts (o_meta desired')) as (Hn & Hdn & Hdns).
  destruct (full_meta_doc_facts (o_meta found)) as (_ & Hfn & _).
  change (Name (o_meta desired')) with (o_name desired) in Hdn. rewrite Hname in Hdn.
  change (Namespace (o_meta desired')) with (o_namespace desired) in Hdns. rewrite Hns in Hdns.
  rewrite (three_way_merge_merge3 o _ _ (o_name found)) in Hm by done.
  generalize dependent (full_meta_doc (o_meta desired')). intros D Hm Hn Hdn Hdns.
  set (R := merge3 _ _ _) in Hm.
  assert (Hat : ∀ key s, sub_doc (D !! "metadata") !! key = Some (JStr s) →
    sub_doc (sub_doc (Some R) !! "metadata") !! key = Some (JStr s)).
  { intros key s Hs. unfold R. rewrite merge3_lookup. unfold merge3_at.
    destruct (D !! "metadata") as [[| | | | |md]|]; cbn [sub_doc] in Hs; try (by rewrite lookup_empty in Hs).
    rewrite merge3_lookup. unfold merge3_at. by rewrite Hs. }
  apply Hat in Hdn, Hdns. clear Hat. clearbody R. cbn [Unmarshal dictionary_codec] in Hm. cbv zeta in Hm.
  destruct (List.find _ _) as [body|]; [|done]. injection Hm as <-.
  unfold ObjectKeyFromObject, o_namespace, o_name. cbn [o_meta].
  unfold doc_full_meta, doc_meta. cbn [Name Namespace set_OwnerReferences set_Annotations object_meta].
  cbn [sub_doc] in Hdn, Hdns. by rewrite Hdn, Hdns.
Qed.

(** ** The cluster *)

Definition scenario_platform : Platform := simple_platform ∅ ("v1.2.3" +:+ String "010" "") "hpp".
#[local] Existing Instance scenario_platform.

Definition scenario_key : ObjectKey := ("", "hpp").
Definition scenario_ns := "hpp".

Definition scenario_cr : HostPathProvisioner :=
  Obj (k:=KHostPathProvisioner) {| APIVersion := SchemeGroupVersion; Kind := HostPathProvisionerKind |}
    (object_meta "hpp" "" None) (o_body (pools_cr ["local"])).

(** The objects the operator wants, for the codec to read back *)
Definition scenario_objects (k : kind) : list (obj k) :=
  match k return list (obj k) with
  | KServiceAccount => [createServiceAccountObject scenario_ns; createCsiServiceAccountObject scenario_ns]
  | KClusterRole => [createClusterRoleObjectProvisioner; createCsiClusterRoleObjectProvisioner scenario_cr]
  | KClusterRoleBinding =>
      [createClusterRoleBindingObject ProvisionerServiceAccountNameCsi scenario_ns ProvisionerServiceAccountNameCsi]
  | KRole => [createRoleObjectProvisioner scenario_ns; createPrometheusRole scenario_ns]
  | KRoleBinding =>
      [createRoleBindingObject ProvisionerServiceAccountNameCsi scenario_ns ProvisionerServiceAccountNameCsi;
       createPrometheusRoleBinding scenario_ns]
  | KCSIDriver => [createCSIDriverObject]
  | KSecurityContextConstraints =>
      [createSecurityContextConstraintsObject scenario_ns; createCsiSecurityContextConstraintsObject scenario_ns]
  | KPrometheusRule => option_list (BuildPrometheusRule scenario_ns)
  | KService => [createPrometheusService scenario_ns]
  | KServiceMonitor => [createPrometheusServiceMonitor scenario_ns]
  | _ => []
  end.

Definition scenario_codec : Codec := dictionary_codec scenario_objects.
#[local] Existing Instance scenario_codec.

Definition reconcile (c : cluster) : outcome reconciled * cluster :=
  run cluster_handler (Reconcile scenario_key) c.
Definition reconcile_trace (c : cluster) : ktrace := run_trace cluster_handler (Reconcile scenario_key) c.

(** ** The steps *)

Definition node1 : Node := Obj (k:=KNode) no_type (object_meta "node1" "" None) "".

(** Change the object stored under a key. *)
Definition modify (k : kind) (key : ObjectKey) (f : obj k → obj k) (c : cluster) : cluster :=
  match store c k !! key with Some o => put (f o) c | None => c end.

(** The kubelet: the pod of the CSI DaemonSet runs on the node. *)
Definition csi_pod : obj KPod :=
  Obj (k:=KPod) no_type
    (set_OwnerReferences
       [{| owner_APIVersion := "apps/v1"; owner_Kind := "DaemonSet"; owner_Name := "hostpath-provisioner-csi";
           owner_UID := ""; owner_Controller := Some true; owner_BlockOwnerDeletion := Some true |}]
       (object_meta "hostpath-provisioner-csi-x" scenario_ns (Some {[ "k8s-app" := "hostpath-provisioner" ]})))
    {| ServiceAccountName := ""; DeprecatedServiceAccount := ""; RestartPolicy := ""; SchedulerName := "";
       DNSPolicy := ""; TerminationGracePeriodSeconds := None; PodSecurityContext := None; Containers := [];
       Volumes := []; NodeSelector := None; Tolerations := []; pod_Affinity := None; NodeName := "node1";
       pod_rest := "" |}.

Definition pods_run (c : cluster) : cluster :=
  modify KDaemonSet (csi_key scenario_ns) (λ ds : DaemonSet,
    Obj (k:=KDaemonSet) (o_type ds) (o_meta ds)
      (ds_Spec ds, {| NumberReady := 1; DesiredNumberScheduled := 1; NumberAvailable := 1; ds_status_rest := "" |}))
    (put csi_pod c).

(** The volume of the pool is provisioned, and its Deployment runs. *)
Definition pool_key : ObjectKey := (scenario_ns, "hpp-pool-local-node1").

Definition pool_runs (c : cluster) : cluster :=
  modify KDeployment pool_key (λ d : Deployment,
    Obj (k:=KDeployment) (o_type d) (o_meta d) (dep_Spec d, {| ReadyReplicas := 1; dep_status_rest := "" |}))
    (modify KPersistentVolumeClaim pool_key (λ p : obj KPersistentVolumeClaim,
       Obj (k:=KPersistentVolumeClaim) (o_type p) (o_meta p)
         (fst (o_body p), {| pvc_Phase := ClaimBound; pvc_status_rest := "" |})) c).

Definition job_key : ObjectKey := (scenario_ns, "cleanup-pool-local-node1").

Definition job_succeeds (c : cluster) : cluster :=
  modify KJob job_key (λ j : obj KJob,
    Obj (k:=KJob) (o_type j) (o_meta j) (fst (o_body j), {| Succeeded := 1; job_status_rest := "" |})) c.

(** The user deletes the resource. *)
Definition user_deletes (c : cluster) : cluster :=
  (cluster_handler _ (Delete KHostPathProvisioner scenario_key None) c).2.

Definition created : cluster := put node1 (put scenario_cr empty_cluster).
Definition deploying : cluster := pods_run (reconcile created).2.
Definition provisioned : cluster := pool_runs (reconcile deploying).2.
Definition settled : cluster := (reconcile provisioned).2.
Definition deleting : cluster := user_deletes (reconcile settled).2.
Definition cleaning : cluster := job_succeeds (reconcile deleting).2.

Definition the_cr (c : cluster) : option HostPathProvisioner := cluster_lookup c KHostPathProvisioner scenario_key.

Definition condition_statuses (c : cluster) : option (list (string * string)) :=
  cr ← the_cr c; Some ((λ x : Condition, (cond_Type x, cond_Status x)) <$> cr_Conditions cr).

(** The writes of a reconciliation: the kind and the name of each *)
Definition write_of (ev : event kreq) : option (string * kind * string) :=
  match ev with
  | Ev (Create k o) _ => Some ("create", k, o_name o)
  | Ev (Update k o) _ => Some ("update", k, o_name o)
  | Ev (Delete k key _) _ => Some ("delete", k, key.2)
  | _ => None
  end.
Definition writes (c : cluster) : list (string * kind * string) := omap write_of (reconcile_trace c).

(** ** What happens *)

(** The first reconciliation deploys everything. *)
Example created_is_deployed : (reconcile created).1 = Returned done_ok.
Proof. vm_compute. reflexivity. Qed.

(** The second one, now that the pods run, makes the claim of the pool and
    reports that it is not bound yet. *)
Example unbound_claim_is_reported :
  (reconcile deploying).1 = Returned (failed (Errorf "error: Pool PVC hpp-pool-local-node1 is  instead of Bound")).
Proof. vm_compute. reflexivity. Qed.

(** A settled cluster is left alone: the reconciler only asks once more for
    objects of older versions to be deleted, and none is there. *)
Example settled_is_left_alone :
  (reconcile settled).1 = Returned done_ok ∧
  condition_statuses settled =
    Some [(ConditionAvailable, ConditionTrue); (ConditionProgressing, ConditionFalse);
          (ConditionDegraded, ConditionFalse)] ∧
  writes settled =
    [("delete", KDaemonSet, "hostpath-provisioner"); ("delete", KServiceAccount, "hostpath-provisioner-admin");
     ("delete", KClusterRole, "hostpath-provisioner"); ("delete", KClusterRoleBinding, "hostpath-provisioner");
     ("delete", KSecurityContextConstraints, "hostpath-provisioner")].
Proof. vm_compute. done. Qed.

(** The deleted resource waits for the cleanup of its pool. *)
Example deletion_waits_for_cleanup :
  (reconcile deleting).1 = Returned (requeue_in_a_second, None) ∧
  writes deleting = [("create", KJob, "cleanup-pool-local-node1"); ("delete", KDeployment, "hpp-pool-local-node1")] ∧
  is_Some (the_cr (reconcile deleting).2).
Proof. split_and!; [vm_compute; done..|]. eexists. vm_compute. done. Qed.

(** When the cleanup is done it goes away, and its claim stays. *)
Example deletion_ends :
  (reconcile cleaning).1 = Returned done_ok ∧ the_cr (reconcile cleaning).2 = None ∧
  is_Some (cluster_lookup (reconcile cleaning).2 KPersistentVolumeClaim pool_key).
Proof. split_and!; [vm_compute; done..|]. eexists. vm_compute. done. Qed.

(** ** The environments relied on exist *)

Lemma run_answers {S A} (h : handler kreq S) (R : rely kreq) (p : kprog A) s :
  (∀ T (r : kreq T) s, R T r (h T r s).1) → Forall (answered R) (run_trace h p s).
Proof.
  intros HR. revert s. induction p as [| | |T r k IH]; intros s; simpl; [constructor..|].
  specialize (HR T r s). destruct (h T r s). constructor; [done|apply IH].
Qed.

Lemma cluster_run_answers {A} (R : rely kreq) (p : kprog A) c :
  (∀ T (r : kreq T) c, R T r (cluster_handler T r c).1) → Forall (answered R) (run_trace cluster_handler p c).
Proof. apply run_answers. Qed.

(** Does an event show [cr0] when it shows the resource at all? *)
Definition shows_cr (cr0 : HostPathProvisioner) (ev : event kreq) : bool :=
  match ev with
  | @Ev _ T r x =>
      match r in kreq T return T → bool with
      | Get k _ =>
          match k return result (obj k) → bool with
          | KHostPathProvisioner => λ x, match x with Ok o => bool_decide (o = cr0) | Err _ => false end
          | _ => λ _, true
          end
      | _ => λ _, true
      end x
  end.

Lemma shows_cr_holds cr0 ev :
  shows_cr cr0 ev = true → answered faithful_updates ev → answered (holds scenario_key cr0) ev.
Proof.
  intros Hs Hf. destruct ev as [T r x]. split; [done|]. intros y. destruct r as [k key| | | | | | | |]; try done.
  destruct k; try done. simpl. intros [_ ->]. simpl in Hs. destruct x; [|done].
  by apply bool_decide_eq_true in Hs as ->.
Qed.

(** A run of the reconciler in a cluster that holds [cr0] *)
Lemma scenario_holds cr0 c :
  forallb (shows_cr cr0) (reconcile_trace c) = true →
  Forall (answered (holds scenario_key cr0)) (reconcile_trace c).
Proof.
  intros Hs%Is_true_true%forallb_True.
  pose proof (cluster_run_answers faithful_updates (Reconcile scenario_key) c cluster_faithful) as Hf.
  eapply Forall_impl; [apply Forall_and; split; [exact Hs|exact Hf]|].
  intros ev [?%Is_true_true ?]. by apply shows_cr_holds.
Qed.

(** The same for the DaemonSet, its pods and the nodes *)
Definition shows_pods (ds : DaemonSet) (pods : list (obj KPod)) (ev : event kreq) : bool :=
  match ev with
  | @Ev _ T r x =>
      match r in kreq T return T → bool with
      | Get k key =>
          match k return result (obj k) → bool with
          | KDaemonSet => λ x, match x with Ok o => bool_decide (o = ds) | Err e => negb (IsNotFound e) end
          | KNode => λ x, match x with Ok o => bool_decide (o_name o = key.2) | Err _ => true end
          | _ => λ _, true
          end
      | ListObjs k _ =>
          match k return result (list (obj k)) → bool with
          | KPod => λ x, match x with Ok l => bool_decide (l = pods) | Err _ => true end
          | _ => λ _, true
          end
      | _ => λ _, true
      end x
  end.

Lemma shows_pods_shows ds pods ev :
  shows_pods ds pods ev = true → answered go_answers ev → answered (shows ds pods) ev.
Proof.
  intros Hs Hg. destruct ev as [T r x]. split; [done|].
  split_and!; intros ? ? Hev; rewrite Hev in Hs; simpl in Hs.
  - destruct y as [o|e]; [left|right].
    + by apply bool_decide_eq_true in Hs as ->.
    + exists e. split; [done|]. by apply negb_true_iff.
  - by apply bool_decide_eq_true in Hs.
  - by apply bool_decide_eq_true in Hs.
Qed.

Lemma scenario_shows {A} ds pods (p : kprog A) c :
  forallb (shows_pods ds pods) (run_trace cluster_handler p c) = true →
  Forall (answered (shows ds pods)) (run_trace cluster_handler p c).
Proof.
  intros Hs%Is_true_true%forallb_True.
  pose proof (cluster_run_answers go_answers p c go_answers_cluster) as Hf.
  eapply Forall_impl; [apply Forall_and; split; [exact Hs|exact Hf]|].
  intros ev [?%Is_true_true ?]. by apply shows_pods_shows.
Qed.

(** The answers that keep the reconciler from panicking *)
Definition bound_to_nodeb (d : Deployment) : bool :=
  match deployment_node d with inr _ => true | inl _ => false end.

Definition sane_event (ev : event kreq) : bool :=
  match ev with
  | @Ev _ T r x =>
      match r in kreq T return T → bool with
      | Get k _ =>
          match k return result (obj k) → bool with
          | KAPIServer => λ x, negb (is_ok x)
          | _ => λ _, true
          end
      | ListObjs k _ =>
          match k return result (list (obj k)) → bool with
          | KDeployment => λ x, match x with Ok l => forallb bound_to_nodeb l | Err _ => true end
          | _ => λ _, true
          end
      | _ => λ _, true
      end x
  end.

Lemma sane_event_sane ev :
  sane_event ev = true → answered go_answers ev → answered faithful_updates ev → answered sane ev.
Proof.
  intros Hs Hg Hf. destruct ev as [T r x]. split; [done|]. split; [done|].
  split; intros ? ? Hev; rewrite Hev in Hs; simpl in Hs; [done|].
  apply Is_true_true, forallb_True in Hs. eapply Forall_impl; [exact Hs|]. intros d Hd.
  unfold bound_to_nodeb in Hd. destruct (deployment_node d) as [|node] eqn:Hn; [done|]. by exists node.
Qed.

Lemma scenario_sane c :
  forallb sane_event (reconcile_trace c) = true → Forall (answered sane) (reconcile_trace c).
Proof.
  intros Hs%Is_true_true%forallb_True.
  pose proof (cluster_run_answers go_answers (Reconcile scenario_key) c go_answers_cluster) as Hg.
  pose proof (cluster_run_answers faithful_updates (Reconcile scenario_key) c cluster_faithful) as Hf.
  eapply Forall_impl; [apply Forall_and; split; [exact Hs|apply Forall_and; split; [exact Hg|exact Hf]]|].
  intros ev (?%Is_true_true & ? & ?). by apply sane_event_sane.
Qed.

(** The answers of a server without leftovers *)
Definition in_placeb (k : kind) (key : ObjectKey) : bool := negb (namespaced k) || bool_decide (key.1 = getNamespace).

Definition ownedb (m : ObjectMeta) : bool :=
  existsb (λ r, bool_decide (owner_Kind r = HostPathProvisionerKind)) (OwnerReferences m).

Definition current_nameb {k} (o : obj k) : bool :=
  match k return obj k → bool with
  | KDaemonSet => λ ds : DaemonSet,
      negb (ownedb (o_meta ds) ||
            bool_decide (ServiceAccountName (template_Spec (ds_Template (ds_Spec ds))) ∈ provisioner_accounts))
      || bool_decide (o_name ds ∈ [MultiPurposeHostPathProvisionerName; MultiPurposeHostPathProvisionerName +:+ "-csi"])
  | KServiceAccount => λ sa, negb (ownedb (o_meta sa)) || bool_decide (o_name sa ∈ provisioner_accounts)
  | _ => λ _, true
  end o.

Lemma owned_ownedb m : owned m → ownedb m = true.
Proof.
  intros [name (r & Hr & [Hk _]%andb_prop)%existsb_exists]. apply existsb_exists. by exists r.
Qed.

Lemma current_nameb_spec {k} (o : obj k) : current_nameb o = true → current_name o.
Proof.
  destruct k; simpl; try done; intros Hb.
  - intros Hc. assert (Hor : ownedb (o_meta o) || bool_decide
      (ServiceAccountName (template_Spec (ds_Template (ds_Spec o))) ∈ provisioner_accounts) = true).
    { apply orb_true_iff. destruct Hc; [left; by apply owned_ownedb|right; by apply bool_decide_eq_true]. }
    rewrite Hor in Hb. by apply bool_decide_eq_true in Hb.
  - intros Ho%owned_ownedb. rewrite Ho in Hb. by apply bool_decide_eq_true in Hb.
Qed.

Definition up_to_date_event (ev : event kreq) : bool :=
  match ev with
  | @Ev _ T r x =>
      match r in kreq T return T → bool with
      | Get k key => λ x, match x with Ok o => bool_decide (ObjectKeyFromObject o = key) | Err _ => true end
      | Create k d => λ x,
          match x with Ok o => bool_decide (ObjectKeyFromObject o = ObjectKeyFromObject d) | Err _ => true end
      | ListObjs k _ => λ x,
          match x with
          | Ok l => forallb (λ o, in_placeb k (ObjectKeyFromObject o) && current_nameb o) l
          | Err _ => true
          end
      | _ => λ _, true
      end x
  end.

Lemma up_to_date_event_spec ev : up_to_date_event ev = true → answered up_to_date ev.
Proof.
  intros Hs. destruct ev as [T r x]. split_and!; intros k key ? Hev; rewrite Hev in Hs; simpl in Hs.
  - by apply bool_decide_eq_true in Hs.
  - by apply bool_decide_eq_true in Hs.
  - apply Is_true_true, forallb_True in Hs. eapply Forall_impl; [exact Hs|].
    intros o [Hp Hc]%Is_true_true%andb_prop. split; [|by apply current_nameb_spec].
    intros Hk. unfold in_placeb in Hp. rewrite Hk in Hp. by apply bool_decide_eq_true in Hp.
Qed.

Lemma scenario_up_to_date tr : forallb up_to_date_event tr = true → Forall (answered up_to_date) tr.
Proof.
  intros Hs%Is_true_true%forallb_True. eapply Forall_impl; [exact Hs|].
  intros ev Hev%Is_true_true. by apply up_to_date_event_spec.
Qed.

(** An API server that evaluates the rules *)
#[local] Instance rules_authorizer : Authorizer.
Proof.
  refine {| authorized a :=
    existsb (λ r, matches r a) getOperatorClusterRules ||
    (bool_decide (a_namespace a = getNamespace) && existsb (λ r, matches r a) getOperatorRules) |}.
  intros a. by rewrite orb_true_iff, andb_true_iff, bool_decide_eq_true.
Defined.

(** A run obeys the guarantee at each event of its trace with a given property. *)
Lemma run_obeys {A S} (R : rely kreq) (G : guarantee kreq) (h : handler kreq S) (p : kprog A) Q s P :
  Forall (answered R) (run_trace h p s) → wp R G p Q [] → existsb P (run_trace h p s) = true →
  ∃ pre ev post, run_trace h p s = pre ++ ev :: post ∧ P ev = true ∧ asked G pre ev.
Proof.
  intros Hall Hp (ev & Hin & HP)%existsb_exists. apply in_split in Hin as (pre & post & Htr).
  destruct (wp_run_trace _ _ h p _ s [] Hall Hp) as [_ HG].
  exists pre, ev, post. split_and!; [done|done|]. by apply (HG pre ev post).
Qed.

(** ** Witnesses *)

(** The first reconciliation creates the cluster role, and is allowed to. *)
Definition creates_role (ev : event kreq) : bool :=
  match ev with Ev (Create KClusterRole _) _ => true | _ => false end.

Lemma requests_are_permitted_witness :
  ∃ pre ev post, reconcile_trace created = pre ++ ev :: post ∧
    creates_role ev = true ∧ asked (λ _, permitted) pre ev.
Proof.
  apply (run_obeys up_to_date (λ _, permitted) cluster_handler (Reconcile scenario_key) (λ _ _, True)).
  - apply scenario_up_to_date. vm_compute. reflexivity.
  - apply requests_are_permitted. apply dictionary_keeps_key.
  - vm_compute. reflexivity.
Defined.

(** A deleted resource with a Deployment to clean up *)
Lemma reconcile_never_panics_witness :
  BuildPrometheusRule getNamespace ≠ None ∧ ∃ result, (reconcile deleting).1 = Returned result.
Proof.
  assert (Hr : BuildPrometheusRule getNamespace ≠ None) by (vm_compute; discriminate).
  split; [exact Hr|].
  exact (proj1 (wp_run_trace _ _ cluster_handler (Reconcile scenario_key) _ deleting []
                  (scenario_sane deleting ltac:(vm_compute; reflexivity))
                  (reconcile_never_panics scenario_key Hr))).
Defined.

(** The discovery of the API server *)
#[local] Instance scenario_mapper : RESTMapper := {| RESTMapping group k version := Ok true |}.

Definition answers_cr_event (ev : event kreq) : bool :=
  match ev with
  | @Ev _ T r x =>
      match r in kreq T return T → bool with
      | Get k key => λ x, match x with Ok o => bool_decide (ObjectKeyFromObject o = key) | Err _ => true end
      | Update k sent => λ x, match x with Ok stored => bool_decide (o_name stored = o_name sent) | Err _ => true end
      | _ => λ _, true
      end x
  end.

Lemma scenario_answers_cr tr : forallb answers_cr_event tr = true → Forall (answered answers_cr) tr.
Proof.
  intros Hs%Is_true_true%forallb_True. eapply Forall_impl; [exact Hs|]. intros [T r x] Hev%Is_true_true.
  split; intros ? ? Hx; rewrite Hx in Hev; by apply bool_decide_eq_true in Hev.
Qed.

Definition creates_daemonset (ev : event kreq) : bool :=
  match ev with Ev (Create KDaemonSet _) _ => true | _ => false end.

Lemma created_objects_lead_back_witness :
  RESTMapping hpp_group HostPathProvisionerKind "v1beta1" = Ok true ∧
  ∃ pre ev post, reconcile_trace created = pre ++ ev :: post ∧ creates_daemonset ev = true ∧
    match ev with
    | Ev (Create k o) _ => k ∈ unwatched ∨ ∃ h, (k, h) ∈ watches ∧ leads_back "hpp" h o
    | _ => False
    end.
Proof.
  assert (Hm : RESTMapping hpp_group HostPathProvisionerKind "v1beta1" = Ok true) by reflexivity.
  split; [exact Hm|].
  destruct (run_obeys answers_cr _ cluster_handler (Reconcile scenario_key) (λ _ _, True) created creates_daemonset
    (scenario_answers_cr (reconcile_trace created) ltac:(vm_compute; reflexivity)) (created_objects_lead_back scenario_key Hm)
    ltac:(vm_compute; reflexivity)) as (pre & [T r x] & post & Htr & Hev & HG).
  exists pre, (Ev r x), post. split; [exact Htr|]. split; [exact Hev|].
  destruct r; try discriminate Hev. exact HG.
Defined.

(** The API server with its authorizer in front *)
Definition guarded_handler : handler kreq cluster := λ T r c,
  match r in kreq T return T * cluster with
  | Delete k key p =>
      if authorized (access_to "delete" k key) then cluster_handler _ (Delete k key p) c
      else (Some (Errorf "forbidden"), c)
  | r => cluster_handler _ r c
  end.

Definition refused (ev : event kreq) : Prop :=
  match ev with
  | @Ev _ T r x =>
      match r in kreq T return T → Prop with
      | Delete k key _ => λ e,
          authorized (access_to "delete" k key) = false → ∃ err, e = Some err ∧ IsNotFound err = false
      | _ => λ _, True
      end x
  end.

Lemma guarded_enforced T (r : kreq T) c : enforced T r (guarded_handler T r c).1.
Proof.
  assert (H : refused (Ev r (guarded_handler T r c).1)).
  { destruct r as [| | | |k key p| | | |]; try exact I. intros Hd. cbn [guarded_handler]. rewrite Hd. by eexists. }
  intros k key p e Hev. by rewrite Hev in H.
Qed.

(** The DaemonSet an old version made *)
Definition old_daemonset : DaemonSet :=
  with_meta (set_OwnerReferences [controller_ref scenario_cr])
    (Obj (k:=KDaemonSet) no_type (object_meta "hpp-node" scenario_ns (Some {[ "k8s-app" := "hpp" ]}))
       (o_body (createDaemonSetObject scenario_cr (getDaemonSetArgs scenario_ns true)))).

Definition lists_daemonset (ds : DaemonSet) (ev : event kreq) : bool :=
  match ev with
  | @Ev _ T r x =>
      match r in kreq T return T → bool with
      | ListObjs k _ =>
          match k return result (list (obj k)) → bool with
          | KDaemonSet => λ x, match x with Ok l => bool_decide (ds ∈ l) | Err _ => true end
          | _ => λ _, true
          end
      | _ => λ _, true
      end x
  end.

Definition with_leftover : cluster := put old_daemonset settled.

Lemma leftover_answers {A} (p : kprog A) c :
  forallb (lists_daemonset old_daemonset) (run_trace guarded_handler p c) = true →
  Forall (answered (λ T r x, enforced T r x ∧ lists old_daemonset T r x)) (run_trace guarded_handler p c).
Proof.
  intros Hs%Is_true_true%forallb_True. pose proof (run_answers guarded_handler enforced p c guarded_enforced) as He.
  eapply Forall_impl; [apply Forall_and; split; [exact Hs|exact He]|].
  intros [T r x] [Hev%Is_true_true He']. split; [exact He'|]. intros opts l Hx. rewrite Hx in Hev.
  by apply bool_decide_eq_true in Hev.
Qed.


Definition cleaning_cr : HostPathProvisioner := default scenario_cr (the_cr cleaning).
Definition provisioned_cr : HostPathProvisioner := default scenario_cr (the_cr provisioned).


Definition records_version (version : string) (ev : event kreq) : bool :=
  match ev with
  | Ev r _ => match hpp_update r with
              | Some cr => bool_decide (ObservedVersion (cr_Status cr) = version)
              | None => false
              end
  end.

(** The reconciliation that makes the resource available records the version
    when it has seen the DaemonSet ready. *)
Lemma status_follows_cluster_witness :
  ∃ pre ev post, reconcile_trace provisioned = pre ++ ev :: post ∧
    records_version "v1.2.3" ev = true ∧ ready_seen provisioned_cr getNamespace pre.
Proof.
  destruct (run_obeys _ _ cluster_handler (Reconcile scenario_key) _ provisioned (records_version "v1.2.3")
              (scenario_holds provisioned_cr provisioned ltac:(vm_compute; reflexivity))
              (status_follows_cluster scenario_key provisioned_cr)
              ltac:(vm_compute; reflexivity)) as (pre & ev & post & Htr & Hv & HG).
  exists pre, ev, post. split; [exact Htr|]. split; [exact Hv|].
  destruct ev as [T r x]. cbn [records_version asked] in *. destruct (hpp_update r) as [cr'|]; [|discriminate Hv].
  apply bool_decide_eq_true in Hv.
  destruct (HG cr' ltac:(vm_compute; reflexivity) eq_refl) as (_ & [Ho|[_ Hr]] & _); [|exact Hr].
  rewrite Hv in Ho. vm_compute in Ho. discriminate Ho.
Defined.

(** ** The settled cluster, as a snapshot *)

Definition snapshot_of (c : cluster) : snapshot := {|
  found_in k key := (cluster_handler _ (Get k key) c).1;
  lists_in k opts := (cluster_handler _ (ListObjs k opts) c).1 |}.

Definition as_wantedb (c : snapshot) (m : managed) : bool :=
  match found_in c (m_kind m) (m_key m) with
  | Ok found => match m_update m found with Ok o => DeepEqual o found | Err _ => false end
  | Err _ => false
  end.

Lemma all_as_wantedb c l : forallb (as_wantedb c) l = true → all_as_wanted c l.
Proof.
  rewrite forallb_forall. intros Hl m Hm%list_elem_of_In%Hl. unfold as_wantedb in Hm.
  destruct (found_in _ _ _) as [found|] eqn:Hf; [|done]. exists found. split; [exact Hf|].
  destruct (m_update m found) as [o|]; [|done]. by apply bool_decide_eq_true in Hm as ->.
Qed.

Definition goneb (c : snapshot) (x : kind * ObjectKey) : bool :=
  match found_in c x.1 x.2 with Err e => IsNotFound e | Ok _ => false end.

Lemma all_goneb c cr ns : forallb (goneb c) (legacy_objects ns) = true → legacy_gone c cr ns.
Proof.
  rewrite forallb_forall. intros Hl _ k key Hk%list_elem_of_In%Hl. unfold goneb, absent in *. cbn [fst snd] in Hk.
  destruct (found_in c k key) as [o|e]; [done|]. by exists e.
Qed.

Definition carriesb (conds : list Condition) (new : Condition) : bool :=
  match FindStatusCondition conds (cond_Type new) with
  | Some x => bool_decide (cond_Status x = cond_Status new) && bool_decide (Reason x = Reason new) &&
              bool_decide (Message x = Message new)
  | None => false
  end.

Lemma all_carriesb conds news : forallb (carriesb conds) news = true → ∀ new, new ∈ news → carries conds new.
Proof.
  rewrite forallb_forall. intros Hl new Hn%list_elem_of_In%Hl. unfold carriesb in Hn.
  destruct (FindStatusCondition _ _) as [x|] eqn:Hx; [|done]. exists x. rewrite !andb_true_iff, !bool_decide_eq_true in Hn. tauto.
Qed.

Definition settled_snapshot : snapshot := snapshot_of settled.
Definition settled_cr : HostPathProvisioner := default scenario_cr (the_cr settled).

(** The value a reading program gives *)
Definition read_value {A} (d : A) (p : kprog (result A)) : A :=
  match evaluate settled_snapshot p with Some (Ok a) => a | _ => d end.

Definition settled_csi : DaemonSet :=
  default (createDaemonSetObject settled_cr (getDaemonSetArgs scenario_ns false))
    (cluster_lookup settled KDaemonSet (csi_key scenario_ns)).

Definition settled_view : view := {|
  v_nodes := [node1];
  v_deployments := read_value ∅ (currentStoragePoolDeployments settled_cr scenario_ns);
  v_tls := "VersionTLS13"; v_constraints := true; v_monitoring := true;
  v_legacy := None; v_csi := settled_csi;
  v_statuses := read_value [] (pool_statuses settled_cr scenario_ns);
  v_version := "v1.2.3" |}.

Definition settled_pods : list (obj KPod) :=
  match lists_in settled_snapshot KPod {| lo_Selector := [{| sel_Key := "k8s-app";
    sel_Values := [MultiPurposeHostPathProvisionerName] |}]; lo_Namespace := scenario_ns |} with
  | Ok l => l
  | Err _ => []
  end.

Lemma map_names {A} (m : gmap string A) names name a :
  (map_to_list m).*1 = names → m !! name = Some a → name ∈ names.
Proof. intros <- Ha%elem_of_map_to_list. apply list_elem_of_fmap. by exists (name, a). Qed.

Lemma settled_objects : steady_objects settled_snapshot settled_cr getNamespace settled_view.
Proof.
  assert (Hpool : StoragePools (cr_Spec settled_cr) = StoragePools (cr_Spec (pools_cr ["local"])))
    by (vm_compute; reflexivity).
  split.
  - vm_compute. reflexivity.
  - done.
  - vm_compute. reflexivity.
  - apply all_as_wantedb. vm_compute. reflexivity.
  - apply all_as_wantedb. vm_compute. reflexivity.
  - vm_compute. reflexivity.
  - intros _. apply all_as_wantedb. vm_compute. reflexivity.
  - vm_compute. reflexivity.
  - intros _. split; [vm_compute; discriminate|]. apply all_as_wantedb. vm_compute. reflexivity.
  - exists settled_csi, settled_pods, [{| sel_Key := "k8s-app"; sel_Values := [MultiPurposeHostPathProvisionerName] |}].
    split_and!; try (vm_compute; reflexivity).
    replace (node_names settled_csi settled_pods) with ["node1"] by (vm_compute; reflexivity).
    constructor; [vm_compute; reflexivity|constructor].
  - rewrite Hpool. intros pool node ->%list_elem_of_singleton ->%list_elem_of_singleton.
    apply all_as_wantedb. vm_compute. reflexivity.
  - vm_compute. reflexivity.
  - intros name d Hd. pose proof (map_names (v_deployments settled_view) ["hpp-pool-local-node1"] name d ltac:(vm_compute; reflexivity) Hd) as Hn.
    apply list_elem_of_singleton in Hn as ->. exists (template_pool "local"), node1. rewrite Hpool.
    split_and!; [left|done|left|vm_compute; reflexivity].
  - apply all_goneb. vm_compute. reflexivity.
  - vm_compute. reflexivity.
  - vm_compute. reflexivity.
Qed.

Lemma settled_status : steady_status settled_snapshot settled_cr getNamespace settled_view.
Proof.
  split; try (vm_compute; reflexivity).
  - vm_compute. discriminate.
  - apply (bool_decide_eq_true _). vm_compute. reflexivity.
  - apply all_carriesb. vm_compute. reflexivity.
Qed.

Lemma settled_cluster_is_left_alone_witness : calm settled_snapshot (Reconcile scenario_key) (eq done_ok).
Proof.
  apply (settled_cluster_is_left_alone settled_snapshot settled_cr settled_view).
  - split_and!; [vm_compute; reflexivity..|]. exists [settled_cr]. split; [vm_compute; reflexivity|done].
  - exact settled_objects.
  - exact settled_status.
Defined.

(** The user replaces the pool by another one: the old Deployment goes. *)
Definition repooled_cr : HostPathProvisioner :=
  Obj (k:=KHostPathProvisioner) (o_type provisioned_cr) (o_meta provisioned_cr) (o_body (pools_cr ["other"])).

Definition deletes_deployment (ev : event kreq) : bool :=
  match ev with Ev r _ => match deployment_delete r with Some _ => true | None => false end end.

Definition settled_ds : DaemonSet :=
  default (createDaemonSetObject repooled_cr (getDaemonSetArgs scenario_ns false))
    (cluster_lookup settled KDaemonSet (csi_key scenario_ns)).

Lemma wanted_deployments_survive_witness :
  ∃ pre ev post,
    run_trace cluster_handler (reconcileStoragePools repooled_cr scenario_ns) settled = pre ++ ev :: post ∧
    deletes_deployment ev = true ∧ asked (deletes_unwanted repooled_cr scenario_ns settled_ds [csi_pod]) pre ev.
Proof.
  apply (run_obeys (shows settled_ds [csi_pod]) _ cluster_handler _ (λ _ _, True)).
  - apply scenario_shows. vm_compute. reflexivity.
  - apply wanted_deployments_survive.
  - vm_compute. reflexivity.
Defined.

(** ** The life of the resource, as steps of the system *)

(** What others do in the scenario: the kubelet, the provisioner of the pool, the
    cleanup Job, and the user. *)
Definition bystanders (c c' : cluster) : Prop :=
  c' = pods_run c ∨ c' = pool_runs c ∨ c' = job_succeeds c ∨ c' = user_deletes c.

(** Only objects of these kinds change. *)
Definition changes_only (ks : list kind) (c c' : cluster) : Prop :=
  ∀ k key, k ∉ ks → cluster_lookup c' k key = cluster_lookup c k key.

Lemma put_changes {k} (o : obj k) ks c : k ∈ ks → changes_only ks c (put o c).
Proof.
  intros Hk k' key Hn. unfold cluster_lookup, put, with_store. cbn [store].
  rewrite set_kind_other; [done|]. by intros ->.
Qed.

Lemma modify_changes k key f ks c : k ∈ ks → changes_only ks c (modify k key f c).
Proof. intros Hk. unfold modify. destruct (store c k !! key); [by apply put_changes|done]. Qed.

Lemma changes_trans ks c1 c2 c3 : changes_only ks c1 c2 → changes_only ks c2 c3 → changes_only ks c1 c3.
Proof. intros H12 H23 k key Hk. rewrite H23 by done. by apply H12. Qed.

Definition workloads : list kind := [KDaemonSet; KPod; KDeployment; KPersistentVolumeClaim; KJob].

Lemma workloads_change c : 
  changes_only workloads c (pods_run c) ∧ changes_only workloads c (pool_runs c) ∧
  changes_only workloads c (job_succeeds c).
Proof.
  unfold pods_run, pool_runs, job_succeeds.
  split_and!; [eapply changes_trans; [apply (put_changes csi_pod)|apply modify_changes]
              |eapply changes_trans; apply modify_changes|apply modify_changes];
    apply (bool_decide_unpack _); exact I.
Qed.

Lemma not_fixed_kind k mkey : bool_decide (k ∈ fixed_kinds) = false → ¬ fixed_name k mkey.
Proof. intros Hk%bool_decide_eq_false Hf%fixed_name_kind. done. Qed.

Lemma fixed_not_workload k mkey : fixed_name k mkey → k ∉ workloads.
Proof.
  intros Hf Hw. revert Hf. apply not_fixed_kind. unfold workloads in Hw.
  rewrite !elem_of_cons, elem_of_nil in Hw. by destruct_or! Hw; subst.
Qed.

Lemma bystanders_respectful : respectful scenario_key bystanders.
Proof.
  assert (Hcase : ∀ c c', bystanders c c' → changes_only workloads c c' ∨ c' = user_deletes c).
  { intros c c' Hc. destruct (workloads_change c) as (? & ? & ?). unfold bystanders in Hc. naive_solver. }
  split.
  - intros c c' [Hc| ->]%Hcase (cr & Hcr & Hf).
    + exists cr. split; [|done]. rewrite Hc; [done|]. apply (bool_decide_eq_false_1 _). reflexivity.
    + exists (with_meta (mark_deleted (clock c)) cr). unfold user_deletes, cluster_lookup in *. cbn [cluster_handler].
      rewrite Hcr. rewrite bool_decide_eq_false_2; [|intros Hn; unfold HasFinalizer in Hf; by rewrite Hn in Hf].
      unfold with_store. cbn [snd store]. rewrite set_kind_same, lookup_insert_eq. split; [done|].
      unfold HasFinalizer, mark_deleted in *. cbn. by destruct (DeletionTimestamp (o_meta cr)).
  - intros c c' k mkey [Hc| ->]%Hcase Hfix Hg.
    + intros o. rewrite Hc by (by eapply fixed_not_workload). apply Hg.
    + intros o. unfold user_deletes. rewrite handler_elsewhere; [apply Hg|]. cbn [target].
      intros [= <- _]. by apply (not_fixed_kind KHostPathProvisioner mkey).
  - intros c c' [Hc| ->]%Hcase Hk cr.
    + rewrite Hc; [apply Hk|]. apply (bool_decide_eq_false_1 _). reflexivity.
    + unfold user_deletes, cluster_lookup in *. cbn [cluster_handler].
      destruct (store c _ !! scenario_key) as [o|] eqn:Ho; cbn [snd]; [|congruence]. case_bool_decide; cbn [snd].
      * unfold remove, with_store. cbn [store]. by rewrite set_kind_same, lookup_delete_eq.
      * unfold with_store. cbn [store]. rewrite set_kind_same, lookup_insert_eq. intros [= <-].
        rewrite <-(Hk o Ho). unfold ObjectKeyFromObject, o_namespace, o_name, mark_deleted. cbn.
        by destruct (DeletionTimestamp (o_meta o)).
Qed.

Definition idle (c : cluster) : system := {| objects := c; running := None |}.
Abbreviation scenario_steps := (rtc (step scenario_key bystanders)).

Definition returns (c : cluster) : bool := match (reconcile c).1 with Returned _ => true | _ => false end.

Lemma then_reconcile c0 c :
  returns c = true → scenario_steps (idle c0) (idle c) → scenario_steps (idle c0) (idle (reconcile c).2).
Proof.
  unfold returns, reconcile. intros Hr Hs. etrans; [exact Hs|].
  destruct (run cluster_handler (Reconcile scenario_key) c) as [[result| |] c'] eqn:Hrun; try done.
  by eapply reconcile_steps.
Qed.

Lemma then_others c0 c c' :
  bystanders c c' → scenario_steps (idle c0) (idle c) → scenario_steps (idle c0) (idle c').
Proof. intros Hb Hs. eapply rtc_r; [exact Hs|]. by apply others_act. Qed.

Lemma scenario_reached : scenario_steps (idle created) (idle (reconcile cleaning).2).
Proof.
  apply then_reconcile; [vm_compute; reflexivity|]. eapply then_others; [by right; right; left|].
  apply then_reconcile; [vm_compute; reflexivity|]. eapply then_others; [by right; right; right|].
  apply then_reconcile; [vm_compute; reflexivity|]. apply then_reconcile; [vm_compute; reflexivity|].
  eapply then_others; [by right; left|].
  apply then_reconcile; [vm_compute; reflexivity|]. eapply then_others; [by left|].
  apply then_reconcile; [vm_compute; reflexivity|]. apply rtc_refl.
Qed.

Lemma created_names : well_keyed scenario_key created ∧ all_going created.
Proof.
  assert (Hc : changes_only [KNode; KHostPathProvisioner] empty_cluster created).
  { eapply changes_trans; [apply (put_changes scenario_cr)|apply (put_changes node1)];
      apply (bool_decide_unpack _); exact I. }
  split.
  - intros cr Hcr. assert (Hl : cluster_lookup created KHostPathProvisioner scenario_key = Some scenario_cr)
      by (vm_compute; reflexivity).
    rewrite Hl in Hcr. by injection Hcr as <-.
  - intros k mkey Hf o. rewrite Hc; [unfold cluster_lookup; cbn [empty_cluster store]; by rewrite lookup_empty|].
    rewrite !elem_of_cons, elem_of_nil. intros Hk. revert Hf. apply not_fixed_kind. by destruct_or! Hk; subst.
Qed.

Lemma not_there c : the_cr c = None → ¬ guarded scenario_key c.
Proof. unfold the_cr. intros Hn (cr & Hcr & _). by rewrite Hn in Hcr. Qed.

