(* ===== verification/GoTypes.v ===== *)
(** * The Go types of the custom resource, as data

    encoding/json and the generated code are driven by the Go types: this file
    has them as descriptions, with the names, the struct tags and the field types
    of the sources (types.go, and the vendored API types its fields have), and the
    values of such types.  DeepCopy.v copies values that live in a heap, GoJson.v
    encodes them, CrdTypes.v compares the types with the CRD. *)
From S2P Require Import Prelude.

(** ** Types *)

(** A field: its name, its key in a document, and the options of its tag *)
Record field := { f_name : string; f_key : string; f_omitempty : bool; f_omitzero : bool; f_inline : bool }.

(** Named string types are strings; a type with its own JSON methods is
    [TCustom], around what it is in memory. *)
Inductive gotype :=
| TString
| TBool
| TByte
| TInt (width : Z)
| TPtr (t : gotype)
| TSlice (t : gotype)
| TMap (t : gotype)
| TStruct (fields : list (field * gotype))
| TCustom (name : string) (t : gotype).

Definition field_of (name key : string) (t : gotype) : field * gotype :=
  ({| f_name := name; f_key := key; f_omitempty := false; f_omitzero := false; f_inline := false |}, t).
Definition omitempty (name key : string) (t : gotype) : field * gotype :=
  ({| f_name := name; f_key := key; f_omitempty := true; f_omitzero := false; f_inline := false |}, t).
Definition omitzero (name key : string) (t : gotype) : field * gotype :=
  ({| f_name := name; f_key := key; f_omitempty := true; f_omitzero := true; f_inline := false |}, t).
Definition inline (name : string) (t : gotype) : field * gotype :=
  ({| f_name := name; f_key := ""; f_omitempty := false; f_omitzero := false; f_inline := true |}, t).

Section Induction.
Context (P : gotype → Prop).
Hypothesis (Hstring : P TString) (Hbool : P TBool) (Hbyte : P TByte) (Hint : ∀ w, P (TInt w)).
Hypothesis (Hptr : ∀ t, P t → P (TPtr t)) (Hslice : ∀ t, P t → P (TSlice t)) (Hmap : ∀ t, P t → P (TMap t)).
Hypothesis (Hstruct : ∀ fields, Forall (λ f, P f.2) fields → P (TStruct fields)).
Hypothesis (Hcustom : ∀ name t, P t → P (TCustom name t)).

Fixpoint gotype_rect_fields (t : gotype) : P t :=
  match t with
  | TString => Hstring
  | TBool => Hbool
  | TByte => Hbyte
  | TInt w => Hint w
  | TPtr t => Hptr t (gotype_rect_fields t)
  | TSlice t => Hslice t (gotype_rect_fields t)
  | TMap t => Hmap t (gotype_rect_fields t)
  | TStruct fields =>
      Hstruct fields ((fix go (fields : list (field * gotype)) : Forall (λ f, P f.2) fields :=
        match fields with
        | [] => Forall_nil_2 _
        | f :: fields => Forall_cons_2 _ f fields (gotype_rect_fields f.2) (go fields)
        end) fields)
  | TCustom name t => Hcustom name t (gotype_rect_fields t)
  end.
End Induction.

(** ** Values *)

Inductive goval :=
| VString (s : string)
| VBool (b : bool)
| VInt (z : Z)
| VPtr (v : option goval)
| VSlice (l : option (list goval))
| VMap (m : option (gmap string goval))
| VStruct (l : list goval).

(** Every entry is there, or the result is not. *)
Definition all_entries (m : gmap string (option goval)) : option (gmap string goval) :=
  if bool_decide (map_Forall (λ _, is_Some) m) then Some (omap id m) else None.

Lemma all_entries_Some m xs : all_entries m = Some xs ↔ m = Some <$> xs.
Proof.
  unfold all_entries. split.
  - case_bool_decide as Hm; intros [= <-]. apply map_eq. intros k. rewrite lookup_fmap, lookup_omap.
    destruct (m !! k) as [o|] eqn:Ho; [|done]. by destruct (Hm k o Ho) as [x ->].
  - intros ->. rewrite bool_decide_eq_true_2.
    + f_equal. apply map_eq. intros k. rewrite lookup_omap, lookup_fmap. by destruct (xs !! k).
    + intros k o. rewrite lookup_fmap. destruct (xs !! k); by intros [= <-].
Qed.

(** An integer of [w] bits *)
Definition in_range (w z : Z) : bool := (- 2 ^ (w - 1) <=? z) && (z <? 2 ^ (w - 1)).

Fixpoint has_type (t : gotype) (v : goval) : bool :=
  match t, v with
  | TString, VString _ | TBool, VBool _ => true
  | TByte, VInt z => (0 <=? z) && (z <? 256)
  | TInt w, VInt z => in_range w z
  | TPtr t, VPtr o => match o with Some v => has_type t v | None => true end
  | TSlice t, VSlice o => match o with Some l => forallb (has_type t) l | None => true end
  | TMap t, VMap o => match o with Some m => forallb (λ kv, has_type t kv.2) (map_to_list m) | None => true end
  | TStruct fields, VStruct l =>
      (fix go (fields : list (field * gotype)) (l : list goval) : bool :=
         match fields, l with
         | [], [] => true
         | f :: fields, v :: l => has_type f.2 v && go fields l
         | _, _ => false
         end) fields l
  | TCustom _ t, v => has_type t v
  | _, _ => false
  end.

(** ** Types with JSON methods of their own *)

(** metav1.Time: an instant, in seconds since the year 1; it is not a pointer to
    anything that changes *)
Definition Time_t : gotype := TCustom "Time" (TInt 64).

(** resource.Quantity: a scaled integer, or a decimal (here its text) behind a
    pointer *)
Definition int64Amount_t : gotype := TStruct [
  field_of "value" "" (TInt 64);
  field_of "scale" "" (TInt 32)].

Definition Quantity_t : gotype := TCustom "Quantity" (TStruct [
  field_of "i" "" int64Amount_t;
  field_of "d" "" (TPtr TString);
  field_of "s" "" TString;
  field_of "Format" "" TString]).

(** The bytes of a document *)
Definition FieldsV1_t : gotype := TCustom "FieldsV1" (TStruct [
  field_of "Raw" "-" (TSlice TByte)]).

(** ** k8s.io/api/core/v1 and k8s.io/apimachinery/pkg/apis/meta/v1 *)

Definition TypedLocalObjectReference_t : gotype := TStruct [
  field_of "APIGroup" "apiGroup" (TPtr TString);
  field_of "Kind" "kind" TString;
  field_of "Name" "name" TString].

Definition TypedObjectReference_t : gotype := TStruct [
  field_of "APIGroup" "apiGroup" (TPtr TString);
  field_of "Kind" "kind" TString;
  field_of "Name" "name" TString;
  omitempty "Namespace" "namespace" (TPtr TString)].

Definition LabelSelectorRequirement_t : gotype := TStruct [
  field_of "Key" "key" TString;
  field_of "Operator" "operator" TString;
  omitempty "Values" "values" (TSlice TString)].

Definition LabelSelector_t : gotype := TStruct [
  omitempty "MatchLabels" "matchLabels" (TMap TString);
  omitempty "MatchExpressions" "matchExpressions" (TSlice LabelSelectorRequirement_t)].

Definition VolumeResourceRequirements_t : gotype := TStruct [
  omitempty "Limits" "limits" (TMap Quantity_t);
  omitempty "Requests" "requests" (TMap Quantity_t)].

Definition PersistentVolumeClaimSpec_t : gotype := TStruct [
  omitempty "AccessModes" "accessModes" (TSlice TString);
  omitempty "Selector" "selector" (TPtr LabelSelector_t);
  omitempty "Resources" "resources" VolumeResourceRequirements_t;
  omitempty "VolumeName" "volumeName" TString;
  omitempty "StorageClassName" "storageClassName" (TPtr TString);
  omitempty "VolumeMode" "volumeMode" (TPtr TString);
  omitempty "DataSource" "dataSource" (TPtr TypedLocalObjectReference_t);
  omitempty "DataSourceRef" "dataSourceRef" (TPtr TypedObjectReference_t);
  omitempty "VolumeAttributesClassName" "volumeAttributesClassName" (TPtr TString)].

Definition PersistentVolumeClaimCondition_t : gotype := TStruct [
  field_of "Type" "type" TString;
  field_of "Status" "status" TString;
  omitempty "LastProbeTime" "lastProbeTime" Time_t;
  omitempty "LastTransitionTime" "lastTransitionTime" Time_t;
  omitempty "Reason" "reason" TString;
  omitempty "Message" "message" TString].

Definition ModifyVolumeStatus_t : gotype := TStruct [
  omitempty "TargetVolumeAttributesClassName" "targetVolumeAttributesClassName" TString;
  field_of "Status" "status" TString].

Definition PersistentVolumeClaimStatus_t : gotype := TStruct [
  omitempty "Phase" "phase" TString;
  omitempty "AccessModes" "accessModes" (TSlice TString);
  omitempty "Capacity" "capacity" (TMap Quantity_t);
  omitempty "Conditions" "conditions" (TSlice PersistentVolumeClaimCondition_t);
  omitempty "AllocatedResources" "allocatedResources" (TMap Quantity_t);
  omitempty "AllocatedResourceStatuses" "allocatedResourceStatuses" (TMap TString);
  omitempty "CurrentVolumeAttributesClassName" "currentVolumeAttributesClassName" (TPtr TString);
  omitempty "ModifyVolumeStatus" "modifyVolumeStatus" (TPtr ModifyVolumeStatus_t)].

Definition NodeSelectorRequirement_t : gotype := TStruct [
  field_of "Key" "key" TString;
  field_of "Operator" "operator" TString;
  omitempty "Values" "values" (TSlice TString)].

Definition NodeSelectorTerm_t : gotype := TStruct [
  omitempty "MatchExpressions" "matchExpressions" (TSlice NodeSelectorRequirement_t);
  omitempty "MatchFields" "matchFields" (TSlice NodeSelectorRequirement_t)].

Definition NodeSelector_t : gotype := TStruct [
  field_of "NodeSelectorTerms" "nodeSelectorTerms" (TSlice NodeSelectorTerm_t)].

Definition PreferredSchedulingTerm_t : gotype := TStruct [
  field_of "Weight" "weight" (TInt 32);
  field_of "Preference" "preference" NodeSelectorTerm_t].

Definition NodeAffinity_t : gotype := TStruct [
  omitempty "RequiredDuringSchedulingIgnoredDuringExecution" "requiredDuringSchedulingIgnoredDuringExecution"
    (TPtr NodeSelector_t);
  omitempty "PreferredDuringSchedulingIgnoredDuringExecution" "preferredDuringSchedulingIgnoredDuringExecution"
    (TSlice PreferredSchedulingTerm_t)].

Definition PodAffinityTerm_t : gotype := TStruct [
  omitempty "LabelSelector" "labelSelector" (TPtr LabelSelector_t);
  omitempty "Namespaces" "namespaces" (TSlice TString);
  field_of "TopologyKey" "topologyKey" TString;
  omitempty "NamespaceSelector" "namespaceSelector" (TPtr LabelSelector_t);
  omitempty "MatchLabelKeys" "matchLabelKeys" (TSlice TString);
  omitempty "MismatchLabelKeys" "mismatchLabelKeys" (TSlice TString)].

Definition WeightedPodAffinityTerm_t : gotype := TStruct [
  field_of "Weight" "weight" (TInt 32);
  field_of "PodAffinityTerm" "podAffinityTerm" PodAffinityTerm_t].

Definition PodAffinity_t : gotype := TStruct [
  omitempty "RequiredDuringSchedulingIgnoredDuringExecution" "requiredDuringSchedulingIgnoredDuringExecution"
    (TSlice PodAffinityTerm_t);
  omitempty "PreferredDuringSchedulingIgnoredDuringExecution" "preferredDuringSchedulingIgnoredDuringExecution"
    (TSlice WeightedPodAffinityTerm_t)].

Definition PodAntiAffinity_t : gotype := TStruct [
  omitempty "RequiredDuringSchedulingIgnoredDuringExecution" "requiredDuringSchedulingIgnoredDuringExecution"
    (TSlice PodAffinityTerm_t);
  omitempty "PreferredDuringSchedulingIgnoredDuringExecution" "preferredDuringSchedulingIgnoredDuringExecution"
    (TSlice WeightedPodAffinityTerm_t)].

Definition Affinity_t : gotype := TStruct [
  omitempty "NodeAffinity" "nodeAffinity" (TPtr NodeAffinity_t);
  omitempty "PodAffinity" "podAffinity" (TPtr PodAffinity_t);
  omitempty "PodAntiAffinity" "podAntiAffinity" (TPtr PodAntiAffinity_t)].

Definition Toleration_t : gotype := TStruct [
  omitempty "Key" "key" TString;
  omitempty "Operator" "operator" TString;
  omitempty "Value" "value" TString;
  omitempty "Effect" "effect" TString;
  omitempty "TolerationSeconds" "tolerationSeconds" (TPtr (TInt 64))].

Definition TypeMeta_t : gotype := TStruct [
  omitempty "Kind" "kind" TString;
  omitempty "APIVersion" "apiVersion" TString].

Definition OwnerReference_t : gotype := TStruct [
  field_of "APIVersion" "apiVersion" TString;
  field_of "Kind" "kind" TString;
  field_of "Name" "name" TString;
  field_of "UID" "uid" TString;
  omitempty "Controller" "controller" (TPtr TBool);
  omitempty "BlockOwnerDeletion" "blockOwnerDeletion" (TPtr TBool)].

Definition ManagedFieldsEntry_t : gotype := TStruct [
  omitempty "Manager" "manager" TString;
  omitempty "Operation" "operation" TString;
  omitempty "APIVersion" "apiVersion" TString;
  omitempty "Time" "time" (TPtr Time_t);
  omitempty "FieldsType" "fieldsType" TString;
  omitempty "FieldsV1" "fieldsV1" (TPtr FieldsV1_t);
  omitempty "Subresource" "subresource" TString].

Definition ObjectMeta_t : gotype := TStruct [
  omitempty "Name" "name" TString;
  omitempty "GenerateName" "generateName" TString;
  omitempty "Namespace" "namespace" TString;
  omitempty "SelfLink" "selfLink" TString;
  omitempty "UID" "uid" TString;
  omitempty "ResourceVersion" "resourceVersion" TString;
  omitempty "Generation" "generation" (TInt 64);
  omitzero "CreationTimestamp" "creationTimestamp" Time_t;
  omitempty "DeletionTimestamp" "deletionTimestamp" (TPtr Time_t);
  omitempty "DeletionGracePeriodSeconds" "deletionGracePeriodSeconds" (TPtr (TInt 64));
  omitempty "Labels" "labels" (TMap TString);
  omitempty "Annotations" "annotations" (TMap TString);
  omitempty "OwnerReferences" "ownerReferences" (TSlice OwnerReference_t);
  omitempty "Finalizers" "finalizers" (TSlice TString);
  omitempty "ManagedFields" "managedFields" (TSlice ManagedFieldsEntry_t)].

Definition ShardInfo_t : gotype := TStruct [
  field_of "Selector" "selector" TString].

Definition ListMeta_t : gotype := TStruct [
  omitempty "SelfLink" "selfLink" TString;
  omitempty "ResourceVersion" "resourceVersion" TString;
  omitempty "Continue" "continue" TString;
  omitempty "RemainingItemCount" "remainingItemCount" (TPtr (TInt 64));
  omitempty "ShardInfo" "shardInfo" (TPtr ShardInfo_t)].

(** ** github.com/openshift/custom-resource-status/conditions/v1 *)

Definition Condition_t : gotype := TStruct [
  field_of "Type" "type" TString;
  field_of "Status" "status" TString;
  omitempty "Reason" "reason" TString;
  omitempty "Message" "message" TString;
  field_of "LastHeartbeatTime" "lastHeartbeatTime" Time_t;
  field_of "LastTransitionTime" "lastTransitionTime" Time_t].

(** ** pkg/apis/hostpathprovisioner/v1beta1/types.go *)

Definition PathConfig_t : gotype := TStruct [
  omitempty "Path" "path" TString;
  omitempty "UseNamingPrefix" "useNamingPrefix" TBool].

Definition NodePlacement_t : gotype := TStruct [
  omitempty "NodeSelector" "nodeSelector" (TMap TString);
  omitempty "Affinity" "affinity" (TPtr Affinity_t);
  omitempty "Tolerations" "tolerations" (TSlice Toleration_t)].

Definition StoragePool_t : gotype := TStruct [
  field_of "Name" "name" TString;
  omitempty "PVCTemplate" "pvcTemplate" (TPtr PersistentVolumeClaimSpec_t);
  field_of "Path" "path" TString;
  omitempty "SnapshotProvider" "snapshotProvider" (TPtr TString);
  omitempty "OverlayClassName" "overlayClassName" TString].

Definition ClaimStatus_t : gotype := TStruct [
  field_of "Name" "name" TString;
  field_of "Status" "status" PersistentVolumeClaimStatus_t].

Definition StoragePoolStatus_t : gotype := TStruct [
  field_of "Name" "name" TString;
  field_of "Phase" "phase" TString;
  omitempty "DesiredReady" "desiredReady" (TInt 64);
  omitempty "CurrentReady" "currentReady" (TInt 64);
  omitempty "ClaimStatuses" "claimStatuses" (TSlice ClaimStatus_t)].

Definition HostPathProvisionerSpec_t : gotype := TStruct [
  omitempty "ImagePullPolicy" "imagePullPolicy" TString;
  omitempty "PathConfig" "pathConfig" (TPtr PathConfig_t);
  omitempty "Workload" "workload" NodePlacement_t;
  omitempty "FeatureGates" "featureGates" (TSlice TString);
  omitempty "StoragePools" "storagePools" (TSlice StoragePool_t)].

Definition HostPathProvisionerStatus_t : gotype := TStruct [
  omitempty "Conditions" "conditions" (TSlice Condition_t);
  omitempty "OperatorVersion" "operatorVersion" TString;
  omitempty "TargetVersion" "targetVersion" TString;
  omitempty "ObservedVersion" "observedVersion" TString;
  omitempty "StoragePoolStatuses" "storagePoolStatuses" (TSlice StoragePoolStatus_t)].

Definition HostPathProvisioner_t : gotype := TStruct [
  inline "TypeMeta" TypeMeta_t;
  omitempty "ObjectMeta" "metadata" ObjectMeta_t;
  omitempty "Spec" "spec" HostPathProvisionerSpec_t;
  omitempty "Status" "status" HostPathProvisionerStatus_t].

Definition HostPathProvisionerList_t : gotype := TStruct [
  inline "TypeMeta" TypeMeta_t;
  omitempty "ListMeta" "metadata" ListMeta_t;
  field_of "Items" "items" (TSlice HostPathProvisioner_t)].
