(* ===== verification/DeepCopy.v ===== *)
(** * Deep copies

    zz_generated.deepcopy.go, with the vendored deep copies it calls, on a heap:
    pointers, slices and maps are locations, and a struct is its fields.  The
    reconciler keeps a deep copy of the resource to compare with at the end of a
    reconciliation (controller.go: [currentCopy]), and the API machinery copies
    what its cache shares: both rely on a copy that has nothing in common with the
    original.  The theorems say how far that is so. *)
From S2P Require Import Prelude GoTypes.

(** ** The heap *)

Abbreviation loc := positive.

(** What a variable holds.  A slice is a window on an array: where it is, the
    index of its first element, its length. *)
Inductive hval :=
| HString (s : string)
| HBool (b : bool)
| HInt (z : Z)
| HPtr (l : option loc)
| HSlice (w : option (loc * nat * nat))
| HMap (l : option loc)
| HStruct (l : list hval).

(** What is at a location: the variable a pointer points to, an array, a map *)
Inductive cell := CVal (v : hval) | CArray (l : list hval) | CMap (m : gmap string hval).

Abbreviation heap := (gmap loc cell).

(** A state monad; [None] is a panic (a nil dereference). *)
Definition hcomp (A : Type) : Type := heap → option (A * heap).
Definition hret {A} (a : A) : hcomp A := λ h, Some (a, h).
Definition hbind {A B} (p : hcomp A) (f : A → hcomp B) : hcomp B :=
  λ h, match p h with Some (a, h) => f a h | None => None end.
Notation "x ⇐ p ; q" := (hbind p (λ x, q)) (at level 100, p at next level, q at level 200, right associativity).

Definition panics {A} : hcomp A := λ _, None.
Definition load (l : loc) : hcomp cell := λ h, match h !! l with Some c => Some (c, h) | None => None end.
Definition alloc (c : cell) : hcomp loc := λ h, let l := fresh (dom h) in Some (l, <[l := c]> h).

Fixpoint each {A B} (f : A → hcomp B) (l : list A) : hcomp (list B) :=
  match l with
  | [] => hret []
  | a :: l => b ⇐ f a; bs ⇐ each f l; hret (b :: bs)
  end.

(** ** What the generated code does *)

(** The copy a statement makes of a variable; [keep] is the assignment of
    [*out = *in]. *)
Abbreviation copier := (hval → hcomp hval).
Definition keep : copier := hret.

(** [if in.F != nil { *out = new(T); ( *in).DeepCopyInto( *out) }], and what every
    [DeepCopy] does to its receiver *)
Definition copy_ptr (c : copier) : copier := λ v,
  match v with
  | HPtr None => hret (HPtr None)
  | HPtr (Some l) =>
      x ⇐ load l;
      match x with
      | CVal w => w ⇐ c w; l ⇐ alloc (CVal w); hret (HPtr (Some l))
      | _ => panics
      end
  | _ => panics
  end.

(** [if in.F != nil { *out = make([]T, len( *in)); for i := range *in { ... } }] *)
Definition copy_slice (c : copier) : copier := λ v,
  match v with
  | HSlice None => hret (HSlice None)
  | HSlice (Some (l, off, len)) =>
      x ⇐ load l;
      match x with
      | CArray ws => ws ⇐ each c (take len (drop off ws)); l ⇐ alloc (CArray ws); hret (HSlice (Some (l, 0%nat, len)))
      | _ => panics
      end
  | _ => panics
  end.

(** [if in.F != nil { *out = make(map[K]V, len( *in)); for key, val := range *in { ... } }] *)
Definition copy_map (c : copier) : copier := λ v,
  match v with
  | HMap None => hret (HMap None)
  | HMap (Some l) =>
      x ⇐ load l;
      match x with
      | CMap m =>
          kvs ⇐ each (λ kv : string * hval, w ⇐ c kv.2; hret (kv.1, w)) (map_to_list m);
          l ⇐ alloc (CMap (list_to_map kvs)); hret (HMap (Some l))
      | _ => panics
      end
  | _ => panics
  end.

(** The body of a [DeepCopyInto]: [*out = *in] and then a statement for some of
    the fields, in the order of the fields *)
Fixpoint copy_fields (fields : list (field * gotype)) (stmts : list (string * copier)) (vs : list hval) :
    hcomp (list hval) :=
  match fields, vs with
  | [], [] => match stmts with [] => hret [] | _ => panics end
  | f :: fields, v :: vs =>
      match stmts with
      | (name, c) :: rest =>
          if bool_decide (name = f_name f.1) then w ⇐ c v; ws ⇐ copy_fields fields rest vs; hret (w :: ws)
          else ws ⇐ copy_fields fields stmts vs; hret (v :: ws)
      | [] => ws ⇐ copy_fields fields [] vs; hret (v :: ws)
      end
  | _, _ => panics
  end.

Definition copy_struct (t : gotype) (stmts : list (string * copier)) : copier := λ v,
  match t, v with
  | TStruct fields, HStruct vs => ws ⇐ copy_fields fields stmts vs; hret (HStruct ws)
  | _, _ => panics
  end.

(** *** k8s.io/api/core/v1 and k8s.io/apimachinery/pkg/apis/meta/v1 *)

(** metav1.Time: copied by assignment *)
Definition Time_DeepCopyInto : copier := keep.

(** resource.Quantity: the decimal is copied, if there is one *)
Definition Quantity_DeepCopy : copier := λ v,
  match Quantity_t with TCustom _ t => copy_struct t [("d", copy_ptr keep)] v | _ => panics end.

Definition FieldsV1_DeepCopyInto : copier := λ v,
  match FieldsV1_t with TCustom _ t => copy_struct t [("Raw", copy_slice keep)] v | _ => panics end.

(** The [runtime.Object] interface: a nil pointer is a nil interface. *)
Definition as_object (c : copier) (p : hval) : hcomp (option hval) :=
  x ⇐ c p; hret match x with HPtr None => None | _ => Some x end.

Definition TypedLocalObjectReference_DeepCopyInto : copier := copy_struct TypedLocalObjectReference_t [
  ("APIGroup", copy_ptr keep)].

Definition TypedObjectReference_DeepCopyInto : copier := copy_struct TypedObjectReference_t [
  ("APIGroup", copy_ptr keep);
  ("Namespace", copy_ptr keep)].

Definition LabelSelectorRequirement_DeepCopyInto : copier := copy_struct LabelSelectorRequirement_t [
  ("Values", copy_slice keep)].

Definition LabelSelector_DeepCopyInto : copier := copy_struct LabelSelector_t [
  ("MatchLabels", copy_map keep);
  ("MatchExpressions", copy_slice LabelSelectorRequirement_DeepCopyInto)].

Definition VolumeResourceRequirements_DeepCopyInto : copier := copy_struct VolumeResourceRequirements_t [
  ("Limits", copy_map Quantity_DeepCopy);
  ("Requests", copy_map Quantity_DeepCopy)].

Definition PersistentVolumeClaimSpec_DeepCopyInto : copier := copy_struct PersistentVolumeClaimSpec_t [
  ("AccessModes", copy_slice keep);
  ("Selector", copy_ptr LabelSelector_DeepCopyInto);
  ("Resources", VolumeResourceRequirements_DeepCopyInto);
  ("StorageClassName", copy_ptr keep);
  ("VolumeMode", copy_ptr keep);
  ("DataSource", copy_ptr TypedLocalObjectReference_DeepCopyInto);
  ("DataSourceRef", copy_ptr TypedObjectReference_DeepCopyInto);
  ("VolumeAttributesClassName", copy_ptr keep)].

Definition PersistentVolumeClaimCondition_DeepCopyInto : copier := copy_struct PersistentVolumeClaimCondition_t [
  ("LastProbeTime", Time_DeepCopyInto);
  ("LastTransitionTime", Time_DeepCopyInto)].

Definition PersistentVolumeClaimStatus_DeepCopyInto : copier := copy_struct PersistentVolumeClaimStatus_t [
  ("AccessModes", copy_slice keep);
  ("Capacity", copy_map Quantity_DeepCopy);
  ("Conditions", copy_slice PersistentVolumeClaimCondition_DeepCopyInto);
  ("AllocatedResources", copy_map Quantity_DeepCopy);
  ("AllocatedResourceStatuses", copy_map keep);
  ("CurrentVolumeAttributesClassName", copy_ptr keep);
  ("ModifyVolumeStatus", copy_ptr keep)].

Definition NodeSelectorRequirement_DeepCopyInto : copier := copy_struct NodeSelectorRequirement_t [
  ("Values", copy_slice keep)].

Definition NodeSelectorTerm_DeepCopyInto : copier := copy_struct NodeSelectorTerm_t [
  ("MatchExpressions", copy_slice NodeSelectorRequirement_DeepCopyInto);
  ("MatchFields", copy_slice NodeSelectorRequirement_DeepCopyInto)].

Definition NodeSelector_DeepCopyInto : copier := copy_struct NodeSelector_t [
  ("NodeSelectorTerms", copy_slice NodeSelectorTerm_DeepCopyInto)].

Definition PreferredSchedulingTerm_DeepCopyInto : copier := copy_struct PreferredSchedulingTerm_t [
  ("Preference", NodeSelectorTerm_DeepCopyInto)].

Definition NodeAffinity_DeepCopyInto : copier := copy_struct NodeAffinity_t [
  ("RequiredDuringSchedulingIgnoredDuringExecution", copy_ptr NodeSelector_DeepCopyInto);
  ("PreferredDuringSchedulingIgnoredDuringExecution", copy_slice PreferredSchedulingTerm_DeepCopyInto)].

Definition PodAffinityTerm_DeepCopyInto : copier := copy_struct PodAffinityTerm_t [
  ("LabelSelector", copy_ptr LabelSelector_DeepCopyInto);
  ("Namespaces", copy_slice keep);
  ("NamespaceSelector", copy_ptr LabelSelector_DeepCopyInto);
  ("MatchLabelKeys", copy_slice keep);
  ("MismatchLabelKeys", copy_slice keep)].

Definition WeightedPodAffinityTerm_DeepCopyInto : copier := copy_struct WeightedPodAffinityTerm_t [
  ("PodAffinityTerm", PodAffinityTerm_DeepCopyInto)].

Definition PodAffinity_DeepCopyInto : copier := copy_struct PodAffinity_t [
  ("RequiredDuringSchedulingIgnoredDuringExecution", copy_slice PodAffinityTerm_DeepCopyInto);
  ("PreferredDuringSchedulingIgnoredDuringExecution", copy_slice WeightedPodAffinityTerm_DeepCopyInto)].

Definition PodAntiAffinity_DeepCopyInto : copier := copy_struct PodAntiAffinity_t [
  ("RequiredDuringSchedulingIgnoredDuringExecution", copy_slice PodAffinityTerm_DeepCopyInto);
  ("PreferredDuringSchedulingIgnoredDuringExecution", copy_slice WeightedPodAffinityTerm_DeepCopyInto)].

Definition Affinity_DeepCopyInto : copier := copy_struct Affinity_t [
  ("NodeAffinity", copy_ptr NodeAffinity_DeepCopyInto);
  ("PodAffinity", copy_ptr PodAffinity_DeepCopyInto);
  ("PodAntiAffinity", copy_ptr PodAntiAffinity_DeepCopyInto)].

Definition Toleration_DeepCopyInto : copier := copy_struct Toleration_t [("TolerationSeconds", copy_ptr keep)].

Definition OwnerReference_DeepCopyInto : copier := copy_struct OwnerReference_t [
  ("Controller", copy_ptr keep);
  ("BlockOwnerDeletion", copy_ptr keep)].

Definition ManagedFieldsEntry_DeepCopyInto : copier := copy_struct ManagedFieldsEntry_t [
  ("Time", copy_ptr Time_DeepCopyInto);
  ("FieldsV1", copy_ptr FieldsV1_DeepCopyInto)].

Definition ObjectMeta_DeepCopyInto : copier := copy_struct ObjectMeta_t [
  ("CreationTimestamp", Time_DeepCopyInto);
  ("DeletionTimestamp", copy_ptr Time_DeepCopyInto);
  ("DeletionGracePeriodSeconds", copy_ptr keep);
  ("Labels", copy_map keep);
  ("Annotations", copy_map keep);
  ("OwnerReferences", copy_slice OwnerReference_DeepCopyInto);
  ("Finalizers", copy_slice keep);
  ("ManagedFields", copy_slice ManagedFieldsEntry_DeepCopyInto)].

Definition ListMeta_DeepCopyInto : copier := copy_struct ListMeta_t [
  ("RemainingItemCount", copy_ptr keep);
  ("ShardInfo", copy_ptr keep)].

(** *** github.com/openshift/custom-resource-status/conditions/v1 *)

Definition Condition_DeepCopyInto : copier := copy_struct Condition_t [
  ("LastHeartbeatTime", Time_DeepCopyInto);
  ("LastTransitionTime", Time_DeepCopyInto)].

(** *** pkg/apis/hostpathprovisioner/v1beta1/zz_generated.deepcopy.go *)

Definition PathConfig_DeepCopyInto : copier := copy_struct PathConfig_t [].
Definition PathConfig_DeepCopy : copier := copy_ptr PathConfig_DeepCopyInto.

Definition NodePlacement_DeepCopyInto : copier := copy_struct NodePlacement_t [
  ("NodeSelector", copy_map keep);
  ("Affinity", copy_ptr Affinity_DeepCopyInto);
  ("Tolerations", copy_slice Toleration_DeepCopyInto)].
Definition NodePlacement_DeepCopy : copier := copy_ptr NodePlacement_DeepCopyInto.

Definition StoragePool_DeepCopyInto : copier := copy_struct StoragePool_t [
  ("PVCTemplate", copy_ptr PersistentVolumeClaimSpec_DeepCopyInto)].
Definition StoragePool_DeepCopy : copier := copy_ptr StoragePool_DeepCopyInto.

Definition ClaimStatus_DeepCopyInto : copier := copy_struct ClaimStatus_t [
  ("Status", PersistentVolumeClaimStatus_DeepCopyInto)].
Definition ClaimStatus_DeepCopy : copier := copy_ptr ClaimStatus_DeepCopyInto.

Definition StoragePoolStatus_DeepCopyInto : copier := copy_struct StoragePoolStatus_t [
  ("ClaimStatuses", copy_slice ClaimStatus_DeepCopyInto)].
Definition StoragePoolStatus_DeepCopy : copier := copy_ptr StoragePoolStatus_DeepCopyInto.

Definition HostPathProvisionerSpec_DeepCopyInto : copier := copy_struct HostPathProvisionerSpec_t [
  ("PathConfig", copy_ptr keep);
  ("Workload", NodePlacement_DeepCopyInto);
  ("FeatureGates", copy_slice keep);
  ("StoragePools", copy_slice StoragePool_DeepCopyInto)].
Definition HostPathProvisionerSpec_DeepCopy : copier := copy_ptr HostPathProvisionerSpec_DeepCopyInto.

Definition HostPathProvisionerStatus_DeepCopyInto : copier := copy_struct HostPathProvisionerStatus_t [
  ("Conditions", copy_slice Condition_DeepCopyInto);
  ("StoragePoolStatuses", copy_slice StoragePoolStatus_DeepCopyInto)].
Definition HostPathProvisionerStatus_DeepCopy : copier := copy_ptr HostPathProvisionerStatus_DeepCopyInto.

Definition HostPathProvisioner_DeepCopyInto : copier := copy_struct HostPathProvisioner_t [
  ("TypeMeta", keep);
  ("ObjectMeta", ObjectMeta_DeepCopyInto);
  ("Spec", HostPathProvisionerSpec_DeepCopyInto);
  ("Status", HostPathProvisionerStatus_DeepCopyInto)].
Definition HostPathProvisioner_DeepCopy : copier := copy_ptr HostPathProvisioner_DeepCopyInto.
Definition HostPathProvisioner_DeepCopyObject : hval → hcomp (option hval) := as_object HostPathProvisioner_DeepCopy.

Definition HostPathProvisionerList_DeepCopyInto : copier := copy_struct HostPathProvisionerList_t [
  ("TypeMeta", keep);
  ("ListMeta", ListMeta_DeepCopyInto);
  ("Items", copy_slice HostPathProvisioner_DeepCopyInto)].
Definition HostPathProvisionerList_DeepCopy : copier := copy_ptr HostPathProvisionerList_DeepCopyInto.
Definition HostPathProvisionerList_DeepCopyObject : hval → hcomp (option hval) := as_object HostPathProvisionerList_DeepCopy.


