(* ===== verification/Isolation.v ===== *)
(** * Deep copies are isolated, up to one pointer

    What the deep copies of DeepCopy.v promise: the copy reads as the original,
    nothing of the old heap changes, and of the old heap the copy reaches exactly
    the strings behind the [SnapshotProvider] pointers of the storage pools, which
    the generated code forgets. *)
From stdpp Require Import fin_sets.
From S2P Require Import Prelude GoTypes DeepCopy.

(** ** Reading a value out of the heap *)

Definition window (l : list hval) (off len : nat) : list hval := take len (drop off l).

Fixpoint read (t : gotype) (h : heap) (v : hval) : option goval :=
  match t, v with
  | TString, HString s => Some (VString s)
  | TBool, HBool b => Some (VBool b)
  | TByte, HInt z | TInt _, HInt z => Some (VInt z)
  | TPtr _, HPtr None => Some (VPtr None)
  | TPtr t, HPtr (Some l) =>
      match h !! l with Some (CVal w) => x ← read t h w; Some (VPtr (Some x)) | _ => None end
  | TSlice _, HSlice None => Some (VSlice None)
  | TSlice t, HSlice (Some (l, off, len)) =>
      match h !! l with
      | Some (CArray ws) =>
          if (off + len <=? length ws)%nat then xs ← mapM (read t h) (window ws off len); Some (VSlice (Some xs))
          else None
      | _ => None
      end
  | TMap _, HMap None => Some (VMap None)
  | TMap t, HMap (Some l) =>
      match h !! l with Some (CMap m) => xs ← all_entries (read t h <$> m); Some (VMap (Some xs)) | _ => None end
  | TStruct fields, HStruct ws =>
      xs ← (fix go (fields : list (field * gotype)) (ws : list hval) : option (list goval) :=
              match fields, ws with
              | [], [] => Some []
              | f :: fields, w :: ws => x ← read f.2 h w; xs ← go fields ws; Some (x :: xs)
              | _, _ => None
              end) fields ws;
      Some (VStruct xs)
  | TCustom _ t, v => read t h v
  | _, _ => None
  end.

(** The locations a value reaches *)
Fixpoint reach (t : gotype) (h : heap) (v : hval) : gset loc :=
  match t, v with
  | TPtr t, HPtr (Some l) => {[l]} ∪ match h !! l with Some (CVal w) => reach t h w | _ => ∅ end
  | TSlice t, HSlice (Some (l, off, len)) =>
      {[l]} ∪ match h !! l with Some (CArray ws) => ⋃ (reach t h <$> window ws off len) | _ => ∅ end
  | TMap t, HMap (Some l) =>
      {[l]} ∪ match h !! l with Some (CMap m) => ⋃ (reach t h <$> (map_to_list m).*2) | _ => ∅ end
  | TStruct fields, HStruct ws =>
      (fix go (fields : list (field * gotype)) (ws : list hval) : gset loc :=
         match fields, ws with
         | f :: fields, w :: ws => reach f.2 h w ∪ go fields ws
         | _, _ => ∅
         end) fields ws
  | TCustom _ t, v => reach t h v
  | _, _ => ∅
  end.

Definition read_fields (h : heap) : list (field * gotype) → list hval → option (list goval) :=
  fix go (fields : list (field * gotype)) (ws : list hval) : option (list goval) :=
    match fields, ws with
    | [], [] => Some []
    | f :: fields, w :: ws => x ← read f.2 h w; xs ← go fields ws; Some (x :: xs)
    | _, _ => None
    end.

Definition reach_fields (h : heap) : list (field * gotype) → list hval → gset loc :=
  fix go (fields : list (field * gotype)) (ws : list hval) : gset loc :=
    match fields, ws with
    | f :: fields, w :: ws => reach f.2 h w ∪ go fields ws
    | _, _ => ∅
    end.

Lemma read_struct fields h ws : read (TStruct fields) h (HStruct ws) = xs ← read_fields h fields ws; Some (VStruct xs).
Proof. done. Qed.

Lemma reach_struct fields h ws : reach (TStruct fields) h (HStruct ws) = reach_fields h fields ws.
Proof. done. Qed.

(** ** Reading depends on what is reached *)

(** [h'] agrees with [h] on [L]. *)
Definition agrees (L : gset loc) (h h' : heap) : Prop := ∀ l, l ∈ L → h' !! l = h !! l.

Lemma agrees_subseteq L L' h h' : agrees L h h' → L' ⊆ L → agrees L' h h'.
Proof. intros Ha Hs l Hl. apply Ha. by apply Hs. Qed.

Definition framed (t : gotype) : Prop := ∀ h h' w x,
  read t h w = Some x → agrees (reach t h w) h h' → read t h' w = Some x ∧ reach t h' w = reach t h w.

Lemma elem_union_list (Xs : list (gset loc)) X : X ∈ Xs → X ⊆ ⋃ Xs.
Proof. intros HX l Hl. apply elem_of_union_list. by exists X. Qed.

Lemma mapM_cons_Some {A B} (f : A → option B) a l ys :
  mapM f (a :: l) = Some ys → ∃ y ys', ys = y :: ys' ∧ f a = Some y ∧ mapM f l = Some ys'.
Proof. cbn. destruct (f a) as [y|]; [|done]. destruct (mapM f l) as [ys'|]; [|done]. intros [= <-]. by exists y, ys'. Qed.

Lemma framed_list t h h' ws xs :
  framed t → mapM (read t h) ws = Some xs → agrees (⋃ (reach t h <$> ws)) h h' →
  mapM (read t h') ws = Some xs ∧ reach t h' <$> ws = reach t h <$> ws.
Proof.
  intros Ht. revert xs. induction ws as [|w ws IH]; intros xs Hr Ha; [done|].
  apply mapM_cons_Some in Hr as (y & ys & -> & Hy & Hys). cbn in Ha.
  destruct (Ht h h' w y Hy) as [Hy' HR]; [eapply agrees_subseteq; [done|apply union_subseteq_l]|].
  destruct (IH ys Hys) as [Hys' HRs]; [eapply agrees_subseteq; [done|apply union_subseteq_r]|].
  cbn. by rewrite Hy', Hys', HR, HRs.
Qed.

Lemma framed_fields fields h h' ws xs :
  Forall (λ f, framed f.2) fields → read_fields h fields ws = Some xs → agrees (reach_fields h fields ws) h h' →
  read_fields h' fields ws = Some xs ∧ reach_fields h' fields ws = reach_fields h fields ws.
Proof.
  intros Hf. revert ws xs. induction Hf as [|f fields Ht Hf IH]; intros [|w ws] xs Hr Ha; cbn in *; try done.
  destruct (read f.2 h w) as [y|] eqn:Hy; cbn in Hr; [|done].
  destruct (read_fields h fields ws) as [ys|] eqn:Hys; cbn in Hr; [|done]. injection Hr as <-.
  destruct (Ht h h' w y Hy) as [Hy' HR]; [eapply agrees_subseteq; [done|apply union_subseteq_l]|].
  destruct (IH ws ys Hys) as [Hys' HRs]; [eapply agrees_subseteq; [done|apply union_subseteq_r]|].
  by rewrite Hy', HR, HRs, Hys'.
Qed.

Lemma read_frame t : framed t.
Proof.
  induction t as [| | |width|t IH|t IH|t IH|fields IH|name t IH] using gotype_rect_fields; intros h h' w x Hr Ha.
  1-4: by destruct w.
  - destruct w as [| | |[l|]| | |]; try done. cbn in *.
    rewrite (Ha l) by set_solver. destruct (h !! l) as [[v| |]|]; try done.
    destruct (read t h v) as [y|] eqn:Hy; cbn in Hr; [|done]. injection Hr as <-.
    destruct (IH h h' v y Hy) as [-> ->]; [eapply agrees_subseteq; [done|apply union_subseteq_r]|done].
  - destruct w as [| | | |[[[l off] len]|]| |]; try done. cbn in *.
    rewrite (Ha l) by set_solver. destruct (h !! l) as [[|ws|]|]; try done.
    destruct (off + len <=? length ws)%nat; [|done].
    destruct (mapM (read t h) _) as [xs|] eqn:Hxs; cbn in Hr; [|done]. injection Hr as <-.
    destruct (framed_list t h h' _ xs IH Hxs) as [-> ->]; [eapply agrees_subseteq; [done|apply union_subseteq_r]|done].
  - destruct w as [| | | | |[l|]|]; try done. cbn in *.
    rewrite (Ha l) by set_solver. destruct (h !! l) as [[| |m]|]; try done.
    destruct (all_entries _) as [xs|] eqn:Hxs; cbn in Hr; [|done]. injection Hr as <-.
    apply all_entries_Some in Hxs.
    assert (Hk : ∀ k v, m !! k = Some v → read t h' v = xs !! k ∧ reach t h' v = reach t h v).
    { intros k v Hv. assert (Hrd : Some (read t h v) = Some <$> xs !! k)
        by (rewrite <-lookup_fmap, <-Hxs, lookup_fmap, Hv; done).
      destruct (xs !! k) as [y|]; [|done]. injection Hrd as Hy. apply IH; [done|].
      eapply agrees_subseteq; [done|]. apply union_subseteq_r', elem_union_list, list_elem_of_fmap. exists v. split; [done|].
      apply list_elem_of_fmap. exists (k, v). by rewrite elem_of_map_to_list. }
    assert (all_entries (read t h' <$> m) = Some xs) as ->.
    { apply all_entries_Some. rewrite <-Hxs. apply map_eq. intros k. rewrite !lookup_fmap.
      destruct (m !! k) as [v|] eqn:Hv; cbn; [|done]. destruct (Hk k v Hv) as [-> _].
      assert (Hrd : Some (read t h v) = Some <$> xs !! k) by (rewrite <-lookup_fmap, <-Hxs, lookup_fmap, Hv; done).
      destruct (xs !! k); cbn in Hrd; congruence. }
    split; [done|]. do 2 f_equal. apply list_fmap_ext. intros i v Hi. apply list_elem_of_lookup_2 in Hi.
    apply list_elem_of_fmap in Hi as ([k v'] & -> & Hkv%elem_of_map_to_list). by apply (Hk k).
  - destruct w as [| | | | | |ws]; try done. rewrite read_struct in *. rewrite !reach_struct in *.
    destruct (read_fields h fields ws) as [xs|] eqn:Hxs; cbn in Hr; [|done].
    by destruct (framed_fields fields h h' ws xs IH Hxs Ha) as [-> ->].
  - by apply IH.
Qed.

Lemma union_list_subseteq (Xs : list (gset loc)) Y : (∀ X, X ∈ Xs → X ⊆ Y) → ⋃ Xs ⊆ Y.
Proof. intros HX l (X & HXs & Hl)%elem_of_union_list. by apply (HX X). Qed.

Lemma mapM_elem {A B} (f : A → option B) l ys a : mapM f l = Some ys → a ∈ l → ∃ y, f a = Some y.
Proof.
  intros Hm Ha. apply mapM_Some in Hm. apply list_elem_of_lookup in Ha as [i Hi].
  destruct (Forall2_lookup_l _ _ _ _ _ Hm Hi) as (y & _ & Hy). by exists y.
Qed.

(** What is read is there. *)
Lemma reach_dom t h w x : read t h w = Some x → reach t h w ⊆ dom h.
Proof.
  revert w x. induction t as [| | |width|t IH|t IH|t IH|fields IH|name t IH] using gotype_rect_fields; intros w x Hr.
  1-4: by destruct w.
  - destruct w as [| | |[l|]| | |]; try done. cbn in *. destruct (h !! l) as [[v| |]|] eqn:Hl; try done.
    destruct (read t h v) as [y|] eqn:Hy; cbn in Hr; [|done]. apply union_least; [|by eapply IH].
    apply singleton_subseteq_l, elem_of_dom. by eexists.
  - destruct w as [| | | |[[[l off] len]|]| |]; try done. cbn in *. destruct (h !! l) as [[|ws|]|] eqn:Hl; try done.
    destruct (off + len <=? length ws)%nat; [|done]. destruct (mapM (read t h) _) as [xs|] eqn:Hxs; cbn in Hr; [|done].
    apply union_least; [apply singleton_subseteq_l, elem_of_dom; by eexists|]. apply union_list_subseteq.
    intros X (v & -> & Hv)%list_elem_of_fmap. destruct (mapM_elem _ _ _ _ Hxs Hv) as [y Hy]. by eapply IH.
  - destruct w as [| | | | |[l|]|]; try done. cbn in *. destruct (h !! l) as [[| |m]|] eqn:Hl; try done.
    destruct (all_entries _) as [xs|] eqn:Hxs; cbn in Hr; [|done]. apply all_entries_Some in Hxs.
    apply union_least; [apply singleton_subseteq_l, elem_of_dom; by eexists|]. apply union_list_subseteq.
    intros X (v & -> & Hv)%list_elem_of_fmap. apply list_elem_of_fmap in Hv as ([k v'] & -> & Hkv%elem_of_map_to_list).
    assert (Hrd : Some (read t h v') = Some <$> xs !! k) by (rewrite <-lookup_fmap, <-Hxs, lookup_fmap, Hkv; done).
    destruct (xs !! k) as [y|]; [|done]. injection Hrd as Hy. by eapply IH.
  - destruct w as [| | | | | |ws]; try done. rewrite read_struct in Hr. rewrite reach_struct.
    destruct (read_fields h fields ws) as [xs|] eqn:Hxs; cbn in Hr; [|done]. clear Hr x.
    revert ws xs Hxs. induction IH as [|f fields Ht Hf IH]; intros [|w ws] xs Hxs; cbn in *; try done.
    destruct (read f.2 h w) as [y|] eqn:Hy; cbn in Hxs; [|done].
    destruct (read_fields h fields ws) as [ys|] eqn:Hys; cbn in Hxs; [|done].
    apply union_least; [by eapply Ht|by eapply IH].
  - by eapply IH.
Qed.

(** A heap that grew reads the same. *)
Lemma read_grown t h h' w x : read t h w = Some x → h ⊆ h' → read t h' w = Some x ∧ reach t h' w = reach t h w.
Proof.
  intros Hr Hh. apply read_frame; [done|]. intros l Hl%(reach_dom t h w x); [|done].
  apply elem_of_dom in Hl as [c Hc]. rewrite Hc. by eapply lookup_weaken.
Qed.

(** ** The contract of a copy *)

(** The copy of [w] reads as [w], and of what was there it reaches only [S]. *)
Record copies (S : heap → hval → gset loc) (t : gotype) (c : copier) : Prop := {
  copy_made h w x : read t h w = Some x →
    ∃ w' h', c w h = Some (w', h') ∧ h ⊆ h' ∧ read t h' w' = Some x ∧ reach t h' w' ∩ dom h = S h w;
  shared_stable h h' w x : read t h w = Some x → h ⊆ h' → S h' w = S h w;
  shared_old h w x : read t h w = Some x → S h w ⊆ dom h }.

Definition none : heap → hval → gset loc := λ _ _, ∅.
Abbreviation deep := (copies none).

Lemma copies_ext S S' t c :
  copies S t c → (∀ h w x, read t h w = Some x → S h w = S' h w) → copies S' t c.
Proof.
  intros [Hc Hs Ho] HS. split.
  - intros h w x Hr. rewrite <-(HS h w x) by done. by apply Hc.
  - intros h h' w x Hr Hh. rewrite <-(HS h w x), <-(HS h' w x); [by eapply Hs|by eapply read_grown|done].
  - intros h w x Hr. rewrite <-(HS h w x) by done. by eapply Ho.
Qed.

(** An assignment shares everything. *)
Lemma keep_copies t : copies (reach t) t keep.
Proof.
  split.
  - intros h w x Hr. exists w, h. split_and!; try done. apply reach_dom in Hr. set_solver.
  - intros h h' w x Hr Hh. by eapply read_grown.
  - intros h w x. apply reach_dom.
Qed.

Fixpoint flat (t : gotype) : bool :=
  match t with
  | TString | TBool | TByte | TInt _ => true
  | TPtr _ | TSlice _ | TMap _ => false
  | TStruct fields => forallb (λ f, flat f.2) fields
  | TCustom _ t => flat t
  end.

Lemma flat_reach t h w : flat t = true → reach t h w = ∅.
Proof.
  revert w. induction t as [| | |width|t IH|t IH|t IH|fields IH|name t IH] using gotype_rect_fields;
    intros w Hf; try done; [by destruct w..| |by apply IH].
  destruct w as [| | | | | |ws]; try done. rewrite reach_struct. cbn in Hf. revert ws Hf.
  induction IH as [|f fields Ht Hfs IH]; intros [|w ws] Hf; cbn in *; try done.
  apply andb_true_iff in Hf as [Hf1 Hf2]. rewrite Ht, IH by done. set_solver.
Qed.

Lemma keep_flat t : flat t = true → deep t keep.
Proof. intros Hf. eapply copies_ext; [apply keep_copies|]. intros. by apply flat_reach. Qed.

(** *** Allocation *)

Lemma alloc_fresh c h : ∃ l, alloc c h = Some (l, <[l := c]> h) ∧ h !! l = None ∧ h ⊆ <[l := c]> h.
Proof.
  exists (fresh (dom h)). assert (Hl : h !! fresh (dom h) = None) by (apply not_elem_of_dom, is_fresh).
  split_and!; [done|done|]. by apply insert_subseteq.
Qed.

Lemma old_part (h h' : heap) (L : gset loc) S : h ⊆ h' → L ∩ dom h' = S → S ⊆ dom h → L ∩ dom h = S.
Proof.
  intros Hh%subseteq_dom <- HS. apply set_eq. intros l. rewrite !elem_of_intersection. split.
  - intros [Hl Hd]. split; [done|]. by apply Hh.
  - intros [Hl Hd]. split; [done|]. apply HS. set_solver.
Qed.

Lemma new_part (h : heap) l (L : gset loc) : h !! l = None → ({[l]} ∪ L) ∩ dom h = L ∩ dom h.
Proof. intros Hl%not_elem_of_dom. set_solver. Qed.

Lemma fresh_old (h h' : heap) l : h ⊆ h' → h' !! l = None → h !! l = None.
Proof. intros Hh Hl. by eapply lookup_weaken_None. Qed.

(** *** Pointers *)

Definition in_ptr (S : heap → hval → gset loc) : heap → hval → gset loc := λ h v,
  match v with
  | HPtr (Some l) => match h !! l with Some (CVal w) => S h w | _ => ∅ end
  | _ => ∅
  end.

Lemma copy_ptr_copies S t c : copies S t c → copies (in_ptr S) (TPtr t) (copy_ptr c).
Proof.
  intros [Hc Hs Ho].
  assert (Hin : ∀ h w x, read (TPtr t) h w = Some x →
    w = HPtr None ∧ x = VPtr None ∨
    ∃ l v y, w = HPtr (Some l) ∧ h !! l = Some (CVal v) ∧ read t h v = Some y ∧ x = VPtr (Some y)).
  { intros h w x Hr. destruct w as [| | |[l|]| | |]; try done; cbn in Hr; [|left; by simplify_eq].
    destruct (h !! l) as [[v| |]|] eqn:Hl; try done. destruct (read t h v) as [y|] eqn:Hy; [|done].
    right. exists l, v, y. by simplify_eq/=. }
  split.
  - intros h w x [[-> ->]|(l & v & y & -> & Hl & Hy & ->)]%Hin.
    + exists (HPtr None), h. split_and!; try done. cbn. set_solver.
    + destruct (Hc h v y Hy) as (w' & h' & Hrun & Hh & Hr' & HS).
      destruct (alloc_fresh (CVal w') h') as (l' & Hal & Hfr & Hh').
      destruct (read_grown _ _ _ _ _ Hr' Hh') as [Hr2 HR2].
      exists (HPtr (Some l')), (<[l' := CVal w']> h'). split_and!.
      * unfold copy_ptr, hbind, load. rewrite Hl, Hrun, Hal. done.
      * by etrans.
      * cbn. by rewrite lookup_insert_eq, Hr2.
      * cbn. rewrite lookup_insert_eq, Hl, HR2, new_part; [done|].
        by eapply fresh_old.
  - intros h h' w x [[-> ->]|(l & v & y & -> & Hl & Hy & ->)]%Hin Hh; [done|]. cbn.
    rewrite Hl, (lookup_weaken h h' l _ Hl Hh). by eapply Hs.
  - intros h w x [[-> ->]|(l & v & y & -> & Hl & Hy & ->)]%Hin; [done|]. cbn. rewrite Hl. by eapply Ho.
Qed.

(** *** Slices *)

Definition in_slice (S : heap → hval → gset loc) : heap → hval → gset loc := λ h v,
  match v with
  | HSlice (Some (l, off, len)) =>
      match h !! l with Some (CArray ws) => ⋃ (S h <$> window ws off len) | _ => ∅ end
  | _ => ∅
  end.

(** The elements of an array, or the entries of a map: what it takes to copy them
    one by one *)
Section Each.
Context {A X : Type} (rd : heap → A → option X) (rc S : heap → A → gset loc) (c : A → hcomp A).
Hypothesis (Hgrown : ∀ h h' a x, rd h a = Some x → h ⊆ h' → rd h' a = Some x ∧ rc h' a = rc h a).
Hypothesis (Hmade : ∀ h a x, rd h a = Some x →
  ∃ a' h', c a h = Some (a', h') ∧ h ⊆ h' ∧ rd h' a' = Some x ∧ rc h' a' ∩ dom h = S h a).
Hypothesis (Hstable : ∀ h h' a x, rd h a = Some x → h ⊆ h' → S h' a = S h a).
Hypothesis (Hold : ∀ h a x, rd h a = Some x → S h a ⊆ dom h).

Lemma each_stable h h' l xs : mapM (rd h) l = Some xs → h ⊆ h' → S h' <$> l = S h <$> l.
Proof using Hstable.
  intros Hr Hh. apply list_fmap_ext. intros i a Hi%list_elem_of_lookup_2.
  destruct (mapM_elem _ _ _ _ Hr Hi) as [y Hy]. by eapply Hstable.
Qed.

Lemma each_old h l xs : mapM (rd h) l = Some xs → ⋃ (S h <$> l) ⊆ dom h.
Proof using Hold.
  intros Hr. apply union_list_subseteq. intros Y (a & -> & Ha)%list_elem_of_fmap.
  destruct (mapM_elem _ _ _ _ Hr Ha) as [y Hy]. by eapply Hold.
Qed.

Lemma each_grown h h' l xs :
  mapM (rd h) l = Some xs → h ⊆ h' → mapM (rd h') l = Some xs ∧ rc h' <$> l = rc h <$> l.
Proof using Hgrown.
  intros Hr Hh. revert xs Hr. induction l as [|a l IH]; intros xs Hr; [done|].
  apply mapM_cons_Some in Hr as (y & ys & -> & Hy & Hys).
  destruct (Hgrown h h' a y Hy Hh) as [Hy' HR], (IH ys Hys) as [Hys' HRs]. cbn. by rewrite Hy', Hys', HR, HRs.
Qed.

Lemma each_copies h l xs :
  mapM (rd h) l = Some xs →
  ∃ l' h', each c l h = Some (l', h') ∧ h ⊆ h' ∧ mapM (rd h') l' = Some xs ∧
           ⋃ (rc h' <$> l') ∩ dom h = ⋃ (S h <$> l).
Proof using Hgrown Hmade Hstable Hold.
  revert h xs. induction l as [|a l IH]; intros h xs Hr.
  - injection Hr as <-. exists [], h. split_and!; try done. cbn. set_solver.
  - apply mapM_cons_Some in Hr as (y & ys & -> & Hy & Hys).
    destruct (Hmade h a y Hy) as (a' & h1 & Hrun & Hh1 & Hr1 & HS1).
    destruct (each_grown h h1 l ys Hys Hh1) as [Hys1 _].
    destruct (IH h1 ys Hys1) as (l' & h2 & Hrun2 & Hh2 & Hr2 & HS2).
    destruct (Hgrown _ _ _ _ Hr1 Hh2) as [Hr1' HR1].
    exists (a' :: l'), h2. split_and!.
    + cbn. unfold hbind. by rewrite Hrun, Hrun2.
    + by etrans.
    + cbn. by rewrite Hr1', Hr2.
    + cbn. rewrite HR1, intersection_union_r_L, HS1. f_equal.
      apply (old_part h h1); [done| |by eapply each_old].
      rewrite HS2. f_equal. by eapply each_stable.
Qed.
End Each.

Lemma read_slice t h w x :
  read (TSlice t) h w = Some x →
  w = HSlice None ∧ x = VSlice None ∨
  ∃ l off len ws xs, w = HSlice (Some (l, off, len)) ∧ h !! l = Some (CArray ws) ∧ (off + len ≤ length ws)%nat ∧
    mapM (read t h) (window ws off len) = Some xs ∧ x = VSlice (Some xs).
Proof.
  intros Hr. destruct w as [| | | |[[[l off] len]|]| |]; try done; cbn in Hr; [|left; by simplify_eq].
  destruct (h !! l) as [[|ws|]|] eqn:Hl; try done. destruct (Nat.leb_spec (off + len) (length ws)); [|done].
  destruct (mapM (read t h) _) as [xs|] eqn:Hxs; [|done]. right. exists l, off, len, ws, xs. by simplify_eq/=.
Qed.

Lemma copy_slice_copies S t c : copies S t c → copies (in_slice S) (TSlice t) (copy_slice c).
Proof.
  intros [Hc Hs Ho]. split.
  - intros h w x [[-> ->]|(l & off & len & ws & xs & -> & Hl & Hlen & Hxs & ->)]%read_slice.
    + exists (HSlice None), h. split_and!; try done. cbn. set_solver.
    + destruct (each_copies _ _ _ _ (read_grown t) Hc Hs Ho h _ xs Hxs) as (ws' & h' & Hrun & Hh & Hr' & HS).
      destruct (alloc_fresh (CArray ws') h') as (l' & Hal & Hfr & Hh').
      destruct (each_grown _ _ (read_grown t) h' _ ws' xs Hr' Hh') as [Hr2 HR2].
      assert (Hlen' : length ws' = len).
      { apply mapM_Some_1, Forall2_length in Hr', Hxs. rewrite Hr', <-Hxs. unfold window. rewrite length_take, length_drop. lia. }
      exists (HSlice (Some (l', 0%nat, len))), (<[l' := CArray ws']> h').
      assert (Hwin : window ws' 0 len = ws') by (unfold window; rewrite drop_0, take_ge by lia; done).
      split_and!.
      * unfold copy_slice, hbind, load. rewrite Hl. unfold window in Hrun. by rewrite Hrun, Hal.
      * by etrans.
      * cbn. rewrite lookup_insert_eq, Hwin, Hr2. by rewrite (proj2 (Nat.leb_le _ _)) by lia.
      * cbn. rewrite lookup_insert_eq, Hl, Hwin, HR2, new_part; [done|].
        by eapply fresh_old.
  - intros h h' w x [[-> ->]|(l & off & len & ws & xs & -> & Hl & Hlen & Hxs & ->)]%read_slice Hh; [done|]. cbn.
    rewrite Hl, (lookup_weaken h h' l _ Hl Hh). f_equal. by eapply (each_stable (read t)).
  - intros h w x [[-> ->]|(l & off & len & ws & xs & -> & Hl & Hlen & Hxs & ->)]%read_slice; [done|]. cbn.
    rewrite Hl. by eapply (each_old (read t)).
Qed.

(** *** Maps *)

Definition in_map (S : heap → hval → gset loc) : heap → hval → gset loc := λ h v,
  match v with
  | HMap (Some l) => match h !! l with Some (CMap m) => ⋃ (S h <$> (map_to_list m).*2) | _ => ∅ end
  | _ => ∅
  end.

Lemma read_map t h w x :
  read (TMap t) h w = Some x →
  w = HMap None ∧ x = VMap None ∨
  ∃ l m xs, w = HMap (Some l) ∧ h !! l = Some (CMap m) ∧ read t h <$> m = Some <$> xs ∧ x = VMap (Some xs).
Proof.
  intros Hr. destruct w as [| | | | |[l|]|]; try done; cbn in Hr; [|left; by simplify_eq].
  destruct (h !! l) as [[| |m]|] eqn:Hl; try done. destruct (all_entries _) as [xs|] eqn:Hxs; [|done].
  right. exists l, m, xs. apply all_entries_Some in Hxs. by simplify_eq/=.
Qed.

(** Reading the entries one by one *)
Definition read_entry (t : gotype) (h : heap) (kv : string * hval) : option (string * goval) :=
  x ← read t h kv.2; Some (kv.1, x).

Lemma read_entries t h m xs :
  read t h <$> m = Some <$> xs →
  ∃ kxs, mapM (read_entry t h) (map_to_list m) = Some kxs ∧ list_to_map kxs = xs ∧ kxs.*1 = (map_to_list m).*1.
Proof.
  intros Hm.
  assert (Hl : ∀ k v, m !! k = Some v → ∃ x, read t h v = Some x ∧ xs !! k = Some x).
  { intros k v Hv. assert (Hrd : Some (read t h v) = Some <$> xs !! k)
      by (rewrite <-lookup_fmap, <-Hm, lookup_fmap, Hv; done).
    destruct (xs !! k) as [x|]; [|done]. injection Hrd as ->. by exists x. }
  assert (Hkxs : ∃ kxs, mapM (read_entry t h) (map_to_list m) = Some kxs).
  { assert (HF : Forall (λ kv, is_Some (read_entry t h kv)) (map_to_list m)).
    { apply Forall_forall. intros [k v] Hkv%elem_of_map_to_list. destruct (Hl k v Hkv) as (x & Hx & _).
      unfold read_entry. cbn. rewrite Hx. by eexists. }
    by apply mapM_is_Some_2 in HF. }
  destruct Hkxs as [kxs Hkxs]. exists kxs. pose proof Hkxs as HF2. apply mapM_Some_1 in HF2.
  assert (Hfst : kxs.*1 = (map_to_list m).*1).
  { clear -HF2. induction HF2 as [|[k v] [k' x] l l' Hx HF IH]; [done|]. cbn. unfold read_entry in Hx. cbn in Hx.
    destruct (read t h v); [|done]. simplify_eq/=. by rewrite IH. }
  split_and!; [done| |done]. apply map_eq. intros k.
  assert (Hnd : NoDup kxs.*1) by (rewrite Hfst; apply NoDup_fst_map_to_list).
  destruct (xs !! k) as [x|] eqn:Hx.
  - apply elem_of_list_to_map_1; [done|].
    assert (Hv : ∃ v, m !! k = Some v ∧ read t h v = Some x).
    { assert (Hrd : read t h <$> m !! k = Some (Some x)) by (rewrite <-lookup_fmap, Hm, lookup_fmap, Hx; done).
      destruct (m !! k) as [v|]; [|done]. injection Hrd as Hrd. by exists v. }
    destruct Hv as (v & Hv%elem_of_map_to_list & Hrd). apply list_elem_of_lookup in Hv as [i Hi].
    destruct (Forall2_lookup_l _ _ _ _ _ HF2 Hi) as ([k' x'] & Hi' & He). unfold read_entry in He. cbn in He.
    rewrite Hrd in He. simplify_eq/=. by eapply list_elem_of_lookup_2.
  - apply not_elem_of_list_to_map_1. rewrite Hfst. intros ([k' v] & -> & Hkv%elem_of_map_to_list)%list_elem_of_fmap.
    cbn in Hx. destruct (Hl _ _ Hkv) as (x & _ & Hx'). congruence.
Qed.

Lemma union_perm (Xs Ys : list (gset loc)) : Xs ≡ₚ Ys → ⋃ Xs = ⋃ Ys.
Proof. intros Hp. apply set_eq. intros l. rewrite !elem_of_union_list. by setoid_rewrite Hp. Qed.

Definition copy_entry (c : copier) (kv : string * hval) : hcomp (string * hval) := w ⇐ c kv.2; hret (kv.1, w).

Lemma entry_values {A} (m : gmap string A) {B} (f : A → B) : f <$> (map_to_list m).*2 = (λ kv, f kv.2) <$> map_to_list m.
Proof. by rewrite <-list_fmap_compose. Qed.

Section Entries.
Context (S : heap → hval → gset loc) (t : gotype) (c : copier) (HC : copies S t c).

Lemma entry_read h kv x : read_entry t h kv = Some x → read t h kv.2 = Some x.2 ∧ x.1 = kv.1.
Proof using Type. unfold read_entry. destruct (read t h kv.2); cbn; by intros [= <-]. Qed.

Lemma entries_grown h h' kv x :
  read_entry t h kv = Some x → h ⊆ h' → read_entry t h' kv = Some x ∧ reach t h' kv.2 = reach t h kv.2.
Proof using Type.
  intros [Hr Hk]%entry_read Hh. destruct (read_grown _ _ _ _ _ Hr Hh) as [Hr' HR]. unfold read_entry.
  rewrite Hr'. destruct x. by simplify_eq/=.
Qed.

Lemma entries_copied h m xs :
  read t h <$> m = Some <$> xs →
  ∃ kvs h', each (copy_entry c) (map_to_list m) h = Some (kvs, h') ∧ h ⊆ h' ∧
            read t h' <$> list_to_map kvs = Some <$> xs ∧
            ⋃ (reach t h' <$> (map_to_list (list_to_map kvs : gmap string hval)).*2) ∩ dom h =
              ⋃ (S h <$> (map_to_list m).*2).
Proof using HC.
  intros Hm. destruct HC as [Hc Hs Ho]. destruct (read_entries t h m xs Hm) as (kxs & Hkxs & <- & Hfst).
  destruct (each_copies (read_entry t) (λ h kv, reach t h kv.2) (λ h kv, S h kv.2) (copy_entry c) entries_grown)
    with (h := h) (l := map_to_list m) (xs := kxs) as (kvs & h' & Hrun & Hh & Hr & HS); [..|done|].
  - intros h0 kv x [Hr Hk]%entry_read. destruct (Hc h0 kv.2 x.2 Hr) as (w & h' & Hrun & Hh & Hr' & HS).
    exists (kv.1, w), h'. unfold copy_entry, read_entry, hbind. rewrite Hrun. cbn. rewrite Hr', <-Hk. by destruct x.
  - intros h0 h' kv x [Hr Hk]%entry_read. by eapply Hs.
  - intros h0 kv x [Hr Hk]%entry_read. by eapply Ho.
  - assert (Hfst' : kvs.*1 = (map_to_list m).*1).
    { rewrite <-Hfst. apply mapM_Some_1 in Hr. clear -Hr. induction Hr as [|kv x l l' Hx HF IH]; [done|].
      apply entry_read in Hx as [_ Hx]. cbn. by rewrite IH, Hx. }
    exists kvs, h'. split_and!; [done|done| |].
    + clear -Hr. revert kxs Hr. induction kvs as [|[k w] kvs IH]; intros kxs Hr; [by injection Hr as <-|].
      apply mapM_cons_Some in Hr as ([k' x] & kxs' & -> & [Hx Hk]%entry_read & Hr). cbn in Hx, Hk. subst k'.
      cbn. by rewrite !fmap_insert, Hx, (IH _ Hr).
    + rewrite !entry_values, <-HS. f_equal. apply union_perm. f_equiv. apply map_to_list_to_map.
      rewrite Hfst'. apply NoDup_fst_map_to_list.
Qed.
End Entries.

Lemma copy_map_copies S t c : copies S t c → copies (in_map S) (TMap t) (copy_map c).
Proof.
  intros HC. pose proof HC as [Hc Hs Ho].
  assert (Hel : ∀ h (m : gmap string hval) (xs : gmap string goval) v, read t h <$> m = Some <$> xs → v ∈ (map_to_list m).*2 → ∃ x, read t h v = Some x).
  { intros h m xs v Hm ([k v'] & -> & Hkv%elem_of_map_to_list)%list_elem_of_fmap. cbn.
    assert (Hrd : Some (read t h v') = Some <$> xs !! k) by (rewrite <-lookup_fmap, <-Hm, lookup_fmap, Hkv; done).
    destruct (xs !! k) as [x|]; [|done]. injection Hrd as ->. by exists x. }
  split.
  - intros h w x [[-> ->]|(l & m & xs & -> & Hl & Hm & ->)]%read_map.
    + exists (HMap None), h. split_and!; try done. cbn. set_solver.
    + destruct (entries_copied S t c HC h m xs Hm) as (kvs & h' & Hrun & Hh & Hr' & HS).
      destruct (alloc_fresh (CMap (list_to_map kvs)) h') as (l' & Hal & Hfr & Hh').
      set (h2 := <[l' := _]> h') in *.
      assert (Hr2 : read (TMap t) h2 (HMap (Some l')) = Some (VMap (Some xs)) ∧
                    reach (TMap t) h2 (HMap (Some l')) = {[l']} ∪ ⋃ (reach t h' <$> (map_to_list (list_to_map kvs : gmap string hval)).*2)).
      { cbn. unfold h2. rewrite lookup_insert_eq. fold h2.
        assert (read t h2 <$> list_to_map kvs = Some <$> xs) as Hx.
        { rewrite <-Hr'. apply map_fmap_ext. intros k v Hv%elem_of_map_to_list.
          destruct (Hel h' (list_to_map kvs) xs v Hr') as [x Hx]; [by apply list_elem_of_fmap; exists (k, v)|].
          destruct (read_grown _ _ _ _ _ Hx Hh') as [Hx' _]. by rewrite Hx', Hx. }
        apply all_entries_Some in Hx. rewrite Hx. split; [done|]. do 2 f_equal. apply list_fmap_ext.
        intros i v Hi%list_elem_of_lookup_2. destruct (Hel h' (list_to_map kvs) xs v Hr' Hi) as [x Hx'].
        by eapply read_grown. }
      destruct Hr2 as [Hr2 HR2]. exists (HMap (Some l')), h2. split_and!; [|by etrans|done|].
      * unfold copy_map, hbind at 1, load. rewrite Hl. unfold hbind at 1. fold (copy_entry c). rewrite Hrun.
        unfold hbind. by rewrite Hal.
      * rewrite HR2, new_part by (by eapply fresh_old). cbn. by rewrite Hl.
  - intros h h' w x [[-> ->]|(l & m & xs & -> & Hl & Hm & ->)]%read_map Hh; [done|]. cbn.
    rewrite Hl, (lookup_weaken h h' l _ Hl Hh). f_equal. apply list_fmap_ext. intros i v Hi%list_elem_of_lookup_2.
    destruct (Hel h m xs v Hm Hi) as [x Hx]. by eapply Hs.
  - intros h w x [[-> ->]|(l & m & xs & -> & Hl & Hm & ->)]%read_map; [done|]. cbn. rewrite Hl.
    apply union_list_subseteq. intros X (v & -> & Hv)%list_elem_of_fmap. destruct (Hel h m xs v Hm Hv) as [x Hx]. by eapply Ho.
Qed.

(** *** Structs *)

Fixpoint in_fields (shs : list (heap → hval → gset loc)) (h : heap) (ws : list hval) : gset loc :=
  match shs, ws with
  | sh :: shs, w :: ws => sh h w ∪ in_fields shs h ws
  | _, _ => ∅
  end.

Definition in_struct (shs : list (heap → hval → gset loc)) : heap → hval → gset loc := λ h v,
  match v with HStruct ws => in_fields shs h ws | _ => ∅ end.

(** What each field of a struct shares, given the statements of a [DeepCopyInto] *)
Inductive plan : list (field * gotype) → list (string * copier) → list (heap → hval → gset loc) → Prop :=
| plan_nil : plan [] [] []
| plan_copied f t fields c stmts sh shs :
    copies sh t c → plan fields stmts shs → plan ((f, t) :: fields) ((f_name f, c) :: stmts) (sh :: shs)
| plan_kept f t fields stmts sh shs :
    match stmts with (name, _) :: _ => bool_decide (name = f_name f) | [] => false end = false →
    copies sh t keep → plan fields stmts shs → plan ((f, t) :: fields) stmts (sh :: shs).

Lemma read_fields_cons f fields h w ws xs :
  read_fields h (f :: fields) (w :: ws) = Some xs →
  ∃ y ys, xs = y :: ys ∧ read f.2 h w = Some y ∧ read_fields h fields ws = Some ys.
Proof.
  cbn. destruct (read f.2 h w) as [y|]; [|done]. cbn. destruct (read_fields h fields ws) as [ys|]; [|done].
  intros [= <-]. by exists y, ys.
Qed.

Lemma fields_grown fields h h' ws xs :
  read_fields h fields ws = Some xs → h ⊆ h' →
  read_fields h' fields ws = Some xs ∧ reach_fields h' fields ws = reach_fields h fields ws.
Proof.
  intros Hr Hh. assert (Hs : read (TStruct fields) h (HStruct ws) = Some (VStruct xs)) by (by rewrite read_struct, Hr).
  destruct (read_grown _ _ _ _ _ Hs Hh) as [Hs' HR]. rewrite read_struct in Hs'. rewrite !reach_struct in HR.
  split; [|done]. by destruct (read_fields h' fields ws); simplify_eq/=.
Qed.

Lemma plan_old fields stmts shs h ws xs :
  plan fields stmts shs → read_fields h fields ws = Some xs → in_fields shs h ws ⊆ dom h.
Proof.
  intros Hp. revert ws xs. induction Hp as [|f t fields c stmts sh shs HC Hp IH|f t fields stmts sh shs Hn HC Hp IH];
    intros [|w ws] xs Hr; try done; cbn;
    (apply read_fields_cons in Hr as (y & ys & -> & Hy & Hys); apply union_least; [by eapply shared_old|by eapply IH]).
Qed.

Lemma plan_stable fields stmts shs h h' ws xs :
  plan fields stmts shs → read_fields h fields ws = Some xs → h ⊆ h' → in_fields shs h' ws = in_fields shs h ws.
Proof.
  intros Hp. revert ws xs. induction Hp as [|f t fields c stmts sh shs HC Hp IH|f t fields stmts sh shs Hn HC Hp IH];
    intros [|w ws] xs Hr Hh; try done; cbn;
    (apply read_fields_cons in Hr as (y & ys & -> & Hy & Hys); f_equal; [by eapply shared_stable|by eapply IH]).
Qed.

Definition fields_copied (fields : list (field * gotype)) stmts shs h ws xs : Prop :=
  ∃ ws' h', copy_fields fields stmts ws h = Some (ws', h') ∧ h ⊆ h' ∧ read_fields h' fields ws' = Some xs ∧
            reach_fields h' fields ws' ∩ dom h = in_fields shs h ws.

(** One field, and then the others *)
Lemma fields_step f t fields stmts stmts' shs sh c h w ws y ys :
  copies sh t c → plan fields stmts shs →
  (∀ h ys, read_fields h fields ws = Some ys → fields_copied fields stmts shs h ws ys) →
  (∀ h, copy_fields ((f, t) :: fields) stmts' (w :: ws) h =
        match c w h with
        | Some (w', h') => match copy_fields fields stmts ws h' with
                           | Some (ws', h'') => Some (w' :: ws', h'')
                           | None => None
                           end
        | None => None
        end) →
  read t h w = Some y → read_fields h fields ws = Some ys →
  fields_copied ((f, t) :: fields) stmts' (sh :: shs) h (w :: ws) (y :: ys).
Proof.
  intros HC Hp IH Hrun Hy Hys.
  destruct (copy_made _ _ _ HC h w y Hy) as (w' & h1 & Hrun1 & Hh1 & Hr1 & HS1).
  destruct (fields_grown fields h h1 ws ys Hys Hh1) as [Hys1 _].
  destruct (IH h1 ys Hys1) as (ws' & h2 & Hrun2 & Hh2 & Hr2 & HS2).
  destruct (read_grown _ _ _ _ _ Hr1 Hh2) as [Hr1' HR1].
  exists (w' :: ws'), h2. split_and!.
  - by rewrite Hrun, Hrun1, Hrun2.
  - by etrans.
  - cbn. by rewrite Hr1', Hr2.
  - cbn. rewrite HR1, intersection_union_r_L, HS1. f_equal.
    apply (old_part h h1); [done| |by eapply plan_old].
    rewrite HS2. by eapply plan_stable.
Qed.

Lemma plan_copies fields stmts shs h ws xs :
  plan fields stmts shs → read_fields h fields ws = Some xs → fields_copied fields stmts shs h ws xs.
Proof.
  intros Hp. revert h ws xs. induction Hp as [|f t fields c stmts sh shs HC Hp IH|f t fields stmts sh shs Hn HC Hp IH];
    intros h [|w ws] xs Hr; try done.
  - injection Hr as <-. exists [], h. split_and!; try done. cbn. set_solver.
  - apply read_fields_cons in Hr as (y & ys & -> & Hy & Hys).
    eapply (fields_step f t fields stmts _ shs sh c); eauto. intros h'. cbn. rewrite bool_decide_eq_true_2 by done.
    unfold hbind. destruct (c w h') as [[w' h'']|]; [|done]. by destruct (copy_fields fields stmts ws h'') as [[]|].
  - apply read_fields_cons in Hr as (y & ys & -> & Hy & Hys).
    eapply (fields_step f t fields stmts _ shs sh keep); eauto. intros h'. cbn [copy_fields f_name fst].
    destruct stmts as [|[name c] stmts]; cbn [fst snd]; [|rewrite Hn];
      unfold hbind, keep, hret; by destruct (copy_fields fields _ ws h') as [[]|].
Qed.

Lemma copy_struct_copies fields stmts shs :
  plan fields stmts shs → copies (in_struct shs) (TStruct fields) (copy_struct (TStruct fields) stmts).
Proof.
  intros Hp.
  assert (Hin : ∀ h w x, read (TStruct fields) h w = Some x →
    ∃ ws xs, w = HStruct ws ∧ x = VStruct xs ∧ read_fields h fields ws = Some xs).
  { intros h w x Hr. destruct w as [| | | | | |ws]; try done. rewrite read_struct in Hr.
    destruct (read_fields h fields ws) as [xs|] eqn:Hxs; [|done]. exists ws, xs. by simplify_eq/=. }
  split.
  - intros h w x (ws & xs & -> & -> & Hr)%Hin.
    destruct (plan_copies _ _ _ _ _ _ Hp Hr) as (ws' & h' & Hrun & Hh & Hr' & HS).
    exists (HStruct ws'), h'. split_and!; [|done| |].
    + unfold copy_struct, hbind. by rewrite Hrun.
    + by rewrite read_struct, Hr'.
    + by rewrite reach_struct.
  - intros h h' w x (ws & xs & -> & -> & Hr)%Hin Hh. by eapply plan_stable.
  - intros h w x (ws & xs & -> & -> & Hr)%Hin. by eapply plan_old.
Qed.

Lemma in_fields_none shs h ws : Forall (eq none) shs → in_fields shs h ws = ∅.
Proof. intros HS. revert ws. induction HS as [|sh shs <- HS IH]; intros [|w ws]; try done. cbn. rewrite IH. set_solver. Qed.

Lemma copy_struct_deep fields stmts shs :
  plan fields stmts shs → Forall (eq none) shs → deep (TStruct fields) (copy_struct (TStruct fields) stmts).
Proof.
  intros Hp HS. eapply copies_ext; [by apply copy_struct_copies|]. intros h w x _.
  unfold in_struct. destruct w; try done. by apply in_fields_none.
Qed.

Lemma copy_ptr_deep t c : deep t c → deep (TPtr t) (copy_ptr c).
Proof.
  intros Hc. eapply copies_ext; [by apply copy_ptr_copies|]. intros h w x _. unfold in_ptr.
  destruct w as [| | |[l|]| | |]; try done. by destruct (h !! l) as [[]|].
Qed.

Lemma union_none {A} (l : list A) : ⋃ ((λ _, ∅) <$> l) = (∅ : gset loc).
Proof. induction l as [|a l IH]; [done|]. cbn. rewrite IH. set_solver. Qed.

Lemma copy_slice_deep t c : deep t c → deep (TSlice t) (copy_slice c).
Proof.
  intros Hc. eapply copies_ext; [by apply copy_slice_copies|]. intros h w x _. unfold in_slice.
  destruct w as [| | | |[[[l off] len]|]| |]; try done. destruct (h !! l) as [[]|]; try done. apply union_none.
Qed.

Lemma copy_map_deep t c : deep t c → deep (TMap t) (copy_map c).
Proof.
  intros Hc. eapply copies_ext; [by apply copy_map_copies|]. intros h w x _. unfold in_map.
  destruct w as [| | | | |[l|]|]; try done. destruct (h !! l) as [[]|]; try done. apply union_none.
Qed.

(** What the contract means: nothing but the shared part of the old heap matters
    to the copy. *)
Lemma isolated sh t c h p x :
  copies sh t c → read t h p = Some x →
  ∃ p' h', c p h = Some (p', h') ∧ h ⊆ h' ∧ read t h' p' = Some x ∧ reach t h' p' ∩ dom h = sh h p ∧
    ∀ h'', agrees (dom h' ∖ dom h ∪ sh h p) h' h'' → read t h'' p' = Some x.
Proof.
  intros HC Hr. destruct (copy_made _ _ _ HC h p x Hr) as (p' & h' & Hrun & Hh & Hr' & HS).
  exists p', h'. split_and!; try done. intros h'' Ha. eapply read_frame; [exact Hr'|].
  eapply agrees_subseteq; [exact Ha|]. intros l Hl. pose proof (reach_dom _ _ _ _ Hr' l Hl) as Hd.
  rewrite <-HS. destruct (decide (l ∈ dom h)); set_solver.
Qed.

Lemma custom_copies sh name t c : copies sh t c → copies sh (TCustom name t) c.
Proof. intros [Hc Hs Ho]. by split. Qed.

(** ** The generated code *)

Create HintDb copying discriminated.
#[export] Hint Constants Opaque : copying.

Ltac copied :=
  first [ apply keep_flat; reflexivity
        | apply copy_ptr_deep; copied | apply copy_slice_deep; copied | apply copy_map_deep; copied
        | solve [eauto 1 with copying nocore] ].

Ltac planned :=
  repeat first [ apply plan_nil | eapply plan_copied; [copied|] | eapply plan_kept; [reflexivity|copied|] ].

Ltac deep_struct := eapply copy_struct_deep; [planned|repeat constructor].

Lemma Quantity_deep : deep Quantity_t Quantity_DeepCopy.
Proof. apply custom_copies. deep_struct. Qed.
Lemma FieldsV1_deep : deep FieldsV1_t FieldsV1_DeepCopyInto.
Proof. apply custom_copies. deep_struct. Qed.
#[export] Hint Resolve Quantity_deep FieldsV1_deep : copying.

Lemma TypedLocalObjectReference_deep : deep TypedLocalObjectReference_t TypedLocalObjectReference_DeepCopyInto.
Proof. deep_struct. Qed.
#[export] Hint Resolve TypedLocalObjectReference_deep : copying.
Lemma TypedObjectReference_deep : deep TypedObjectReference_t TypedObjectReference_DeepCopyInto.
Proof. deep_struct. Qed.
#[export] Hint Resolve TypedObjectReference_deep : copying.
Lemma LabelSelectorRequirement_deep : deep LabelSelectorRequirement_t LabelSelectorRequirement_DeepCopyInto.
Proof. deep_struct. Qed.
#[export] Hint Resolve LabelSelectorRequirement_deep : copying.
Lemma LabelSelector_deep : deep LabelSelector_t LabelSelector_DeepCopyInto.
Proof. deep_struct. Qed.
#[export] Hint Resolve LabelSelector_deep : copying.
Lemma VolumeResourceRequirements_deep : deep VolumeResourceRequirements_t VolumeResourceRequirements_DeepCopyInto.
Proof. deep_struct. Qed.
#[export] Hint Resolve VolumeResourceRequirements_deep : copying.
Lemma PersistentVolumeClaimSpec_deep : deep PersistentVolumeClaimSpec_t PersistentVolumeClaimSpec_DeepCopyInto.
Proof. deep_struct. Qed.
#[export] Hint Resolve PersistentVolumeClaimSpec_deep : copying.
Lemma PersistentVolumeClaimCondition_deep : deep PersistentVolumeClaimCondition_t PersistentVolumeClaimCondition_DeepCopyInto.
Proof. deep_struct. Qed.
#[export] Hint Resolve PersistentVolumeClaimCondition_deep : copying.
Lemma PersistentVolumeClaimStatus_deep : deep PersistentVolumeClaimStatus_t PersistentVolumeClaimStatus_DeepCopyInto.
Proof. deep_struct. Qed.
#[export] Hint Resolve PersistentVolumeClaimStatus_deep : copying.
Lemma NodeSelectorRequirement_deep : deep NodeSelectorRequirement_t NodeSelectorRequirement_DeepCopyInto.
Proof. deep_struct. Qed.
#[export] Hint Resolve NodeSelectorRequirement_deep : copying.
Lemma NodeSelectorTerm_deep : deep NodeSelectorTerm_t NodeSelectorTerm_DeepCopyInto.
Proof. deep_struct. Qed.
#[export] Hint Resolve NodeSelectorTerm_deep : copying.
Lemma NodeSelector_deep : deep NodeSelector_t NodeSelector_DeepCopyInto.
Proof. deep_struct. Qed.
#[export] Hint Resolve NodeSelector_deep : copying.
Lemma PreferredSchedulingTerm_deep : deep PreferredSchedulingTerm_t PreferredSchedulingTerm_DeepCopyInto.
Proof. deep_struct. Qed.
#[export] Hint Resolve PreferredSchedulingTerm_deep : copying.
Lemma NodeAffinity_deep : deep NodeAffinity_t NodeAffinity_DeepCopyInto.
Proof. deep_struct. Qed.
#[export] Hint Resolve NodeAffinity_deep : copying.
Lemma PodAffinityTerm_deep : deep PodAffinityTerm_t PodAffinityTerm_DeepCopyInto.
Proof. deep_struct. Qed.
#[export] Hint Resolve PodAffinityTerm_deep : copying.
Lemma WeightedPodAffinityTerm_deep : deep WeightedPodAffinityTerm_t WeightedPodAffinityTerm_DeepCopyInto.
Proof. deep_struct. Qed.
#[export] Hint Resolve WeightedPodAffinityTerm_deep : copying.
Lemma PodAffinity_deep : deep PodAffinity_t PodAffinity_DeepCopyInto.
Proof. deep_struct. Qed.
#[export] Hint Resolve PodAffinity_deep : copying.
Lemma PodAntiAffinity_deep : deep PodAntiAffinity_t PodAntiAffinity_DeepCopyInto.
Proof. deep_struct. Qed.
#[export] Hint Resolve PodAntiAffinity_deep : copying.
Lemma Affinity_deep : deep Affinity_t Affinity_DeepCopyInto.
Proof. deep_struct. Qed.
#[export] Hint Resolve Affinity_deep : copying.
Lemma Toleration_deep : deep Toleration_t Toleration_DeepCopyInto.
Proof. deep_struct. Qed.
#[export] Hint Resolve Toleration_deep : copying.
Lemma OwnerReference_deep : deep OwnerReference_t OwnerReference_DeepCopyInto.
Proof. deep_struct. Qed.
#[export] Hint Resolve OwnerReference_deep : copying.
Lemma ManagedFieldsEntry_deep : deep ManagedFieldsEntry_t ManagedFieldsEntry_DeepCopyInto.
Proof. deep_struct. Qed.
#[export] Hint Resolve ManagedFieldsEntry_deep : copying.
Lemma ObjectMeta_deep : deep ObjectMeta_t ObjectMeta_DeepCopyInto.
Proof. deep_struct. Qed.
#[export] Hint Resolve ObjectMeta_deep : copying.
Lemma ListMeta_deep : deep ListMeta_t ListMeta_DeepCopyInto.
Proof. deep_struct. Qed.
#[export] Hint Resolve ListMeta_deep : copying.
Lemma Condition_deep : deep Condition_t Condition_DeepCopyInto.
Proof. deep_struct. Qed.
#[export] Hint Resolve Condition_deep : copying.
Lemma PathConfig_deep : deep PathConfig_t PathConfig_DeepCopyInto.
Proof. deep_struct. Qed.
#[export] Hint Resolve PathConfig_deep : copying.
Lemma NodePlacement_deep : deep NodePlacement_t NodePlacement_DeepCopyInto.
Proof. deep_struct. Qed.
#[export] Hint Resolve NodePlacement_deep : copying.
Lemma ClaimStatus_deep : deep ClaimStatus_t ClaimStatus_DeepCopyInto.
Proof. deep_struct. Qed.
#[export] Hint Resolve ClaimStatus_deep : copying.
Lemma StoragePoolStatus_deep : deep StoragePoolStatus_t StoragePoolStatus_DeepCopyInto.
Proof. deep_struct. Qed.
#[export] Hint Resolve StoragePoolStatus_deep : copying.
Lemma HostPathProvisionerStatus_deep : deep HostPathProvisionerStatus_t HostPathProvisionerStatus_DeepCopyInto.
Proof. deep_struct. Qed.
#[export] Hint Resolve HostPathProvisionerStatus_deep : copying.

(** *** The storage pools *)

(** What a struct shares at the field [name] *)
Definition at_field (t : gotype) (name : string) (sh : heap → hval → gset loc) : heap → hval → gset loc :=
  match t with
  | TStruct fields => in_struct ((λ f, if bool_decide (f_name f.1 = name) then sh else none) <$> fields)
  | _ => none
  end.

(** The strings behind the [SnapshotProvider] pointers of the storage pools of a
    resource *)
Definition pool_snapshots : heap → hval → gset loc := at_field StoragePool_t "SnapshotProvider" (reach (TPtr TString)).
Definition spec_snapshots : heap → hval → gset loc :=
  at_field HostPathProvisionerSpec_t "StoragePools" (in_slice pool_snapshots).
Definition cr_snapshots : heap → hval → gset loc := at_field HostPathProvisioner_t "Spec" spec_snapshots.
Definition snapshot_pointers : heap → hval → gset loc := in_ptr cr_snapshots.

Ltac shares_struct :=
  eapply copies_ext;
  [ eapply copy_struct_copies;
    repeat first [ apply plan_nil | eapply plan_copied; [solve [copied | eauto 2 with copying]|]
                 | eapply plan_kept; [reflexivity|solve [copied | apply keep_copies]|] ]
  | intros; reflexivity ].

Lemma StoragePool_copies : copies pool_snapshots StoragePool_t StoragePool_DeepCopyInto.
Proof. shares_struct. Qed.
#[export] Hint Resolve StoragePool_copies copy_slice_copies : copying.

Lemma HostPathProvisionerSpec_copies : copies spec_snapshots HostPathProvisionerSpec_t HostPathProvisionerSpec_DeepCopyInto.
Proof. shares_struct. Qed.
#[export] Hint Resolve HostPathProvisionerSpec_copies : copying.

Lemma HostPathProvisioner_copies : copies cr_snapshots HostPathProvisioner_t HostPathProvisioner_DeepCopyInto.
Proof. shares_struct. Qed.

(** C14: a working copy is isolated, up to the snapshot providers.  The deep copy
    of a resource succeeds, changes nothing of the heap, and reads as the
    resource; of the old heap it reaches the strings behind the
    [SnapshotProvider] pointers of the storage pools, and nothing else: whatever
    else of the old heap is overwritten, the copy still reads as the resource
    did. *)
Theorem working_copy_is_isolated h p x :
  read (TPtr HostPathProvisioner_t) h p = Some x →
  ∃ p' h', HostPathProvisioner_DeepCopy p h = Some (p', h') ∧ h ⊆ h' ∧
    read (TPtr HostPathProvisioner_t) h' p' = Some x ∧
    reach (TPtr HostPathProvisioner_t) h' p' ∩ dom h = snapshot_pointers h p ∧
    ∀ h'', agrees (dom h' ∖ dom h ∪ snapshot_pointers h p) h' h'' →
           read (TPtr HostPathProvisioner_t) h'' p' = Some x.
Proof. apply isolated, copy_ptr_copies, HostPathProvisioner_copies. Qed.

(** *** Lists, and the [runtime.Object] interface *)

Lemma HostPathProvisionerList_copies :
  copies (at_field HostPathProvisionerList_t "Items" (in_slice cr_snapshots)) HostPathProvisionerList_t
    HostPathProvisionerList_DeepCopyInto.
Proof. pose proof HostPathProvisioner_copies. shares_struct. Qed.

(** A nil pointer becomes a nil interface, not an interface around nil. *)
Lemma object_copied sh t c h p x :
  copies sh t c → read (TPtr t) h p = Some x →
  ∃ o h', as_object (copy_ptr c) p h = Some (o, h') ∧ h ⊆ h' ∧
    match o with None => p = HPtr None | Some p' => read (TPtr t) h' p' = Some x ∧ p ≠ HPtr None end.
Proof.
  intros HC Hr. destruct (copy_made _ _ _ (copy_ptr_copies _ _ _ HC) h p x Hr) as (p' & h' & Hrun & Hh & Hr' & _).
  unfold as_object, hbind. rewrite Hrun. destruct p as [| | |[l|]| | |]; try done.
  - assert (Hp : ∃ l', p' = HPtr (Some l')).
    { unfold copy_ptr, hbind, load in Hrun. destruct (h !! l) as [[v| |]|]; try done.
      destruct (c v h) as [[v' h1]|]; [|done]. cbn in Hrun. injection Hrun as <- _. by eexists. }
    destruct Hp as [l' ->]. eexists _, h'. by split_and!.
  - injection Hrun as <- <-. by exists None, h.
Qed.

(** ** An example *)

(** The zero value of a type *)
Fixpoint zero (t : gotype) : hval :=
  match t with
  | TString => HString ""
  | TBool => HBool false
  | TByte | TInt _ => HInt 0
  | TPtr _ => HPtr None
  | TSlice _ => HSlice None
  | TMap _ => HMap None
  | TStruct fields => HStruct ((λ f, zero f.2) <$> fields)
  | TCustom _ t => zero t
  end.

(** A field of a struct set to a value *)
Definition set_field (t : gotype) (name : string) (v w : hval) : hval :=
  match t, w with
  | TStruct fields, HStruct ws =>
      HStruct (zip_with (λ f x, if bool_decide (f_name f.1 = name) then v else x) fields ws)
  | _, _ => w
  end.

Definition reflink_pool : hval :=
  set_field StoragePool_t "Name" (HString "local")
    (set_field StoragePool_t "SnapshotProvider" (HPtr (Some 3%positive)) (zero StoragePool_t)).

Definition reflink_cr : hval :=
  set_field HostPathProvisioner_t "Spec"
    (set_field HostPathProvisionerSpec_t "StoragePools" (HSlice (Some (2%positive, 0%nat, 1%nat)))
       (zero HostPathProvisionerSpec_t)) (zero HostPathProvisioner_t).

Definition reflink_heap : heap :=
  {[ 1%positive := CVal reflink_cr; 2%positive := CArray [reflink_pool]; 3%positive := CVal (HString "reflink") ]}.

Definition reflink_tree : option goval := read (TPtr HostPathProvisioner_t) reflink_heap (HPtr (Some 1%positive)).

Lemma working_copy_is_isolated_witness :
  snapshot_pointers reflink_heap (HPtr (Some 1%positive)) = {[3%positive]} ∧
  ∃ p' h' x, HostPathProvisioner_DeepCopy (HPtr (Some 1%positive)) reflink_heap = Some (p', h') ∧
    read (TPtr HostPathProvisioner_t) h' p' = Some x ∧
    ∀ h'', agrees (dom h' ∖ dom reflink_heap ∪ {[3%positive]}) h' h'' →
           read (TPtr HostPathProvisioner_t) h'' p' = Some x.
Proof.
  assert (Hs : snapshot_pointers reflink_heap (HPtr (Some 1%positive)) = {[3%positive]}) by (vm_compute; reflexivity).
  split; [exact Hs|].
  destruct reflink_tree as [x|] eqn:Hx; [|vm_compute in Hx; discriminate Hx].
  destruct (working_copy_is_isolated reflink_heap (HPtr (Some 1%positive)) x Hx) as (p' & h' & Hrun & _ & Hr & _ & Hi).
  exists p', h', x. rewrite Hs in Hi. split; [exact Hrun|]. split; [exact Hr|exact Hi].
Defined.

(** The pointer the generated code forgets: a write through the original is a
    write to the copy. *)
Theorem snapshot_provider_is_shared :
  ∃ p' h', HostPathProvisioner_DeepCopy (HPtr (Some 1%positive)) reflink_heap = Some (p', h') ∧
    read (TPtr HostPathProvisioner_t) h' p' = reflink_tree ∧
    read (TPtr HostPathProvisioner_t) (<[3%positive := CVal (HString "none")]> h') p' ≠ reflink_tree.
Proof.
  destruct (HostPathProvisioner_DeepCopy (HPtr (Some 1%positive)) reflink_heap) as [[p' h']|] eqn:Hrun;
    vm_compute in Hrun; [|discriminate Hrun].
  injection Hrun as <- <-. eexists _, _. split; [reflexivity|]. split; [vm_compute; reflexivity|].
  vm_compute. discriminate.
Qed.
