(* ===== verification/GoJson.v ===== *)
(** * encoding/json on the types of the custom resource

    How a value of a Go type becomes a document, driven by the struct tags of
    GoTypes.v, and how a document is read back: what the client does with every
    object it sends and receives.  [JSON null] leaves a variable as it is, a key
    that is not there leaves the zero value, unknown keys are skipped.  The
    theorem says what a round trip preserves. *)
From S2P Require Import Prelude GoTypes Json JsonMerge.

(** The [MarshalJSON], [UnmarshalJSON] and [IsZero] methods of the types that have
    their own: metav1.Time, resource.Quantity and metav1.FieldsV1.  [canonical] is
    the value a value is read back as: a quantity comes back in canonical form,
    with its cached text. *)
Class CustomJson := {
  marshal : string → goval → json;
  unmarshal : string → json → option goval;
  is_zero : string → goval → bool;
  canonical : string → goval → goval }.

Section Json.
Context `{CJ : CustomJson}.

(** ** Encoding *)

(** [isEmptyValue] *)
Definition is_empty (t : gotype) (v : goval) : bool :=
  match t, v with
  | TString, VString s => bool_decide (s = "")
  | TBool, VBool b => negb b
  | TInt _, VInt z | TByte, VInt z => z =? 0
  | TPtr _, VPtr o => bool_decide (is_Some o → False)
  | TSlice _, VSlice o => match o with Some l => bool_decide (length l = 0%nat) | None => true end
  | TMap _, VMap o => match o with Some m => bool_decide (size m = 0%nat) | None => true end
  | _, _ => false
  end.

(** Is a field left out? *)
Definition omitted (f : field) (t : gotype) (v : goval) : bool :=
  f_omitempty f && is_empty t v ||
  f_omitzero f && match t with TCustom name _ => is_zero name v | _ => false end.

Fixpoint encode (t : gotype) (v : goval) : json :=
  match t, v with
  | TString, VString s => JStr s
  | TBool, VBool b => JBool b
  | TByte, VInt z | TInt _, VInt z => JNum z
  | TPtr t, VPtr o => match o with Some v => encode t v | None => JNull end
  | TSlice t, VSlice o => match o with Some l => JArr (encode t <$> l) | None => JNull end
  | TMap t, VMap o => match o with Some m => JObj (encode t <$> m) | None => JNull end
  | TStruct fields, VStruct l =>
      JObj ((fix go (fields : list (field * gotype)) (l : list goval) : jdoc :=
         match fields, l with
         | f :: fields, v :: l =>
             if f_inline f.1 then sub_doc (Some (encode f.2 v)) ∪ go fields l
             else if omitted f.1 f.2 v then go fields l
             else <[f_key f.1 := encode f.2 v]> (go fields l)
         | _, _ => ∅
         end) fields l)
  | TCustom name _, v => marshal name v
  | _, _ => JNull
  end.

(** ** Decoding *)

Fixpoint zero_value (t : gotype) : goval :=
  match t with
  | TString => VString ""
  | TBool => VBool false
  | TByte | TInt _ => VInt 0
  | TPtr _ => VPtr None
  | TSlice _ => VSlice None
  | TMap _ => VMap None
  | TStruct fields => VStruct ((λ f, zero_value f.2) <$> fields)
  | TCustom _ t => zero_value t
  end.

Fixpoint decode (t : gotype) (d : json) : option goval :=
  match t, d with
  | TCustom name _, _ => unmarshal name d
  | _, JNull => Some (zero_value t)
  | TString, JStr s => Some (VString s)
  | TBool, JBool b => Some (VBool b)
  | TByte, JNum z => if (0 <=? z) && (z <? 256) then Some (VInt z) else None
  | TInt w, JNum z => if in_range w z then Some (VInt z) else None
  | TPtr t, d => v ← decode t d; Some (VPtr (Some v))
  | TSlice t, JArr l => vs ← mapM (decode t) l; Some (VSlice (Some vs))
  | TMap t, JObj m => vs ← all_entries (decode t <$> m); Some (VMap (Some vs))
  | TStruct fields, JObj m =>
      vs ← (fix go (fields : list (field * gotype)) : option (list goval) :=
              match fields with
              | [] => Some []
              | f :: fields =>
                  v ← (if f_inline f.1 then decode f.2 d
                       else match m !! f_key f.1 with Some d => decode f.2 d | None => Some (zero_value f.2) end);
                  vs ← go fields; Some (v :: vs)
              end) fields;
      Some (VStruct vs)
  | _, _ => None
  end.

(** The fields of a struct, without the braces *)
Definition encode_fields : list (field * gotype) → list goval → jdoc :=
  fix go (fields : list (field * gotype)) (l : list goval) : jdoc :=
    match fields, l with
    | f :: fields, v :: l =>
        if f_inline f.1 then sub_doc (Some (encode f.2 v)) ∪ go fields l
        else if omitted f.1 f.2 v then go fields l
        else <[f_key f.1 := encode f.2 v]> (go fields l)
    | _, _ => ∅
    end.

Definition decode_fields (m : jdoc) : list (field * gotype) → option (list goval) :=
  fix go (fields : list (field * gotype)) : option (list goval) :=
    match fields with
    | [] => Some []
    | f :: fields =>
        v ← (if f_inline f.1 then decode f.2 (JObj m)
             else match m !! f_key f.1 with Some d => decode f.2 d | None => Some (zero_value f.2) end);
        vs ← go fields; Some (v :: vs)
    end.

Lemma encode_struct fields l : encode (TStruct fields) (VStruct l) = JObj (encode_fields fields l).
Proof. done. Qed.

Lemma decode_struct fields m : decode (TStruct fields) (JObj m) = vs ← decode_fields m fields; Some (VStruct vs).
Proof. done. Qed.

(** ** What a round trip preserves *)

(** What is read back: a field that was left out is zero, and a pointer to a value
    that is written as null is nil. *)
Definition is_null (d : json) : bool := match d with JNull => true | _ => false end.

Fixpoint norm (t : gotype) (v : goval) : goval :=
  match t, v with
  | TPtr t, VPtr (Some v) => if is_null (encode t v) then VPtr None else VPtr (Some (norm t v))
  | TSlice t, VSlice (Some l) => VSlice (Some (norm t <$> l))
  | TMap t, VMap (Some m) => VMap (Some (norm t <$> m))
  | TStruct fields, VStruct l =>
      VStruct ((fix go (fields : list (field * gotype)) (l : list goval) : list goval :=
         match fields, l with
         | f :: fields, v :: l =>
             (if negb (f_inline f.1) && omitted f.1 f.2 v then zero_value f.2 else norm f.2 v) :: go fields l
         | _, _ => []
         end) fields l)
  | TCustom name _, v => canonical name v
  | _, v => v
  end.

Definition norm_fields : list (field * gotype) → list goval → list goval :=
  fix go (fields : list (field * gotype)) (l : list goval) : list goval :=
    match fields, l with
    | f :: fields, v :: l =>
        (if negb (f_inline f.1) && omitted f.1 f.2 v then zero_value f.2 else norm f.2 v) :: go fields l
    | _, _ => []
    end.

Lemma norm_struct fields l : norm (TStruct fields) (VStruct l) = VStruct (norm_fields fields l).
Proof. done. Qed.

(** The keys of a struct, those of its inlined structs included *)
Fixpoint keys (t : gotype) : list string :=
  match t with
  | TStruct fields =>
      (fix go (fields : list (field * gotype)) : list string :=
         match fields with
         | [] => []
         | f :: fields => (if f_inline f.1 then keys f.2 else [f_key f.1]) ++ go fields
         end) fields
  | _ => []
  end.

Definition keys_of : list (field * gotype) → list string :=
  fix go (fields : list (field * gotype)) : list string :=
    match fields with
    | [] => []
    | f :: fields => (if f_inline f.1 then keys f.2 else [f_key f.1]) ++ go fields
    end.

(** The types encoding/json handles as described: no two fields share a key, only
    structs are inlined, and there are no byte slices (which it writes in base64) *)
Definition is_struct (t : gotype) : bool := match t with TStruct _ => true | _ => false end.

Fixpoint well_tagged (t : gotype) : bool :=
  match t with
  | TPtr t | TMap t => well_tagged t
  | TSlice TByte => false
  | TSlice t => well_tagged t
  | TStruct fields =>
      bool_decide (NoDup (keys t)) &&
      forallb (λ f, well_tagged f.2 && implb (f_inline f.1) (is_struct f.2)) fields
  | _ => true
  end.

Definition typed_fields : list (field * gotype) → list goval → bool :=
  fix go (fields : list (field * gotype)) (l : list goval) : bool :=
    match fields, l with
    | [], [] => true
    | f :: fields, v :: l => has_type f.2 v && go fields l
    | _, _ => false
    end.

(** The types with methods of their own in a type, and that their values read back *)
Fixpoint customs (t : gotype) : list (string * gotype) :=
  match t with
  | TPtr t | TSlice t | TMap t => customs t
  | TStruct fields =>
      (fix go (fields : list (field * gotype)) : list (string * gotype) :=
         match fields with [] => [] | f :: fields => customs f.2 ++ go fields end) fields
  | TCustom name t => [(name, t)]
  | _ => []
  end.

Definition reads_back (c : string * gotype) : Prop :=
  ∀ v, has_type c.2 v = true → unmarshal c.1 (marshal c.1 v) = Some (canonical c.1 v).

Definition faithful_json (t : gotype) : Prop := Forall reads_back (customs t).

Lemma faithful_fields fields : faithful_json (TStruct fields) → Forall (λ f, faithful_json f.2) fields.
Proof using Type.
  unfold faithful_json. induction fields as [|f fields IH]; [done|]. intros [Hf Hr]%Forall_app. constructor; auto.
Qed.

Lemma well_tagged_struct fields :
  well_tagged (TStruct fields) = true →
  NoDup (keys_of fields) ∧
  Forall (λ f, well_tagged f.2 = true ∧ (f_inline f.1 = true → is_struct f.2 = true)) fields.
Proof using Type.
  cbn [well_tagged]. intros [Hn%bool_decide_eq_true Hf]%andb_true_iff. split; [exact Hn|].
  apply Forall_forall. intros f Hin%list_elem_of_In. apply (proj1 (forallb_forall _ _) Hf) in Hin.
  apply andb_true_iff in Hin as [Hw Hi]. split; [done|]. intros Hinl. by rewrite Hinl in Hi.
Qed.

Lemma encode_is_doc t v : is_struct t = true → has_type t v = true → encode t v = JObj (sub_doc (Some (encode t v))).
Proof using Type. destruct t; try done. by destruct v. Qed.

(** The keys of a document are keys of the type. *)
Lemma encode_keys t v k d :
  well_tagged t = true → is_struct t = true → sub_doc (Some (encode t v)) !! k = Some d → k ∈ keys t.
Proof using Type.
  revert v. induction t as [| | |width|t IH|t IH|t IH|fields IH|name t IH] using gotype_rect_fields; try done.
  intros v Hw _ Hk. apply well_tagged_struct in Hw as [_ Hf].
  destruct v as [| | | | | |l]; try (by cbn in Hk; rewrite lookup_empty in Hk).
  rewrite encode_struct in Hk. cbn [sub_doc] in Hk. change (keys (TStruct fields)) with (keys_of fields).
  revert l Hk. induction IH as [|f fields Ht IHf IH]; intros [|v l] Hk; cbn [encode_fields] in Hk;
    try (by rewrite lookup_empty in Hk).
  apply Forall_cons in Hf as [[Hw Hi] Hf]. cbn [keys_of]. apply elem_of_app.
  destruct (f_inline f.1).
  - apply lookup_union_Some_raw in Hk as [Hk|[_ Hk]]; [left|right; by apply (IH Hf l)]. by apply (Ht v); auto.
  - destruct (omitted f.1 f.2 v); [right; by apply (IH Hf l)|].
    apply lookup_insert_Some in Hk as [[<- _]|[_ Hk]]; [left; by left|right; by apply (IH Hf l)].
Qed.

Lemma encode_fields_keys fields l k d :
  Forall (λ f, well_tagged f.2 = true ∧ (f_inline f.1 = true → is_struct f.2 = true)) fields →
  encode_fields fields l !! k = Some d → k ∈ keys_of fields.
Proof using Type.
  intros Hf. revert l. induction Hf as [|f fields [Hw Hi] Hf IH]; intros [|v l] Hk; cbn [encode_fields] in Hk;
    try (by rewrite lookup_empty in Hk).
  cbn [keys_of]. apply elem_of_app. destruct (f_inline f.1).
  - apply lookup_union_Some_raw in Hk as [Hk|[_ Hk]]; [left; eapply encode_keys; eauto|right; by apply (IH l)].
  - destruct (omitted f.1 f.2 v); [right; by apply (IH l)|].
    apply lookup_insert_Some in Hk as [[<- _]|[_ Hk]]; [left; by left|right; by apply (IH l)].
Qed.

(** A struct looks at its own keys only. *)
Lemma decode_keys t m m' :
  is_struct t = true → well_tagged t = true → (∀ k, k ∈ keys t → m !! k = m' !! k) → decode t (JObj m) = decode t (JObj m').
Proof using Type.
  induction t as [| | |width|t IH|t IH|t IH|fields IH|name t IH] using gotype_rect_fields; try done.
  intros _ Hw Hm. apply well_tagged_struct in Hw as [_ Hf]. rewrite !decode_struct.
  change (keys (TStruct fields)) with (keys_of fields) in Hm.
  assert (decode_fields m fields = decode_fields m' fields) as ->; [|done].
  induction IH as [|f fields Ht IHf IH]; [done|]. apply Forall_cons in Hf as [[Hw Hi] Hf].
  cbn [keys_of] in Hm. cbn [decode_fields]. rewrite IH; [|done|intros k Hk; apply Hm, elem_of_app; by right].
  f_equal. destruct (f_inline f.1).
  - apply Ht; auto. intros k Hk. apply Hm, elem_of_app. by left.
  - by rewrite (Hm (f_key f.1)) by (apply elem_of_app; left; by left).
Qed.

(** ** The round trip *)

Definition round_trips (t : gotype) : Prop := ∀ v,
  well_tagged t = true → faithful_json t → has_type t v = true → decode t (encode t v) = Some (norm t v).

Lemma list_round_trips t l :
  round_trips t → well_tagged t = true → faithful_json t → forallb (has_type t) l = true →
  mapM (decode t) (encode t <$> l) = Some (norm t <$> l).
Proof using Type.
  intros Ht Hw Hj. induction l as [|v l IH]; [done|]. cbn. intros [Hv Hl]%andb_true_iff.
  by rewrite (Ht v Hw Hj Hv), (IH Hl).
Qed.

Lemma map_round_trips t (m : gmap string goval) :
  round_trips t → well_tagged t = true → faithful_json t → forallb (λ kv, has_type t kv.2) (map_to_list m) = true →
  all_entries (decode t <$> (encode t <$> m)) = Some (norm t <$> m).
Proof using Type.
  intros Ht Hw Hj Hm. apply all_entries_Some, map_eq. intros k. rewrite !lookup_fmap.
  destruct (m !! k) as [v|] eqn:Hv; [|done]. cbn. f_equal. apply Ht; [done..|].
  apply (proj1 (forallb_forall _ _) Hm (k, v)), list_elem_of_In. by apply elem_of_map_to_list.
Qed.

(** A field is found where it was put, or is missing because it was left out. *)
Lemma encode_fields_rest f fields v l k :
  Forall (λ f, well_tagged f.2 = true ∧ (f_inline f.1 = true → is_struct f.2 = true)) (f :: fields) →
  NoDup (keys_of (f :: fields)) → k ∈ keys_of fields →
  encode_fields (f :: fields) (v :: l) !! k = encode_fields fields l !! k.
Proof using Type.
  intros [[Hw Hi] Hf]%Forall_cons Hn Hk. cbn [keys_of] in Hn. apply NoDup_app in Hn as (_ & Hdis & _).
  cbn [encode_fields]. destruct (f_inline f.1) eqn:Hinl.
  - apply lookup_union_r. destruct (_ !! k) as [d|] eqn:Hd; [|done]. destruct (Hdis k); [|done]. eapply encode_keys; eauto.
  - destruct (omitted f.1 f.2 v); [done|]. apply lookup_insert_ne. intros <-. by destruct (Hdis (f_key f.1)); [left|].
Qed.

Lemma encode_fields_head f fields v l k :
  Forall (λ f, well_tagged f.2 = true ∧ (f_inline f.1 = true → is_struct f.2 = true)) (f :: fields) →
  NoDup (keys_of (f :: fields)) → k ∈ (if f_inline f.1 then keys f.2 else [f_key f.1]) →
  encode_fields (f :: fields) (v :: l) !! k =
    if f_inline f.1 then sub_doc (Some (encode f.2 v)) !! k
    else if omitted f.1 f.2 v then None else Some (encode f.2 v).
Proof using Type.
  intros [_ Hf]%Forall_cons Hn Hk. cbn [keys_of] in Hn. apply NoDup_app in Hn as (_ & Hdis & _).
  assert (encode_fields fields l !! k = None) as Hnone.
  { destruct (_ !! k) as [d|] eqn:Hd; [|done]. apply encode_fields_keys in Hd; [|done]. by destruct (Hdis k Hk). }
  cbn [encode_fields]. destruct (f_inline f.1); [by apply lookup_union_l|].
  apply list_elem_of_singleton in Hk as ->. destruct (omitted f.1 f.2 v); [done|]. apply lookup_insert_eq.
Qed.

Lemma fields_round_trip fields l m :
  Forall (λ f, round_trips f.2) fields → Forall (λ f, faithful_json f.2) fields →
  Forall (λ f, well_tagged f.2 = true ∧ (f_inline f.1 = true → is_struct f.2 = true)) fields →
  NoDup (keys_of fields) → typed_fields fields l = true →
  (∀ k, k ∈ keys_of fields → m !! k = encode_fields fields l !! k) →
  decode_fields m fields = Some (norm_fields fields l).
Proof using Type.
  intros Hr. revert l. induction Hr as [|f fields Hrt Hr IH]; intros [|v l] Hj Hf Hn Hl Hm; try done.
  assert (Hhead := λ k, encode_fields_head f fields v l k Hf Hn).
  assert (Hrest := λ k, encode_fields_rest f fields v l k Hf Hn).
  apply Forall_cons in Hj as [Hjt Hj]. apply Forall_cons in Hf as [[Hw Hi] Hf]. cbn [typed_fields] in Hl.
  apply andb_true_iff in Hl as [Hv Hl]. cbn [keys_of] in Hn, Hm. apply NoDup_app in Hn as (_ & _ & Hn).
  cbn [decode_fields norm_fields]. rewrite (IH l Hj Hf Hn Hl).
  2: { intros k Hk. rewrite Hm, Hrest; [done|done|]. apply elem_of_app. by right. }
  destruct (f_inline f.1) eqn:Hinl; cbn [negb andb].
  - rewrite (decode_keys f.2 m (sub_doc (Some (encode f.2 v)))); [|by apply Hi|done|].
    + rewrite <-encode_is_doc, (Hrt v Hw Hjt Hv) by auto. done.
    + intros k Hk. by rewrite Hm, Hhead by (try apply elem_of_app; auto).
  - rewrite Hm, Hhead by (try apply elem_of_app; left; by left).
    destruct (omitted f.1 f.2 v); [done|]. by rewrite (Hrt v Hw Hjt Hv).
Qed.

Lemma decode_some t d v :
  is_null d = false → decode t d = Some v → decode (TPtr t) d = Some (VPtr (Some v)).
Proof using Type. intros Hn Hd. destruct d; [done|..]; cbn [decode]; by rewrite Hd. Qed.

(** What encoding/json writes of a well-typed value, it reads back without an error,
    as the value in normal form. *)
Theorem json_round_trip t v :
  well_tagged t = true → faithful_json t → has_type t v = true → decode t (encode t v) = Some (norm t v).
Proof using Type.
  revert v. change (round_trips t).
  induction t as [| | |width|t IH|t IH|t IH|fields IH|name t IH] using gotype_rect_fields; intros v Hw Hj Hv.
  1-2: by destruct v.
  1-2: destruct v; try done; cbn in *; by rewrite Hv.
  - destruct v as [| | |[v|]| | |]; try done. cbn [encode norm]. destruct (is_null (encode t v)) eqn:Hn.
    + by destruct (encode t v).
    + apply decode_some; [done|]. by apply IH.
  - assert (Hw' : well_tagged t = true) by (by destruct t).
    destruct v as [| | | |[l|]| |]; try done. cbn. by rewrite list_round_trips.
  - destruct v as [| | | | |[m|]|]; try done. cbn [encode decode norm]. by rewrite map_round_trips.
  - destruct v as [| | | | | |l]; try done. apply well_tagged_struct in Hw as [Hn Hf].
    rewrite encode_struct, decode_struct, norm_struct. apply faithful_fields in Hj.
    by rewrite (fields_round_trip fields l).
  - apply Forall_cons in Hj as [Hj _]. by apply (Hj v).
Qed.

End Json.

(** ** An example *)

(** Texts for the values of the types with methods of their own *)
Fixpoint pos_text (p : positive) : string :=
  match p with
  | xH => ""
  | xO p => String "0" (pos_text p)
  | xI p => String "1" (pos_text p)
  end.

Fixpoint text_pos (s : string) : positive :=
  match s with
  | "" => xH
  | String c s => if bool_decide (c = "1"%char) then xI (text_pos s) else xO (text_pos s)
  end.

Lemma text_pos_text p : text_pos (pos_text p) = p.
Proof. induction p as [p IH|p IH|]; cbn; by rewrite ?IH. Qed.

(** The zero time is null, any other time a text; a quantity is a text, without
    what the value had cached; managed fields are a document. *)
Definition sample_marshal (name : string) (v : goval) : json :=
  match v with
  | VInt z => if z =? 0 then JNull else JStr (pos_text (countable.encode z))
  | VStruct [VStruct [VInt value; VInt scale]; VPtr None; _; VString format] =>
      JStr (pos_text (countable.encode (value, scale, @None string, format)))
  | VStruct [VStruct [VInt value; VInt scale]; VPtr (Some (VString d)); _; VString format] =>
      JStr (pos_text (countable.encode (value, scale, Some d, format)))
  | VStruct [VSlice (Some bytes)] => JArr ((λ b, match b with VInt z => JNum z | _ => JNull end) <$> bytes)
  | _ => JNull
  end.

Definition sample_unmarshal (name : string) (d : json) : option goval :=
  match name, d with
  | "Time", JNull => Some (VInt 0)
  | "Time", JStr s => z ← countable.decode (text_pos s); Some (VInt z)
  | "Quantity", JNull => Some (VStruct [VStruct [VInt 0; VInt 0]; VPtr None; VString ""; VString ""])
  | "Quantity", JStr s =>
      '(value, scale, d, format) ← countable.decode (text_pos s);
      Some (VStruct [VStruct [VInt value; VInt scale]; VPtr (VString <$> d); VString ""; VString format])
  | "FieldsV1", JArr ds => Some (VStruct [VSlice (Some ((λ d, match d with JNum z => VInt z | _ => VInt 0 end) <$> ds))])
  | "FieldsV1", JNull => Some (VStruct [VSlice None])
  | _, _ => None
  end.

Definition sample_canonical (name : string) (v : goval) : goval :=
  match name, v with
  | "Quantity", VStruct [i; d; _; format] => VStruct [i; d; VString ""; format]
  | _, v => v
  end.

#[export] Instance sample_json : CustomJson := {|
  marshal := sample_marshal;
  unmarshal := sample_unmarshal;
  is_zero := λ _ v, match v with VInt z => z =? 0 | _ => false end;
  canonical := sample_canonical |}.

Lemma sample_time : reads_back ("Time", TInt 64).
Proof.
  intros v Hv. destruct v as [| |z| | | |]; try done. cbn. destruct (z =? 0) eqn:Hz.
  - by apply Z.eqb_eq in Hz as ->.
  - by rewrite text_pos_text, decode_encode.
Qed.

Lemma typed_struct fields v :
  has_type (TStruct fields) v = true → ∃ l, v = VStruct l ∧ typed_fields fields l = true.
Proof. destruct v; try done. by eexists. Qed.

Lemma typed_cons f fields l :
  typed_fields (f :: fields) l = true → ∃ v l', l = v :: l' ∧ has_type f.2 v = true ∧ typed_fields fields l' = true.
Proof. destruct l as [|v l]; [done|]. cbn. intros [? ?]%andb_true_iff. by exists v, l. Qed.

Lemma typed_nil l : typed_fields [] l = true → l = [].
Proof. by destruct l. Qed.

(** Takes a well-typed struct apart. *)
Ltac typed_parts := repeat match goal with
  | H : has_type (TStruct _) _ = true |- _ => apply typed_struct in H as (? & -> & H)
  | H : typed_fields (_ :: _) _ = true |- _ => let H' := fresh in apply typed_cons in H as (? & ? & -> & H' & H)
  | H : typed_fields [] _ = true |- _ => apply typed_nil in H as ->
  | H : has_type (field_of _ _ _).2 _ = true |- _ => cbn [field_of snd] in H
  | H : has_type int64Amount_t _ = true |- _ => unfold int64Amount_t in H
  end.

Lemma sample_quantity : reads_back ("Quantity", TStruct [
  field_of "i" "" int64Amount_t; field_of "d" "" (TPtr TString); field_of "s" "" TString; field_of "Format" "" TString]).
Proof.
  intros v Hv. cbn [snd] in Hv. typed_parts.
  repeat match goal with H : has_type _ ?x = true |- _ => destruct x as [| | |[[]|]| | |]; try discriminate H; clear H end;
    cbn -[countable.encode]; by rewrite text_pos_text, decode_encode.
Qed.

Lemma sample_fields : reads_back ("FieldsV1", TStruct [field_of "Raw" "-" (TSlice TByte)]).
Proof.
  intros v Hv. cbn [snd] in Hv. typed_parts.
  match goal with H : has_type _ ?x = true |- _ => rename H into Hb; destruct x as [| | | |[bs|]| |]; try done end.
  cbn. do 4 f_equal. induction bs as [|[] bs IH]; try done.
  cbn in Hb. apply andb_true_iff in Hb as [_ Hb]. injection (IH Hb) as IH'. cbn. by rewrite IH'.
Qed.

Lemma sample_faithful : faithful_json HostPathProvisioner_t.
Proof.
  repeat (apply Forall_cons; split; [first [exact sample_time | exact sample_quantity | exact sample_fields]|]).
  apply Forall_nil, I.
Qed.

(** A value of a struct type, from the fields that are not zero *)
Definition struct_of (t : gotype) (values : list (string * goval)) : goval :=
  match t with
  | TStruct fields =>
      VStruct ((λ f, default (zero_value f.2) (list_to_map (M := gmap string goval) values !! f_name f.1)) <$> fields)
  | _ => zero_value t
  end.

Definition gibibytes (z : Z) : goval :=
  VStruct [VStruct [VInt (z * 2 ^ 30); VInt 0]; VPtr None; VString "cached"; VString "BinarySI"].

Definition sample_claim : goval := struct_of PersistentVolumeClaimSpec_t [
  ("AccessModes", VSlice (Some [VString "ReadWriteOnce"]));
  ("Resources", struct_of VolumeResourceRequirements_t [("Requests", VMap (Some {["storage" := gibibytes 5]}))])].

Definition sample_cr : goval := struct_of HostPathProvisioner_t [
  ("TypeMeta", struct_of TypeMeta_t [("Kind", VString "HostPathProvisioner"); ("APIVersion", VString "hostpathprovisioner.kubevirt.io/v1beta1")]);
  ("ObjectMeta", struct_of ObjectMeta_t [
     ("Name", VString "hostpath-provisioner"); ("CreationTimestamp", VInt 63000000000); ("DeletionTimestamp", VPtr (Some (VInt 0)));
     ("Labels", VMap (Some ∅)); ("Finalizers", VSlice (Some []))]);
  ("Spec", struct_of HostPathProvisionerSpec_t [
     ("StoragePools", VSlice (Some [struct_of StoragePool_t [
        ("Name", VString "local"); ("PVCTemplate", VPtr (Some sample_claim)); ("Path", VString "/var/hpvolumes")]]))]);
  ("Status", struct_of HostPathProvisionerStatus_t [
     ("Conditions", VSlice (Some [struct_of Condition_t [("Type", VString "Available"); ("Status", VString "True")]]))])].
