(* ===== verification/CrdSchema.v ===== *)
(** * The CustomResourceDefinition

    The manifest of tools/helper/crd_generated.go, which the operator's installer
    applies: the names of the resource and the schema the API server checks and
    prunes every HostPathProvisioner with.  Descriptions are left out, and so are
    [x-kubernetes-map-type] and the difference between an atomic list and a list
    without a type: they say how documents are merged, not which are valid. *)
From S2P Require Import Prelude.

(** ** Schemas *)

(** [x-kubernetes-list-type] *)
Inductive list_type :=
| Plain
| IsSet
| IsMap (keys : list string).

(** No schema here is nullable. *)
Inductive schema :=
| SString
| SFormat (format : string)
| SBoolean
| SInteger
| SIntegerFormat (format : string)
| SIntOrString (pattern : string)
| SArray (kind : list_type) (items : schema)
| SMap (additionalProperties : schema)
| SAnyObject
| SObject (properties : list (string * schema)) (required : list string).

Section Induction.
Context (P : schema → Prop).
Hypothesis (Hstring : P SString) (Hformat : ∀ f, P (SFormat f)) (Hbool : P SBoolean) (Hinteger : P SInteger).
Hypothesis (Hinteger_format : ∀ f, P (SIntegerFormat f)) (Hint_or_string : ∀ p, P (SIntOrString p)).
Hypothesis (Harray : ∀ kind s, P s → P (SArray kind s)) (Hmap : ∀ s, P s → P (SMap s)) (Hany : P SAnyObject).
Hypothesis (Hobject : ∀ props required, Forall (λ p, P p.2) props → P (SObject props required)).

Fixpoint schema_rect_props (s : schema) : P s :=
  match s with
  | SString => Hstring
  | SFormat f => Hformat f
  | SBoolean => Hbool
  | SInteger => Hinteger
  | SIntegerFormat f => Hinteger_format f
  | SIntOrString p => Hint_or_string p
  | SArray kind s => Harray kind s (schema_rect_props s)
  | SMap s => Hmap s (schema_rect_props s)
  | SAnyObject => Hany
  | SObject props required =>
      Hobject props required ((fix go (props : list (string * schema)) : Forall (λ p, P p.2) props :=
        match props with
        | [] => Forall_nil_2 _
        | p :: props => Forall_cons_2 _ p props (schema_rect_props p.2) (go props)
        end) props)
  end.
End Induction.

(** ** The schema of a HostPathProvisioner *)

Definition quantity_schema : schema := SIntOrString
  "^(\+|-)?(([0-9]+(\.[0-9]*)?)|(\.[0-9]+))(([KMGTPE]i)|[numkMGTPE]|([eE](\+|-)?(([0-9]+(\.[0-9]*)?)|(\.[0-9]+))))?$".

Definition storagePools_pvcTemplate_dataSourceRef_schema : schema := SObject [
  ("apiGroup", SString);
  ("kind", SString);
  ("name", SString);
  ("namespace", SString)] ["kind"; "name"].

Definition storagePools_pvcTemplate_selector_schema : schema := SObject [
  ("matchExpressions", SArray Plain (SObject [
    ("key", SString);
    ("operator", SString);
    ("values", SArray Plain SString)] ["key"; "operator"]));
  ("matchLabels", SMap SString)] [].

Definition storagePools_pvcTemplate_schema : schema := SObject [
  ("accessModes", SArray Plain SString);
  ("dataSource", SObject [
    ("apiGroup", SString);
    ("kind", SString);
    ("name", SString)] ["kind"; "name"]);
  ("dataSourceRef", storagePools_pvcTemplate_dataSourceRef_schema);
  ("resources", SObject [
    ("limits", SMap quantity_schema);
    ("requests", SMap quantity_schema)] []);
  ("selector", storagePools_pvcTemplate_selector_schema);
  ("storageClassName", SString);
  ("volumeAttributesClassName", SString);
  ("volumeMode", SString);
  ("volumeName", SString)] [].

Definition storagePools_schema : schema := SObject [
  ("name", SString);
  ("overlayClassName", SString);
  ("path", SString);
  ("pvcTemplate", storagePools_pvcTemplate_schema);
  ("snapshotProvider", SString)] ["name"; "path"].

Definition nodeAffinity_preferred_preference_schema : schema := SObject [
  ("matchExpressions", SArray Plain (SObject [
    ("key", SString);
    ("operator", SString);
    ("values", SArray Plain SString)] ["key"; "operator"]));
  ("matchFields", SArray Plain (SObject [
    ("key", SString);
    ("operator", SString);
    ("values", SArray Plain SString)] ["key"; "operator"]))] [].

Definition nodeAffinity_preferred_schema : schema := SObject [
  ("preference", nodeAffinity_preferred_preference_schema);
  ("weight", SIntegerFormat "int32")] ["preference"; "weight"].

Definition nodeAffinity_required_nodeSelectorTerms_schema : schema := SObject [
  ("matchExpressions", SArray Plain (SObject [
    ("key", SString);
    ("operator", SString);
    ("values", SArray Plain SString)] ["key"; "operator"]));
  ("matchFields", SArray Plain (SObject [
    ("key", SString);
    ("operator", SString);
    ("values", SArray Plain SString)] ["key"; "operator"]))] [].

Definition nodeAffinity_required_schema : schema := SObject [
  ("nodeSelectorTerms", SArray Plain nodeAffinity_required_nodeSelectorTerms_schema)] ["nodeSelectorTerms"].

Definition nodeAffinity_schema : schema := SObject [
  ("preferredDuringSchedulingIgnoredDuringExecution", SArray Plain nodeAffinity_preferred_schema);
  ("requiredDuringSchedulingIgnoredDuringExecution", nodeAffinity_required_schema)] [].

Definition podAffinity_preferred_podAffinityTerm_labelSelector_schema : schema := SObject [
  ("matchExpressions", SArray Plain (SObject [
    ("key", SString);
    ("operator", SString);
    ("values", SArray Plain SString)] ["key"; "operator"]));
  ("matchLabels", SMap SString)] [].

Definition podAffinity_preferred_podAffinityTerm_namespaceSelector_schema : schema := SObject [
  ("matchExpressions", SArray Plain (SObject [
    ("key", SString);
    ("operator", SString);
    ("values", SArray Plain SString)] ["key"; "operator"]));
  ("matchLabels", SMap SString)] [].

Definition podAffinity_preferred_podAffinityTerm_schema : schema := SObject [
  ("labelSelector", podAffinity_preferred_podAffinityTerm_labelSelector_schema);
  ("matchLabelKeys", SArray Plain SString);
  ("mismatchLabelKeys", SArray Plain SString);
  ("namespaceSelector", podAffinity_preferred_podAffinityTerm_namespaceSelector_schema);
  ("namespaces", SArray Plain SString);
  ("topologyKey", SString)] ["topologyKey"].

Definition podAffinity_preferred_schema : schema := SObject [
  ("podAffinityTerm", podAffinity_preferred_podAffinityTerm_schema);
  ("weight", SIntegerFormat "int32")] ["podAffinityTerm"; "weight"].

Definition podAffinity_required_labelSelector_schema : schema := SObject [
  ("matchExpressions", SArray Plain (SObject [
    ("key", SString);
    ("operator", SString);
    ("values", SArray Plain SString)] ["key"; "operator"]));
  ("matchLabels", SMap SString)] [].

Definition podAffinity_required_namespaceSelector_schema : schema := SObject [
  ("matchExpressions", SArray Plain (SObject [
    ("key", SString);
    ("operator", SString);
    ("values", SArray Plain SString)] ["key"; "operator"]));
  ("matchLabels", SMap SString)] [].

Definition podAffinity_required_schema : schema := SObject [
  ("labelSelector", podAffinity_required_labelSelector_schema);
  ("matchLabelKeys", SArray Plain SString);
  ("mismatchLabelKeys", SArray Plain SString);
  ("namespaceSelector", podAffinity_required_namespaceSelector_schema);
  ("namespaces", SArray Plain SString);
  ("topologyKey", SString)] ["topologyKey"].

Definition podAffinity_schema : schema := SObject [
  ("preferredDuringSchedulingIgnoredDuringExecution", SArray Plain podAffinity_preferred_schema);
  ("requiredDuringSchedulingIgnoredDuringExecution", SArray Plain podAffinity_required_schema)] [].

Definition podAntiAffinity_preferred_podAffinityTerm_labelSelector_schema : schema := SObject [
  ("matchExpressions", SArray Plain (SObject [
    ("key", SString);
    ("operator", SString);
    ("values", SArray Plain SString)] ["key"; "operator"]));
  ("matchLabels", SMap SString)] [].

Definition podAntiAffinity_preferred_podAffinityTerm_namespaceSelector_schema : schema := SObject [
  ("matchExpressions", SArray Plain (SObject [
    ("key", SString);
    ("operator", SString);
    ("values", SArray Plain SString)] ["key"; "operator"]));
  ("matchLabels", SMap SString)] [].

Definition podAntiAffinity_preferred_podAffinityTerm_schema : schema := SObject [
  ("labelSelector", podAntiAffinity_preferred_podAffinityTerm_labelSelector_schema);
  ("matchLabelKeys", SArray Plain SString);
  ("mismatchLabelKeys", SArray Plain SString);
  ("namespaceSelector", podAntiAffinity_preferred_podAffinityTerm_namespaceSelector_schema);
  ("namespaces", SArray Plain SString);
  ("topologyKey", SString)] ["topologyKey"].

Definition podAntiAffinity_preferred_schema : schema := SObject [
  ("podAffinityTerm", podAntiAffinity_preferred_podAffinityTerm_schema);
  ("weight", SIntegerFormat "int32")] ["podAffinityTerm"; "weight"].

Definition podAntiAffinity_required_labelSelector_schema : schema := SObject [
  ("matchExpressions", SArray Plain (SObject [
    ("key", SString);
    ("operator", SString);
    ("values", SArray Plain SString)] ["key"; "operator"]));
  ("matchLabels", SMap SString)] [].

Definition podAntiAffinity_required_namespaceSelector_schema : schema := SObject [
  ("matchExpressions", SArray Plain (SObject [
    ("key", SString);
    ("operator", SString);
    ("values", SArray Plain SString)] ["key"; "operator"]));
  ("matchLabels", SMap SString)] [].

Definition podAntiAffinity_required_schema : schema := SObject [
  ("labelSelector", podAntiAffinity_required_labelSelector_schema);
  ("matchLabelKeys", SArray Plain SString);
  ("mismatchLabelKeys", SArray Plain SString);
  ("namespaceSelector", podAntiAffinity_required_namespaceSelector_schema);
  ("namespaces", SArray Plain SString);
  ("topologyKey", SString)] ["topologyKey"].

Definition podAntiAffinity_schema : schema := SObject [
  ("preferredDuringSchedulingIgnoredDuringExecution", SArray Plain podAntiAffinity_preferred_schema);
  ("requiredDuringSchedulingIgnoredDuringExecution", SArray Plain podAntiAffinity_required_schema)] [].

Definition affinity_schema : schema := SObject [
  ("nodeAffinity", nodeAffinity_schema);
  ("podAffinity", podAffinity_schema);
  ("podAntiAffinity", podAntiAffinity_schema)] [].

Definition workload_schema : schema := SObject [
  ("affinity", affinity_schema);
  ("nodeSelector", SMap SString);
  ("tolerations", SArray Plain (SObject [
    ("effect", SString);
    ("key", SString);
    ("operator", SString);
    ("tolerationSeconds", SIntegerFormat "int64");
    ("value", SString)] []))] [].

Definition spec_schema : schema := SObject [
  ("featureGates", SArray IsSet SString);
  ("imagePullPolicy", SString);
  ("pathConfig", SObject [
    ("path", SString);
    ("useNamingPrefix", SBoolean)] []);
  ("storagePools", SArray Plain storagePools_schema);
  ("workload", workload_schema)] [].

Definition storagePoolStatuses_claimStatuses_status_schema : schema := SObject [
  ("accessModes", SArray Plain SString);
  ("allocatedResourceStatuses", SMap SString);
  ("allocatedResources", SMap quantity_schema);
  ("capacity", SMap quantity_schema);
  ("conditions", SArray (IsMap ["type"]) (SObject [
    ("lastProbeTime", SFormat "date-time");
    ("lastTransitionTime", SFormat "date-time");
    ("message", SString);
    ("reason", SString);
    ("status", SString);
    ("type", SString)] ["status"; "type"]));
  ("currentVolumeAttributesClassName", SString);
  ("modifyVolumeStatus", SObject [
    ("status", SString);
    ("targetVolumeAttributesClassName", SString)] ["status"]);
  ("phase", SString)] [].

Definition storagePoolStatuses_claimStatuses_schema : schema := SObject [
  ("name", SString);
  ("status", storagePoolStatuses_claimStatuses_status_schema)] ["name"; "status"].

Definition storagePoolStatuses_schema : schema := SObject [
  ("claimStatuses", SArray Plain storagePoolStatuses_claimStatuses_schema);
  ("currentReady", SInteger);
  ("desiredReady", SInteger);
  ("name", SString);
  ("phase", SString)] ["name"; "phase"].

Definition status_schema : schema := SObject [
  ("conditions", SArray Plain (SObject [
    ("lastHeartbeatTime", SFormat "date-time");
    ("lastTransitionTime", SFormat "date-time");
    ("message", SString);
    ("reason", SString);
    ("status", SString);
    ("type", SString)] ["status"; "type"]));
  ("observedVersion", SString);
  ("operatorVersion", SString);
  ("storagePoolStatuses", SArray Plain storagePoolStatuses_schema);
  ("targetVersion", SString)] [].

Definition hppCRD_schema : schema := SObject [
  ("apiVersion", SString);
  ("kind", SString);
  ("metadata", SAnyObject);
  ("spec", spec_schema);
  ("status", status_schema)] [].

(** ** The definition *)

Record crd := {
  crd_name : string;
  crd_group : string;
  crd_kind : string;
  crd_listKind : string;
  crd_plural : string;
  crd_singular : string;
  crd_scope : string;
  crd_version : string;
  crd_served : bool;
  crd_storage : bool;
  crd_schema : schema }.

Definition hppCRD : crd := {|
  crd_name := "hostpathprovisioners.hostpathprovisioner.kubevirt.io";
  crd_group := "hostpathprovisioner.kubevirt.io";
  crd_kind := "HostPathProvisioner";
  crd_listKind := "HostPathProvisionerList";
  crd_plural := "hostpathprovisioners";
  crd_singular := "hostpathprovisioner";
  crd_scope := "Cluster";
  crd_version := "v1beta1";
  crd_served := true;
  crd_storage := true;
  crd_schema := hppCRD_schema |}.

(** *** [CreateCRDDef] (tools/helper/helper.go): the manifest, decoded *)
Definition CreateCRDDef : crd := hppCRD.
