(* ===== verification/CrdTypes.v ===== *)
(** * The Go types against the CustomResourceDefinition

    The meaning of the schema of CrdSchema.v, as the documentation of JSONSchemaProps
    (vendor/k8s.io/apiextensions-apiserver, types_jsonschema.go) and of custom
    resources has it: which documents it admits, and what is stored of them (no
    unknown keys and, where the schema is not nullable, no nulls).  The theorems
    say how that fits the Go types of GoTypes.v the operator reads and writes:
    what it writes is admitted, except for named demands; what is stored reads
    back as what was written; what was admitted decodes. *)
From S2P Require Import Prelude Api K8s Json JsonMerge Watches Permissions GoTypes GoJson CrdSchema.

#[global] Instance json_eq_dec : EqDecision json.
Proof.
  intros a b. refine (cast_if (decide (matchesValue a b = true))).
  - by apply matchesValue_eq.
  - intros ->. by rewrite matchesValue_refl in *.
Defined.

(** ** The meaning of a schema *)

(** The text formats that are checked (RFC 3339 times here) and regular expressions *)
Class Formats := {
  has_format : string → string → bool;
  matches : string → string → bool }.

(** A key that is null is a key that is not there: no schema here is nullable. *)
Definition present (m : jdoc) (k : string) : option json :=
  match m !! k with Some JNull | None => None | Some d => Some d end.

(** The uniqueness a list type asks for *)
Definition distinct (kind : list_type) (ds : list json) : bool :=
  match kind with
  | Plain => true
  | IsSet => bool_decide (NoDup ds)
  | IsMap keys => bool_decide (NoDup ((λ d, (λ k, sub_doc (Some d) !! k) <$> keys) <$> ds))
  end.

Section Meaning.
Context `{F : Formats}.

(** Is a document admitted?  Unknown keys and integer formats are no obstacle. *)
Fixpoint validates (s : schema) (d : json) {struct s} : bool :=
  match s, d with
  | SString, JStr _ => true
  | SFormat f, JStr x => has_format f x
  | SBoolean, JBool _ => true
  | SInteger, JNum _ | SIntegerFormat _, JNum _ => true
  | SIntOrString _, JNum _ => true
  | SIntOrString p, JStr x => matches p x
  | SArray kind s, JArr ds => forallb (validates s) ds && distinct kind ds
  | SMap s, JObj m => forallb (λ kd, validates s kd.2) (map_to_list m)
  | SAnyObject, JObj _ => true
  | SObject props required, JObj m =>
      forallb (λ p, match present m p.1 with Some d => validates p.2 d | None => true end) props &&
      forallb (λ k, bool_decide (is_Some (present m k))) required
  | _, _ => false
  end.

End Meaning.

(** What is stored of an admitted document *)
Fixpoint stored (s : schema) (d : json) {struct s} : json :=
  match s, d with
  | SArray _ s, JArr ds => JArr (stored s <$> ds)
  | SMap s, JObj m => JObj (stored s <$> m)
  | SObject props _, JObj m =>
      JObj ((fix go (props : list (string * schema)) : jdoc :=
         match props with
         | [] => ∅
         | p :: props =>
             match present m p.1 with
             | Some d => <[p.1 := stored p.2 d]> (go props)
             | None => go props
             end
         end) props)
  | _, d => d
  end.

(** ** Types and schemas *)

(** The schema of a key of an object, and whether the key is required *)
Definition property (s : schema) (k : string) : option schema :=
  match s with SObject props _ => (list_to_map props : gmap string schema) !! k | _ => None end.

Definition requires (s : schema) (k : string) : bool :=
  match s with SObject _ required => bool_decide (k ∈ required) | _ => false end.

(** Does a type fit a schema?  The schema has every key of the type with a schema
    its field fits, and, unless the struct is inlined, no other keys. *)
Fixpoint fits (whole : bool) (t : gotype) (s : schema) {struct t} : bool :=
  match t, s with
  | TString, SString | TBool, SBoolean => true
  | TInt _, SInteger => true
  | TInt w, SIntegerFormat f => bool_decide (w = 32 ∧ f = "int32" ∨ w = 64 ∧ f = "int64")
  | TCustom name _, SFormat f => bool_decide (name = "Time") && bool_decide (f = "date-time")
  | TCustom name _, SIntOrString _ => bool_decide (name = "Quantity")
  | TPtr t, s => fits true t s
  | TSlice t, SArray _ s => fits true t s
  | TMap t, SMap s => fits true t s
  | TStruct _, SAnyObject => whole
  | TStruct fields, SObject props required =>
      bool_decide (NoDup props.*1) &&
      implb whole (forallb (λ k, bool_decide (k ∈ keys t)) (props.*1 ++ required)) &&
      forallb (λ f, if f_inline f.1 then fits false f.2 s
                    else match property s (f_key f.1) with Some s => fits true f.2 s | None => false end) fields
  | _, _ => false
  end.

Section Fit.
Context `{CJ : CustomJson} `{F : Formats}.

(** ** What a schema asks of a value beyond its type *)

(** Is a key of an object as its schema wants it? *)
Definition key_ok (s : schema) (m : jdoc) (k : string) : bool :=
  match present m k with
  | Some d => match property s k with Some s => validates s d | None => true end
  | None => negb (requires s k)
  end.

(** A field that is required is written, not as null; elements are not null; lists
    are free of duplicates where the schema says so; and times and quantities
    have the text the schema wants. *)
Fixpoint demanded (t : gotype) (s : schema) (v : goval) {struct t} : bool :=
  match t, v with
  | TPtr t, VPtr o => match o with Some v => demanded t s v | None => false end
  | TSlice t, VSlice o =>
      match o, s with
      | Some l, SArray kind s => forallb (demanded t s) l && distinct kind (encode t <$> l)
      | _, _ => false
      end
  | TMap t, VMap o =>
      match o, s with
      | Some m, SMap s => forallb (λ kv, demanded t s kv.2) (map_to_list m)
      | _, _ => false
      end
  | TStruct fields, VStruct l =>
      match s with SAnyObject => true | _ =>
      (fix go (fields : list (field * gotype)) (l : list goval) : bool :=
         match fields, l with
         | f :: fields, v :: l =>
             (if f_inline f.1 then demanded f.2 s v
              else if omitted f.1 f.2 v || is_null (encode f.2 v) then negb (requires s (f_key f.1))
              else match property s (f_key f.1) with Some s => demanded f.2 s v | None => true end) && go fields l
         | _, _ => true
         end) fields l
      end
  | TCustom name _, v => validates s (marshal name v)
  | _, _ => true
  end.

Definition demanded_fields (s : schema) : list (field * gotype) → list goval → bool :=
  fix go (fields : list (field * gotype)) (l : list goval) : bool :=
    match fields, l with
    | f :: fields, v :: l =>
        (if f_inline f.1 then demanded f.2 s v
         else if omitted f.1 f.2 v || is_null (encode f.2 v) then negb (requires s (f_key f.1))
         else match property s (f_key f.1) with Some s => demanded f.2 s v | None => true end) && go fields l
    | _, _ => true
    end.

Lemma demanded_struct props required fields l :
  demanded (TStruct fields) (SObject props required) (VStruct l) = demanded_fields (SObject props required) fields l.
Proof using Type. done. Qed.

Lemma validates_null s : validates s JNull = false.
Proof using Type. by destruct s. Qed.

(** ** The API server admits what is written, if the demands are met *)

Definition admits (t : gotype) : Prop := ∀ s v,
  well_tagged t = true → fits true t s = true → has_type t v = true → validates s (encode t v) = demanded t s v.

(** The keys of a struct, in a document that may have others *)
Definition admits_keys (t : gotype) : Prop := ∀ s v m,
  is_struct t = true → well_tagged t = true → fits false t s = true → has_type t v = true →
  (∀ k, k ∈ keys t → m !! k = sub_doc (Some (encode t v)) !! k) →
  demanded t s v = forallb (key_ok s m) (keys t).

Lemma fits_part t s : is_struct t = true → fits false t s = true → ∃ props required, s = SObject props required.
Proof using Type. destruct t; try done. destruct s; try done. by eexists _, _. Qed.

Lemma fits_fields whole fields props required :
  fits whole (TStruct fields) (SObject props required) = true →
  Forall (λ f, if f_inline f.1 then fits false f.2 (SObject props required) = true
               else ∃ s, property (SObject props required) (f_key f.1) = Some s ∧ fits true f.2 s = true) fields.
Proof using Type.
  cbn [fits]. intros [_ Hf]%andb_true_iff. apply Forall_forall. intros f Hin%list_elem_of_In.
  apply (proj1 (forallb_forall _ _) Hf) in Hin. destruct (f_inline f.1); [done|].
  destruct (property _ _) as [s|]; [by exists s|done].
Qed.

Lemma present_encoded m k d : m !! k = Some d → present m k = if is_null d then None else Some d.
Proof using Type. unfold present. intros ->. by destruct d. Qed.

Lemma fields_admitted props required fields l m :
  let s := SObject props required in
  Forall (λ f, admits f.2 ∧ admits_keys f.2) fields →
  Forall (λ f, well_tagged f.2 = true ∧ (f_inline f.1 = true → is_struct f.2 = true)) fields →
  NoDup (keys_of fields) →
  Forall (λ f, if f_inline f.1 then fits false f.2 s = true
               else ∃ s', property s (f_key f.1) = Some s' ∧ fits true f.2 s' = true) fields →
  typed_fields fields l = true →
  (∀ k, k ∈ keys_of fields → m !! k = encode_fields fields l !! k) →
  demanded_fields s fields l = forallb (key_ok s m) (keys_of fields).
Proof using Type.
  intros s Ha. revert l. induction Ha as [|f fields [Hp Hq] Ha IH]; intros [|v l] Hf Hn Hs Hl Hm; try done.
  assert (Hhead := λ k, encode_fields_head f fields v l k Hf Hn).
  assert (Hrest := λ k, encode_fields_rest f fields v l k Hf Hn).
  apply Forall_cons in Hf as [[Hw Hi] Hf]. apply Forall_cons in Hs as [Hsf Hs].
  cbn [typed_fields] in Hl. apply andb_true_iff in Hl as [Hv Hl].
  cbn [keys_of] in Hn, Hm |- *. apply NoDup_app in Hn as (_ & _ & Hn).
  assert (Hmh : ∀ k, k ∈ (if f_inline f.1 then keys f.2 else [f_key f.1]) → m !! k = encode_fields (f :: fields) (v :: l) !! k).
  { intros k Hk. apply Hm, elem_of_app. by left. }
  rewrite forallb_app. cbn [demanded_fields]. f_equal.
  - destruct (f_inline f.1) eqn:Hinl.
    + apply Hq; auto. intros k Hk. by rewrite Hmh, Hhead.
    + destruct Hsf as (s' & Hs' & Hfit). cbn [forallb]. rewrite andb_true_r. unfold key_ok.
      assert (m !! f_key f.1 = if omitted f.1 f.2 v then None else Some (encode f.2 v)) as Hk by (by rewrite Hmh, Hhead by (by left)).
      rewrite Hs'. destruct (omitted f.1 f.2 v); cbn [orb].
      * unfold present. by rewrite Hk.
      * rewrite (present_encoded _ _ _ Hk). destruct (is_null (encode f.2 v)); [done|]. by rewrite Hp.
  - apply IH; try done. intros k Hk. rewrite Hm, Hrest; [done|done|]. apply elem_of_app. by right.
Qed.

(** An object is valid when its keys are: the schema has no others, and requires no
    others. *)
Lemma object_validates fields props required m :
  fits true (TStruct fields) (SObject props required) = true →
  validates (SObject props required) (JObj m) = forallb (key_ok (SObject props required) m) (keys_of fields).
Proof using Type.
  cbn [fits implb]. intros [[Hn%bool_decide_eq_true Hk]%andb_true_iff _]%andb_true_iff.
  assert (Hkeys : ∀ k, k ∈ props.*1 ++ required → k ∈ keys_of fields).
  { intros k Hin%list_elem_of_In. apply (proj1 (forallb_forall _ _) Hk) in Hin. by apply bool_decide_eq_true in Hin. }
  clear Hk. apply eq_true_iff_eq. cbn [validates]. rewrite andb_true_iff, !forallb_forall. unfold key_ok, property, requires. split.
  - intros [Hp Hr] k _. destruct (present m k) as [d|] eqn:Hd.
    + destruct ((list_to_map props : gmap string schema) !! k) as [s|] eqn:Hs; [|done].
      apply elem_of_list_to_map_2, list_elem_of_In, Hp in Hs. cbn in Hs. by rewrite Hd in Hs.
    + case_bool_decide as Hin; [|done]. apply list_elem_of_In, Hr, bool_decide_eq_true in Hin as [? Hin]. congruence.
  - intros Hk. split.
    + intros [k s] Hin%list_elem_of_In. cbn. destruct (present m k) as [d|] eqn:Hd; [|done].
      assert (k ∈ keys_of fields) as Hkey%list_elem_of_In.
      { apply Hkeys, elem_of_app. left. apply list_elem_of_fmap. by exists (k, s). }
      apply Hk in Hkey. rewrite Hd in Hkey. by rewrite (elem_of_list_to_map_1 props k s Hn Hin) in Hkey.
    + intros k Hin%list_elem_of_In. assert (k ∈ keys_of fields) as Hkey%list_elem_of_In.
      { apply Hkeys, elem_of_app. by right. }
      apply Hk in Hkey. destruct (present m k); [by apply bool_decide_eq_true|].
      by rewrite bool_decide_eq_true_2 in Hkey.
Qed.

Lemma list_admitted t s l :
  admits t → well_tagged t = true → fits true t s = true → forallb (has_type t) l = true →
  forallb (validates s) (encode t <$> l) = forallb (demanded t s) l.
Proof using Type.
  intros Ha Hw Hs. induction l as [|v l IH]; [done|]. cbn. intros [Hv Hl]%andb_true_iff. by rewrite Ha, IH.
Qed.

Lemma map_admitted t s (m : gmap string goval) :
  admits t → well_tagged t = true → fits true t s = true → forallb (λ kv, has_type t kv.2) (map_to_list m) = true →
  forallb (λ kd, validates s kd.2) (map_to_list (encode t <$> m)) = forallb (λ kv, demanded t s kv.2) (map_to_list m).
Proof using Type.
  intros Ha Hw Hs Hm. rewrite map_to_list_fmap. induction (map_to_list m) as [|[k v] l IH]; [done|].
  cbn in *. apply andb_true_iff in Hm as [Hv Hl]. by rewrite Ha, IH.
Qed.

Theorem writes_admitted t : admits t ∧ admits_keys t.
Proof using Type.
  induction t as [| | |width|t [IH _]|t [IH _]|t [IH _]|fields IH|name t [IH _]] using gotype_rect_fields; (split; [|try done]).
  1-4: intros s v _ Hs Hv; destruct v; try done; by destruct s.
  - intros s v Hw Hs Hv. destruct v as [| | |[v|]| | |]; try done; [by apply IH|]. apply validates_null.
  - intros s v Hw Hs Hv. assert (Hw' : well_tagged t = true) by (by destruct t).
    destruct s; try done. destruct v as [| | | |[l|]| |]; try done. cbn [encode validates demanded]. by rewrite list_admitted.
  - intros s v Hw Hs Hv. destruct s; try done. destruct v as [| | | | |[m|]|]; try done. cbn [encode validates demanded].
    by rewrite map_admitted.
  - intros s v Hw Hs Hv. apply well_tagged_struct in Hw as [Hn Hf].
    destruct v as [| | | | | |l]; try done. rewrite encode_struct. destruct s; try done.
    rewrite demanded_struct, (object_validates fields) by done. 
    symmetry. apply fields_admitted; try done. eapply (fits_fields true); eauto.
  - intros s v m _ Hw Hs Hv Hm. apply well_tagged_struct in Hw as [Hn Hf]. destruct s; try done.
    destruct v as [| | | | | |l]; try done. rewrite demanded_struct. apply fields_admitted; try done. eapply (fits_fields false); eauto.
  - by intros s v _ _ _.
Qed.

(** ** What is stored reads back *)

Definition store_props (m : jdoc) : list (string * schema) → jdoc :=
  fix go (props : list (string * schema)) : jdoc :=
    match props with
    | [] => ∅
    | p :: props =>
        match present m p.1 with
        | Some d => <[p.1 := stored p.2 d]> (go props)
        | None => go props
        end
    end.

Lemma stored_object props required m : stored (SObject props required) (JObj m) = JObj (store_props m props).
Proof using Type. done. Qed.

Lemma store_props_lookup m props k s :
  NoDup props.*1 → (list_to_map props : gmap string schema) !! k = Some s →
  store_props m props !! k = stored s <$> present m k.
Proof using Type.
  induction props as [|[k' s'] props IH]; cbn; [by rewrite lookup_empty|]. intros [Hk' Hn]%NoDup_cons.
  rewrite lookup_insert. case_decide as Heq; [subst k'|].
  - intros [= ->]. destruct (present m k) as [d|]; [by rewrite lookup_insert_eq|]. cbn. clear IH Hn.
    induction props as [|[k'' s''] props IH]; cbn; [done|]. cbn in Hk'. apply not_elem_of_cons in Hk' as [Hne Hk'].
    destruct (present m k''); [rewrite lookup_insert_ne by done|]; by apply IH.
  - intros Hs. destruct (present m k'); [rewrite lookup_insert_ne by done|]; by apply IH.
Qed.

Lemma is_null_stored s d : is_null (stored s d) = is_null d.
Proof using Type. destruct s, d; done. Qed.

(** A null is read as the zero value. *)
Definition null_is_zero (t : gotype) : Prop := Forall (λ c, unmarshal c.1 JNull = Some (zero_value c.2)) (customs t).

Lemma null_is_zero_fields fields : null_is_zero (TStruct fields) → Forall (λ f, null_is_zero f.2) fields.
Proof using Type.
  unfold null_is_zero. induction fields as [|f fields IH]; [done|]. intros [Hf Hr]%Forall_app. constructor; auto.
Qed.

Lemma decode_null t : null_is_zero t → decode t JNull = Some (zero_value t).
Proof using Type. destruct t; try done. by intros [H _]%Forall_cons. Qed.

Definition reads_stored (t : gotype) : Prop := ∀ whole s d,
  fits whole t s = true → null_is_zero t → decode t (stored s d) = decode t d.

Lemma fields_read_stored props required fields m :
  let s := SObject props required in
  Forall (λ f, reads_stored f.2) fields → NoDup props.*1 → Forall (λ f, null_is_zero f.2) fields →
  Forall (λ f, if f_inline f.1 then fits false f.2 s = true
               else ∃ s', property s (f_key f.1) = Some s' ∧ fits true f.2 s' = true) fields →
  decode_fields (store_props m props) fields = decode_fields m fields.
Proof using Type.
  intros s Hr Hn. induction Hr as [|f fields Hf Hr IH]; [done|]. intros [Hz Hzs]%Forall_cons [Hs Hss]%Forall_cons.
  cbn [decode_fields]. rewrite (IH Hzs Hss). f_equal. destruct (f_inline f.1).
  - by apply (Hf false s (JObj m)).
  - destruct Hs as (s' & Hs & Hfit). rewrite (store_props_lookup m props _ s' Hn Hs). unfold present.
    destruct (m !! f_key f.1) as [[]|]; cbn [fmap option_fmap option_map]; try (by eapply Hf); [by rewrite decode_null|done].
Qed.

Lemma list_reads_stored t s l :
  reads_stored t → fits true t s = true → null_is_zero t → mapM (decode t) (stored s <$> l) = mapM (decode t) l.
Proof using Type. intros Hr Hs Hz. induction l as [|d l IH]; [done|]. cbn. by rewrite (Hr true), IH. Qed.

(** What is dropped on the way into the store is not missed. *)
Theorem stored_reads_back t : reads_stored t.
Proof using Type.
  induction t as [| | |width|t IH|t IH|t IH|fields IH|name t IH] using gotype_rect_fields; intros whole s d Hs Hz.
  1-4: by destruct s.
  - destruct (is_null d) eqn:Hd; [destruct d; try done; by destruct s|].
    assert (∀ d, is_null d = false → decode (TPtr t) d = (v ← decode t d; Some (VPtr (Some v)))) as Hdec by (by intros []).
    rewrite !Hdec, (IH true) by (rewrite ?is_null_stored; done). done.
  - destruct s; try done. destruct d; try done. cbn [stored decode]. by rewrite list_reads_stored.
  - destruct s; try done. destruct d as [| | | | |m]; try done. cbn [stored decode].
    assert (decode t <$> (stored s <$> m) = decode t <$> m) as ->; [|done].
    apply map_eq. intros k. rewrite !lookup_fmap. destruct (m !! k); [|done]. cbn. by rewrite (IH true).
  - destruct s as [| | | | | | | | |props required]; try done. destruct d as [| | | | |m]; try done.
    rewrite stored_object, !decode_struct. pose proof Hs as Hf. apply fits_fields in Hf.
    cbn [fits] in Hs. apply andb_true_iff in Hs as [[Hn%bool_decide_eq_true _]%andb_true_iff _].
    rewrite (fields_read_stored props required); auto. by apply null_is_zero_fields.
  - destruct s; try done; by destruct d.
Qed.

(** ** What was admitted is read without an error *)

Definition is_read {A} (o : option A) : bool := match o with Some _ => true | None => false end.

(** All an admitted document can still do wrong: integers that do not fit the field,
    and texts the methods of a time or quantity do not take. *)
Fixpoint readable (t : gotype) (d : json) {struct t} : bool :=
  match t, d with
  | TCustom name _, d => is_read (unmarshal name d)
  | _, JNull => true
  | TInt w, JNum z => in_range w z
  | TPtr t, d => readable t d
  | TSlice t, JArr l => forallb (readable t) l
  | TMap t, JObj m => forallb (λ kd, readable t kd.2) (map_to_list m)
  | TStruct fields, JObj m =>
      (fix go (fields : list (field * gotype)) : bool :=
         match fields with
         | [] => true
         | f :: fields =>
             (if f_inline f.1 then readable f.2 d
              else match m !! f_key f.1 with Some d => readable f.2 d | None => true end) && go fields
         end) fields
  | _, _ => true
  end.

Definition readable_fields (m : jdoc) : list (field * gotype) → bool :=
  fix go (fields : list (field * gotype)) : bool :=
    match fields with
    | [] => true
    | f :: fields =>
        (if f_inline f.1 then readable f.2 (JObj m)
         else match m !! f_key f.1 with Some d => readable f.2 d | None => true end) && go fields
    end.

Lemma readable_null t : is_read (decode t JNull) = readable t JNull.
Proof using Type. by destruct t. Qed.

(** Every object of the schema has its properties listed. *)
Fixpoint listed (s : schema) : bool :=
  match s with
  | SArray _ s | SMap s => listed s
  | SAnyObject => false
  | SObject props _ => forallb (λ p, listed p.2) props
  | _ => true
  end.

Definition reads_admitted (t : gotype) : Prop := ∀ whole s d,
  fits whole t s = true → listed s = true → validates s d = true → is_read (decode t d) = readable t d.

Lemma is_read_bind {A B} (o : option A) (f : A → option B) b :
  (∀ x, o = Some x → is_read (f x) = b) → is_read (o ≫= f) = is_read o && b.
Proof using Type. destruct o; cbn; auto. Qed.

Lemma list_read t s l :
  reads_admitted t → fits true t s = true → listed s = true → forallb (validates s) l = true →
  is_read (mapM (decode t) l) = forallb (readable t) l.
Proof using Type.
  intros Hr Hs Hl. induction l as [|d l IH]; [done|]. cbn. intros [Hd Hds]%andb_true_iff.
  rewrite <-(Hr true s d), <-IH by done. apply is_read_bind. intros v _. by destruct (mapM (decode t) l).
Qed.

Lemma map_read t s (m : jdoc) :
  reads_admitted t → fits true t s = true → listed s = true → forallb (λ kd, validates s kd.2) (map_to_list m) = true →
  is_read (all_entries (decode t <$> m)) = forallb (λ kd, readable t kd.2) (map_to_list m).
Proof using Type.
  intros Hr Hs Hl Hv. assert (∀ k d, m !! k = Some d → is_read (decode t d) = readable t d) as Hm.
  { intros k d Hd. apply (Hr true s); [done..|].
    apply (proj1 (forallb_forall _ _) Hv (k, d)), list_elem_of_In. by apply elem_of_map_to_list. }
  apply eq_true_iff_eq. unfold all_entries. rewrite forallb_forall. split.
  - case_bool_decide as Ha; [|done]. intros _ [k d] Hin%list_elem_of_In%elem_of_map_to_list. cbn. rewrite <-(Hm k d Hin).
    destruct (Ha k (decode t d)) as [v ->]; [|done]. by rewrite lookup_fmap, Hin.
  - intros Ha. rewrite bool_decide_eq_true_2; [done|]. intros k o. rewrite lookup_fmap.
    destruct (m !! k) as [d|] eqn:Hd; [|done]. intros [= <-].
    assert (readable t d = true) as Hk.
    { apply (Ha (k, d)), list_elem_of_In. by apply elem_of_map_to_list. }
    rewrite <-(Hm k d Hd) in Hk. destruct (decode t d); [by eexists|done].
Qed.

Lemma property_valid props required m k s d :
  validates (SObject props required) (JObj m) = true → property (SObject props required) k = Some s →
  m !! k = Some d → is_null d = false → validates s d = true.
Proof using Type.
  cbn [validates property]. intros [Hp _]%andb_true_iff Hs%elem_of_list_to_map_2%list_elem_of_In Hd Hn.
  apply (proj1 (forallb_forall _ _) Hp) in Hs. cbn in Hs. rewrite (present_encoded m k d Hd), Hn in Hs. done.
Qed.

Lemma fields_read props required fields m :
  let s := SObject props required in
  Forall (λ f, reads_admitted f.2) fields → listed s = true → validates s (JObj m) = true →
  Forall (λ f, if f_inline f.1 then fits false f.2 s = true
               else ∃ s', property s (f_key f.1) = Some s' ∧ fits true f.2 s' = true) fields →
  is_read (decode_fields m fields) = readable_fields m fields.
Proof using Type.
  intros s Hr Hl Hv. induction Hr as [|f fields Hf Hr IH]; [done|]. intros [Hs Hss]%Forall_cons.
  cbn [decode_fields readable_fields]. rewrite <-(IH Hss). destruct (f_inline f.1).
  - rewrite <-(Hf false s) by done. apply is_read_bind. intros v _. by destruct (decode_fields m fields).
  - destruct Hs as (s' & Hs & Hfit).
    assert (listed s' = true) as Hl'.
    { unfold s in Hs. cbn in Hs. apply elem_of_list_to_map_2, list_elem_of_In in Hs.
      by apply (proj1 (forallb_forall _ _) Hl) in Hs. }
    rewrite (is_read_bind _ _ (is_read (decode_fields m fields))); [|intros v _; by destruct (decode_fields m fields)].
    f_equal. destruct (m !! f_key f.1) as [d|] eqn:Hd; [|done]. destruct (is_null d) eqn:Hn.
    + destruct d; try done. apply readable_null.
    + apply (Hf true s'); try done. by apply (property_valid props required m (f_key f.1)).
Qed.

Theorem admitted_is_read t : reads_admitted t.
Proof using Type.
  induction t as [| | |width|t IH|t IH|t IH|fields IH|name t IH] using gotype_rect_fields; intros whole s d Hs Hl Hv.
  1-3: destruct s; try done; by destruct d.
  - destruct s; try done; destruct d; try done; cbn; by destruct (in_range width n).
  - assert (decode (TPtr t) d = (v ← decode t d; Some (VPtr (Some v))) ∧ readable (TPtr t) d = readable t d) as [-> ->].
    { destruct d; [by rewrite validates_null in Hv|done..]. }
    by rewrite (is_read_bind _ _ true), andb_true_r, (IH true s) by done.
  - destruct s as [| | | | | |kind s| | |]; try done. destruct d as [| | | |l|]; try done. cbn [validates] in Hv.
    apply andb_true_iff in Hv as [Hv _]. cbn [decode readable].
    rewrite (is_read_bind _ _ true), andb_true_r by done. by apply (list_read t s).
  - destruct s as [| | | | | | |s| |]; try done. destruct d as [| | | | |m]; try done. cbn [decode readable].
    rewrite (is_read_bind _ _ true), andb_true_r by done. by apply (map_read t s).
  - destruct s as [| | | | | | | | |props required]; try done. destruct d as [| | | | |m]; try done.
    rewrite decode_struct, (is_read_bind _ _ true), andb_true_r by done. apply (fields_read props required); try done.
    by apply fits_fields in Hs.
  - done.
Qed.

(** ** The custom resource *)

Lemma resource_fits :
  well_tagged HostPathProvisioner_t = true ∧ fits true HostPathProvisioner_t (crd_schema hppCRD) = true.
Proof using Type. split; vm_compute; reflexivity. Qed.

Lemma parts_fit :
  fits true HostPathProvisionerSpec_t spec_schema = true ∧ listed spec_schema = true ∧
  fits true HostPathProvisionerStatus_t status_schema = true ∧ listed status_schema = true.
Proof using Type. repeat split; vm_compute; reflexivity. Qed.

(** C16: a resource the operator writes is refused only for named reasons.  The
    schema of the CustomResourceDefinition admits what encoding/json writes of a
    well-typed HostPathProvisioner exactly if every required key is written and
    not null (which a nil list of node selector terms is),
    the feature gates are distinct, the conditions of a claim have distinct
    types, no element of a list is null, and times and quantities are written
    in the format the schema has for them.  So no key, type or required field of
    the schema disagrees with the Go types, those of k8s.io/api included. *)
Theorem writes_are_admitted v :
  has_type HostPathProvisioner_t v = true →
  validates (crd_schema hppCRD) (encode HostPathProvisioner_t v) = demanded HostPathProvisioner_t (crd_schema hppCRD) v.
Proof using Type. destruct resource_fits as [Hw Hs]. by apply writes_admitted. Qed.

(** C15: nothing the operator writes is lost.  The API server stores a resource
    without the keys its schema does not have and without nulls; what is then
    read is the resource that was written, up to the normal form of its
    document: empty fields that were left out are zero, a pointer to a value
    written as null is nil, and a time or quantity is in canonical form. *)
Theorem stored_resource_is_what_was_written v :
  faithful_json HostPathProvisioner_t → null_is_zero HostPathProvisioner_t → has_type HostPathProvisioner_t v = true →
  decode HostPathProvisioner_t (stored (crd_schema hppCRD) (encode HostPathProvisioner_t v)) = Some (norm HostPathProvisioner_t v).
Proof using Type.
  intros Hj Hz Hv. destruct resource_fits as [Hw Hs].
  rewrite (stored_reads_back HostPathProvisioner_t true (crd_schema hppCRD) _ Hs Hz). by apply json_round_trip.
Qed.

(** C17: an admitted resource decodes.  The spec and the status of any document the
    schema admits are read without an error, whatever other keys it has, unless
    an integer is out of the range of its field or the methods of a time or a
    quantity refuse its text. *)
Theorem admitted_documents_are_read d :
  (validates spec_schema d = true →
   is_read (decode HostPathProvisionerSpec_t d) = readable HostPathProvisionerSpec_t d) ∧
  (validates status_schema d = true →
   is_read (decode HostPathProvisionerStatus_t d) = readable HostPathProvisionerStatus_t d).
Proof using Type.
  destruct parts_fit as (Hs & Hl & Hs' & Hl').
  split; intros Hd; [by apply (admitted_is_read _ true spec_schema)|by apply (admitted_is_read _ true status_schema)].
Qed.

End Fit.

(** The definition is that of the resource the scheme registers, the operator asks
    for and its rules name. *)
Lemma crd_is_the_resource :
  crd_name hppCRD = (crd_plural hppCRD ++ "." ++ crd_group hppCRD)%string ∧ crd_group hppCRD = hpp_group ∧
  resource_of KHostPathProvisioner = (crd_group hppCRD, crd_plural hppCRD, bool_decide (crd_scope hppCRD = "Namespaced")) ∧
  crd_served CreateCRDDef = true ∧ crd_storage CreateCRDDef = true.
Proof. repeat split. Qed.

(** ** Examples *)

(** Times and quantities are texts that are not empty. *)
#[local] Instance sample_formats : Formats := {|
  has_format := λ f s, bool_decide (f = "date-time" ∧ s ≠ "");
  matches := λ _ s, bool_decide (s ≠ "") |}.

Lemma sample_null_is_zero : null_is_zero HostPathProvisioner_t.
Proof. repeat (apply Forall_cons; split; [vm_compute; reflexivity|]). apply Forall_nil, I. Qed.

Definition gated_cr (gates : list string) : goval := struct_of HostPathProvisioner_t [
  ("Spec", struct_of HostPathProvisionerSpec_t [("FeatureGates", VSlice (Some (VString <$> gates)))])].

Definition unscheduled_cr (terms : option (list goval)) : goval := struct_of HostPathProvisioner_t [
  ("Spec", struct_of HostPathProvisionerSpec_t [
     ("Workload", struct_of NodePlacement_t [
        ("Affinity", VPtr (Some (struct_of Affinity_t [
           ("NodeAffinity", VPtr (Some (struct_of NodeAffinity_t [
              ("RequiredDuringSchedulingIgnoredDuringExecution",
               VPtr (Some (struct_of NodeSelector_t [("NodeSelectorTerms", VSlice terms)])))])))])))])])].

Lemma writes_are_admitted_witness :
  validates (crd_schema hppCRD) (encode HostPathProvisioner_t sample_cr) = true ∧
  validates (crd_schema hppCRD) (encode HostPathProvisioner_t (gated_cr ["naming"; "naming"])) = false ∧
  validates (crd_schema hppCRD) (encode HostPathProvisioner_t (unscheduled_cr None)) = false.
Proof.
  split; [|split];
    (rewrite (writes_are_admitted _); [vm_compute; reflexivity|vm_compute; reflexivity]).
Defined.

Lemma stored_resource_is_what_was_written_witness :
  stored (crd_schema hppCRD) (encode HostPathProvisioner_t sample_cr) ≠ encode HostPathProvisioner_t sample_cr ∧
  decode HostPathProvisioner_t (stored (crd_schema hppCRD) (encode HostPathProvisioner_t sample_cr)) =
    Some (norm HostPathProvisioner_t sample_cr).
Proof.
  split.
  - intros H%(f_equal (λ d, bool_decide (d = encode HostPathProvisioner_t sample_cr))). vm_compute in H. discriminate H.
  - assert (Hv : has_type HostPathProvisioner_t sample_cr = true) by (vm_compute; reflexivity).
    exact (stored_resource_is_what_was_written sample_cr sample_faithful sample_null_is_zero Hv).
Defined.

Lemma admitted_documents_are_read_witness :
  ∃ d, validates spec_schema d = true ∧ is_read (decode HostPathProvisionerSpec_t d) = true.
Proof.
  assert (Hd : validates spec_schema (JObj {["storagePools" := JArr []; "unknown" := JNum 1; "workload" := JNull]}) = true)
    by (vm_compute; reflexivity).
  eexists. split; [exact Hd|]. rewrite (proj1 (admitted_documents_are_read _) Hd). vm_compute. reflexivity.
Defined.
