(* ===== verification/Informers.v ===== *)
(** * The generated informer factory

    pkg/client/informers/externalversions: a factory shares one informer per type
    between any number of goroutines.  Its operations hold a mutex, range over
    maps, start goroutines and wait for them; the model is a step relation of
    threads that run these operations statement by statement and interleave
    between any two.  The theorems hold in every reachable state: an informer is
    run at most once, all callers get the same informer, a Shutdown that has
    returned leaves nothing behind, and no schedule deadlocks or goes on for ever. *)
From stdpp Require Import relations sets.
From S2P Require Import Prelude.

Section Informers.
Context {Client Transform ListOptions : Type}.

(** ** cache.SharedIndexInformer: what it was made from, and where it is *)

Abbreviation TweakListOptionsFunc := (ListOptions → ListOptions).

Record SharedIndexInformer := {
  i_ptr : nat;
  i_object : string;
  i_client : Client;
  i_tweak : option TweakListOptionsFunc;
  i_resync : Z;
  i_indexers : list string;
  i_transform : option Transform }.

Definition SetTransform (t : option Transform) (i : SharedIndexInformer) : SharedIndexInformer :=
  {| i_ptr := i_ptr i; i_object := i_object i; i_client := i_client i; i_tweak := i_tweak i;
     i_resync := i_resync i; i_indexers := i_indexers i; i_transform := t |}.

(** A function that allocates an informer; the first argument is the new address. *)
Abbreviation NewInformerFunc := (nat → Client → Z → SharedIndexInformer).

(** ** factory.go *)

(** The map from types to informers, their flags, the wait group and the mutex (the
    thread that holds it) *)
Record sharedInformerFactory := {
  client : Client;
  namespace : string;
  tweakListOptions : option TweakListOptionsFunc;
  lock : option nat;
  defaultResync : Z;
  customResync : gmap string Z;
  transform : option Transform;
  informers : gmap string SharedIndexInformer;
  startedInformers : gmap string bool;
  wg : Z;
  shuttingDown : bool }.

Abbreviation factory := sharedInformerFactory.

Definition with_lock (l : option nat) (f : factory) : factory :=
  Build_sharedInformerFactory (client f) (namespace f) (tweakListOptions f) l (defaultResync f) (customResync f)
    (transform f) (informers f) (startedInformers f) (wg f) (shuttingDown f).
Definition with_informer (t : string) (i : SharedIndexInformer) (f : factory) : factory :=
  Build_sharedInformerFactory (client f) (namespace f) (tweakListOptions f) (lock f) (defaultResync f) (customResync f)
    (transform f) (<[t := i]> (informers f)) (startedInformers f) (wg f) (shuttingDown f).
Definition with_started (t : string) (f : factory) : factory :=
  Build_sharedInformerFactory (client f) (namespace f) (tweakListOptions f) (lock f) (defaultResync f) (customResync f)
    (transform f) (informers f) (<[t := true]> (startedInformers f)) (wg f) (shuttingDown f).
Definition with_wg (n : Z) (f : factory) : factory :=
  Build_sharedInformerFactory (client f) (namespace f) (tweakListOptions f) (lock f) (defaultResync f) (customResync f)
    (transform f) (informers f) (startedInformers f) n (shuttingDown f).
Definition with_shuttingDown (f : factory) : factory :=
  Build_sharedInformerFactory (client f) (namespace f) (tweakListOptions f) (lock f) (defaultResync f) (customResync f)
    (transform f) (informers f) (startedInformers f) (wg f) true.

(** *** Construction *)

Abbreviation SharedInformerOption := (factory → factory).

Definition WithCustomResyncConfig (resyncConfig : gmap string Z) : SharedInformerOption := λ f,
  Build_sharedInformerFactory (client f) (namespace f) (tweakListOptions f) (lock f) (defaultResync f)
    (resyncConfig ∪ customResync f) (transform f) (informers f) (startedInformers f) (wg f) (shuttingDown f).
Definition WithTweakListOptions (tweak : option TweakListOptionsFunc) : SharedInformerOption := λ f,
  Build_sharedInformerFactory (client f) (namespace f) tweak (lock f) (defaultResync f) (customResync f)
    (transform f) (informers f) (startedInformers f) (wg f) (shuttingDown f).
Definition WithNamespace (ns : string) : SharedInformerOption := λ f,
  Build_sharedInformerFactory (client f) ns (tweakListOptions f) (lock f) (defaultResync f) (customResync f)
    (transform f) (informers f) (startedInformers f) (wg f) (shuttingDown f).
Definition WithTransform (t : option Transform) : SharedInformerOption := λ f,
  Build_sharedInformerFactory (client f) (namespace f) (tweakListOptions f) (lock f) (defaultResync f) (customResync f)
    t (informers f) (startedInformers f) (wg f) (shuttingDown f).

Definition NewSharedInformerFactoryWithOptions (c : Client) (resync : Z) (options : list SharedInformerOption) : factory :=
  fold_left (λ f opt, opt f) options
    (Build_sharedInformerFactory c "" None None resync ∅ None ∅ ∅ 0 false).

Definition NewSharedInformerFactory (c : Client) (resync : Z) : factory := NewSharedInformerFactoryWithOptions c resync [].

Definition NewFilteredSharedInformerFactory (c : Client) (resync : Z) (ns : string) (tweak : option TweakListOptionsFunc) : factory :=
  NewSharedInformerFactoryWithOptions c resync [WithNamespace ns; WithTweakListOptions tweak].

(** *** [InformerFor], while it holds the mutex *)
Definition InformerFor (ptr : nat) (informerType : string) (newFunc : NewInformerFunc) (f : factory) : SharedIndexInformer * factory :=
  match informers f !! informerType with
  | Some informer => (informer, f)
  | None =>
      let resyncPeriod := default (defaultResync f) (customResync f !! informerType) in
      let informer := SetTransform (transform f) (newFunc ptr (client f) resyncPeriod) in
      (informer, with_informer informerType informer f)
  end.

(** *** hostpathprovisioner/v1beta1: the informer of HostPathProvisioners *)

Definition NewFilteredHostPathProvisionerInformer (tweak : option TweakListOptionsFunc) (indexers : list string) : NewInformerFunc :=
  λ ptr c resync,
    {| i_ptr := ptr; i_object := "HostPathProvisioner"; i_client := c; i_tweak := tweak; i_resync := resync;
       i_indexers := indexers; i_transform := None |}.

Definition NewHostPathProvisionerInformer (indexers : list string) : NewInformerFunc :=
  NewFilteredHostPathProvisionerInformer None indexers.

Definition defaultInformer (tweak : option TweakListOptionsFunc) : NewInformerFunc :=
  NewFilteredHostPathProvisionerInformer tweak ["namespace"].

(** ** Threads *)

(** The operations, as they are called: with a stop channel, or a type and how to make
    its informer *)
Inductive call :=
| CStart (stopCh : nat)
| CShutdown
| CWaitForCacheSync (stopCh : nat)
| CInformerFor (obj : string) (newFunc : NewInformerFunc).

Inductive answer :=
| RUnit
| RSynced (res : gmap string bool)
| RInformer (i : SharedIndexInformer).

(** [Informer()] of a HostPathProvisionerInformer, and [ForResource] *)
Definition Informer (f : factory) : call := CInformerFor "HostPathProvisioner" (defaultInformer (tweakListOptions f)).

Definition ForResource (f : factory) (group version resource : string) : result call :=
  if bool_decide ((group, version, resource) = ("hostpathprovisioner.kubevirt.io", "v1beta1", "hostpathprovisioners"))
  then Ok (Informer f)
  else Err (Errorf ("no informer found for " ++ group ++ "/" ++ version ++ ", Resource=" ++ resource)).

(** Where a thread is.  [Starting] is at the head of the loop of [Start], [Spawning]
    after [f.wg.Add(1)], [Marking] after the [go] statement; [Waiting] is at
    [f.wg.Wait()]; [Syncing] in the second loop of [WaitForCacheSync]. *)
Inductive pc :=
| Locking (c : call)
| Starting (stopCh : nat) (todo : list (string * SharedIndexInformer))
| Spawning (stopCh : nat) (t : string) (i : SharedIndexInformer) (todo : list (string * SharedIndexInformer))
| Marking (stopCh : nat) (t : string) (todo : list (string * SharedIndexInformer))
| ShutdownUnlocking
| Waiting
| SyncUnlocking (stopCh : nat) (todo : list (string * SharedIndexInformer))
| Syncing (stopCh : nat) (todo : list (string * SharedIndexInformer)) (res : gmap string bool)
| Unlocking (c : call) (r : answer)
| Returned (c : call) (r : answer).

(** The goroutines that run an informer are [live]; [spawned] are all there have
    been. *)
Record goroutine := { g_type : string; g_informer : SharedIndexInformer; g_stop : nat }.

Record world := {
  fac : factory;
  threads : list pc;
  live : list goroutine;
  spawned : list (string * SharedIndexInformer);
  closed : gset nat;
  synced : gset nat;
  next : nat }.

Definition set_fac (f : factory) (tid : nat) (p : pc) (w : world) : world :=
  {| fac := f; threads := <[tid := p]> (threads w); live := live w; spawned := spawned w;
     closed := closed w; synced := synced w; next := next w |}.
Definition set_pc (tid : nat) (p : pc) (w : world) : world := set_fac (fac w) tid p w.

(** The started informers, as [WaitForCacheSync] collects them *)
Definition started (f : factory) (t : string) : bool := default false (startedInformers f !! t).

(** One statement of a thread, or a goroutine that ends *)
Inductive step : world → world → Prop :=
| step_start_refused tid w stopCh :
    threads w !! tid = Some (Locking (CStart stopCh)) → lock (fac w) = None → shuttingDown (fac w) = true →
    step w (set_fac (with_lock (Some tid) (fac w)) tid (Unlocking (CStart stopCh) RUnit) w)
| step_start tid w stopCh order :
    threads w !! tid = Some (Locking (CStart stopCh)) → lock (fac w) = None → shuttingDown (fac w) = false →
    order ≡ₚ map_to_list (informers (fac w)) →
    step w (set_fac (with_lock (Some tid) (fac w)) tid (Starting stopCh order) w)
| step_skip tid w stopCh t i todo :
    threads w !! tid = Some (Starting stopCh ((t, i) :: todo)) → started (fac w) t = true →
    step w (set_pc tid (Starting stopCh todo) w)
| step_add tid w stopCh t i todo :
    threads w !! tid = Some (Starting stopCh ((t, i) :: todo)) → started (fac w) t = false →
    step w (set_fac (with_wg (wg (fac w) + 1) (fac w)) tid (Spawning stopCh t i todo) w)
| step_go tid w stopCh t i todo :
    threads w !! tid = Some (Spawning stopCh t i todo) →
    step w {| fac := fac w; threads := <[tid := Marking stopCh t todo]> (threads w);
              live := {| g_type := t; g_informer := i; g_stop := stopCh |} :: live w; spawned := (t, i) :: spawned w;
              closed := closed w; synced := synced w; next := next w |}
| step_mark tid w stopCh t todo :
    threads w !! tid = Some (Marking stopCh t todo) →
    step w (set_fac (with_started t (fac w)) tid (Starting stopCh todo) w)
| step_end tid w stopCh :
    threads w !! tid = Some (Starting stopCh []) →
    step w (set_pc tid (Unlocking (CStart stopCh) RUnit) w)
| step_shutdown tid w :
    threads w !! tid = Some (Locking CShutdown) → lock (fac w) = None →
    step w (set_fac (with_lock (Some tid) (with_shuttingDown (fac w))) tid ShutdownUnlocking w)
| step_shutdown_unlock tid w :
    threads w !! tid = Some ShutdownUnlocking →
    step w (set_fac (with_lock None (fac w)) tid Waiting w)
| step_wait tid w :
    threads w !! tid = Some Waiting → wg (fac w) = 0 →
    step w (set_pc tid (Returned CShutdown RUnit) w)
| step_sync_lock tid w stopCh order :
    threads w !! tid = Some (Locking (CWaitForCacheSync stopCh)) → lock (fac w) = None →
    order ≡ₚ filter (λ ti, started (fac w) ti.1 = true) (map_to_list (informers (fac w))) →
    step w (set_fac (with_lock (Some tid) (fac w)) tid (SyncUnlocking stopCh order) w)
| step_sync_unlock tid w stopCh todo :
    threads w !! tid = Some (SyncUnlocking stopCh todo) →
    step w (set_fac (with_lock None (fac w)) tid (Syncing stopCh todo ∅) w)
| step_sync tid w stopCh t i todo res b :
    threads w !! tid = Some (Syncing stopCh ((t, i) :: todo) res) →
    (if b : bool then i_ptr i ∈ synced w else stopCh ∈ closed w) →
    step w (set_pc tid (Syncing stopCh todo (<[t := b]> res)) w)
| step_sync_end tid w stopCh res :
    threads w !! tid = Some (Syncing stopCh [] res) →
    step w (set_pc tid (Returned (CWaitForCacheSync stopCh) (RSynced res)) w)
| step_informer tid w obj newFunc i f :
    threads w !! tid = Some (Locking (CInformerFor obj newFunc)) → lock (fac w) = None →
    InformerFor (next w) obj newFunc (fac w) = (i, f) →
    step w {| fac := with_lock (Some tid) f; threads := <[tid := Unlocking (CInformerFor obj newFunc) (RInformer i)]> (threads w);
              live := live w; spawned := spawned w; closed := closed w; synced := synced w; next := S (next w) |}
| step_unlock tid w c r :
    threads w !! tid = Some (Unlocking c r) →
    step w (set_fac (with_lock None (fac w)) tid (Returned c r) w)
| step_done w l g l' :
    live w = l ++ g :: l' → g_stop g ∈ closed w →
    step w {| fac := with_wg (wg (fac w) - 1) (fac w); threads := threads w; live := l ++ l'; spawned := spawned w;
              closed := closed w; synced := synced w; next := next w |}.

(** What others do: call an operation in a new thread, close a channel; and the cache
    of a running informer gets in sync. *)
Inductive env_step : world → world → Prop :=
| env_call w c :
    env_step w {| fac := fac w; threads := threads w ++ [Locking c]; live := live w; spawned := spawned w;
                  closed := closed w; synced := synced w; next := next w |}
| env_close w ch :
    env_step w {| fac := fac w; threads := threads w; live := live w; spawned := spawned w;
                  closed := {[ch]} ∪ closed w; synced := synced w; next := next w |}
| env_sync w g :
    g ∈ live w →
    env_step w {| fac := fac w; threads := threads w; live := live w; spawned := spawned w;
                  closed := closed w; synced := {[i_ptr (g_informer g)]} ∪ synced w; next := next w |}.

Definition any_step (w w' : world) : Prop := step w w' ∨ env_step w w'.

(** A new factory, before any call *)
Definition fresh_world (c : Client) (resync : Z) (options : list SharedInformerOption) : world :=
  {| fac := NewSharedInformerFactoryWithOptions c resync options; threads := []; live := []; spawned := [];
     closed := ∅; synced := ∅; next := 0 |}.

(** The options of the package; its fields are not visible outside. *)
Inductive is_option : SharedInformerOption → Prop :=
| is_custom_resync r : is_option (WithCustomResyncConfig r)
| is_tweak o : is_option (WithTweakListOptions o)
| is_namespace ns : is_option (WithNamespace ns)
| is_transform t : is_option (WithTransform t).

Inductive reachable : world → Prop :=
| reachable_fresh c resync options : Forall is_option options → reachable (fresh_world c resync options)
| reachable_step w w' : reachable w → any_step w w' → reachable w'.

(** ** The mutex *)

Definition critical (p : pc) : bool :=
  match p with
  | Starting _ _ | Spawning _ _ _ _ | Marking _ _ _ | ShutdownUnlocking | SyncUnlocking _ _ | Unlocking _ _ => true
  | _ => false
  end.

(** The thread that holds the mutex is the one in a critical section. *)
Definition exclusive (w : world) : Prop :=
  (∀ tid p, threads w !! tid = Some p → critical p = true → lock (fac w) = Some tid) ∧
  (∀ tid, lock (fac w) = Some tid → ∃ p, threads w !! tid = Some p ∧ critical p = true).

Lemma InformerFor_lock ptr obj newFunc f i f' : InformerFor ptr obj newFunc f = (i, f') → lock f' = lock f.
Proof using Type. unfold InformerFor. by destruct (informers f !! obj); intros [= <- <-]. Qed.

Lemma exclusive_enter w tid p p' w' :
  exclusive w → threads w !! tid = Some p → threads w' = <[tid := p']> (threads w) → 
  lock (fac w) = None → critical p' = true → lock (fac w') = Some tid → exclusive w'.
Proof using Type.
  intros [H1 H2] Ht Hw' Hl Hp' Hf. split; rewrite Hw'.
  - intros tid' q [(<- & <- & _)|[Hne Hq]]%list_lookup_insert_Some Hc; [done|]. rewrite (H1 _ _ Hq Hc) in Hl. done.
  - intros tid'. rewrite Hf. intros [= <-]. exists p'. split; [|done]. apply list_lookup_insert_eq. by eapply lookup_lt_Some.
Qed.

Lemma exclusive_stay w tid p p' w' :
  exclusive w → threads w !! tid = Some p → threads w' = <[tid := p']> (threads w) → 
  critical p' = critical p → lock (fac w') = lock (fac w) → exclusive w'.
Proof using Type.
  intros [H1 H2] Ht Hw' Hp' Hf. split; rewrite Hw', Hf.
  - intros tid' q [(<- & <- & _)|[Hne Hq]]%list_lookup_insert_Some Hc; [|by eauto]. rewrite Hp' in Hc. by eauto.
  - intros tid' Hl. destruct (H2 tid' Hl) as (q & Hq & Hc). destruct (decide (tid = tid')) as [->|Hne].
    + exists p'. rewrite Hq in Ht. injection Ht as ->. split; [|congruence]. apply list_lookup_insert_eq. by eapply lookup_lt_Some.
    + exists q. by rewrite list_lookup_insert_ne.
Qed.

Lemma exclusive_leave w tid p p' w' :
  exclusive w → threads w !! tid = Some p → threads w' = <[tid := p']> (threads w) → 
  critical p = true → critical p' = false → lock (fac w') = None → exclusive w'.
Proof using Type.
  intros [H1 H2] Ht Hw' Hp Hp' Hf. pose proof (H1 tid p Ht Hp) as Hl. split; rewrite Hw', Hf; [|done].
  intros tid' q [(<- & <- & _)|[Hne Hq]]%list_lookup_insert_Some Hc; [congruence|].
  rewrite (H1 _ _ Hq Hc) in Hl. congruence.
Qed.

Lemma exclusive_step w w' : any_step w w' → exclusive w → exclusive w'.
Proof using Type.
  intros [Hs|Hs] He.
  - inversion Hs; subst; first
      [ eapply exclusive_enter; [exact He|eassumption|reflexivity|done..]
      | eapply exclusive_stay; [exact He|eassumption|reflexivity|done..]
      | eapply exclusive_leave; [exact He|eassumption|reflexivity|done..]
      | exact He ].
  - inversion Hs; subst; try done. destruct He as [H1 H2]. split; cbn.
    + intros tid p [Hp|[_ Hp]]%lookup_app_Some Hc; [by eauto|]. by apply list_lookup_singleton_Some in Hp as [_ <-].
    + intros tid Hl. destruct (H2 tid Hl) as (p & Hp & Hc). exists p. split; [|done]. by apply lookup_app_l_Some.
Qed.

(** ** The invariant *)

(** Where the thread that holds the mutex is *)
Definition holder (w : world) : option pc := tid ← lock (fac w); threads w !! tid.

(** A goroutine that is counted and not started yet; a type that is started and not
    marked yet *)
Definition pending (o : option pc) : Z := match o with Some (Spawning _ _ _ _) => 1 | _ => 0 end.
Definition marking (o : option pc) : option string := match o with Some (Marking _ t _) => Some t | _ => None end.

(** The entries of a loop are informers of the factory, of distinct types. *)
Definition entries (f : factory) (l : list (string * SharedIndexInformer)) : Prop :=
  NoDup l.*1 ∧ ∀ t i, (t, i) ∈ l → informers f !! t = Some i.

(** What is known where a thread is *)
Definition thread_ok (f : factory) (gs : list goroutine) (p : pc) : Prop :=
  match p with
  | Starting _ todo => shuttingDown f = false ∧ entries f todo
  | Spawning _ t i todo => shuttingDown f = false ∧ entries f ((t, i) :: todo) ∧ started f t = false
  | Marking _ t todo => shuttingDown f = false ∧ ∃ i, entries f ((t, i) :: todo)
  | ShutdownUnlocking | Waiting => shuttingDown f = true
  | Unlocking CShutdown _ => False
  | Returned CShutdown _ => shuttingDown f = true ∧ gs = []
  | Unlocking (CInformerFor t _) a | Returned (CInformerFor t _) a => ∃ i, a = RInformer i ∧ informers f !! t = Some i
  | _ => True
  end.

Record consistent (w : world) : Prop := {
  c_exclusive : exclusive w;
  c_threads : ∀ tid p, threads w !! tid = Some p → thread_ok (fac w) (live w) p;
  c_counted : wg (fac w) = Z.of_nat (length (live w)) + pending (holder w);
  c_once : NoDup (spawned w).*1;
  c_started : ∀ t, t ∈ (spawned w).*1 ↔ started (fac w) t = true ∨ marking (holder w) = Some t;
  c_spawned : ∀ t i, (t, i) ∈ spawned w → informers (fac w) !! t = Some i;
  c_live : ∀ g, g ∈ live w → (g_type g, g_informer g) ∈ spawned w }.

Lemma holder_own w tid p : exclusive w → threads w !! tid = Some p → critical p = true → holder w = Some p.
Proof using Type. intros [H1 _] Ht Hc. unfold holder. by rewrite (H1 tid p Ht Hc). Qed.


Lemma holder_none w : lock (fac w) = None → holder w = None.
Proof using Type. unfold holder. by intros ->. Qed.

Lemma holder_other w w' tid p p' :
  exclusive w → threads w !! tid = Some p → critical p = false → threads w' = <[tid := p']> (threads w) →
  lock (fac w') = lock (fac w) → holder w' = holder w.
Proof using Type.
  intros [_ H2] Ht Hc Hw' Hl. unfold holder. rewrite Hl, Hw'. destruct (lock (fac w)) as [tid'|] eqn:Hlock; [|done]. cbn.
  destruct (H2 tid' eq_refl) as (q & Hq & Hqc). apply list_lookup_insert_ne. intros ->. congruence.
Qed.

Lemma threads_set w w' tid p' :
  threads w' = <[tid := p']> (threads w) →
  thread_ok (fac w') (live w') p' →
  (∀ tid' p, tid' ≠ tid → threads w !! tid' = Some p → thread_ok (fac w') (live w') p) →
  ∀ tid' p, threads w' !! tid' = Some p → thread_ok (fac w') (live w') p.
Proof using Type.
  intros -> Hp' Ho tid' p [(<- & <- & _)|[Hne Hp]]%list_lookup_insert_Some; [done|by eauto].
Qed.

(** Changes that leave what is known of a thread *)
Record kept (p : pc) (f f' : factory) (gs gs' : list goroutine) : Prop := {
  k_informers : ∀ t i, informers f !! t = Some i → informers f' !! t = Some i;
  k_shutting : shuttingDown f = true → shuttingDown f' = true;
  k_critical : critical p = true → shuttingDown f' = shuttingDown f ∧ startedInformers f' = startedInformers f;
  k_live : gs = [] → shuttingDown f = true → gs' = [] }.

Lemma thread_kept p f f' gs gs' : kept p f f' gs gs' → thread_ok f gs p → thread_ok f' gs' p.
Proof using Type.
  intros [Hi Hs Hc Hl]. assert (∀ l, entries f l → entries f' l) as He by (intros l [Hn Hl']; split; eauto).
  destruct p as [| | | | | | | |[]|[]]; cbn; try done; try (by auto).
  - destruct (Hc eq_refl) as [-> _]. intros [? ?]. by auto.
  - destruct (Hc eq_refl) as [-> Hst]. intros (? & ? & ?). unfold started. rewrite Hst. by auto.
  - destruct (Hc eq_refl) as [-> _]. intros [? [i ?]]. by eauto.
  - intros (i & -> & ?). by eauto.
  - intros [? ?]. by auto.
  - intros (i & -> & ?). by eauto.
Qed.

Lemma consistent_neutral w w' tid p p' :
  consistent w → exclusive w' → threads w !! tid = Some p → threads w' = <[tid := p']> (threads w) →
  live w' = live w → spawned w' = spawned w → informers (fac w') = informers (fac w) →
  startedInformers (fac w') = startedInformers (fac w) → shuttingDown (fac w') = shuttingDown (fac w) →
  wg (fac w') = wg (fac w) → pending (holder w') = pending (holder w) → marking (holder w') = marking (holder w) →
  thread_ok (fac w') (live w') p' → consistent w'.
Proof using Type.
  intros HC He Ht Hw' Hl Hs Hi Hst Hsh Hwg Hp Hm Hok. destruct HC as [_ Hthreads Hc Ho Hstarted Hsp Hlive].
  assert (∀ p, kept p (fac w) (fac w') (live w) (live w')) as Hk by (intros q; constructor; rewrite ?Hi, ?Hsh, ?Hst, ?Hl; auto).
  constructor; try done.
  - eapply threads_set; [done|done|]. intros tid' q _ Hq. eapply thread_kept; [apply Hk|by eauto].
  - by rewrite Hwg, Hl, Hp.
  - by rewrite Hs.
  - intros t. rewrite Hs, Hm, Hstarted. unfold started. by rewrite Hst.
  - intros t i. rewrite Hs, Hi. auto.
  - intros g. rewrite Hl, Hs. auto.
Qed.

(** The thread in a step, with what is known there *)
Lemma consistent_thread w tid p : consistent w → threads w !! tid = Some p → thread_ok (fac w) (live w) p.
Proof using Type. intros HC. apply (c_threads w HC). Qed.

Lemma set_lookup {A} (l : list A) tid x y : l !! tid = Some x → <[tid := y]> l !! tid = Some y.
Proof using Type. intros Hl. apply list_lookup_insert_eq. by eapply lookup_lt_Some. Qed.

Lemma holder_new w w' tid p p' :
  exclusive w' → threads w !! tid = Some p → threads w' = <[tid := p']> (threads w) → critical p' = true → holder w' = Some p'.
Proof using Type. intros He Ht Hw' Hc. apply (holder_own w' tid); [done| |done]. rewrite Hw'. by eapply set_lookup. Qed.

Lemma order_entries f order : order ≡ₚ map_to_list (informers f) → entries f order.
Proof using Type.
  intros Ho. split.
  - rewrite Ho. apply NoDup_fst_map_to_list.
  - intros t i. rewrite Ho. by rewrite elem_of_map_to_list.
Qed.

Lemma entries_tail f x l : entries f (x :: l) → entries f l.
Proof using Type.
  intros [Hn Hl]. apply NoDup_cons in Hn as [_ Hn]. split; [done|]. intros t i Hin. apply Hl. by right.
Qed.

Lemma holder_free w w' tid p p' :
  exclusive w → lock (fac w) = None → exclusive w' → threads w !! tid = Some p →
  threads w' = <[tid := p']> (threads w) → critical p' = true → pending (Some p') = 0 → marking (Some p') = None →
  pending (holder w') = pending (holder w) ∧ marking (holder w') = marking (holder w).
Proof using Type.
  intros He Hl He' Ht Hw' Hc Hp Hm. rewrite (holder_new w w' tid p p'), (holder_none w) by done. by rewrite Hp, Hm.
Qed.

Lemma shut_no_loop w :
  consistent w → lock (fac w) = None → ∀ tid p, threads w !! tid = Some p → critical p = false.
Proof using Type.
  intros HC Hl tid p Ht. destruct (critical p) eqn:Hc; [|done].
  pose proof (proj1 (c_exclusive w HC) tid p Ht Hc). congruence.
Qed.

Lemma only_critical w tid p tid' q :
  exclusive w → threads w !! tid = Some p → critical p = true → threads w !! tid' = Some q → tid' ≠ tid → critical q = false.
Proof using Type.
  intros [H1 _] Ht Hc Hq Hne. destruct (critical q) eqn:Hcq; [|done].
  pose proof (H1 _ _ Ht Hc) as Hl. pose proof (H1 _ _ Hq Hcq) as Hl'. congruence.
Qed.

Lemma consistent_add w tid stopCh t i todo :
  let w' := set_fac (with_wg (wg (fac w) + 1) (fac w)) tid (Spawning stopCh t i todo) w in
  consistent w → exclusive w' → threads w !! tid = Some (Starting stopCh ((t, i) :: todo)) → started (fac w) t = false →
  consistent w'.
Proof using Type.
  intros w' HC He Ht Hst. pose proof (consistent_thread w _ _ HC Ht) as [Hsh Hen].
  assert (holder w = Some (Starting stopCh ((t, i) :: todo))) as Hh by (apply (holder_own w tid); [apply HC|done|done]).
  assert (holder w' = Some (Spawning stopCh t i todo)) as Hh' by (by eapply holder_new).
  destruct HC as [_ Hthreads Hc Ho Hstarted Hsp Hlive]. rewrite Hh in Hc, Hstarted. constructor; try done.
  - eapply threads_set; [reflexivity|done|]. intros tid' q _ Hq. eapply thread_kept; [|by eapply Hthreads]. done.
  - rewrite Hh'. unfold w'. cbn in *. lia.
  - intros t'. by rewrite Hh'.
Qed.

Lemma consistent_go w tid stopCh t i todo :
  let w' := {| fac := fac w; threads := <[tid := Marking stopCh t todo]> (threads w);
              live := {| g_type := t; g_informer := i; g_stop := stopCh |} :: live w; spawned := (t, i) :: spawned w;
              closed := closed w; synced := synced w; next := next w |} in
  consistent w → exclusive w' → threads w !! tid = Some (Spawning stopCh t i todo) → consistent w'.
Proof using Type.
  intros w' HC He Ht. pose proof (consistent_thread w _ _ HC Ht) as (Hsh & Hen & Hst).
  assert (holder w = Some (Spawning stopCh t i todo)) as Hh by (apply (holder_own w tid); [apply HC|done|done]).
  assert (holder w' = Some (Marking stopCh t todo)) as Hh' by (by eapply holder_new).
  destruct HC as [_ Hthreads Hc Ho Hstarted Hsp Hlive]. rewrite Hh in Hc, Hstarted. constructor; try done.
  - eapply threads_set; [reflexivity|by split; [|exists i]|]. intros tid' q _ Hq. eapply thread_kept; [|by eapply Hthreads].
    constructor; try done. congruence.
  - rewrite Hh'. unfold w'. cbn in *. lia.
  - cbn. apply NoDup_cons. split; [|done]. rewrite Hstarted. cbn. intros [?|?]; congruence.
  - intros t'. rewrite Hh'. cbn. rewrite elem_of_cons, Hstarted. cbn. naive_solver.
  - intros t' i' [[= -> ->]|Hin]%elem_of_cons; [|by apply Hsp]. apply Hen. by left.
  - intros g [->|Hin]%elem_of_cons; [by left|right; by apply Hlive].
Qed.

Lemma consistent_mark w tid stopCh t todo :
  let w' := set_fac (with_started t (fac w)) tid (Starting stopCh todo) w in
  consistent w → exclusive w' → threads w !! tid = Some (Marking stopCh t todo) → consistent w'.
Proof using Type.
  intros w' HC He Ht. pose proof (consistent_thread w _ _ HC Ht) as (Hsh & i & Hen).
  assert (holder w = Some (Marking stopCh t todo)) as Hh by (apply (holder_own w tid); [apply HC|done|done]).
  assert (holder w' = Some (Starting stopCh todo)) as Hh' by (by eapply holder_new).
  pose proof (λ tid' q, only_critical w tid _ tid' q (c_exclusive w HC) Ht eq_refl) as Hother.
  destruct HC as [_ Hthreads Hc Ho Hstarted Hsp Hlive]. rewrite Hh in Hc, Hstarted. constructor; try done.
  - eapply threads_set; [reflexivity|split; [done|by eapply entries_tail]|]. intros tid' q Hne Hq.
    eapply thread_kept; [|by eapply Hthreads]. constructor; try done. intros Hcq. rewrite (Hother tid' q Hq Hne) in Hcq. done.
  - rewrite Hh'. exact Hc.
  - intros t'. rewrite Hh'. cbn. rewrite Hstarted. unfold w', started. cbn. rewrite lookup_insert. case_decide; naive_solver.
Qed.

Lemma consistent_shutdown w tid :
  let w' := set_fac (with_lock (Some tid) (with_shuttingDown (fac w))) tid ShutdownUnlocking w in
  consistent w → exclusive w' → threads w !! tid = Some (Locking CShutdown) → lock (fac w) = None → consistent w'.
Proof using Type.
  intros w' HC He Ht Hl. pose proof (shut_no_loop w HC Hl) as Hno.
  assert (holder w' = Some ShutdownUnlocking) as Hh' by (by eapply holder_new).
  destruct HC as [_ Hthreads Hc Ho Hstarted Hsp Hlive]. rewrite (holder_none w Hl) in Hc, Hstarted. constructor; try done.
  - eapply threads_set; [reflexivity|done|]. intros tid' q _ Hq. eapply thread_kept; [|by eapply Hthreads].
    constructor; try done. rewrite (Hno tid' q Hq). done.
  - by rewrite Hh'.
  - intros t. by rewrite Hh'.
Qed.

Lemma consistent_informer w tid obj newFunc i f :
  let w' := {| fac := with_lock (Some tid) f; threads := <[tid := Unlocking (CInformerFor obj newFunc) (RInformer i)]> (threads w);
               live := live w; spawned := spawned w; closed := closed w; synced := synced w; next := S (next w) |} in
  consistent w → exclusive w' → threads w !! tid = Some (Locking (CInformerFor obj newFunc)) → lock (fac w) = None →
  InformerFor (next w) obj newFunc (fac w) = (i, f) → consistent w'.
Proof using Type.
  intros w' HC He Ht Hl Hi.
  assert (holder w' = Some (Unlocking (CInformerFor obj newFunc) (RInformer i))) as Hh' by (by eapply holder_new).
  assert (informers f !! obj = Some i ∧ (∀ t j, informers (fac w) !! t = Some j → informers f !! t = Some j) ∧
          startedInformers f = startedInformers (fac w) ∧ shuttingDown f = shuttingDown (fac w) ∧ wg f = wg (fac w))
    as (Hobj & Hext & Hst & Hsh & Hwg).
  { unfold InformerFor in Hi. destruct (informers (fac w) !! obj) as [j|] eqn:Hj; injection Hi as <- <-; [done|].
    cbn. rewrite lookup_insert_eq. split_and!; try done. intros t j Ht'. rewrite lookup_insert_ne; [done|]. intros <-. congruence. }
  destruct HC as [_ Hthreads Hc Ho Hstarted Hsp Hlive]. rewrite (holder_none w Hl) in Hc, Hstarted. constructor; try done.
  - eapply threads_set; [reflexivity|by exists i|]. intros tid' q _ Hq. eapply thread_kept; [|by eapply Hthreads].
    constructor; cbn; try done. by rewrite Hsh.
  - rewrite Hh'. cbn. by rewrite Hwg.
  - intros t. rewrite Hh'. cbn. rewrite Hstarted. unfold started. cbn. by rewrite Hst.
  - intros t j Hin. apply Hext. by apply Hsp.
Qed.

Lemma consistent_done w l g l' :
  let w' := {| fac := with_wg (wg (fac w) - 1) (fac w); threads := threads w; live := l ++ l'; spawned := spawned w;
               closed := closed w; synced := synced w; next := next w |} in
  consistent w → exclusive w' → live w = l ++ g :: l' → consistent w'.
Proof using Type.
  intros w' HC He Hg. assert (holder w' = holder w) as Hh by done.
  destruct HC as [_ Hthreads Hc Ho Hstarted Hsp Hlive]. constructor; try done.
  - intros tid p Hp. eapply thread_kept; [|by eapply Hthreads]. constructor; try done. rewrite Hg. by destruct l.
  - rewrite Hh. cbn. rewrite Hc, Hg, !length_app. cbn. lia.
  - intros g' Hin. apply Hlive. rewrite Hg. cbn in Hin. apply elem_of_app. apply elem_of_app in Hin as [|]; [by left|right; by right].
Qed.

Lemma consistent_wait w tid :
  consistent w → threads w !! tid = Some Waiting → wg (fac w) = 0 → live w = [].
Proof using Type.
  intros HC Ht Hwg. pose proof (c_counted w HC) as Hc. rewrite Hwg in Hc.
  assert (0 <= pending (holder w)) by (destruct (holder w) as [[]|]; done).
  destruct (live w); [done|]. cbn in Hc. lia.
Qed.

(** A thread takes the mutex, keeps or gives it back, or runs without it, and nothing
    is counted or marked. *)
Lemma consistent_quiet w f tid p p' :
  let w' := set_fac f tid p' w in
  consistent w → exclusive w' → threads w !! tid = Some p →
  informers f = informers (fac w) → startedInformers f = startedInformers (fac w) →
  shuttingDown f = shuttingDown (fac w) → wg f = wg (fac w) →
  pending (Some p) = 0 → marking (Some p) = None → pending (Some p') = 0 → marking (Some p') = None →
  (critical p = false → critical p' = false → lock f = lock (fac w)) →
  (critical p = false → critical p' = true → lock (fac w) = None) →
  (critical p = true → critical p' = false → lock f = None) →
  thread_ok f (live w) p' → consistent w'.
Proof using Type.
  intros w' HC He Ht Hi Hst Hsh Hwg Hp Hm Hp' Hm' Hrun Hin Hout Hok.
  assert (pending (holder w') = pending (holder w) ∧ marking (holder w') = marking (holder w)) as [? ?].
  { pose proof (c_exclusive w HC) as He0. destruct (critical p) eqn:Hc, (critical p') eqn:Hc'.
    - rewrite (holder_new w w' tid p p'), (holder_own w tid p) by done. by rewrite Hp, Hp', Hm, Hm'.
    - rewrite (holder_none w'), (holder_own w tid p) by auto. by rewrite Hp, Hm.
    - by apply (holder_free w w' tid p p'); auto.
    - rewrite (holder_other w w' tid p p') by auto. done. }
  by eapply (consistent_neutral w w' tid p p').
Qed.

Ltac quiet HC He := eapply (consistent_quiet _ _ _ _ _ HC He); [eassumption|try done..].

Lemma consistent_step w w' : step w w' → consistent w → consistent w'.
Proof using Type.
  intros Hs HC. pose proof (exclusive_step w w' (or_introl Hs) (c_exclusive w HC)) as He.
  inversion Hs; subst; try match goal with H : threads w !! _ = Some _ |- _ => pose proof (consistent_thread w _ _ HC H) as Hok end.
  - quiet HC He.
  - quiet HC He. split; [done|by apply order_entries].
  - destruct Hok as [? ?]. quiet HC He. split; [done|by eapply entries_tail].
  - by apply consistent_add.
  - by eapply consistent_go.
  - by apply consistent_mark.
  - quiet HC He.
  - by apply consistent_shutdown.
  - quiet HC He.
  - quiet HC He. split; [done|]. by eapply consistent_wait.
  - quiet HC He.
  - quiet HC He.
  - quiet HC He.
  - quiet HC He.
  - by eapply consistent_informer.
  - quiet HC He. by destruct c.
  - by eapply consistent_done.
Qed.

Lemma consistent_env w w' : env_step w w' → consistent w → consistent w'.
Proof using Type.
  intros Hs HC. pose proof (exclusive_step w w' (or_intror Hs) (c_exclusive w HC)) as He.
  inversion Hs; subst; [|destruct HC; by constructor..].
  assert (holder {| fac := fac w; threads := threads w ++ [Locking c]; live := live w; spawned := spawned w;
                    closed := closed w; synced := synced w; next := next w |} = holder w) as Hh.
  { unfold holder. cbn. destruct (lock (fac w)) as [tid|] eqn:Hl; [|done]. cbn.
    destruct (proj2 (c_exclusive w HC) tid Hl) as (p & Hp & _). rewrite Hp. by apply lookup_app_l_Some. }
  destruct HC as [_ Hthreads Hc Ho Hstarted Hsp Hlive]. constructor; try done; rewrite ?Hh; try done.
  intros tid p [Hp|[_ Hp]]%lookup_app_Some; [by eapply Hthreads|].
  by apply list_lookup_singleton_Some in Hp as [_ <-].
Qed.

Lemma fresh_factory c resync options :
  Forall is_option options →
  let f := NewSharedInformerFactoryWithOptions c resync options in
  lock f = None ∧ informers f = ∅ ∧ startedInformers f = ∅ ∧ wg f = 0 ∧ shuttingDown f = false.
Proof using Type.
  unfold NewSharedInformerFactoryWithOptions. intros Ho.
  assert (∀ f : factory, lock f = None ∧ informers f = ∅ ∧ startedInformers f = ∅ ∧ wg f = 0 ∧ shuttingDown f = false →
    let f' := fold_left (λ f opt, opt f) options f in
    lock f' = None ∧ informers f' = ∅ ∧ startedInformers f' = ∅ ∧ wg f' = 0 ∧ shuttingDown f' = false) as Hf.
  { induction Ho as [|opt options [] _ IH]; intros f Hf; [done|..]; by apply IH. }
  by apply Hf.
Qed.

Lemma consistent_fresh c resync options : Forall is_option options → consistent (fresh_world c resync options).
Proof using Type.
  intros (Hl & Hi & Hst & Hwg & Hsh)%(fresh_factory c resync). constructor; cbn; try done.
  - split; cbn; [done|]. intros tid. by rewrite Hl.
  - unfold holder. cbn. by rewrite Hl, Hwg.
  - constructor.
  - intros t. unfold started, holder. cbn. rewrite Hl, Hst, lookup_empty. cbn. split; [by intros ?%not_elem_of_nil|by intros [?|?]].
  - by intros t i ?%not_elem_of_nil.
  - by intros g ?%not_elem_of_nil.
Qed.

Theorem reachable_consistent w : reachable w → consistent w.
Proof using Type.
  induction 1 as [|w w' _ IH [Hs|Hs]]; [by apply consistent_fresh|by eapply consistent_step|by eapply consistent_env].
Qed.

(** C20: an informer is run at most once.  However many goroutines ask a factory for
    informers, start it and shut it down, in every state they reach no two runs
    have been started for one type, every run is of the informer the factory
    keeps for its type, and the wait group counts the goroutines that are
    running, and one more only between [f.wg.Add(1)] and the [go] statement. *)
Theorem each_informer_runs_once w :
  reachable w →
  NoDup (spawned w).*1 ∧ (∀ t i, (t, i) ∈ spawned w → informers (fac w) !! t = Some i) ∧
  (∀ g, g ∈ live w → (g_type g, g_informer g) ∈ spawned w) ∧
  wg (fac w) = Z.of_nat (length (live w)) + pending (holder w).
Proof using Type. intros [_ _ Hc Ho _ Hs Hl]%reachable_consistent. by split_and!. Qed.

(** C0: informers are shared.  Two calls of [InformerFor] for one type, from any two
    goroutines and with whatever functions to make an informer, return the same
    informer: the one the factory keeps. *)
Theorem informers_are_shared w tid tid' t newFunc newFunc' a a' :
  reachable w → threads w !! tid = Some (Returned (CInformerFor t newFunc) a) →
  threads w !! tid' = Some (Returned (CInformerFor t newFunc') a') →
  a = a' ∧ ∃ i, a = RInformer i ∧ informers (fac w) !! t = Some i.
Proof using Type.
  intros HC%reachable_consistent (i & -> & Hi)%(consistent_thread w _ _ HC) (i' & -> & Hi')%(consistent_thread w _ _ HC).
  split; [congruence|by exists i].
Qed.

(** ** Shutdown is final *)

Lemma returned_stays w w' tid c r :
  any_step w w' → threads w !! tid = Some (Returned c r) → threads w' !! tid = Some (Returned c r).
Proof using Type.
  intros [Hs|Hs] Ht; inversion Hs; subst; cbn; try done;
    try (rewrite list_lookup_insert_ne; [done|]; intros ->; congruence). by apply lookup_app_l_Some.
Qed.

Lemma no_spawn w w' : consistent w → shuttingDown (fac w) = true → any_step w w' → spawned w' = spawned w.
Proof using Type.
  intros HC Hsh [Hs|Hs]; inversion Hs; subst; try done.
  match goal with H : threads w !! _ = Some _ |- _ => apply (consistent_thread w _ _ HC) in H as [H _] end. congruence.
Qed.

Lemma reachable_rtc w w' : rtc any_step w w' → reachable w → reachable w'.
Proof using Type. induction 1; intros Hr; [done|]. apply IHrtc. by eapply reachable_step. Qed.

(** C18: when [Shutdown] returns, it is over.  No informer goroutine of the factory is
    running, and whatever is called afterwards, from any goroutine, none is
    started again. *)
Theorem shutdown_is_final w w' tid r :
  reachable w → threads w !! tid = Some (Returned CShutdown r) → rtc any_step w w' →
  live w' = [] ∧ spawned w' = spawned w.
Proof using Type.
  intros Hr Ht Hs. assert (threads w' !! tid = Some (Returned CShutdown r) ∧ spawned w' = spawned w) as [Ht' ->].
  { induction Hs as [w|w w1 w2 Hs _ IH]; [done|].
    pose proof (consistent_thread w _ _ (reachable_consistent w Hr) Ht) as [Hsh _].
    rewrite <-(no_spawn w w1) by (done || by apply reachable_consistent).
    apply IH; [by eapply reachable_step|by eapply returned_stays]. }
  split; [|done]. apply (reachable_rtc w w' Hs), reachable_consistent in Hr.
  by apply (consistent_thread w' _ _ Hr) in Ht' as [_ Hl].
Qed.

(** ** Every schedule ends *)

Definition is_locking (p : pc) : nat := match p with Locking _ => 1%nat | _ => 0%nat end.

(** The statements a thread has in front of it once it has the mutex *)
Definition statements (p : pc) : nat :=
  match p with
  | Locking _ | Returned _ _ => 0
  | Starting _ todo => 2 + 4 * length todo
  | Spawning _ _ _ todo => 5 + 4 * length todo
  | Marking _ _ todo => 3 + 4 * length todo
  | ShutdownUnlocking => 2
  | Waiting | Unlocking _ _ => 1
  | SyncUnlocking _ todo => 2 + length todo
  | Syncing _ todo _ => 1 + length todo
  end%nat.

Definition total (f : pc → nat) (w : world) : nat := sum_list_with f (threads w).

Lemma sum_insert {A} (f : A → nat) (l : list A) i x y :
  l !! i = Some x → (sum_list_with f (<[i := y]> l) + f x = sum_list_with f l + f y)%nat.
Proof using Type.
  revert i. induction l as [|z l IH]; intros [|i]; simpl; try done; [intros [= ->]; lia|]. intros Hi. specialize (IH i Hi). lia.
Qed.

Lemma step_decreases w w' :
  step w w' →
  (total is_locking w' < total is_locking w ∨
   total is_locking w' = total is_locking w ∧ total statements w' + length (live w') < total statements w + length (live w))%nat.
Proof using Type.
  intros Hs; inversion Hs; subst; unfold total, set_pc, set_fac; cbn [threads live];
    try match goal with H : threads w !! ?tid = Some _ |- context [<[_ := ?p']> _] =>
      pose proof (sum_insert is_locking _ _ _ p' H); pose proof (sum_insert statements _ _ _ p' H) end;
    cbn [is_locking statements length] in *; try lia.
  right. split; [done|]. match goal with H : live w = _ |- _ => rewrite H end. rewrite !length_app. cbn. lia.
Qed.

Lemma step_sn w : sn step w.
Proof using Type.
  remember (total is_locking w) as n eqn:Hn. revert w Hn. induction (lt_wf n) as [n _ IHn]. intros w Hn.
  remember (total statements w + length (live w))%nat as m eqn:Hm. revert w Hn Hm. induction (lt_wf m) as [m _ IHm]. intros w Hn Hm.
  constructor. intros w' Hs. apply step_decreases in Hs as [Hs|[He Hs]].
  - by apply (IHn (total is_locking w')); [lia|].
  - apply (IHm (total statements w' + length (live w'))%nat); lia.
Qed.

(** Every stop channel that was handed out is closed. *)
Definition stop_of (p : pc) : option nat :=
  match p with
  | Locking (CStart s) | Locking (CWaitForCacheSync s) | Starting s _ | Spawning s _ _ _ | Marking s _ _
  | SyncUnlocking s _ | Syncing s _ _ => Some s
  | _ => None
  end.

Definition stops_closed (w : world) : Prop :=
  (∀ tid p s, threads w !! tid = Some p → stop_of p = Some s → s ∈ closed w) ∧ (∀ g, g ∈ live w → g_stop g ∈ closed w).

Lemma stops_set w tid p p' :
  stops_closed w → threads w !! tid = Some p → (stop_of p' = stop_of p ∨ stop_of p' = None) →
  ∀ tid' q s, <[tid := p']> (threads w) !! tid' = Some q → stop_of q = Some s → s ∈ closed w.
Proof using Type.
  intros [H1 _] Ht Hp' tid' q s [(<- & <- & _)|[_ Hq]]%list_lookup_insert_Some Hs; [|by eauto].
  destruct Hp' as [Hp'|Hp']; [|congruence]. apply (H1 tid p s Ht). congruence.
Qed.

Lemma stops_step w w' : step w w' → stops_closed w → stops_closed w'.
Proof using Type.
  intros Hs HS. pose proof HS as [H1 H2]. inversion Hs; subst; split; cbn;
    try (by eapply (stops_set w); [exact HS|eassumption|auto]); try exact H2; try exact H1.
  - intros g [->|Hg]%elem_of_cons; [|by apply H2]. cbn. by eapply H1.
  - intros g' Hg. apply H2. match goal with H : live w = _ |- _ => rewrite H end.
    apply elem_of_app. apply elem_of_app in Hg as [|]; [by left|right; by right].
Qed.

Lemma critical_runs w tid p : threads w !! tid = Some p → critical p = true → red step w.
Proof using Type.
  intros Ht Hc. destruct p as [| s [|[t i] todo]| | | | | | | |]; try done; try (eexists; by econstructor).
  destruct (started (fac w) t) eqn:Hst; eexists; [by eapply step_skip|by eapply step_add].
Qed.

Lemma stuck_means_returned w :
  consistent w → stops_closed w → nf step w →
  live w = [] ∧ ∀ tid p, threads w !! tid = Some p → ∃ c r, p = Returned c r.
Proof using Type.
  intros HC [H1 H2] Hn.
  assert (live w = []) as Hlive.
  { destruct (live w) as [|g l] eqn:Hl; [done|]. destruct Hn. eexists. eapply (step_done w [] g l); [done|]. apply H2. by left. }
  assert (lock (fac w) = None) as Hlock.
  { destruct (lock (fac w)) as [tid|] eqn:Hl; [|done]. destruct (proj2 (c_exclusive w HC) tid Hl) as (p & Hp & Hc).
    destruct Hn. by eapply critical_runs. }
  split; [done|]. intros tid p Ht. destruct (critical p) eqn:Hc; [destruct Hn; by eapply critical_runs|].
  destruct p as [[s| |s|obj newFunc]| | | | | | |s [|[t i] todo] res| |c r]; try done; [..|by eauto]; destruct Hn.
  - destruct (shuttingDown (fac w)) eqn:Hsh; eexists; [by eapply step_start_refused|by eapply step_start].
  - eexists. by eapply step_shutdown.
  - eexists. by eapply step_sync_lock.
  - destruct (InformerFor (next w) obj newFunc (fac w)) as [i f] eqn:Hi. eexists. by eapply step_informer.
  - eexists. eapply step_wait; [done|]. rewrite (c_counted w HC), Hlive, (holder_none w Hlock). done.
  - eexists. by eapply step_sync_end.
  - eexists. eapply (step_sync _ _ _ _ _ _ _ false); [done|]. by eapply H1.
Qed.

(** C19: every call returns.  Once the stop channels that were passed to [Start] and
    [WaitForCacheSync] are closed, no schedule of the goroutines goes on for ever,
    and none ends before every call has returned, [Shutdown] included, and every
    informer goroutine has ended: there is no deadlock on the mutex or the wait
    group. *)
Theorem calls_return w :
  reachable w → stops_closed w →
  sn step w ∧
  ∀ w', rtc step w w' → nf step w' → live w' = [] ∧ ∀ tid p, threads w' !! tid = Some p → ∃ c r, p = Returned c r.
Proof using Type.
  intros Hr Hc. split; [apply step_sn|]. intros w' Hs Hn.
  assert (reachable w' ∧ stops_closed w') as [Hr' Hc'].
  { clear Hn. induction Hs as [|w w1 w2 Hs _ IH]; [done|]. apply IH; [eapply reachable_step; [done|by left]|by eapply stops_step]. }
  by apply stuck_means_returned; [apply reachable_consistent|..].
Qed.

(** ** What [WaitForCacheSync] answers *)

(** Its loop has started informers of the factory, and what it wrote down is so: the
    cache is in sync, or the caller's channel is closed. *)
Definition sync_ok (f : factory) (cl sy : gset nat) (p : pc) : Prop :=
  let pairs todo := ∀ t i, (t, i) ∈ todo → informers f !! t = Some i ∧ started f t = true in
  let answers s (res : gmap string bool) := ∀ t b, res !! t = Some b →
    ∃ i, informers f !! t = Some i ∧ started f t = true ∧ if b : bool then i_ptr i ∈ sy else s ∈ cl in
  match p with
  | SyncUnlocking s todo => pairs todo
  | Syncing s todo res => pairs todo ∧ answers s res
  | Unlocking (CWaitForCacheSync _) _ => False
  | Returned (CWaitForCacheSync s) a => ∃ res, a = RSynced res ∧ answers s res
  | _ => True
  end.

Definition synced_ok (w : world) : Prop := ∀ tid p, threads w !! tid = Some p → sync_ok (fac w) (closed w) (synced w) p.

Lemma sync_kept f f' cl cl' sy sy' p :
  (∀ t i, informers f !! t = Some i → informers f' !! t = Some i) →
  (∀ t, started f t = true → started f' t = true) → cl ⊆ cl' → sy ⊆ sy' → sync_ok f cl sy p → sync_ok f' cl' sy' p.
Proof using Type.
  intros Hi Hst Hcl Hsy.
  assert (∀ s (res : gmap string bool),
    (∀ t b, res !! t = Some b → ∃ i, informers f !! t = Some i ∧ started f t = true ∧ if b : bool then i_ptr i ∈ sy else s ∈ cl) →
    ∀ t b, res !! t = Some b → ∃ i, informers f' !! t = Some i ∧ started f' t = true ∧ if b : bool then i_ptr i ∈ sy' else s ∈ cl') as Ha.
  { intros s res H t b Ht. destruct (H t b Ht) as (i & ? & ? & Hb). exists i. split_and!; [auto..|]. destruct b; auto. }
  destruct p as [| | | | | |s todo|s todo res|[]|[]]; cbn; try done.
  - intros H t i Hin. destruct (H t i Hin). auto.
  - intros [H Hres]. split; [|by apply Ha]. intros t i Hin. destruct (H t i Hin). auto.
  - intros (res & -> & Hres). exists res. split; [done|by apply Ha].
Qed.

Lemma synced_set w f tid p p' w' :
  synced_ok w → threads w !! tid = Some p → threads w' = <[tid := p']> (threads w) → fac w' = f → closed w' = closed w →
  synced w' = synced w → (∀ t i, informers (fac w) !! t = Some i → informers f !! t = Some i) →
  (∀ t, started (fac w) t = true → started f t = true) → sync_ok f (closed w) (synced w) p' → synced_ok w'.
Proof using Type.
  intros HS Ht Hw' Hf Hc Hs Hi Hst Hp'. unfold synced_ok. rewrite Hw', Hf, Hc, Hs.
  intros tid' q [(<- & <- & _)|[_ Hq]]%list_lookup_insert_Some; [done|]. by eapply sync_kept; [..|by eapply HS].
Qed.

Lemma synced_step w w' : any_step w w' → consistent w → synced_ok w → synced_ok w'.
Proof using Type.
  intros Hs HC HS.
  assert (∀ t f, f = with_started t (fac w) → ∀ t', started (fac w) t' = true → started f t' = true) as Hst.
  { intros t f -> t'. unfold started. cbn. rewrite lookup_insert. by case_decide. }
  destruct Hs as [Hs|Hs]; inversion Hs; subst;
    try match goal with H : threads w !! _ = Some _ |- _ => pose proof (HS _ _ H) as Hok end;
    try (by eapply synced_set; [exact HS|eassumption|reflexivity|reflexivity|reflexivity|reflexivity|..]).
  - eapply synced_set; [exact HS|eassumption|reflexivity..|done|by eapply Hst|done].
  - eapply synced_set; [exact HS|eassumption|reflexivity..|done|done|]. intros t i Hin.
    match goal with H : order ≡ₚ _ |- _ => rewrite H in Hin end.
    apply list_elem_of_filter in Hin as [? Hin%elem_of_map_to_list]. done.
  - destruct Hok as [Htodo Hres]. eapply synced_set; [exact HS|eassumption|reflexivity..|done|done|].
    split; [intros t' i' Hin; apply Htodo; by right|]. intros t' b' [[<- <-]|[_ Ht']]%lookup_insert_Some; [|by apply Hres].
    exists i. destruct (Htodo t i) as [? ?]; [by left|]. done.
  - destruct Hok as [_ Hres]. eapply synced_set; [exact HS|eassumption|reflexivity..|done|done|by exists res].
  - match goal with H : InformerFor _ _ _ _ = _ |- _ => unfold InformerFor in H; rename H into Hi end.
    destruct (informers (fac w) !! obj) as [j|] eqn:Hj; injection Hi as <- <-;
      (eapply synced_set; [exact HS|eassumption|reflexivity..| | |done]); try done.
    intros t i Ht. cbn. rewrite lookup_insert_ne; [done|]. intros <-. congruence.
  - eapply synced_set; [exact HS|eassumption|reflexivity..|done|done|]. by destruct c.
  - exact HS.
  - intros tid p [Hp|[_ Hp]]%lookup_app_Some; [by eapply HS|]. by apply list_lookup_singleton_Some in Hp as [_ <-].
  - intros tid p Hp. eapply sync_kept; [..|by eapply HS]; cbn; auto; set_solver.
  - intros tid p Hp. eapply sync_kept; [..|by eapply HS]; cbn; auto; set_solver.
Qed.

Lemma reachable_synced w : reachable w → synced_ok w.
Proof using Type.
  induction 1 as [c resync options|w w' Hr IH Hs]; [done|]. by apply (synced_step w); [|apply reachable_consistent|].
Qed.

(** C0: the answer of [WaitForCacheSync] is true.  For every type in the map it
    returns, the factory has an informer it has started; the value is true only if
    the cache of that informer is in sync, and false only if the caller's stop
    channel is closed. *)
Theorem sync_answers_are_true w tid s a :
  reachable w → threads w !! tid = Some (Returned (CWaitForCacheSync s) a) →
  ∃ res, a = RSynced res ∧ ∀ t b, res !! t = Some b →
    ∃ i, informers (fac w) !! t = Some i ∧ started (fac w) t = true ∧
         if b : bool then i_ptr i ∈ synced w else s ∈ closed w.
Proof using Type. intros Hr Ht. exact (reachable_synced w Hr tid _ Ht). Qed.

(** ** How an informer is configured *)

(** The informer of HostPathProvisioners a factory makes has its client, list options,
    transform and resync period. *)
Lemma informer_made ptr f :
  informers f !! "HostPathProvisioner" = None →
  (InformerFor ptr "HostPathProvisioner" (defaultInformer (tweakListOptions f)) f).1 =
    {| i_ptr := ptr; i_object := "HostPathProvisioner"; i_client := client f; i_tweak := tweakListOptions f;
       i_resync := default (defaultResync f) (customResync f !! "HostPathProvisioner");
       i_indexers := ["namespace"]; i_transform := transform f |}.
Proof using Type. unfold InformerFor. by intros ->. Qed.

(** *** Executing statements: the next one of a thread, in the order of the map *)
Definition fire (tid : nat) (w : world) : option world :=
  p ← threads w !! tid;
  match p with
  | Locking c =>
      match lock (fac w), c with
      | Some _, _ => None
      | None, CStart s =>
          if shuttingDown (fac w) then Some (set_fac (with_lock (Some tid) (fac w)) tid (Unlocking c RUnit) w)
          else Some (set_fac (with_lock (Some tid) (fac w)) tid (Starting s (map_to_list (informers (fac w)))) w)
      | None, CShutdown => Some (set_fac (with_lock (Some tid) (with_shuttingDown (fac w))) tid ShutdownUnlocking w)
      | None, CWaitForCacheSync s =>
          Some (set_fac (with_lock (Some tid) (fac w)) tid
                  (SyncUnlocking s (filter (λ ti, started (fac w) ti.1 = true) (map_to_list (informers (fac w))))) w)
      | None, CInformerFor obj newFunc =>
          let '(i, f) := InformerFor (next w) obj newFunc (fac w) in
          Some {| fac := with_lock (Some tid) f; threads := <[tid := Unlocking c (RInformer i)]> (threads w);
                  live := live w; spawned := spawned w; closed := closed w; synced := synced w; next := S (next w) |}
      end
  | Starting s [] => Some (set_pc tid (Unlocking (CStart s) RUnit) w)
  | Starting s ((t, i) :: todo) =>
      if started (fac w) t then Some (set_pc tid (Starting s todo) w)
      else Some (set_fac (with_wg (wg (fac w) + 1) (fac w)) tid (Spawning s t i todo) w)
  | Spawning s t i todo =>
      Some {| fac := fac w; threads := <[tid := Marking s t todo]> (threads w);
              live := {| g_type := t; g_informer := i; g_stop := s |} :: live w; spawned := (t, i) :: spawned w;
              closed := closed w; synced := synced w; next := next w |}
  | Marking s t todo => Some (set_fac (with_started t (fac w)) tid (Starting s todo) w)
  | ShutdownUnlocking => Some (set_fac (with_lock None (fac w)) tid Waiting w)
  | Waiting => if wg (fac w) =? 0 then Some (set_pc tid (Returned CShutdown RUnit) w) else None
  | SyncUnlocking s todo => Some (set_fac (with_lock None (fac w)) tid (Syncing s todo ∅) w)
  | Syncing s [] res => Some (set_pc tid (Returned (CWaitForCacheSync s) (RSynced res)) w)
  | Syncing s ((t, i) :: todo) res =>
      if bool_decide (i_ptr i ∈ synced w) then Some (set_pc tid (Syncing s todo (<[t := true]> res)) w)
      else if bool_decide (s ∈ closed w) then Some (set_pc tid (Syncing s todo (<[t := false]> res)) w) else None
  | Unlocking c r => Some (set_fac (with_lock None (fac w)) tid (Returned c r) w)
  | Returned _ _ => None
  end.

Lemma fire_step tid w w' : fire tid w = Some w' → step w w'.
Proof using Type.
  unfold fire. destruct (threads w !! tid) as [p|] eqn:Ht; [|done]. cbn.
  destruct p as [c| s [|[t i] todo]| | | | | |s [|[t i] todo] res| |]; try (intros [= <-]; by econstructor).
  - destruct (lock (fac w)) eqn:Hl; [done|]. destruct c as [s| |s|obj newFunc].
    + destruct (shuttingDown (fac w)) eqn:Hsh; intros [= <-]; [by eapply step_start_refused|by eapply step_start].
    + intros [= <-]. by eapply step_shutdown.
    + intros [= <-]. by eapply step_sync_lock.
    + destruct (InformerFor _ _ _ _) as [i f] eqn:Hi. intros [= <-]. by eapply step_informer.
  - destruct (started (fac w) t) eqn:Hst; intros [= <-]; [by eapply step_skip|by eapply step_add].
  - destruct (wg (fac w) =? 0) eqn:Hwg; [|done]. intros [= <-]. eapply step_wait; [done|]. by apply Z.eqb_eq.
  - case_bool_decide as Hsy; [intros [= <-]; by eapply (step_sync _ _ _ _ _ _ _ true)|].
    case_bool_decide as Hcl; [|done]. intros [= <-]. by eapply (step_sync _ _ _ _ _ _ _ false).
Qed.

(** A schedule: a new call, the next statement of a thread, a channel that is closed, or
    the first goroutine that ends *)
Inductive move :=
| MCall (c : call)
| MRun (tid : nat)
| MClose (ch : nat)
| MDone.

Definition play (m : move) (w : world) : option world :=
  match m with
  | MCall c => Some {| fac := fac w; threads := threads w ++ [Locking c]; live := live w; spawned := spawned w;
                       closed := closed w; synced := synced w; next := next w |}
  | MRun tid => fire tid w
  | MClose ch => Some {| fac := fac w; threads := threads w; live := live w; spawned := spawned w;
                         closed := {[ch]} ∪ closed w; synced := synced w; next := next w |}
  | MDone =>
      match live w with
      | g :: gs =>
          if bool_decide (g_stop g ∈ closed w)
          then Some {| fac := with_wg (wg (fac w) - 1) (fac w); threads := threads w; live := gs; spawned := spawned w;
                       closed := closed w; synced := synced w; next := next w |}
          else None
      | [] => None
      end
  end.

Definition play_all (ms : list move) (w : world) : option world := foldl (λ o m, o ≫= play m) (Some w) ms.

Lemma play_step m w w' : play m w = Some w' → any_step w w'.
Proof using Type.
  destruct m as [c|tid|ch|]; cbn.
  - intros [= <-]. right. constructor.
  - intros Hf. left. by eapply fire_step.
  - intros [= <-]. right. constructor.
  - destruct (live w) as [|g gs] eqn:Hl; [done|]. case_bool_decide; [|done]. intros [= <-]. left. by apply (step_done w [] g gs).
Qed.

Lemma play_all_rtc ms w w' : play_all ms w = Some w' → rtc any_step w w'.
Proof using Type.
  unfold play_all. revert w. induction ms as [|m ms IH]; intros w; cbn; [by intros [= <-]|].
  destruct (play m w) as [w1|] eqn:Hm.
  - intros Hp. eapply rtc_l; [by eapply play_step|by apply IH].
  - intros Hp. exfalso. clear -Hp. by induction ms.
Qed.

End Informers.

(** ** An example

    Two goroutines ask for the informer of HostPathProvisioners, two start the factory,
    one shuts it down while the informer runs; a channel is closed, the informer
    ends, and the shutdown returns. *)
Definition example_factory : sharedInformerFactory (Client := unit) (Transform := unit) (ListOptions := unit) :=
  NewSharedInformerFactory tt 30.

Definition example_world : world := fresh_world (Client := unit) (Transform := unit) (ListOptions := unit) tt 30 [].

Definition runs (n tid : nat) : list (move (Client := unit) (Transform := unit) (ListOptions := unit)) := replicate n (MRun tid).

Definition example_moves : list move :=
  [MCall (Informer example_factory); MCall (Informer example_factory); MCall (CStart 7); MCall (CStart 7);
   MCall (CWaitForCacheSync 7); MCall CShutdown] ++
  runs 2 1 ++ runs 2 0 ++ runs 6 2 ++ runs 4 3 ++ runs 2 4 ++ runs 2 5.

Definition example_running : world := default example_world (play_all example_moves example_world).
Definition example_end : world := default example_world (play_all ([MClose 7; MDone] ++ runs 2 4 ++ runs 1 5) example_running).

Lemma example_running_reachable : reachable example_running.
Proof.
  eapply reachable_rtc; [|by apply (reachable_fresh tt 30 [])]. apply (play_all_rtc example_moves). vm_compute. reflexivity.
Qed.

Lemma example_end_steps : rtc any_step example_running example_end.
Proof. apply (play_all_rtc ([MClose 7; MDone] ++ runs 2 4 ++ runs 1 5)). vm_compute. reflexivity. Qed.

Lemma example_end_reachable : reachable example_end.
Proof. eapply reachable_rtc; [exact example_end_steps|exact example_running_reachable]. Qed.

Lemma each_informer_runs_once_witness :
  length (live example_running) = 1%nat ∧ NoDup (spawned example_running).*1 ∧ wg (fac example_running) = 1.
Proof.
  destruct (each_informer_runs_once example_running example_running_reachable) as (Hn & _ & _ & Hwg).
  assert (length (live example_running) = 1%nat) as Hl by (vm_compute; reflexivity).
  split; [exact Hl|]. split; [exact Hn|]. rewrite Hwg, Hl. vm_compute. reflexivity.
Defined.

Definition example_informer : SharedIndexInformer (Client := unit) (Transform := unit) (ListOptions := unit) :=
  {| i_ptr := 0; i_object := "HostPathProvisioner"; i_client := tt; i_tweak := None; i_resync := 30;
     i_indexers := ["namespace"]; i_transform := None |}.

Lemma informers_are_shared_witness :
  informers (fac example_running) !! "HostPathProvisioner" = Some example_informer.
Proof.
  assert (∀ tid, (tid < 2)%nat → threads example_running !! tid =
    Some (Returned (CInformerFor "HostPathProvisioner" (defaultInformer None)) (RInformer example_informer))) as Ht.
  { intros [|[|tid]] Hlt; [vm_compute; reflexivity..|lia]. }
  destruct (informers_are_shared example_running 0 1 _ _ _ _ _ example_running_reachable
              (Ht 0%nat ltac:(lia)) (Ht 1%nat ltac:(lia))) as (_ & i & Hi & Hf).
  injection Hi as Hi. rewrite Hi. exact Hf.
Defined.

Lemma shutdown_is_final_witness :
  threads example_end !! 5%nat = Some (Returned CShutdown RUnit) ∧
  ∀ w, rtc any_step example_end w → live w = [] ∧ spawned w = spawned example_end.
Proof.
  assert (threads example_end !! 5%nat = Some (Returned CShutdown RUnit)) as Ht by (vm_compute; reflexivity).
  split; [exact Ht|]. intros w Hw. exact (shutdown_is_final example_end w 5 RUnit example_end_reachable Ht Hw).
Defined.

(** The running factory, with its channel closed *)
Definition example_closed : world := default example_world (play_all [MClose 7] example_running).

Lemma example_closed_reachable : reachable example_closed.
Proof. eapply reachable_rtc; [|exact example_running_reachable]. apply (play_all_rtc [MClose 7]). vm_compute. reflexivity. Qed.

Lemma calls_return_witness :
  live example_closed ≠ [] ∧ sn step example_closed ∧
  ∀ w, rtc step example_closed w → nf step w → live w = [] ∧ ∀ tid p, threads w !! tid = Some p → ∃ c r, p = Returned c r.
Proof.
  assert (stops_closed example_closed) as Hs.
  { assert (7%nat ∈ closed example_closed) as H7 by (apply (bool_decide_unpack (7%nat ∈ closed example_closed)); vm_compute; exact I).
    assert (∀ o : option nat, o ∈ [None; Some 7%nat] → ∀ s, o = Some s → s ∈ closed example_closed) as Ho.
    { intros o [->|[->|[]%not_elem_of_nil]%elem_of_cons]%elem_of_cons s Hs; [discriminate Hs|injection Hs as <-; exact H7]. }
    split.
    - intros tid p s Hp Hs. apply (Ho (stop_of p)); [|exact Hs].
      assert (Forall (λ p, stop_of p ∈ [None; Some 7%nat]) (threads example_closed)) as Hf.
      { apply (bool_decide_unpack (Forall (λ p, stop_of p ∈ [None; Some 7%nat]) (threads example_closed))). vm_compute. exact I. }
      exact (proj1 (Forall_lookup _ _) Hf tid p Hp).
    - intros g Hg.
      assert (Forall (λ g, g_stop g = 7%nat) (live example_closed)) as Hf.
      { apply (bool_decide_unpack (Forall (λ g, g_stop g = 7%nat) (live example_closed))). vm_compute. exact I. }
      rewrite (proj1 (Forall_forall _ _) Hf g Hg). exact H7. }
  split; [intros Hl; apply (f_equal length) in Hl; vm_compute in Hl; discriminate Hl|].
  exact (calls_return example_closed example_closed_reachable Hs).
Defined.

Lemma sync_answers_are_true_witness :
  ∃ res, threads example_end !! 4%nat = Some (Returned (CWaitForCacheSync 7) (RSynced res)) ∧
         res !! "HostPathProvisioner" = Some false ∧ 7%nat ∈ closed example_end.
Proof.
  assert (threads example_end !! 4%nat = Some (Returned (CWaitForCacheSync 7) (RSynced {["HostPathProvisioner" := false]}))) as Ht
    by (vm_compute; reflexivity).
  eexists. split; [exact Ht|]. split; [reflexivity|].
  destruct (sync_answers_are_true example_end 4 7 _ example_end_reachable Ht) as (res & Hres & Ha). injection Hres as <-.
  destruct (Ha "HostPathProvisioner" false eq_refl) as (i & _ & _ & Hc). exact Hc.
Defined.
