(* ===== verification/Clients.v ===== *)
(** * The generated clients

    pkg/client/clientset: the typed client of HostPathProvisioners builds HTTP requests
    with the request builder of client-go (vendor/k8s.io/client-go/rest), and a fake
    of it records actions instead.  The theorems say where a request can go,
    whatever the name of the resource, and that client and fake ask for the same. *)
From S2P Require Import Prelude GoStrings Api Watches CrdSchema.

(** ** k8s.io/client-go/rest: the request builder *)

(** What is encoded into the query or the body *)
Record ListOptions := {
  lo_LabelSelector : string; lo_FieldSelector : string; lo_Watch : bool; lo_ResourceVersion : string;
  lo_TimeoutSeconds : option Z }.

Record WriteOptions := { wo_DryRun : list string; wo_FieldManager : string }.

Inductive query :=
| QGet (resourceVersion : string)
| QList (opts : ListOptions)
| QCreate (opts : WriteOptions)
| QUpdate (opts : WriteOptions)
| QPatch (opts : WriteOptions).

Inductive payload :=
| PObject (o : HostPathProvisioner)
| PDelete (gracePeriodSeconds : option Z)
| PBytes (data : string).

(** The parameter codec and the serializers of the scheme, and [%q] of fmt *)
Class RequestCodec := {
  Quote : string → string;
  EncodeParameters : query → result (gmap string (list string));
  Encode : payload → result string }.

Record Request := {
  verb : string;
  content_type : option string;
  pathPrefix : string;
  timeout : Z;
  resource : string;
  resourceName : string;
  subresource : string;
  params : gmap string (list string);
  bodyBytes : option string;
  r_err : option goerror }.

Definition set_err (e : goerror) (r : Request) : Request :=
  {| verb := verb r; content_type := content_type r; pathPrefix := pathPrefix r; timeout := timeout r; resource := resource r;
     resourceName := resourceName r; subresource := subresource r; params := params r; bodyBytes := bodyBytes r; r_err := Some e |}.

(** [path.Join] is [filepath.Join]. *)
Abbreviation path_Join := filepath_Join.

(** [DefaultVersionedAPIPath], and the request [NewRequest] starts from; the HTTP client
    has no timeout of its own. *)
Definition DefaultVersionedAPIPath (apiPath group version : string) : string :=
  let versionedAPIPath := path_Join ["/"; apiPath] in
  if bool_decide (group = "") then path_Join [versionedAPIPath; version] else path_Join [versionedAPIPath; group; version].

Definition NewRequest (base versionedAPIPath v : string) (contentType : option string) : Request :=
  {| verb := v; content_type := contentType; pathPrefix := path_Join ["/"; base; versionedAPIPath]; timeout := 0;
     resource := ""; resourceName := ""; subresource := ""; params := ∅; bodyBytes := None; r_err := None |}.

Definition NameMayNotBe : list string := ["."; ".."].
Definition NameMayNotContain : list string := ["/"; "%"].

(** The complaints about a path segment; none if it is fine *)
Definition IsValidPathSegmentName (name : string) : list string :=
  match filter (λ illegal, name = illegal) NameMayNotBe with
  | illegal :: _ => ["may not be '" +:+ illegal +:+ "'"]
  | [] => (λ illegal, "may not contain '" +:+ illegal +:+ "'") <$> filter (λ illegal, Contains name illegal = true) NameMayNotContain
  end.

(** [%v] of a list of strings *)
Definition bracketed (msgs : list string) : string := "[" +:+ Join msgs " " +:+ "]".

(** A builder method does nothing once there is an error. *)
Definition unless_failed (r : Request) (r' : Request) : Request := match r_err r with Some _ => r | None => r' end.

Definition Resource `{RequestCodec} (res : string) (r : Request) : Request := unless_failed r
  (if bool_decide (resource r ≠ "") then set_err (Errorf ("resource already set to " +:+ Quote (resource r) +:+ ", cannot change to " +:+ Quote res)) r
   else match IsValidPathSegmentName res with
        | [] => {| verb := verb r; content_type := content_type r; pathPrefix := pathPrefix r; timeout := timeout r; resource := res;
                   resourceName := resourceName r; subresource := subresource r; params := params r; bodyBytes := bodyBytes r;
                   r_err := r_err r |}
        | msgs => set_err (Errorf ("invalid resource " +:+ Quote res +:+ ": " +:+ bracketed msgs)) r
        end).

Definition NameOf `{RequestCodec} (name : string) (r : Request) : Request := unless_failed r
  (if bool_decide (name = "") then set_err (Errorf "resource name may not be empty") r
   else if bool_decide (resourceName r ≠ "") then set_err (Errorf ("resource name already set to " +:+ Quote (resourceName r) +:+ ", cannot change to " +:+ Quote name)) r
   else match IsValidPathSegmentName name with
        | [] => {| verb := verb r; content_type := content_type r; pathPrefix := pathPrefix r; timeout := timeout r; resource := resource r;
                   resourceName := name; subresource := subresource r; params := params r; bodyBytes := bodyBytes r; r_err := r_err r |}
        | msgs => set_err (Errorf ("invalid resource name " +:+ Quote name +:+ ": " +:+ bracketed msgs)) r
        end).

Definition SubResource `{RequestCodec} (subs : list string) (r : Request) : Request := unless_failed r
  (if bool_decide (subresource r ≠ "") then set_err (Errorf ("subresource already set to " +:+ Quote (subresource r) +:+ ", cannot change to " +:+ Quote (path_Join subs))) r
   else match filter (λ s, IsValidPathSegmentName s ≠ []) subs with
        | [] => {| verb := verb r; content_type := content_type r; pathPrefix := pathPrefix r; timeout := timeout r; resource := resource r;
                   resourceName := resourceName r; subresource := path_Join subs; params := params r; bodyBytes := bodyBytes r;
                   r_err := r_err r |}
        | s :: _ => set_err (Errorf ("invalid subresource " +:+ Quote s +:+ ": " +:+ bracketed (IsValidPathSegmentName s))) r
        end).

Definition Timeout (d : Z) (r : Request) : Request := unless_failed r
  {| verb := verb r; content_type := content_type r; pathPrefix := pathPrefix r; timeout := d; resource := resource r;
     resourceName := resourceName r; subresource := subresource r; params := params r; bodyBytes := bodyBytes r; r_err := r_err r |}.

Definition VersionedParams `{RequestCodec} (q : query) (r : Request) : Request := unless_failed r
  match EncodeParameters q with
  | Err e => set_err e r
  | Ok ps => {| verb := verb r; content_type := content_type r; pathPrefix := pathPrefix r; timeout := timeout r; resource := resource r;
                resourceName := resourceName r; subresource := subresource r;
                params := union_with (λ a b, Some (a ++ b)) (params r) ps; bodyBytes := bodyBytes r; r_err := r_err r |}
  end.

Definition Body `{RequestCodec} (p : payload) (r : Request) : Request := unless_failed r
  match (match p with PBytes data => Ok data | _ => Encode p end) with
  | Err e => set_err e r
  | Ok data => {| verb := verb r; content_type := content_type r; pathPrefix := pathPrefix r; timeout := timeout r; resource := resource r;
                  resourceName := resourceName r; subresource := subresource r; params := params r; bodyBytes := Some data;
                  r_err := r_err r |}
  end.

(** The path of [URL]: the resources of this client are not namespaced. *)
Definition URL_Path (r : Request) : string :=
  let p := if bool_decide (resource r = "") then pathPrefix r else path_Join [pathPrefix r; ToLower (resource r)] in
  if bool_decide (resourceName r = "" ∧ subresource r = "") then p else path_Join [p; resourceName r; subresource r].

(** What [Do] and [Watch] send, unless building the request failed *)
Record http_request := {
  h_method : string; h_path : string; h_query : gmap string (list string); h_timeout : Z; h_body : option string }.

Definition sent (r : Request) : result http_request :=
  match r_err r with
  | Some e => Err e
  | None => Ok {| h_method := verb r; h_path := URL_Path r; h_query := params r; h_timeout := timeout r; h_body := bodyBytes r |}
  end.

(** ** typed/hostpathprovisioner/v1beta1/hostpathprovisioner.go *)

Section Typed.
Context `{RC : RequestCodec}.

(** The path of the server; the API path and group version are [setConfigDefaults]. *)
Context (base : string).

Definition hpp_version := "v1beta1".
Definition hpp_resource := "hostpathprovisioners".

Definition request (v : string) : Request := NewRequest base (DefaultVersionedAPIPath "/apis" hpp_group hpp_version) v None.
Definition patch_request (pt : string) : Request :=
  NewRequest base (DefaultVersionedAPIPath "/apis" hpp_group hpp_version) "PATCH" (Some pt).

(** A signed 64-bit integer, wrapped around *)
Definition int64 (z : Z) : Z := (z + 2 ^ 63) mod 2 ^ 64 - 2 ^ 63.

(** [time.Duration(n) * time.Second] *)
Definition seconds (n : Z) : Z := int64 (n * 1000000000).
Definition timeout_of (opts : ListOptions) : Z := match lo_TimeoutSeconds opts with Some n => seconds n | None => 0 end.

Definition typed_Get (name resourceVersion : string) : Request :=
  VersionedParams (QGet resourceVersion) (NameOf name (Resource hpp_resource (request "GET"))).

Definition typed_List (opts : ListOptions) : Request :=
  Timeout (timeout_of opts) (VersionedParams (QList opts) (Resource hpp_resource (request "GET"))).

Definition watching (opts : ListOptions) : ListOptions :=
  {| lo_LabelSelector := lo_LabelSelector opts; lo_FieldSelector := lo_FieldSelector opts; lo_Watch := true;
     lo_ResourceVersion := lo_ResourceVersion opts; lo_TimeoutSeconds := lo_TimeoutSeconds opts |}.

Definition typed_Watch (opts : ListOptions) : Request :=
  Timeout (timeout_of opts) (VersionedParams (QList (watching opts)) (Resource hpp_resource (request "GET"))).

Definition typed_Create (o : HostPathProvisioner) (opts : WriteOptions) : Request :=
  Body (PObject o) (VersionedParams (QCreate opts) (Resource hpp_resource (request "POST"))).

Definition typed_Update (o : HostPathProvisioner) (opts : WriteOptions) : Request :=
  Body (PObject o) (VersionedParams (QUpdate opts) (NameOf (o_name o) (Resource hpp_resource (request "PUT")))).

Definition typed_UpdateStatus (o : HostPathProvisioner) (opts : WriteOptions) : Request :=
  Body (PObject o)
    (VersionedParams (QUpdate opts) (SubResource ["status"] (NameOf (o_name o) (Resource hpp_resource (request "PUT"))))).

Definition typed_Delete (name : string) (opts : option Z) : Request :=
  Body (PDelete opts) (NameOf name (Resource hpp_resource (request "DELETE"))).

Definition typed_DeleteCollection (opts : option Z) (listOpts : ListOptions) : Request :=
  Body (PDelete opts)
    (Timeout (timeout_of listOpts) (VersionedParams (QList listOpts) (Resource hpp_resource (request "DELETE")))).

Definition typed_Patch (name pt data : string) (opts : WriteOptions) (subresources : list string) : Request :=
  Body (PBytes data)
    (VersionedParams (QPatch opts) (SubResource subresources (NameOf name (Resource hpp_resource (patch_request pt))))).

End Typed.

(** ** The methods of HostPathProvisionerInterface, and what a client does for them *)

Inductive method :=
| MGet (name resourceVersion : string)
| MList (opts : ListOptions)
| MWatch (opts : ListOptions)
| MCreate (o : HostPathProvisioner) (opts : WriteOptions)
| MUpdate (o : HostPathProvisioner) (opts : WriteOptions)
| MUpdateStatus (o : HostPathProvisioner) (opts : WriteOptions)
| MDelete (name : string) (opts : option Z)
| MDeleteCollection (opts : option Z) (listOpts : ListOptions)
| MPatch (name pt data : string) (opts : WriteOptions) (subresources : list string).

Definition typed `{RequestCodec} (base : string) (m : method) : Request :=
  match m with
  | MGet name rv => typed_Get base name rv
  | MList opts => typed_List base opts
  | MWatch opts => typed_Watch base opts
  | MCreate o opts => typed_Create base o opts
  | MUpdate o opts => typed_Update base o opts
  | MUpdateStatus o opts => typed_UpdateStatus base o opts
  | MDelete name opts => typed_Delete base name opts
  | MDeleteCollection opts lopts => typed_DeleteCollection base opts lopts
  | MPatch name pt data opts subs => typed_Patch base name pt data opts subs
  end.

(** *** fake/fake_hostpathprovisioner.go *)

(** k8s.io/client-go/testing: an action, without its options *)
Record Action := {
  a_verb : string; a_group : string; a_version : string; a_resource : string; a_subresource : string;
  a_name : string; a_object : option HostPathProvisioner; a_patch : option (string * string) }.

Definition root_action (v sub name : string) (o : option HostPathProvisioner) (patch : option (string * string)) : Action :=
  {| a_verb := v; a_group := hpp_group; a_version := hpp_version; a_resource := hpp_resource; a_subresource := sub;
     a_name := name; a_object := o; a_patch := patch |}.

Definition fake_Get (name : string) : Action := root_action "get" "" name None None.
Definition fake_List : Action := root_action "list" "" "" None None.
Definition fake_Watch : Action := root_action "watch" "" "" None None.
Definition fake_Create (o : HostPathProvisioner) : Action := root_action "create" "" "" (Some o) None.
Definition fake_Update (o : HostPathProvisioner) : Action := root_action "update" "" "" (Some o) None.
Definition fake_UpdateStatus (o : HostPathProvisioner) : Action := root_action "update" "status" "" (Some o) None.
Definition fake_Delete (name : string) : Action := root_action "delete" "" name None None.
Definition fake_DeleteCollection : Action := root_action "delete-collection" "" "" None None.
Definition fake_Patch (name pt data : string) (subs : list string) : Action :=
  root_action "patch" (path_Join subs) name None (Some (pt, data)).

(** What the fake's [List] returns of the objects its reactors answered with *)
Definition fake_List_result (label : option (gmap string string → bool)) (obj : option (list HostPathProvisioner)) :
    option (list HostPathProvisioner) :=
  match obj with
  | None => None
  | Some items =>
      let matches := default (λ _, true) label in
      Some (filter (λ item, matches (default ∅ (Labels (o_meta item))) = true) items)
  end.

Definition fake (m : method) : Action :=
  match m with
  | MGet name _ => fake_Get name
  | MList _ => fake_List
  | MWatch _ => fake_Watch
  | MCreate o _ => fake_Create o
  | MUpdate o _ => fake_Update o
  | MUpdateStatus o _ => fake_UpdateStatus o
  | MDelete name _ => fake_Delete name
  | MDeleteCollection _ _ => fake_DeleteCollection
  | MPatch name pt data _ subs => fake_Patch name pt data subs
  end.

(** ** Paths *)

(** A component that [path.Clean] keeps *)
Definition plain (c : string) : Prop := c ≠ "" ∧ c ≠ "." ∧ c ≠ ".." ∧ Split c "/" = [c].

#[export] Instance plain_dec c : Decision (plain c).
Proof. unfold plain. apply _. Defined.

Definition absolute (comps : list string) : string := "/" +:+ Join comps "/".

(** The components of a path, without empty ones *)
Definition components (s : string) : list string := filter (λ c, c ≠ "") (Split s "/").

Lemma Split_slash s t : Split (s +:+ "/" +:+ t) "/" = Split s "/" ++ Split t "/".
Proof.
  change ("/" +:+ t) with (String "/" t). induction s as [|c s IH]; [done|]. simpl. rewrite IH. destruct (Ascii.eqb c "/"); [done|].
  pose proof (Split_ne s "/") as Hs. by destruct (Split s "/").
Qed.

Lemma components_Join l : components (Join l "/") = l ≫= components.
Proof.
  induction l as [|s [|t l] IH]; [done|cbn; by rewrite app_nil_r|].
  rewrite Join_cons_cons. unfold components at 1. rewrite Split_slash, filter_app. cbn [mbind list_bind].
  f_equal. exact IH.
Qed.

Lemma components_plain c : plain c → components c = [c].
Proof. intros (Hne & _ & _ & Hs). unfold components. rewrite Hs. by rewrite filter_cons_True. Qed.

Lemma components_all_plain l : Forall plain l → l ≫= components = l.
Proof. induction 1 as [|c l Hc Hl IH]; [done|]. cbn. by rewrite components_plain, IH. Qed.

Lemma clean_plain rooted parts acc :
  Forall plain (filter (λ c, c ≠ "") parts) → clean_components rooted parts acc = reverse (filter (λ c, c ≠ "") parts) ++ acc.
Proof.
  revert acc. induction parts as [|p parts IH]; intros acc; [done|]. cbn [clean_components].
  destruct (decide (p = "")) as [->|Hp].
  - rewrite filter_cons_False by naive_solver. intros Hf. by rewrite bool_decide_eq_true_2, IH.
  - rewrite filter_cons_True by done. intros [(_ & Hd & Hdd & _) Hf]%Forall_cons.
    rewrite !bool_decide_eq_false_2 by done. cbn [orb]. rewrite IH by done. by rewrite reverse_cons, <-app_assoc.
Qed.

Lemma Clean_plain s : Forall plain (components s) → HasPrefix s "/" = true → Clean s = absolute (components s).
Proof.
  intros Hp Hs. unfold Clean. rewrite Hs, clean_plain by done. by rewrite app_nil_r, reverse_involutive.
Qed.

(** Joining the elements of an absolute path, when no element has a component that is
    cleaned away *)
Lemma path_join s l :
  HasPrefix s "/" = true → Forall plain ((s :: l) ≫= components) → path_Join (s :: l) = absolute ((s :: l) ≫= components).
Proof.
  intros Hs Hp. unfold filepath_Join. rewrite filter_cons_True by (by intros ->).
  assert (∀ l, filter (λ e, e ≠ "") l ≫= components = l ≫= components) as Hf.
  { intros k. induction k as [|e k IH]; [done|]. destruct (decide (e = "")) as [->|He].
    - rewrite filter_cons_False by naive_solver. exact IH.
    - rewrite filter_cons_True by done. cbn. by rewrite IH. }
  assert (components (Join (s :: filter (λ e, e ≠ "") l) "/") = (s :: l) ≫= components) as Hc.
  { rewrite components_Join. cbn. by rewrite Hf. }
  rewrite Clean_plain; [by rewrite Hc|by rewrite Hc|].
  destruct (filter _ l) as [|t k]; [done|]. rewrite Join_cons_cons. apply HasPrefix_spec in Hs as [u ->]. by rewrite append_assoc, HasPrefix_append.
Qed.

Lemma components_slash s : components ("/" +:+ s) = components s.
Proof. unfold components. change ("/" +:+ s) with ("" +:+ "/" +:+ s). by rewrite Split_slash, filter_app. Qed.

Lemma components_absolute l : Forall plain l → components (absolute l) = l.
Proof. intros Hl. unfold absolute. by rewrite components_slash, components_Join, components_all_plain. Qed.

(** *** Names that pass the check *)

Lemma Split_whole s : Contains s "/" = false → Split s "/" = [s].
Proof.
  induction s as [|c s IH]; [done|]. cbn [Contains]. intros [Hp Hs]%orb_false_iff. simpl in *.
  destruct (Ascii.eqb c "/") eqn:Hc.
  - apply Ascii.eqb_eq in Hc as ->. by destruct s.
  - by rewrite IH.
Qed.

Lemma valid_name name : IsValidPathSegmentName name = [] → name ≠ "." ∧ name ≠ ".." ∧ Split name "/" = [name].
Proof.
  unfold IsValidPathSegmentName, NameMayNotBe, NameMayNotContain. intros H.
  rewrite !filter_cons, !filter_nil in H. do 2 (case_decide; [done|]). split_and!; [done|done|].
  apply Split_whole. destruct (Contains name "/") eqn:Hc; [|done]. by rewrite decide_True in H by done.
Qed.

Lemma valid_components name : IsValidPathSegmentName name = [] → components name = filter (λ c, c ≠ "") [name] ∧ Forall plain (components name).
Proof.
  intros (H1 & H2 & H3)%valid_name. unfold components. rewrite H3. split; [done|].
  rewrite filter_cons, filter_nil. case_decide; [|done]. by repeat constructor.
Qed.

Lemma Join_nonempty c l : c ≠ "" → Join (c :: l) "/" ≠ "".
Proof. destruct c, l; done. Qed.

(** A relative path, of segments that passed the check *)
Lemma path_join_segments subs :
  Forall (λ s, IsValidPathSegmentName s = []) subs →
  components (path_Join subs) = subs ≫= components ∧ Forall plain (subs ≫= components).
Proof.
  intros Hs. assert (Forall plain (subs ≫= components)) as Hp.
  { induction Hs as [|s subs Hv Hs IH]; [constructor|]. cbn. apply Forall_app. split; [by apply valid_components|done]. }
  split; [|done]. unfold filepath_Join.
  assert (filter (λ e, e ≠ "") subs = subs ≫= components) as ->.
  { clear Hp. induction Hs as [|s subs Hv Hs IH]; [done|]. cbn. destruct (valid_components s Hv) as [-> _]. rewrite <-IH.
    by rewrite <-filter_app. }
  destruct (subs ≫= components) as [|c l] eqn:Hl; [done|]. rewrite <-Hl in *.
  assert (components (Join (subs ≫= components) "/") = subs ≫= components) as Hc by (by rewrite components_Join, components_all_plain).
  assert (Clean (Join (subs ≫= components) "/") = Join (subs ≫= components) "/") as ->; [|done].
  unfold Clean. assert (HasPrefix (Join (subs ≫= components) "/") "/" = false) as ->.
  { destruct (HasPrefix _ "/") eqn:Hpre; [|done]. apply HasPrefix_spec in Hpre as [u Hu]. rewrite Hl in Hu, Hp.
    apply Forall_cons in Hp as [(Hne & _ & _ & Hsp) _]. destruct c as [|a c]; [done|].
    assert (a = "/"%char) as -> by (by destruct l; injection Hu as ->). by destruct (Split_ne c "/"); injection Hsp. }
  rewrite clean_plain by (by fold (components (Join (subs ≫= components) "/")); rewrite Hc).
  rewrite app_nil_r, reverse_involutive. change (filter (λ c, c ≠ "") (Split (Join (subs ≫= components) "/") "/"))
    with (components (Join (subs ≫= components) "/")). rewrite Hc.
  rewrite bool_decide_eq_false_2; [done|]. rewrite Hl in *. apply Forall_cons in Hp as [(Hne & _) _]. by apply Join_nonempty.
Qed.

(** ** Where the requests go *)

Section Targets.
Context `{RC : RequestCodec}.

(** The part of a request the path is made of *)
Record target := { t_verb : string; t_prefix : string; t_resource : string; t_name : string; t_sub : string }.
Definition target_of (r : Request) : target :=
  {| t_verb := verb r; t_prefix := pathPrefix r; t_resource := resource r; t_name := resourceName r; t_sub := subresource r |}.

Definition with_name (name : string) (t : target) : target :=
  {| t_verb := t_verb t; t_prefix := t_prefix t; t_resource := t_resource t; t_name := name; t_sub := t_sub t |}.
Definition with_sub (sub : string) (t : target) : target :=
  {| t_verb := t_verb t; t_prefix := t_prefix t; t_resource := t_resource t; t_name := t_name t; t_sub := sub |}.

(** [r'] was made of [r], both without an error, and the target is the same. *)
Definition same_target (r r' : Request) : Prop := r_err r' = None → r_err r = None ∧ target_of r' = target_of r.

Lemma Timeout_target d r : same_target r (Timeout d r).
Proof using Type. unfold same_target, Timeout, unless_failed. destruct (r_err r) eqn:He; [congruence|]. done. Qed.

Lemma VersionedParams_target q r : same_target r (VersionedParams q r).
Proof using Type. unfold same_target, VersionedParams, unless_failed. destruct (r_err r) eqn:He; [congruence|]. by destruct (EncodeParameters q). Qed.

Lemma Body_target p r : same_target r (Body p r).
Proof using Type. unfold same_target, Body, unless_failed. destruct (r_err r) eqn:He; [congruence|]. destruct p; cbn; try destruct (Encode _); done. Qed.

Lemma NameOf_target name r :
  r_err (NameOf name r) = None →
  r_err r = None ∧ name ≠ "" ∧ IsValidPathSegmentName name = [] ∧
  target_of (NameOf name r) = with_name name (target_of r).
Proof using Type.
  unfold NameOf, unless_failed. destruct (r_err r) eqn:He; [congruence|]. case_bool_decide; [done|]. case_bool_decide; [done|].
  by destruct (IsValidPathSegmentName name) eqn:Hv.
Qed.

Lemma SubResource_target subs r :
  r_err (SubResource subs r) = None →
  r_err r = None ∧ Forall (λ s, IsValidPathSegmentName s = []) subs ∧
  target_of (SubResource subs r) = with_sub (path_Join subs) (target_of r).
Proof using Type.
  unfold SubResource, unless_failed. destruct (r_err r) eqn:He; [congruence|]. case_bool_decide; [done|].
  destruct (filter _ subs) as [|s l] eqn:Hf; [|done]. intros _. split_and!; [done| |done].
  apply Forall_forall. intros s Hin. destruct (decide (IsValidPathSegmentName s = [])) as [|Hv]; [done|].
  assert (s ∈ filter (λ s, IsValidPathSegmentName s ≠ []) subs) as Hs by (by apply list_elem_of_filter).
  rewrite Hf in Hs. by apply not_elem_of_nil in Hs.
Qed.

(** *** The methods *)

Definition http_verb (m : method) : string :=
  match m with
  | MGet _ _ | MList _ | MWatch _ => "GET"
  | MCreate _ _ => "POST"
  | MUpdate _ _ | MUpdateStatus _ _ => "PUT"
  | MDelete _ _ | MDeleteCollection _ _ => "DELETE"
  | MPatch _ _ _ _ _ => "PATCH"
  end.

(** The resource a method names, if it names one, and the subresource *)
Definition named (m : method) : option string :=
  match m with
  | MGet name _ | MDelete name _ | MPatch name _ _ _ _ => Some name
  | MUpdate o _ | MUpdateStatus o _ => Some (o_name o)
  | _ => None
  end.

Definition subresources (m : method) : list string :=
  match m with MUpdateStatus _ _ => ["status"] | MPatch _ _ _ _ subs => subs | _ => [] end.

Definition prefix (base : string) : string := path_Join ["/"; base; DefaultVersionedAPIPath "/apis" hpp_group hpp_version].

(** Undoes the builder methods of a request that has no error. *)
Ltac peel H := repeat match type of H with
  | r_err (Body _ _) = _ => apply Body_target in H as [H ->]
  | r_err (Timeout _ _) = _ => apply Timeout_target in H as [H ->]
  | r_err (VersionedParams _ _) = _ => apply VersionedParams_target in H as [H ->]
  | r_err (NameOf _ _) = _ => let Hne := fresh "Hne" in let Hv := fresh "Hv" in apply NameOf_target in H as (H & Hne & Hv & ->)
  | r_err (SubResource _ _) = _ => let Hs := fresh "Hs" in apply SubResource_target in H as (H & Hs & ->)
  end.

Lemma typed_target base m :
  r_err (typed base m) = None →
  target_of (typed base m) =
    {| t_verb := http_verb m; t_prefix := prefix base; t_resource := hpp_resource; t_name := default "" (named m);
       t_sub := path_Join (subresources m) |} ∧
  (∀ name, named m = Some name → name ≠ "" ∧ IsValidPathSegmentName name = []) ∧
  Forall (λ s, IsValidPathSegmentName s = []) (subresources m).
Proof using Type.
  destruct m as [name rv|opts|opts|o opts|o opts|o opts|name opts|opts lopts|name pt data opts subs];
    cbn [typed]; unfold typed_Get, typed_List, typed_Watch, typed_Create, typed_Update, typed_UpdateStatus, typed_Delete,
      typed_DeleteCollection, typed_Patch; intros H; peel H; (split_and!; [|try done|by (try constructor)]);
    try done; by (intros ? [= <-]).
Qed.

(** The path of a target *)
Lemma URL_path r : resource r = hpp_resource → Forall plain (components (pathPrefix r)) → HasPrefix (pathPrefix r) "/" = true →
  Forall plain (components (resourceName r)) → Forall plain (components (subresource r)) →
  URL_Path r = absolute (components (pathPrefix r) ++ [hpp_resource] ++ components (resourceName r) ++ components (subresource r)).
Proof using Type.
  intros Hr Hp Hs Hn Hsub. unfold URL_Path. rewrite Hr.
  assert (components (ToLower hpp_resource) = [hpp_resource]) as Hc by (vm_compute; reflexivity).
  assert (Forall plain [hpp_resource]) as Hpr by (repeat constructor; vm_compute; congruence).
  rewrite (bool_decide_eq_false_2 (hpp_resource = "")) by done.
  assert (path_Join [pathPrefix r; ToLower hpp_resource] = absolute (components (pathPrefix r) ++ [hpp_resource])) as ->.
  { rewrite path_join; cbn [mbind list_bind]; rewrite ?Hc, ?app_nil_r; try done. by apply Forall_app. }
  case_bool_decide as Hb.
  - destruct Hb as [-> ->]. cbn. by rewrite app_nil_r.
  - assert (Forall plain (components (pathPrefix r) ++ [hpp_resource])) as Hpc by (by apply Forall_app).
    rewrite path_join; cbn [mbind list_bind]; rewrite ?app_nil_r, ?components_absolute by done.
    + by rewrite <-app_assoc.
    + apply HasPrefix_append.
    + rewrite !Forall_app in *. done.
Qed.

(** *** All requests *)

(** The components of the paths of the resource *)
Definition collection (base : string) : list string := components base ++ ["apis"; hpp_group; hpp_version; hpp_resource].

Definition item (m : method) : list string := option_list (named m) ++ filter (λ s, s ≠ "") (subresources m).

Lemma prefix_components base :
  Forall plain (components base) →
  components (prefix base) = components base ++ ["apis"; hpp_group; hpp_version] ∧
  Forall plain (components (prefix base)) ∧ HasPrefix (prefix base) "/" = true.
Proof using Type.
  intros Hb. assert (components (DefaultVersionedAPIPath "/apis" hpp_group hpp_version) = ["apis"; hpp_group; hpp_version]) as Hc
    by (vm_compute; reflexivity).
  assert (Forall plain ["apis"; hpp_group; hpp_version]) as Hp by (by apply (bool_decide_unpack _); vm_compute).
  assert (Forall plain (components base ++ ["apis"; hpp_group; hpp_version])) as Hall by (by apply Forall_app).
  assert (prefix base = absolute (components base ++ ["apis"; hpp_group; hpp_version])) as ->.
  { unfold prefix. rewrite path_join; cbn [mbind list_bind]; rewrite ?Hc, ?app_nil_r; done. }
  rewrite components_absolute by done. split_and!; [done|done|apply HasPrefix_append].
Qed.

Lemma valid_bind subs :
  Forall (λ s, IsValidPathSegmentName s = []) subs → subs ≫= components = filter (λ s, s ≠ "") subs.
Proof using Type.
  induction 1 as [|s subs Hv Hs IH]; [done|]. cbn. rewrite (proj1 (valid_components s Hv)), IH. by rewrite <-filter_app.
Qed.

Lemma sent_path base m h :
  Forall plain (components base) → sent (typed base m) = Ok h →
  h_method h = http_verb m ∧ h_path h = absolute (collection base ++ item m) ∧ Forall plain (collection base ++ item m).
Proof using Type.
  intros Hb. unfold sent. destruct (r_err (typed base m)) eqn:He; [done|]. intros [= <-].
  destruct (typed_target base m He) as (Ht & Hn & Hs). cbn [h_method h_path].
  injection Ht as Hverb Hprefix Hres Hname Hsub.
  destruct (prefix_components base Hb) as (Hpc & Hpp & Hph).
  destruct (path_join_segments (subresources m) Hs) as [Hsc Hsp].
  assert (components (resourceName (typed base m)) = option_list (named m) ∧ Forall plain (components (resourceName (typed base m))))
    as [Hnc Hnp].
  { rewrite Hname. destruct (named m) as [name|]; [|done]. cbn [default from_option id option_list]. destruct (Hn name eq_refl) as [Hne Hv].
    destruct (valid_components name Hv) as [Hc Hp]. split; [|exact Hp]. rewrite Hc. by rewrite filter_cons_True. }
  assert (components (subresource (typed base m)) = filter (λ s, s ≠ "") (subresources m)) as Hsc'.
  { by rewrite Hsub, Hsc, valid_bind. }
  assert (Forall plain [hpp_resource]) as Hpr by (by apply (bool_decide_unpack _); vm_compute).
  rewrite URL_path; [|done|by rewrite Hprefix|by rewrite Hprefix|done|by rewrite Hsub, Hsc].
  rewrite Hprefix, Hpc, Hnc, Hsc'. unfold collection, item. rewrite <-!app_assoc. split_and!; [done|done|].
  rewrite valid_bind in Hsp by done. rewrite Hnc in Hnp. rewrite Hpc in Hpp.
  rewrite !Forall_app in *. destruct Hpp as [_ Hpp]. by repeat constructor || (split_and!; try done); inversion Hpp.
Qed.

(** C21: a request stays on its resource.  Whatever name, object, patch or
    subresources the typed client is called with, either nothing is sent, or the
    request goes to the collection of HostPathProvisioners, or below it to the
    resource that was named and the subresources that were, with the HTTP method
    of the operation: no name, empty or with dots or slashes in it, leads to
    another path, and two requests with the same path name the same resource. *)
Theorem requests_stay_on_their_resource base m h :
  Forall plain (components base) → sent (typed base m) = Ok h →
  h_method h = http_verb m ∧ h_path h = absolute (collection base ++ item m) ∧
  ∀ m' h', sent (typed base m') = Ok h' → h_path h' = h_path h → item m' = item m.
Proof using Type.
  intros Hb Hs. destruct (sent_path base m h Hb Hs) as (Hm & Hp & Hall). split_and!; [done|done|].
  intros m' h' Hs' Heq. destruct (sent_path base m' h' Hb Hs') as (_ & Hp' & Hall').
  rewrite Hp, Hp' in Heq. apply (f_equal components) in Heq. rewrite !components_absolute in Heq by done.
  by apply app_inv_head in Heq.
Qed.

(** *** The fake client *)

(** The HTTP method of an action, and the object it is about *)
Definition method_of (verb : string) : string :=
  if bool_decide (verb ∈ ["get"; "list"; "watch"]) then "GET"
  else if bool_decide (verb = "create") then "POST"
  else if bool_decide (verb = "update") then "PUT"
  else if bool_decide (verb ∈ ["delete"; "delete-collection"]) then "DELETE"
  else "PATCH".

Definition action_name (a : Action) : string :=
  match a_object a with
  | Some o => if bool_decide (a_verb a = "create") then "" else o_name o
  | None => a_name a
  end.

(** Where the action of the fake is what the client sends *)
Theorem fake_records_what_is_sent base m h :
  Forall plain (components base) → sent (typed base m) = Ok h →
  let a := fake m in
  h_method h = method_of (a_verb a) ∧
  components (h_path h) =
    components base ++ ["apis"; a_group a; a_version a; a_resource a] ++ components (action_name a) ++ components (a_subresource a).
Proof using Type.
  intros Hb Hs a. destruct (sent_path base m h Hb Hs) as (-> & -> & Hall). split; [by destruct m|].
  rewrite components_absolute by done. unfold collection. rewrite <-app_assoc. cbn [app]. do 5 f_equal.
  { by destruct m. } { by destruct m. } { by destruct m. }
  unfold sent in Hs. destruct (r_err (typed base m)) eqn:He; [done|].
  destruct (typed_target base m He) as (_ & Hn & Hv). unfold item.
  assert (components (action_name a) = option_list (named m)) as ->.
  { assert (∀ name, named m = Some name → components name = [name]) as Hc.
    { intros name Hname. destruct (Hn name Hname) as [Hne Hval]. destruct (valid_components name Hval) as [-> _].
      by rewrite filter_cons_True. }
    unfold a. destruct m; try done; by apply Hc. }
  f_equal. rewrite <-valid_bind by done. destruct (path_join_segments _ Hv) as [<- _]. by unfold a; destruct m.
Qed.

End Targets.

(** *** Timeouts *)

(** A timeout is exact up to about 292 years; beyond, the product wraps around. *)
Lemma seconds_exact n : - 9223372036 <= n <= 9223372036 → seconds n = n * 1000000000.
Proof. intros Hn. unfold seconds, int64. rewrite Z.mod_small; lia. Qed.

Example seconds_wrap : seconds 9223372037 = - 9223372036709551616.
Proof. reflexivity. Qed.

(** ** Examples *)

#[local] Instance sample_codec : RequestCodec := {|
  Quote := λ s, s;
  EncodeParameters := λ q, match q with QPatch o => Ok {["fieldManager" := [wo_FieldManager o]]} | _ => Ok ∅ end;
  Encode := λ _, Ok "{}" |}.

Definition sample_patch : method :=
  MPatch "hostpath-provisioner" "application/merge-patch+json" "{}" {| wo_DryRun := []; wo_FieldManager := "hpp" |} ["status"].

Definition sample_request : http_request := {|
  h_method := "PATCH";
  h_path := "/k8s/apis/hostpathprovisioner.kubevirt.io/v1beta1/hostpathprovisioners/hostpath-provisioner/status";
  h_query := {["fieldManager" := ["hpp"]]}; h_timeout := 0; h_body := Some "{}" |}.

Lemma requests_stay_on_their_resource_witness :
  sent (typed "/k8s" sample_patch) = Ok sample_request ∧
  h_path sample_request = absolute (collection "/k8s" ++ ["hostpath-provisioner"; "status"]).
Proof.
  assert (sent (typed "/k8s" sample_patch) = Ok sample_request) as Hs by (vm_compute; reflexivity).
  assert (Forall plain (components "/k8s")) as Hb by (apply (bool_decide_unpack (Forall plain (components "/k8s"))); vm_compute; exact I).
  split; [exact Hs|]. exact (proj1 (proj2 (requests_stay_on_their_resource "/k8s" sample_patch sample_request Hb Hs))).
Defined.

(** Names the client refuses *)
Example refused_names :
  (λ name, is_ok (sent (typed "/k8s" (MDelete name None)))) <$> [""; "."; ".."; "../nodes"; "a/status"; "a%2fstatus"] =
  [false; false; false; false; false; false].
Proof. vm_compute. reflexivity. Qed.

(** The fake takes them. *)
Example fake_takes_any_name : a_name (fake (MDelete "../nodes" None)) = "../nodes".
Proof. reflexivity. Qed.
