(* ===== verification/OpenApi.v ===== *)
(** * The generated OpenAPI definitions

    pkg/apis/hostpathprovisioner/v1beta1/zz_generated.openapi.go as data: one
    definition per function, and the table GetOpenAPIDefinitions makes of them.  The
    argument [ref] of those functions, which turns the name of a model into a
    reference, is the constructor [ORef].  Left out are the descriptions and the
    extensions that only say how documents are merged (map types, patch strategies,
    and that a list is atomic).  OpenApiTypes.v says what the definitions promise. *)
From S2P Require Import Prelude CrdSchema.

(** ** Schemas *)

(** The value of [Default] *)
Inductive odefault := no_default | empty_text | empty_object | zero_number | false_value.

Inductive oschema :=
| OScalar (type format : string) (default : odefault)
| OArray (kind : list_type) (items : oschema)
| OMap (additionalProperties : oschema)
| OObject (properties : list (string * oschema)) (required : list string)
| ORef (model : string) (default : odefault).

Record OpenAPIDefinition := { d_schema : oschema; d_dependencies : list string }.

(** The packages models are named by *)
Definition meta_v1 (name : string) : string := ("k8s.io/apimachinery/pkg/apis/meta/v1." ++ name)%string.
Definition core_v1 (name : string) : string := ("k8s.io/api/core/v1." ++ name)%string.
Definition runtime (name : string) : string := ("k8s.io/apimachinery/pkg/runtime." ++ name)%string.
Definition version_pkg (name : string) : string := ("k8s.io/apimachinery/pkg/version." ++ name)%string.
Definition conditions_v1 (name : string) : string :=
  ("github.com/openshift/custom-resource-status/conditions/v1." ++ name)%string.
Definition hpp_v1beta1 (name : string) : string :=
  ("kubevirt.io/hostpath-provisioner-operator/pkg/apis/hostpathprovisioner/v1beta1." ++ name)%string.

(** ** The definitions *)

Definition schema_pkg_apis_meta_v1_APIGroup : OpenAPIDefinition := {|
  d_schema := OObject [
    ("kind", OScalar "string" "" no_default);
    ("apiVersion", OScalar "string" "" no_default);
    ("name", OScalar "string" "" empty_text);
    ("versions", OArray Plain (ORef (meta_v1 "GroupVersionForDiscovery") empty_object));
    ("preferredVersion", ORef (meta_v1 "GroupVersionForDiscovery") empty_object);
    ("serverAddressByClientCIDRs", OArray Plain (ORef (meta_v1 "ServerAddressByClientCIDR") empty_object))]
  ["name"; "versions"];
  d_dependencies := [meta_v1 "GroupVersionForDiscovery"; meta_v1 "ServerAddressByClientCIDR"] |}.

Definition schema_pkg_apis_meta_v1_APIGroupList : OpenAPIDefinition := {|
  d_schema := OObject [
    ("kind", OScalar "string" "" no_default);
    ("apiVersion", OScalar "string" "" no_default);
    ("groups", OArray Plain (ORef (meta_v1 "APIGroup") empty_object))] ["groups"];
  d_dependencies := [meta_v1 "APIGroup"] |}.

Definition schema_pkg_apis_meta_v1_APIResource : OpenAPIDefinition := {|
  d_schema := OObject [
    ("name", OScalar "string" "" empty_text);
    ("singularName", OScalar "string" "" empty_text);
    ("namespaced", OScalar "boolean" "" false_value);
    ("group", OScalar "string" "" no_default);
    ("version", OScalar "string" "" no_default);
    ("kind", OScalar "string" "" empty_text);
    ("verbs", OArray Plain (OScalar "string" "" empty_text));
    ("shortNames", OArray Plain (OScalar "string" "" empty_text));
    ("categories", OArray Plain (OScalar "string" "" empty_text));
    ("storageVersionHash", OScalar "string" "" no_default)] ["name"; "singularName"; "namespaced"; "kind"; "verbs"];
  d_dependencies := [] |}.

Definition schema_pkg_apis_meta_v1_APIResourceList : OpenAPIDefinition := {|
  d_schema := OObject [
    ("kind", OScalar "string" "" no_default);
    ("apiVersion", OScalar "string" "" no_default);
    ("groupVersion", OScalar "string" "" empty_text);
    ("resources", OArray Plain (ORef (meta_v1 "APIResource") empty_object))] ["groupVersion"; "resources"];
  d_dependencies := [meta_v1 "APIResource"] |}.

Definition schema_pkg_apis_meta_v1_APIVersions : OpenAPIDefinition := {|
  d_schema := OObject [
    ("kind", OScalar "string" "" no_default);
    ("apiVersion", OScalar "string" "" no_default);
    ("versions", OArray Plain (OScalar "string" "" empty_text));
    ("serverAddressByClientCIDRs", OArray Plain (ORef (meta_v1 "ServerAddressByClientCIDR") empty_object))]
  ["versions"; "serverAddressByClientCIDRs"];
  d_dependencies := [meta_v1 "ServerAddressByClientCIDR"] |}.

Definition schema_pkg_apis_meta_v1_ApplyOptions : OpenAPIDefinition := {|
  d_schema := OObject [
    ("kind", OScalar "string" "" no_default);
    ("apiVersion", OScalar "string" "" no_default);
    ("dryRun", OArray Plain (OScalar "string" "" empty_text));
    ("force", OScalar "boolean" "" false_value);
    ("fieldManager", OScalar "string" "" empty_text)] ["force"; "fieldManager"];
  d_dependencies := [] |}.

Definition schema_pkg_apis_meta_v1_Condition : OpenAPIDefinition := {|
  d_schema := OObject [
    ("type", OScalar "string" "" empty_text);
    ("status", OScalar "string" "" empty_text);
    ("observedGeneration", OScalar "integer" "int64" no_default);
    ("lastTransitionTime", ORef (meta_v1 "Time") no_default);
    ("reason", OScalar "string" "" empty_text);
    ("message", OScalar "string" "" empty_text)] ["type"; "status"; "lastTransitionTime"; "reason"; "message"];
  d_dependencies := [meta_v1 "Time"] |}.

Definition schema_pkg_apis_meta_v1_CreateOptions : OpenAPIDefinition := {|
  d_schema := OObject [
    ("kind", OScalar "string" "" no_default);
    ("apiVersion", OScalar "string" "" no_default);
    ("dryRun", OArray Plain (OScalar "string" "" empty_text));
    ("fieldManager", OScalar "string" "" no_default);
    ("fieldValidation", OScalar "string" "" no_default)] [];
  d_dependencies := [] |}.

Definition schema_pkg_apis_meta_v1_DeleteOptions : OpenAPIDefinition := {|
  d_schema := OObject [
    ("kind", OScalar "string" "" no_default);
    ("apiVersion", OScalar "string" "" no_default);
    ("gracePeriodSeconds", OScalar "integer" "int64" no_default);
    ("preconditions", ORef (meta_v1 "Preconditions") no_default);
    ("orphanDependents", OScalar "boolean" "" no_default);
    ("propagationPolicy", OScalar "string" "" no_default);
    ("dryRun", OArray Plain (OScalar "string" "" empty_text))] [];
  d_dependencies := [meta_v1 "Preconditions"] |}.

Definition schema_pkg_apis_meta_v1_Duration : OpenAPIDefinition := {|
  d_schema := OScalar "string" "" no_default;
  d_dependencies := [] |}.

Definition schema_pkg_apis_meta_v1_FieldsV1 : OpenAPIDefinition := {|
  d_schema := OObject [] [];
  d_dependencies := [] |}.

Definition schema_pkg_apis_meta_v1_GetOptions : OpenAPIDefinition := {|
  d_schema := OObject [
    ("kind", OScalar "string" "" no_default);
    ("apiVersion", OScalar "string" "" no_default);
    ("resourceVersion", OScalar "string" "" no_default)] [];
  d_dependencies := [] |}.

Definition schema_pkg_apis_meta_v1_GroupKind : OpenAPIDefinition := {|
  d_schema := OObject [
    ("group", OScalar "string" "" empty_text);
    ("kind", OScalar "string" "" empty_text)] ["group"; "kind"];
  d_dependencies := [] |}.

Definition schema_pkg_apis_meta_v1_GroupResource : OpenAPIDefinition := {|
  d_schema := OObject [
    ("group", OScalar "string" "" empty_text);
    ("resource", OScalar "string" "" empty_text)] ["group"; "resource"];
  d_dependencies := [] |}.

Definition schema_pkg_apis_meta_v1_GroupVersion : OpenAPIDefinition := {|
  d_schema := OObject [
    ("group", OScalar "string" "" empty_text);
    ("version", OScalar "string" "" empty_text)] ["group"; "version"];
  d_dependencies := [] |}.

Definition schema_pkg_apis_meta_v1_GroupVersionForDiscovery : OpenAPIDefinition := {|
  d_schema := OObject [
    ("groupVersion", OScalar "string" "" empty_text);
    ("version", OScalar "string" "" empty_text)] ["groupVersion"; "version"];
  d_dependencies := [] |}.

Definition schema_pkg_apis_meta_v1_GroupVersionKind : OpenAPIDefinition := {|
  d_schema := OObject [
    ("group", OScalar "string" "" empty_text);
    ("version", OScalar "string" "" empty_text);
    ("kind", OScalar "string" "" empty_text)] ["group"; "version"; "kind"];
  d_dependencies := [] |}.

Definition schema_pkg_apis_meta_v1_GroupVersionResource : OpenAPIDefinition := {|
  d_schema := OObject [
    ("group", OScalar "string" "" empty_text);
    ("version", OScalar "string" "" empty_text);
    ("resource", OScalar "string" "" empty_text)] ["group"; "version"; "resource"];
  d_dependencies := [] |}.

Definition schema_pkg_apis_meta_v1_InternalEvent : OpenAPIDefinition := {|
  d_schema := OObject [
    ("Type", OScalar "string" "" empty_text);
    ("Object", ORef (runtime "Object") no_default)] ["Type"; "Object"];
  d_dependencies := [runtime "Object"] |}.

Definition schema_pkg_apis_meta_v1_LabelSelector : OpenAPIDefinition := {|
  d_schema := OObject [
    ("matchLabels", OMap (OScalar "string" "" empty_text));
    ("matchExpressions", OArray Plain (ORef (meta_v1 "LabelSelectorRequirement") empty_object))] [];
  d_dependencies := [meta_v1 "LabelSelectorRequirement"] |}.

Definition schema_pkg_apis_meta_v1_LabelSelectorRequirement : OpenAPIDefinition := {|
  d_schema := OObject [
    ("key", OScalar "string" "" empty_text);
    ("operator", OScalar "string" "" empty_text);
    ("values", OArray Plain (OScalar "string" "" empty_text))] ["key"; "operator"];
  d_dependencies := [] |}.

Definition schema_pkg_apis_meta_v1_List : OpenAPIDefinition := {|
  d_schema := OObject [
    ("kind", OScalar "string" "" no_default);
    ("apiVersion", OScalar "string" "" no_default);
    ("metadata", ORef (meta_v1 "ListMeta") empty_object);
    ("items", OArray Plain (ORef (runtime "RawExtension") no_default))] ["items"];
  d_dependencies := [meta_v1 "ListMeta"; runtime "RawExtension"] |}.

Definition schema_pkg_apis_meta_v1_ListMeta : OpenAPIDefinition := {|
  d_schema := OObject [
    ("selfLink", OScalar "string" "" no_default);
    ("resourceVersion", OScalar "string" "" no_default);
    ("continue", OScalar "string" "" no_default);
    ("remainingItemCount", OScalar "integer" "int64" no_default)] [];
  d_dependencies := [] |}.

Definition schema_pkg_apis_meta_v1_ListOptions : OpenAPIDefinition := {|
  d_schema := OObject [
    ("kind", OScalar "string" "" no_default);
    ("apiVersion", OScalar "string" "" no_default);
    ("labelSelector", OScalar "string" "" no_default);
    ("fieldSelector", OScalar "string" "" no_default);
    ("watch", OScalar "boolean" "" no_default);
    ("allowWatchBookmarks", OScalar "boolean" "" no_default);
    ("resourceVersion", OScalar "string" "" no_default);
    ("resourceVersionMatch", OScalar "string" "" no_default);
    ("timeoutSeconds", OScalar "integer" "int64" no_default);
    ("limit", OScalar "integer" "int64" no_default);
    ("continue", OScalar "string" "" no_default);
    ("sendInitialEvents", OScalar "boolean" "" no_default)] [];
  d_dependencies := [] |}.

Definition schema_pkg_apis_meta_v1_ManagedFieldsEntry : OpenAPIDefinition := {|
  d_schema := OObject [
    ("manager", OScalar "string" "" no_default);
    ("operation", OScalar "string" "" no_default);
    ("apiVersion", OScalar "string" "" no_default);
    ("time", ORef (meta_v1 "Time") no_default);
    ("fieldsType", OScalar "string" "" no_default);
    ("fieldsV1", ORef (meta_v1 "FieldsV1") no_default);
    ("subresource", OScalar "string" "" no_default)] [];
  d_dependencies := [meta_v1 "FieldsV1"; meta_v1 "Time"] |}.

Definition schema_pkg_apis_meta_v1_MicroTime : OpenAPIDefinition := {|
  d_schema := OScalar "string" "date-time" no_default;
  d_dependencies := [] |}.

Definition schema_pkg_apis_meta_v1_ObjectMeta : OpenAPIDefinition := {|
  d_schema := OObject [
    ("name", OScalar "string" "" no_default);
    ("generateName", OScalar "string" "" no_default);
    ("namespace", OScalar "string" "" no_default);
    ("selfLink", OScalar "string" "" no_default);
    ("uid", OScalar "string" "" no_default);
    ("resourceVersion", OScalar "string" "" no_default);
    ("generation", OScalar "integer" "int64" no_default);
    ("creationTimestamp", ORef (meta_v1 "Time") no_default);
    ("deletionTimestamp", ORef (meta_v1 "Time") no_default);
    ("deletionGracePeriodSeconds", OScalar "integer" "int64" no_default);
    ("labels", OMap (OScalar "string" "" empty_text));
    ("annotations", OMap (OScalar "string" "" empty_text));
    ("ownerReferences", OArray (IsMap ["uid"]) (ORef (meta_v1 "OwnerReference") empty_object));
    ("finalizers", OArray IsSet (OScalar "string" "" empty_text));
    ("managedFields", OArray Plain (ORef (meta_v1 "ManagedFieldsEntry") empty_object))] [];
  d_dependencies := [meta_v1 "ManagedFieldsEntry"; meta_v1 "OwnerReference"; meta_v1 "Time"] |}.

Definition schema_pkg_apis_meta_v1_OwnerReference : OpenAPIDefinition := {|
  d_schema := OObject [
    ("apiVersion", OScalar "string" "" empty_text);
    ("kind", OScalar "string" "" empty_text);
    ("name", OScalar "string" "" empty_text);
    ("uid", OScalar "string" "" empty_text);
    ("controller", OScalar "boolean" "" no_default);
    ("blockOwnerDeletion", OScalar "boolean" "" no_default)] ["apiVersion"; "kind"; "name"; "uid"];
  d_dependencies := [] |}.

Definition schema_pkg_apis_meta_v1_PartialObjectMetadata : OpenAPIDefinition := {|
  d_schema := OObject [
    ("kind", OScalar "string" "" no_default);
    ("apiVersion", OScalar "string" "" no_default);
    ("metadata", ORef (meta_v1 "ObjectMeta") empty_object)] [];
  d_dependencies := [meta_v1 "ObjectMeta"] |}.

Definition schema_pkg_apis_meta_v1_PartialObjectMetadataList : OpenAPIDefinition := {|
  d_schema := OObject [
    ("kind", OScalar "string" "" no_default);
    ("apiVersion", OScalar "string" "" no_default);
    ("metadata", ORef (meta_v1 "ListMeta") empty_object);
    ("items", OArray Plain (ORef (meta_v1 "PartialObjectMetadata") empty_object))] ["items"];
  d_dependencies := [meta_v1 "ListMeta"; meta_v1 "PartialObjectMetadata"] |}.

Definition schema_pkg_apis_meta_v1_Patch : OpenAPIDefinition := {|
  d_schema := OObject [] [];
  d_dependencies := [] |}.

Definition schema_pkg_apis_meta_v1_PatchOptions : OpenAPIDefinition := {|
  d_schema := OObject [
    ("kind", OScalar "string" "" no_default);
    ("apiVersion", OScalar "string" "" no_default);
    ("dryRun", OArray Plain (OScalar "string" "" empty_text));
    ("force", OScalar "boolean" "" no_default);
    ("fieldManager", OScalar "string" "" no_default);
    ("fieldValidation", OScalar "string" "" no_default)] [];
  d_dependencies := [] |}.

Definition schema_pkg_apis_meta_v1_Preconditions : OpenAPIDefinition := {|
  d_schema := OObject [
    ("uid", OScalar "string" "" no_default);
    ("resourceVersion", OScalar "string" "" no_default)] [];
  d_dependencies := [] |}.

Definition schema_pkg_apis_meta_v1_RootPaths : OpenAPIDefinition := {|
  d_schema := OObject [
    ("paths", OArray Plain (OScalar "string" "" empty_text))] ["paths"];
  d_dependencies := [] |}.

Definition schema_pkg_apis_meta_v1_ServerAddressByClientCIDR : OpenAPIDefinition := {|
  d_schema := OObject [
    ("clientCIDR", OScalar "string" "" empty_text);
    ("serverAddress", OScalar "string" "" empty_text)] ["clientCIDR"; "serverAddress"];
  d_dependencies := [] |}.

Definition schema_pkg_apis_meta_v1_Status : OpenAPIDefinition := {|
  d_schema := OObject [
    ("kind", OScalar "string" "" no_default);
    ("apiVersion", OScalar "string" "" no_default);
    ("metadata", ORef (meta_v1 "ListMeta") empty_object);
    ("status", OScalar "string" "" no_default);
    ("message", OScalar "string" "" no_default);
    ("reason", OScalar "string" "" no_default);
    ("details", ORef (meta_v1 "StatusDetails") no_default);
    ("code", OScalar "integer" "int32" no_default)] [];
  d_dependencies := [meta_v1 "ListMeta"; meta_v1 "StatusDetails"] |}.

Definition schema_pkg_apis_meta_v1_StatusCause : OpenAPIDefinition := {|
  d_schema := OObject [
    ("reason", OScalar "string" "" no_default);
    ("message", OScalar "string" "" no_default);
    ("field", OScalar "string" "" no_default)] [];
  d_dependencies := [] |}.

Definition schema_pkg_apis_meta_v1_StatusDetails : OpenAPIDefinition := {|
  d_schema := OObject [
    ("name", OScalar "string" "" no_default);
    ("group", OScalar "string" "" no_default);
    ("kind", OScalar "string" "" no_default);
    ("uid", OScalar "string" "" no_default);
    ("causes", OArray Plain (ORef (meta_v1 "StatusCause") empty_object));
    ("retryAfterSeconds", OScalar "integer" "int32" no_default)] [];
  d_dependencies := [meta_v1 "StatusCause"] |}.

Definition schema_pkg_apis_meta_v1_Table : OpenAPIDefinition := {|
  d_schema := OObject [
    ("kind", OScalar "string" "" no_default);
    ("apiVersion", OScalar "string" "" no_default);
    ("metadata", ORef (meta_v1 "ListMeta") empty_object);
    ("columnDefinitions", OArray Plain (ORef (meta_v1 "TableColumnDefinition") empty_object));
    ("rows", OArray Plain (ORef (meta_v1 "TableRow") empty_object))] ["columnDefinitions"; "rows"];
  d_dependencies := [meta_v1 "ListMeta"; meta_v1 "TableColumnDefinition"; meta_v1 "TableRow"] |}.

Definition schema_pkg_apis_meta_v1_TableColumnDefinition : OpenAPIDefinition := {|
  d_schema := OObject [
    ("name", OScalar "string" "" empty_text);
    ("type", OScalar "string" "" empty_text);
    ("format", OScalar "string" "" empty_text);
    ("description", OScalar "string" "" empty_text);
    ("priority", OScalar "integer" "int32" zero_number)] ["name"; "type"; "format"; "description"; "priority"];
  d_dependencies := [] |}.

Definition schema_pkg_apis_meta_v1_TableOptions : OpenAPIDefinition := {|
  d_schema := OObject [
    ("kind", OScalar "string" "" no_default);
    ("apiVersion", OScalar "string" "" no_default);
    ("includeObject", OScalar "string" "" no_default)] [];
  d_dependencies := [] |}.

Definition schema_pkg_apis_meta_v1_TableRow : OpenAPIDefinition := {|
  d_schema := OObject [
    ("cells", OArray Plain (OObject [] []));
    ("conditions", OArray Plain (ORef (meta_v1 "TableRowCondition") empty_object));
    ("object", ORef (runtime "RawExtension") no_default)] ["cells"];
  d_dependencies := [meta_v1 "TableRowCondition"; runtime "RawExtension"] |}.

Definition schema_pkg_apis_meta_v1_TableRowCondition : OpenAPIDefinition := {|
  d_schema := OObject [
    ("type", OScalar "string" "" empty_text);
    ("status", OScalar "string" "" empty_text);
    ("reason", OScalar "string" "" no_default);
    ("message", OScalar "string" "" no_default)] ["type"; "status"];
  d_dependencies := [] |}.

Definition schema_pkg_apis_meta_v1_Time : OpenAPIDefinition := {|
  d_schema := OScalar "string" "date-time" no_default;
  d_dependencies := [] |}.

Definition schema_pkg_apis_meta_v1_Timestamp : OpenAPIDefinition := {|
  d_schema := OObject [
    ("seconds", OScalar "integer" "int64" zero_number);
    ("nanos", OScalar "integer" "int32" zero_number)] ["seconds"; "nanos"];
  d_dependencies := [] |}.

Definition schema_pkg_apis_meta_v1_TypeMeta : OpenAPIDefinition := {|
  d_schema := OObject [
    ("kind", OScalar "string" "" no_default);
    ("apiVersion", OScalar "string" "" no_default)] [];
  d_dependencies := [] |}.

Definition schema_pkg_apis_meta_v1_UpdateOptions : OpenAPIDefinition := {|
  d_schema := OObject [
    ("kind", OScalar "string" "" no_default);
    ("apiVersion", OScalar "string" "" no_default);
    ("dryRun", OArray Plain (OScalar "string" "" empty_text));
    ("fieldManager", OScalar "string" "" no_default);
    ("fieldValidation", OScalar "string" "" no_default)] [];
  d_dependencies := [] |}.

Definition schema_pkg_apis_meta_v1_WatchEvent : OpenAPIDefinition := {|
  d_schema := OObject [
    ("type", OScalar "string" "" empty_text);
    ("object", ORef (runtime "RawExtension") no_default)] ["type"; "object"];
  d_dependencies := [runtime "RawExtension"] |}.

Definition schema_k8sio_apimachinery_pkg_runtime_RawExtension : OpenAPIDefinition := {|
  d_schema := OObject [] [];
  d_dependencies := [] |}.

Definition schema_k8sio_apimachinery_pkg_runtime_TypeMeta : OpenAPIDefinition := {|
  d_schema := OObject [
    ("apiVersion", OScalar "string" "" no_default);
    ("kind", OScalar "string" "" no_default)] [];
  d_dependencies := [] |}.

Definition schema_k8sio_apimachinery_pkg_runtime_Unknown : OpenAPIDefinition := {|
  d_schema := OObject [
    ("apiVersion", OScalar "string" "" no_default);
    ("kind", OScalar "string" "" no_default);
    ("ContentEncoding", OScalar "string" "" empty_text);
    ("ContentType", OScalar "string" "" empty_text)] ["ContentEncoding"; "ContentType"];
  d_dependencies := [] |}.

Definition schema_k8sio_apimachinery_pkg_version_Info : OpenAPIDefinition := {|
  d_schema := OObject [
    ("major", OScalar "string" "" empty_text);
    ("minor", OScalar "string" "" empty_text);
    ("gitVersion", OScalar "string" "" empty_text);
    ("gitCommit", OScalar "string" "" empty_text);
    ("gitTreeState", OScalar "string" "" empty_text);
    ("buildDate", OScalar "string" "" empty_text);
    ("goVersion", OScalar "string" "" empty_text);
    ("compiler", OScalar "string" "" empty_text);
    ("platform", OScalar "string" "" empty_text)]
  ["major"; "minor"; "gitVersion"; "gitCommit"; "gitTreeState"; "buildDate"; "goVersion"; "compiler"; "platform"];
  d_dependencies := [] |}.

Definition schema_pkg_apis_hostpathprovisioner_v1beta1_HostPathProvisioner : OpenAPIDefinition := {|
  d_schema := OObject [
    ("kind", OScalar "string" "" no_default);
    ("apiVersion", OScalar "string" "" no_default);
    ("metadata", ORef (meta_v1 "ObjectMeta") empty_object);
    ("spec", ORef (hpp_v1beta1 "HostPathProvisionerSpec") empty_object);
    ("status", ORef (hpp_v1beta1 "HostPathProvisionerStatus") empty_object)] [];
  d_dependencies := [
    meta_v1 "ObjectMeta";
    hpp_v1beta1 "HostPathProvisionerSpec";
    hpp_v1beta1 "HostPathProvisionerStatus"] |}.

Definition schema_pkg_apis_hostpathprovisioner_v1beta1_HostPathProvisionerSpec : OpenAPIDefinition := {|
  d_schema := OObject [
    ("imagePullPolicy", OScalar "string" "" no_default);
    ("pathConfig", ORef (hpp_v1beta1 "PathConfig") no_default);
    ("workload", ORef (hpp_v1beta1 "NodePlacement") empty_object);
    ("featureGates", OArray IsSet (OScalar "string" "" empty_text));
    ("storagePools", OArray Plain (ORef (hpp_v1beta1 "StoragePool") empty_object))] [];
  d_dependencies := [hpp_v1beta1 "NodePlacement"; hpp_v1beta1 "PathConfig"; hpp_v1beta1 "StoragePool"] |}.

Definition schema_pkg_apis_hostpathprovisioner_v1beta1_HostPathProvisionerStatus : OpenAPIDefinition := {|
  d_schema := OObject [
    ("conditions", OArray Plain (ORef (conditions_v1 "Condition") empty_object));
    ("operatorVersion", OScalar "string" "" no_default);
    ("targetVersion", OScalar "string" "" no_default);
    ("observedVersion", OScalar "string" "" no_default);
    ("storagePoolStatuses", OArray Plain (ORef (hpp_v1beta1 "StoragePoolStatus") empty_object))] [];
  d_dependencies := [conditions_v1 "Condition"; hpp_v1beta1 "StoragePoolStatus"] |}.

Definition schema_pkg_apis_hostpathprovisioner_v1beta1_NodePlacement : OpenAPIDefinition := {|
  d_schema := OObject [
    ("nodeSelector", OMap (OScalar "string" "" empty_text));
    ("affinity", ORef (core_v1 "Affinity") no_default);
    ("tolerations", OArray Plain (ORef (core_v1 "Toleration") empty_object))] [];
  d_dependencies := [core_v1 "Affinity"; core_v1 "Toleration"] |}.

Definition schema_pkg_apis_hostpathprovisioner_v1beta1_PathConfig : OpenAPIDefinition := {|
  d_schema := OObject [
    ("path", OScalar "string" "" no_default);
    ("useNamingPrefix", OScalar "boolean" "" no_default)] [];
  d_dependencies := [] |}.

Definition schema_pkg_apis_hostpathprovisioner_v1beta1_StoragePool : OpenAPIDefinition := {|
  d_schema := OObject [
    ("name", OScalar "string" "" empty_text);
    ("pvcTemplate", ORef (core_v1 "PersistentVolumeClaimSpec") no_default);
    ("path", OScalar "string" "" empty_text)] ["name"; "path"];
  d_dependencies := [core_v1 "PersistentVolumeClaimSpec"] |}.

Definition GetOpenAPIDefinitions : list (string * OpenAPIDefinition) := [
  (meta_v1 "APIGroup", schema_pkg_apis_meta_v1_APIGroup);
  (meta_v1 "APIGroupList", schema_pkg_apis_meta_v1_APIGroupList);
  (meta_v1 "APIResource", schema_pkg_apis_meta_v1_APIResource);
  (meta_v1 "APIResourceList", schema_pkg_apis_meta_v1_APIResourceList);
  (meta_v1 "APIVersions", schema_pkg_apis_meta_v1_APIVersions);
  (meta_v1 "ApplyOptions", schema_pkg_apis_meta_v1_ApplyOptions);
  (meta_v1 "Condition", schema_pkg_apis_meta_v1_Condition);
  (meta_v1 "CreateOptions", schema_pkg_apis_meta_v1_CreateOptions);
  (meta_v1 "DeleteOptions", schema_pkg_apis_meta_v1_DeleteOptions);
  (meta_v1 "Duration", schema_pkg_apis_meta_v1_Duration);
  (meta_v1 "FieldsV1", schema_pkg_apis_meta_v1_FieldsV1);
  (meta_v1 "GetOptions", schema_pkg_apis_meta_v1_GetOptions);
  (meta_v1 "GroupKind", schema_pkg_apis_meta_v1_GroupKind);
  (meta_v1 "GroupResource", schema_pkg_apis_meta_v1_GroupResource);
  (meta_v1 "GroupVersion", schema_pkg_apis_meta_v1_GroupVersion);
  (meta_v1 "GroupVersionForDiscovery", schema_pkg_apis_meta_v1_GroupVersionForDiscovery);
  (meta_v1 "GroupVersionKind", schema_pkg_apis_meta_v1_GroupVersionKind);
  (meta_v1 "GroupVersionResource", schema_pkg_apis_meta_v1_GroupVersionResource);
  (meta_v1 "InternalEvent", schema_pkg_apis_meta_v1_InternalEvent);
  (meta_v1 "LabelSelector", schema_pkg_apis_meta_v1_LabelSelector);
  (meta_v1 "LabelSelectorRequirement", schema_pkg_apis_meta_v1_LabelSelectorRequirement);
  (meta_v1 "List", schema_pkg_apis_meta_v1_List);
  (meta_v1 "ListMeta", schema_pkg_apis_meta_v1_ListMeta);
  (meta_v1 "ListOptions", schema_pkg_apis_meta_v1_ListOptions);
  (meta_v1 "ManagedFieldsEntry", schema_pkg_apis_meta_v1_ManagedFieldsEntry);
  (meta_v1 "MicroTime", schema_pkg_apis_meta_v1_MicroTime);
  (meta_v1 "ObjectMeta", schema_pkg_apis_meta_v1_ObjectMeta);
  (meta_v1 "OwnerReference", schema_pkg_apis_meta_v1_OwnerReference);
  (meta_v1 "PartialObjectMetadata", schema_pkg_apis_meta_v1_PartialObjectMetadata);
  (meta_v1 "PartialObjectMetadataList", schema_pkg_apis_meta_v1_PartialObjectMetadataList);
  (meta_v1 "Patch", schema_pkg_apis_meta_v1_Patch);
  (meta_v1 "PatchOptions", schema_pkg_apis_meta_v1_PatchOptions);
  (meta_v1 "Preconditions", schema_pkg_apis_meta_v1_Preconditions);
  (meta_v1 "RootPaths", schema_pkg_apis_meta_v1_RootPaths);
  (meta_v1 "ServerAddressByClientCIDR", schema_pkg_apis_meta_v1_ServerAddressByClientCIDR);
  (meta_v1 "Status", schema_pkg_apis_meta_v1_Status);
  (meta_v1 "StatusCause", schema_pkg_apis_meta_v1_StatusCause);
  (meta_v1 "StatusDetails", schema_pkg_apis_meta_v1_StatusDetails);
  (meta_v1 "Table", schema_pkg_apis_meta_v1_Table);
  (meta_v1 "TableColumnDefinition", schema_pkg_apis_meta_v1_TableColumnDefinition);
  (meta_v1 "TableOptions", schema_pkg_apis_meta_v1_TableOptions);
  (meta_v1 "TableRow", schema_pkg_apis_meta_v1_TableRow);
  (meta_v1 "TableRowCondition", schema_pkg_apis_meta_v1_TableRowCondition);
  (meta_v1 "Time", schema_pkg_apis_meta_v1_Time);
  (meta_v1 "Timestamp", schema_pkg_apis_meta_v1_Timestamp);
  (meta_v1 "TypeMeta", schema_pkg_apis_meta_v1_TypeMeta);
  (meta_v1 "UpdateOptions", schema_pkg_apis_meta_v1_UpdateOptions);
  (meta_v1 "WatchEvent", schema_pkg_apis_meta_v1_WatchEvent);
  (runtime "RawExtension", schema_k8sio_apimachinery_pkg_runtime_RawExtension);
  (runtime "TypeMeta", schema_k8sio_apimachinery_pkg_runtime_TypeMeta);
  (runtime "Unknown", schema_k8sio_apimachinery_pkg_runtime_Unknown);
  (version_pkg "Info", schema_k8sio_apimachinery_pkg_version_Info);
  (hpp_v1beta1 "HostPathProvisioner", schema_pkg_apis_hostpathprovisioner_v1beta1_HostPathProvisioner);
  (hpp_v1beta1 "HostPathProvisionerSpec", schema_pkg_apis_hostpathprovisioner_v1beta1_HostPathProvisionerSpec);
  (hpp_v1beta1 "HostPathProvisionerStatus", schema_pkg_apis_hostpathprovisioner_v1beta1_HostPathProvisionerStatus);
  (hpp_v1beta1 "NodePlacement", schema_pkg_apis_hostpathprovisioner_v1beta1_NodePlacement);
  (hpp_v1beta1 "PathConfig", schema_pkg_apis_hostpathprovisioner_v1beta1_PathConfig);
  (hpp_v1beta1 "StoragePool", schema_pkg_apis_hostpathprovisioner_v1beta1_StoragePool)].
