(* ===== verification/OpenApiTypes.v ===== *)
(** * What the OpenAPI definitions promise

    The table of OpenApi.v as a graph of models: which models are defined, that a
    definition names its dependencies, that references end; and its definitions
    against the Go types of GoTypes.v they are generated from and against the
    schema of the CustomResourceDefinition (CrdSchema.v), which has the same origin.
    The differences are computed: they are what the generated file does not know. *)
From S2P Require Import Prelude Json JsonMerge GoTypes GoJson CrdSchema OpenApi.

#[global] Instance field_eq_dec : EqDecision field.
Proof. solve_decision. Defined.

#[global] Instance list_type_eq_dec : EqDecision list_type.
Proof. solve_decision. Defined.

#[global] Instance odefault_eq_dec : EqDecision odefault.
Proof. solve_decision. Defined.

(** ** The graph of models *)

(** The models a schema refers to *)
Fixpoint refs (s : oschema) : list string :=
  match s with
  | OScalar _ _ _ => []
  | OArray _ s | OMap s => refs s
  | OObject props _ =>
      (fix go (props : list (string * oschema)) : list string :=
         match props with [] => [] | p :: props => refs p.2 ++ go props end) props
  | ORef model _ => [model]
  end.

Definition definitions : gmap string OpenAPIDefinition := list_to_map GetOpenAPIDefinitions.

Definition references (model : string) : list string :=
  match definitions !! model with Some d => refs (d_schema d) | None => [] end.

(** What the table refers to and does not define *)
Definition undefined : list string :=
  filter (λ m, definitions !! m = None) (remove_dups (mjoin ((refs ∘ d_schema ∘ snd) <$> GetOpenAPIDefinitions))).

(** The longest way from a model along references, if [fuel] is enough for it *)
Fixpoint depth (fuel : nat) (model : string) : nat :=
  match fuel with
  | O => O
  | S fuel => list_max (S ∘ depth fuel <$> references model)
  end.

Definition refers (m n : string) : Prop := m ∈ references n.

(** A table is checked by checking its entries. *)
Definition all_definitions (P : string → OpenAPIDefinition → bool) : bool :=
  forallb (λ e, P e.1 e.2) GetOpenAPIDefinitions.

Lemma all_definitions_lookup P n d : all_definitions P = true → definitions !! n = Some d → P n d = true.
Proof.
  intros H Hd%elem_of_list_to_map_2. unfold all_definitions in H. rewrite forallb_forall in H.
  by apply (H (n, d)), list_elem_of_In.
Qed.

Lemma references_defined n m : m ∈ references n → ∃ d, definitions !! n = Some d ∧ m ∈ refs (d_schema d).
Proof. unfold references. destruct (definitions !! n) as [d|]; [by eauto|]. by intros ?%not_elem_of_nil. Qed.

(** So is a property of the references of every model. *)
Lemma all_references (P : string → string → bool) :
  all_definitions (λ n d, forallb (P n) (refs (d_schema d))) = true → ∀ n m, refers m n → P n m = true.
Proof.
  intros H n m (d & Hd & Hm)%references_defined. pose proof (all_definitions_lookup _ n d H Hd) as Hn.
  cbv beta in Hn. rewrite forallb_forall in Hn. by apply Hn, list_elem_of_In.
Qed.

(** No model is defined twice, so the order of the table does not matter. *)
Lemma defined_once : NoDup GetOpenAPIDefinitions.*1.
Proof. apply (bool_decide_unpack _). vm_compute. exact I. Qed.

Lemma dependencies_checked : all_definitions (λ _ d,
  bool_decide (d_dependencies d ⊆ refs (d_schema d)) && bool_decide (refs (d_schema d) ⊆ d_dependencies d)) = true.
Proof. vm_compute. reflexivity. Qed.

(** A definition names exactly the models its schema refers to as dependencies,
    which is how they reach a document built of some definitions only. *)
Theorem dependencies_are_references n d :
  definitions !! n = Some d → ∀ m, m ∈ d_dependencies d ↔ m ∈ refs (d_schema d).
Proof.
  intros Hd. pose proof (all_definitions_lookup _ n d dependencies_checked Hd) as H.
  apply andb_true_iff in H as [H1%bool_decide_eq_true_1 H2%bool_decide_eq_true_1].
  intros m. split; [apply H1|apply H2].
Qed.

(** The types of k8s.io/api and of conditions/v1, which their own packages define *)
Definition imported : list string :=
  [core_v1 "Affinity"; core_v1 "Toleration"; core_v1 "PersistentVolumeClaimSpec"; conditions_v1 "Condition"].

(** References to models without a definition: an interface, which an internal type
    embeds, and the statuses of storage pools *)
Definition dangling : list (string * string) := [
  (meta_v1 "InternalEvent", runtime "Object");
  (hpp_v1beta1 "HostPathProvisionerStatus", hpp_v1beta1 "StoragePoolStatus")].

Lemma references_checked : all_definitions (λ n d, forallb (λ m,
  bool_decide (is_Some (definitions !! m)) || bool_decide (m ∈ imported) ||
  bool_decide ((n, m) ∈ dangling)) (refs (d_schema d))) = true.
Proof. vm_compute. reflexivity. Qed.

(** Every reference is to a model of the table or to one an imported package
    defines, but for two; one of them is the status's, to StoragePoolStatus. *)
Theorem references_resolve n m :
  refers m n → is_Some (definitions !! m) ∨ m ∈ imported ∨ (n, m) ∈ dangling.
Proof.
  intros H%(all_references _ references_checked). repeat rewrite orb_true_iff in H.
  destruct H as [[H|H]|H]; apply bool_decide_eq_true_1 in H; auto.
Qed.

Lemma pool_status_undefined :
  refers (hpp_v1beta1 "StoragePoolStatus") (hpp_v1beta1 "HostPathProvisionerStatus") ∧
  hpp_v1beta1 "StoragePoolStatus" ∈ undefined.
Proof. unfold refers. split; apply (bool_decide_unpack _); vm_compute; exact I. Qed.

Lemma depth_checked :
  all_definitions (λ n d, forallb (λ m, Nat.ltb (depth 8 m) (depth 8 n)) (refs (d_schema d))) = true.
Proof. vm_compute. reflexivity. Qed.

(** References end: no model reaches itself, so a schema can be expanded. *)
Theorem references_end : well_founded refers.
Proof.
  apply (wf_projected (<)%nat (depth 8)); [|apply Nat.lt_wf_0].
  intros m n H%(all_references _ depth_checked). by apply Nat.ltb_lt.
Qed.

(** ** Against the Go types *)

(** Types are compared as descriptions. *)
Fixpoint same_type (a b : gotype) {struct a} : bool :=
  match a, b with
  | TString, TString | TBool, TBool | TByte, TByte => true
  | TInt w, TInt w' => bool_decide (w = w')
  | TPtr a, TPtr b | TSlice a, TSlice b | TMap a, TMap b => same_type a b
  | TStruct fs, TStruct gs =>
      (fix go (fs gs : list (field * gotype)) : bool :=
         match fs, gs with
         | [], [] => true
         | f :: fs, g :: gs => bool_decide (f.1 = g.1) && same_type f.2 g.2 && go fs gs
         | _, _ => false
         end) fs gs
  | TCustom n a, TCustom n' b => bool_decide (n = n') && same_type a b
  | _, _ => false
  end.

Lemma same_type_eq a : ∀ b, same_type a b = true → a = b.
Proof.
  induction a as [| | |w|a IH|a IH|a IH|fs IH|n a IH] using gotype_rect_fields; intros [] H; simpl in H; try discriminate H;
    try (f_equal; by auto).
  - by apply bool_decide_eq_true_1 in H as ->.
  - f_equal. revert fields H. induction IH as [|f fs Hf _ IH]; intros [|g gs] H; try discriminate H; [done|].
    repeat rewrite andb_true_iff in H. destruct H as [[H1%bool_decide_eq_true_1 H2] H3].
    f_equal; [|by apply IH]. destruct f, g; cbn in *. f_equal; auto.
  - apply andb_true_iff in H as [->%bool_decide_eq_true_1 H]. f_equal. auto.
Qed.

(** The types the definitions are of, by the names of their models *)
Definition types : gmap string gotype := list_to_map [
  (meta_v1 "TypeMeta", TypeMeta_t);
  (meta_v1 "ListMeta", ListMeta_t);
  (meta_v1 "ObjectMeta", ObjectMeta_t);
  (meta_v1 "OwnerReference", OwnerReference_t);
  (meta_v1 "ManagedFieldsEntry", ManagedFieldsEntry_t);
  (meta_v1 "LabelSelector", LabelSelector_t);
  (meta_v1 "LabelSelectorRequirement", LabelSelectorRequirement_t);
  (meta_v1 "Time", Time_t);
  (meta_v1 "FieldsV1", FieldsV1_t);
  (core_v1 "Affinity", Affinity_t);
  (core_v1 "Toleration", Toleration_t);
  (core_v1 "PersistentVolumeClaimSpec", PersistentVolumeClaimSpec_t);
  (conditions_v1 "Condition", Condition_t);
  (hpp_v1beta1 "HostPathProvisioner", HostPathProvisioner_t);
  (hpp_v1beta1 "HostPathProvisionerSpec", HostPathProvisionerSpec_t);
  (hpp_v1beta1 "HostPathProvisionerStatus", HostPathProvisionerStatus_t);
  (hpp_v1beta1 "NodePlacement", NodePlacement_t);
  (hpp_v1beta1 "PathConfig", PathConfig_t);
  (hpp_v1beta1 "StoragePool", StoragePool_t);
  (hpp_v1beta1 "StoragePoolStatus", StoragePoolStatus_t)].

Definition is_model_of (model : string) (t : gotype) : bool :=
  match types !! model with Some t' => same_type t' t | None => false end.

(** Is a schema the one of a field of this type?  A field that may be left out
    ([optional]) or is a pointer ([pointer]) has no default but for an object that
    is always there, which is empty. *)
Fixpoint describes (optional pointer : bool) (s : oschema) (t : gotype) {struct t} : bool :=
  match t, s with
  | TPtr t, s => describes optional true s t
  | TString, OScalar ty f d =>
      bool_decide (ty = "string" ∧ f = "" ∧ d = if optional || pointer then no_default else empty_text)
  | TBool, OScalar ty f d =>
      bool_decide (ty = "boolean" ∧ f = "" ∧ d = if optional || pointer then no_default else false_value)
  | TInt w, OScalar ty f d =>
      bool_decide (ty = "integer" ∧ (w = 64 ∧ f = "int64" ∨ w = 32 ∧ f = "int32") ∧
                   d = if optional || pointer then no_default else zero_number)
  | TSlice t, OArray _ s | TMap t, OMap s => describes false false s t
  | TStruct _, ORef model d => is_model_of model t && bool_decide (d = if pointer then no_default else empty_object)
  | TCustom _ _, ORef model d => is_model_of model t && bool_decide (d = no_default)
  | _, _ => false
  end.

Inductive difference :=
| Missing (key : string)      (* of the type, not of the definition *)
| Unknown (key : string)      (* of the definition, not of the type *)
| Described (key : string)    (* with another schema *)
| Required (key : string).    (* required and not always written, or the reverse *)

Definition field_differences (props : list (string * oschema)) (required : list string) (f : field * gotype) : list difference :=
  match (list_to_map props : gmap string oschema) !! f_key f.1 with
  | None => [Missing (f_key f.1)]
  | Some s =>
      (if describes (f_omitempty f.1) false s f.2 then [] else [Described (f_key f.1)]) ++
      (if bool_decide (f_key f.1 ∈ required ↔ f_omitempty f.1 = false) then [] else [Required (f_key f.1)])
  end.

(** The fields of a struct, those of inlined structs included *)
Fixpoint flat_fields (t : gotype) : list (field * gotype) :=
  match t with
  | TStruct fields =>
      (fix go (fields : list (field * gotype)) : list (field * gotype) :=
         match fields with
         | [] => []
         | f :: fields => (if f_inline f.1 then flat_fields f.2 else [f]) ++ go fields
         end) fields
  | _ => []
  end.

(** How a definition and its type differ: nothing for [Some []] *)
Definition differences (model : string) : option (list difference) :=
  match types !! model, d_schema <$> definitions !! model with
  | Some (TStruct _ as t), Some (OObject props required) =>
      Some (mjoin (field_differences props required <$> flat_fields t) ++
            (Unknown <$> filter (λ k, k ∉ keys t) props.*1))
  | Some (TCustom "Time" _), Some (OScalar "string" "date-time" no_default) => Some []
  | Some (TCustom "FieldsV1" _), Some (OObject [] []) => Some []
  | _, _ => None
  end.

(** What the generated definitions do not know of: fields that were added to the
    types since they were generated *)
Definition stale (model : string) : list difference :=
  if bool_decide (model = hpp_v1beta1 "StoragePool") then [Missing "snapshotProvider"; Missing "overlayClassName"]
  else if bool_decide (model = meta_v1 "ListMeta") then [Missing "shardInfo"]
  else [].

#[global] Instance difference_eq_dec : EqDecision difference.
Proof. solve_decision. Defined.

Lemma forallb_keys {A} (P : string → bool) (m : gmap string A) k x :
  forallb P (map_to_list m).*1 = true → m !! k = Some x → P k = true.
Proof.
  intros H Hk. rewrite forallb_forall in H. apply H, list_elem_of_In, list_elem_of_fmap.
  exists (k, x). split; [done|]. by apply elem_of_map_to_list.
Qed.

Lemma differences_checked :
  forallb (λ n, bool_decide (differences n = Some (stale n) ∨ differences n = None)) (map_to_list types).*1 = true.
Proof. vm_compute. reflexivity. Qed.

(** The definitions of the custom resource, and of the parts of its metadata, are
    those of the Go types: the same fields, of the types they have, with the
    defaults the tags mean, required exactly if they are always written; but for
    the fields [stale] lists.  (That a list is a set or has keys comes from a
    comment: [crd_agrees].) *)
Theorem definitions_describe_types n ds : differences n = Some ds → ds = stale n.
Proof.
  intros Hn. assert (Ht : is_Some (types !! n)) by (unfold differences in Hn; destruct (types !! n); [by eexists|done]).
  destruct Ht as [t Ht]. pose proof (forallb_keys _ types n t differences_checked Ht) as H.
  apply bool_decide_eq_true_1 in H. rewrite Hn in H. destruct H as [H|H]; by inversion H.
Qed.

Lemma described_models :
  filter (λ n, differences n = None) (map_to_list types).*1 ≡ₚ hpp_v1beta1 "StoragePoolStatus" :: imported.
Proof. apply (bool_decide_unpack _). vm_compute. exact I. Qed.

Lemma flat_fields_keys t : (λ f, f_key f.1) <$> flat_fields t = keys t.
Proof.
  induction t as [| | | | | | |fields IH|] using gotype_rect_fields; try done.
  cbn [flat_fields keys]. induction IH as [|f fields Hf _ IH]; [done|].
  rewrite fmap_app, IH. f_equal. by destruct (f_inline f.1).
Qed.

Lemma lookup_property {A} (props : list (string * A)) k :
  is_Some ((list_to_map props : gmap string A) !! k) ↔ k ∈ props.*1.
Proof.
  rewrite <-not_eq_None_Some, <-not_elem_of_list_to_map. split; [|tauto].
  intros H. by destruct (decide (k ∈ props.*1)).
Qed.

(** Keys of the type are known, or are a difference. *)
Lemma known_or_missing n t props required ds k :
  types !! n = Some t → d_schema <$> definitions !! n = Some (OObject props required) → differences n = Some ds →
  k ∈ keys t → k ∈ props.*1 ∨ Missing k ∈ ds.
Proof.
  unfold differences. intros Ht -> Hds. rewrite Ht in Hds. clear Ht.
  destruct t as [| | | | | | |fields|name t]; try discriminate Hds; [|by intros ?%not_elem_of_nil].
  injection Hds as <-. rewrite <-flat_fields_keys.
  intros (f & -> & Hf)%list_elem_of_fmap. destruct (decide (f_key f.1 ∈ props.*1)) as [|Hk]; [by left|right].
  apply elem_of_app; left. apply list_elem_of_join. eexists. split; [|by apply list_elem_of_fmap_2].
  unfold field_differences. rewrite (proj1 (not_elem_of_list_to_map _ _) Hk). by apply list_elem_of_singleton.
Qed.

Lemma types_tagged : map_Forall (λ _ t, well_tagged t = true) types.
Proof. apply map_Forall_to_list, (bool_decide_unpack _). vm_compute. exact I. Qed.

(** What encoding/json writes of a described type has only keys the definition
    knows, or that are named as stale. *)
Theorem written_keys_are_described `{CJ : CustomJson} n t props required v k d :
  types !! n = Some t → d_schema <$> definitions !! n = Some (OObject props required) → is_struct t = true →
  sub_doc (Some (encode t v)) !! k = Some d → k ∈ props.*1 ∨ Missing k ∈ stale n.
Proof.
  intros Ht Hs Hstruct Hk. apply (encode_keys _ _ _ _ (types_tagged n t Ht) Hstruct) in Hk.
  destruct (differences n) as [ds|] eqn:Hds.
  - rewrite <-(definitions_describe_types n ds Hds). by eapply known_or_missing.
  - unfold differences in Hds. rewrite Ht, Hs in Hds. clear Ht Hs. by destruct t.
Qed.

(** ** Against the CustomResourceDefinition *)

Definition scalar_schema (s : schema) : option (string * string) :=
  match s with
  | SString => Some ("string", "")
  | SFormat f => Some ("string", f)
  | SBoolean => Some ("boolean", "")
  | SIntegerFormat f => Some ("integer", f)
  | _ => None
  end.

(** Where two schemas differ, as the paths to their keys.  The CRD's generator
    writes the definition of a model where the table refers to it, so references
    are followed ([fuel] times at most); the two are not compared where the table
    ends, nor below metadata, of which the CRD says only that it is an object. *)
Fixpoint crd_differences (fuel : nat) (path : string) (o : oschema) (s : schema) : list string :=
  match fuel with
  | O => [(path ++ " (out of fuel)")%string]
  | S fuel =>
      match o, s with
      | ORef model _, s =>
          match definitions !! model with Some d => crd_differences fuel path (d_schema d) s | None => [] end
      | OObject _ _, SAnyObject => []
      | OScalar ty f _, s => if bool_decide (scalar_schema s = Some (ty, f)) then [] else [path]
      | OArray kind o, SArray kind' s =>
          (if bool_decide (kind = kind') then [] else [path]) ++ crd_differences fuel (path ++ "[]") o s
      | OMap o, SMap s => crd_differences fuel (path ++ "{}") o s
      | OObject props required, SObject props' required' =>
          (if bool_decide (Permutation required required') then [] else [(path ++ " (required)")%string]) ++
          ((λ k, (path ++ "." ++ k)%string) <$> filter (λ k, k ∉ props'.*1) props.*1) ++
          mjoin ((λ ks, match (list_to_map props : gmap string oschema) !! ks.1 with
                        | Some o => crd_differences fuel (path ++ "." ++ ks.1) o ks.2
                        | None => [(path ++ "." ++ ks.1)%string]
                        end) <$> props')
      | _, _ => [path]
      end
  end.

(** The table and the CRD describe the same resource, list types included, except
    that the table lacks two fields of a storage pool: it was not generated again
    when they were added, as the CRD was. *)
Theorem crd_agrees :
  crd_differences 12 "" (ORef (hpp_v1beta1 "HostPathProvisioner") no_default) (crd_schema hppCRD) =
    [".spec.storagePools[].overlayClassName"; ".spec.storagePools[].snapshotProvider"].
Proof. vm_compute. reflexivity. Qed.
