(* ===== verification/Scanner.v ===== *)
(** * The CRD generator's reader

    tools/crd-generator/crd-generator.go cuts the manifest of the operator into
    documents with a [bufio.Scanner]: its split function, the buffer it is given,
    which is as large as the file, and the loop of [Scan] over them, with reads of
    any size.  The theorem says which documents come out. *)
From S2P Require Import Prelude GoStrings.

(** [bytes.Index] *)
Fixpoint Index (s sep : string) : option nat :=
  if HasPrefix s sep then Some O
  else match s with EmptyString => None | String _ s => S <$> Index s sep end.

(** [searchBytes] *)
Definition separator : string := "---".

(** What a split function asks for: to read on, to stop, or to advance and take a token *)
Inductive split_result :=
| MoreData
| NoToken
| Token (advance : nat) (token : string).

Definition split_documents (data : string) (atEOF : bool) : split_result :=
  if atEOF && bool_decide (data = "") then NoToken
  else match Index data separator with
       | Some i => Token (i + String.length separator) (str_take i data)
       | None => if atEOF then Token (String.length data) data else MoreData
       end.

(** ** bufio.Scanner *)

(** The state of a scanner over a buffer of fixed size: the bytes before
    [s.buf[s.start:s.end]], those bytes, what the file still has, and whether its end
    was seen.  [Failed] is [ErrTooLong], which the generator does not look at. *)
Record scanner := { sc_start : nat; sc_data : string; sc_unread : string; sc_eof : bool }.

Inductive scan_result :=
| Scanned (token : string) (s : scanner)
| Ended
| Failed
| OutOfFuel.

Section Scanner.

(** How much a read returns, given the space and what is left of the file *)
Context (size : nat) (amount : nat → nat → nat).

(** Shift the data to the front of the buffer where the space is needed. *)
Definition shifted (s : scanner) : scanner :=
  let fin := (sc_start s + String.length (sc_data s))%nat in
  if bool_decide (0 < sc_start s ∧ (fin = size ∨ size / 2 < sc_start s))%nat
  then {| sc_start := 0; sc_data := sc_data s; sc_unread := sc_unread s; sc_eof := sc_eof s |}
  else s.

(** One read into the rest of the buffer; at the end of the file, [io.EOF] *)
Definition filled (s : scanner) : scanner :=
  match sc_unread s with
  | EmptyString => {| sc_start := sc_start s; sc_data := sc_data s; sc_unread := ""; sc_eof := true |}
  | unread =>
      let n := amount (size - (sc_start s + String.length (sc_data s))) (String.length unread) in
      {| sc_start := sc_start s; sc_data := sc_data s +:+ str_take n unread;
         sc_unread := str_drop n unread; sc_eof := sc_eof s |}
  end.

(** [Scan]: one round of its loop per unit of fuel *)
Fixpoint Scan (fuel : nat) (s : scanner) : scan_result :=
  match fuel with
  | O => OutOfFuel
  | S fuel =>
      let read_on :=
        if sc_eof s then Ended
        else let s := shifted s in
             if bool_decide (sc_start s + String.length (sc_data s) = size)%nat then Failed
             else Scan fuel (filled s) in
      if negb (bool_decide (sc_data s = "")) || sc_eof s then
        match split_documents (sc_data s) (sc_eof s) with
        | Token n token =>
            Scanned token {| sc_start := sc_start s + n; sc_data := str_drop n (sc_data s);
                             sc_unread := sc_unread s; sc_eof := sc_eof s |}
        | MoreData | NoToken => read_on
        end
      else read_on
  end.

(** The loop [for fileScanner.Scan()], as the texts it goes over *)
Fixpoint scan_all (rounds fuel : nat) (s : scanner) : list string :=
  match rounds with
  | O => []
  | S rounds => match Scan fuel s with Scanned token s => token :: scan_all rounds fuel s | _ => [] end
  end.

End Scanner.

(** The scanner on a file, with a buffer of the size [Stat] gave; the fuel is more
    than the scans and reads a file of this length can need. *)
Definition documents (amount : nat → nat → nat) (size : nat) (file : string) : list string :=
  let n := String.length file in
  scan_all size amount (S n) (S (S n)) {| sc_start := 0; sc_data := ""; sc_unread := file; sc_eof := false |}.

(** On a file that did not change since [Stat] *)
Definition documents_in (amount : nat → nat → nat) (file : string) : list string :=
  documents amount (String.length file) file.

(** ** What it is to do *)

(** The texts between the separators; a last text that is empty is no document. *)
Fixpoint pieces (fuel : nat) (s : string) : list string :=
  match fuel with
  | O => []
  | S fuel =>
      if bool_decide (s = "") then []
      else match Index s separator with
           | Some i => str_take i s :: pieces fuel (str_drop (i + String.length separator) s)
           | None => [s]
           end
  end.

Definition split_all (s : string) : list string := pieces (S (String.length s)) s.

(** ** Lemmas *)

Lemma str_drop_S n c s : str_drop (S n) (String c s) = str_drop n s.
Proof. done. Qed.

Lemma str_take_drop n s : str_take n s +:+ str_drop n s = s.
Proof. revert s. induction n as [|n IH]; intros [|c s]; try done. cbn. by rewrite IH. Qed.

Lemma length_drop n s : String.length (str_drop n s) = (String.length s - n)%nat.
Proof. revert s. induction n as [|n IH]; intros [|c s]; try done. cbn. by rewrite IH. Qed.

Lemma length_pos s : s ≠ "" → (0 < String.length s)%nat.
Proof. destruct s; [done|]. cbn. lia. Qed.

Lemma HasPrefix_more s t p : HasPrefix s p = true → HasPrefix (s +:+ t) p = true.
Proof. intros [u ->]%HasPrefix_spec. apply HasPrefix_spec. exists (u +:+ t). by rewrite append_assoc. Qed.

Lemma HasPrefix_length s p : HasPrefix s p = true → (String.length p ≤ String.length s)%nat.
Proof. intros [u ->]%HasPrefix_spec. rewrite length_append. lia. Qed.

Lemma HasPrefix_less s t p :
  (String.length p ≤ String.length s)%nat → HasPrefix (s +:+ t) p = true → HasPrefix s p = true.
Proof.
  revert s. induction p as [|c p IH]; intros [|d s] Hl; try done; [cbn in Hl; lia|]. cbn in *.
  rewrite !andb_true_iff. intros [? H]. split; [done|]. apply IH; [lia|done].
Qed.

(** A separator that was found is there, within the text. *)
Lemma Index_bound s sep i : Index s sep = Some i → (i + String.length sep ≤ String.length s)%nat.
Proof.
  revert i. induction s as [|c s IH]; intros i; cbn [Index]; destruct (HasPrefix _ _) eqn:Hp; try done.
  - intros [= <-]. by apply HasPrefix_length in Hp.
  - intros [= <-]. by apply HasPrefix_length in Hp.
  - destruct (Index s sep) as [j|] eqn:Hj; [|done]. intros [= <-]. specialize (IH j eq_refl). cbn. lia.
Qed.

Lemma Contains_Index s sep : Contains s sep = match Index s sep with Some _ => true | None => false end.
Proof.
  induction s as [|c s IH]; cbn [Contains Index]; destruct (HasPrefix _ sep); try done.
  cbn [orb]. rewrite IH. by destruct (Index s sep).
Qed.

(** Reading on does not move it. *)
Lemma Index_more s t sep i : sep ≠ "" → Index s sep = Some i → Index (s +:+ t) sep = Some i.
Proof.
  intros Hsep. revert i. induction s as [|c s IH]; intros i.
  - cbn. destruct sep; [done|]. done.
  - change (String c s +:+ t) with (String c (s +:+ t)). cbn [Index].
    destruct (HasPrefix (String c s) sep) eqn:Hp.
    + intros [= <-]. by rewrite (HasPrefix_more (String c s) t sep Hp : HasPrefix (String c (s +:+ t)) sep = true).
    + destruct (Index s sep) as [j|] eqn:Hj; [|done]. intros [= <-].
      destruct (HasPrefix (String c (s +:+ t)) sep) eqn:Hp'; [|by rewrite (IH j)].
      exfalso. apply Index_bound in Hj. apply (HasPrefix_less (String c s) t) in Hp'; [congruence|]. cbn. lia.
Qed.

Lemma str_take_app n s t : (n ≤ String.length s)%nat → str_take n (s +:+ t) = str_take n s.
Proof. revert s. induction n as [|n IH]; intros [|c s] H; try done; cbn in *; [lia|]. rewrite IH; [done|lia]. Qed.

Lemma str_drop_app n s t : (n ≤ String.length s)%nat → str_drop n (s +:+ t) = str_drop n s +:+ t.
Proof. revert s. induction n as [|n IH]; intros [|c s] H; try done; cbn in *; [lia|]. rewrite IH; [done|lia]. Qed.

(** A read returns something, and no more than fits and is there. *)
Definition reads_something (amount : nat → nat → nat) : Prop := ∀ space left, (0 < space)%nat → (0 < left)%nat →
  (0 < amount space left)%nat ∧ (amount space left ≤ space)%nat ∧ (amount space left ≤ left)%nat.

Section Scans.
Context (size : nat) (amount : nat → nat → nat).
Hypothesis Hamount : reads_something amount.

(** What is still to come *)
Definition remaining (s : scanner) : string := sc_data s +:+ sc_unread s.

(** The data is in the buffer, nothing follows an end of file, and either some
    of the file is behind the scanner or nothing was taken yet. *)
Definition fits_buffer (s : scanner) : Prop :=
  (sc_start s + String.length (sc_data s) ≤ size)%nat ∧ (sc_eof s = true → sc_unread s = "") ∧
  ((String.length (remaining s) < size)%nat ∨
   sc_start s = 0%nat ∧ String.length (remaining s) = size ∧ sc_eof s = false).

Lemma remaining_shifted s : remaining (shifted size s) = remaining s.
Proof. unfold shifted. by case_bool_decide. Qed.

Lemma length_remaining s : String.length (remaining s) = (String.length (sc_data s) + String.length (sc_unread s))%nat.
Proof. apply length_append. Qed.

Lemma fits_shifted s :
  fits_buffer s → fits_buffer (shifted size s) ∧ sc_data (shifted size s) = sc_data s ∧
    sc_unread (shifted size s) = sc_unread s ∧ sc_eof (shifted size s) = sc_eof s.
Proof.
  unfold fits_buffer. rewrite remaining_shifted. unfold shifted. case_bool_decide as Hd; [|by auto]. cbn.
  intros (H1 & H2 & H3). split_and!; try done; [lia|]. naive_solver lia.
Qed.

(** After the shift, the buffer is full only if it has all of the file. *)
Lemma full_buffer s :
  fits_buffer s →
  (sc_start (shifted size s) + String.length (sc_data (shifted size s)))%nat = size →
  sc_data s = remaining s ∧ String.length (remaining s) = size.
Proof.
  intros (H1 & H2 & H3). pose proof (length_remaining s) as Hl.
  unfold shifted. case_bool_decide as Hd; cbn; intros Hf.
  - destruct H3 as [H3|H3]; lia.
  - destruct H3 as [H3|(H3 & H4 & _)]; [lia|]. split; [|done]. unfold remaining in *.
    destruct (sc_unread s); [by rewrite append_nil_r|]. cbn in *. lia.
Qed.

Lemma fits_filled s :
  fits_buffer s → sc_eof s = false → (sc_start s + String.length (sc_data s) < size)%nat →
  fits_buffer (filled size amount s) ∧ remaining (filled size amount s) = remaining s ∧
  (sc_unread s = "" → sc_eof (filled size amount s) = true) ∧
  (sc_unread s ≠ "" → (String.length (sc_unread (filled size amount s)) < String.length (sc_unread s))%nat ∧
                      sc_eof (filled size amount s) = false).
Proof.
  intros (H1 & H2 & H3) He Hspace. pose proof (length_remaining s) as Hl.
  unfold filled, fits_buffer, remaining in *. destruct (sc_unread s) as [|c u] eqn:Hu.
  - cbn [sc_start sc_data sc_unread sc_eof]. split_and!; try done. left.
    rewrite append_nil_r in *. destruct H3 as [?|(? & ? & ?)]; lia.
  - cbn [sc_start sc_data sc_unread sc_eof].
    set (n := amount _ _). assert (Hn : (0 < n)%nat ∧ (n ≤ size - (sc_start s + String.length (sc_data s)))%nat ∧
      (n ≤ String.length (String c u))%nat) by (apply Hamount; cbn; lia).
    rewrite append_assoc, str_take_drop, He. split_and!; try done.
    + rewrite length_append, length_take. lia.
    + destruct H3 as [?|(? & ? & ?)]; auto.
    + intros _. rewrite length_drop. cbn in *. split; [lia|done].
Qed.

(** The rounds [Scan] has left: reads that return something, and the one that does not *)
Definition reads_left (s : scanner) : nat := if sc_eof s then 0 else S (String.length (sc_unread s)).

Lemma reads_left_filled s :
  fits_buffer s → sc_eof s = false → (sc_start s + String.length (sc_data s) < size)%nat →
  (reads_left (filled size amount s) < reads_left s)%nat.
Proof.
  intros Hf He Hs. destruct (fits_filled s Hf He Hs) as (_ & _ & Hnil & Hcons). unfold reads_left. rewrite He.
  destruct (decide (sc_unread s = "")) as [Hu|Hu]; [rewrite (Hnil Hu); lia|].
  destruct (Hcons Hu) as [? ->]. lia.
Qed.

(** The token in the data, if there is one *)
Lemma Scan_token fuel s i :
  fits_buffer s → Index (sc_data s) separator = Some i →
  ∃ s', Scan size amount (S fuel) s = Scanned (str_take i (remaining s)) s' ∧ fits_buffer s' ∧
    remaining s' = str_drop (i + 3) (remaining s) ∧ (reads_left s' ≤ reads_left s)%nat.
Proof.
  intros (H1 & H2 & H3) Hi. pose proof (Index_bound _ _ _ Hi) as Hb. change (String.length separator) with 3%nat in Hb.
  pose proof (length_remaining s) as Hl.
  assert (Hne : sc_data s ≠ "") by (intros Hd; rewrite Hd in Hi; done).
  cbn [Scan]. rewrite bool_decide_eq_false_2 by done. cbn [negb orb].
  unfold split_documents. rewrite bool_decide_eq_false_2, andb_false_r, Hi by done.
  change (String.length separator) with 3%nat.
  eexists. split; [unfold remaining; rewrite str_take_app by lia; reflexivity|].
  unfold fits_buffer, remaining, reads_left in *. cbn [sc_start sc_data sc_unread sc_eof].
  rewrite str_drop_app by lia. rewrite length_append, length_drop in *. split_and!; try done; lia.
Qed.

(** One call of [Scan]: the next document, whatever the sizes of the reads were;
    a buffer that is full without one is a failure. *)
Definition next_document (s : scanner) (r : scan_result) : Prop :=
  match Index (remaining s) separator with
  | Some i =>
      ∃ s', r = Scanned (str_take i (remaining s)) s' ∧ fits_buffer s' ∧
        remaining s' = str_drop (i + 3) (remaining s) ∧ (reads_left s' ≤ reads_left s)%nat
  | None =>
      if bool_decide (String.length (remaining s) = size) then r = Failed
      else if bool_decide (remaining s = "") then r = Ended
      else ∃ s', r = Scanned (remaining s) s' ∧ fits_buffer s' ∧ remaining s' = "" ∧ (reads_left s' ≤ reads_left s)%nat
  end.

Lemma Scan_at_end fuel s :
  fits_buffer s → sc_eof s = true → Index (sc_data s) separator = None → next_document s (Scan size amount (S fuel) s).
Proof.
  intros (H1 & H2 & H3) He Hi. pose proof (length_remaining s) as Hl.
  assert (Hr : remaining s = sc_data s) by (unfold remaining; by rewrite (H2 He), append_nil_r).
  assert (Hlt : (String.length (remaining s) < size)%nat) by (destruct H3 as [?|(_ & _ & ?)]; [done|congruence]).
  unfold next_document. rewrite Hr in *. rewrite Hi, bool_decide_eq_false_2 by lia.
  cbn [Scan]. rewrite He, orb_true_r. unfold split_documents. rewrite Hi. cbn [andb].
  case_bool_decide; [done|]. eexists. split; [done|].
  unfold fits_buffer, remaining, reads_left. cbn [sc_start sc_data sc_unread sc_eof]. rewrite (H2 He), He.
  assert (Hd : str_drop (String.length (sc_data s)) (sc_data s) = "") by (apply len_0; unfold len; rewrite length_drop; lia).
  rewrite Hd. cbn. split_and!; try done; lia.
Qed.

Lemma Scan_next fuel s :
  fits_buffer s → (reads_left s < fuel)%nat → next_document s (Scan size amount fuel s).
Proof.
  revert s. induction fuel as [|fuel IH]; intros s Hf Hfuel; [lia|].
  destruct (Index (sc_data s) separator) as [i|] eqn:Hi.
  - assert (Hr : Index (remaining s) separator = Some i) by by apply Index_more.
    unfold next_document. rewrite Hr. by apply Scan_token.
  - destruct (sc_eof s) eqn:He; [by apply Scan_at_end|].
    assert (Hread : Scan size amount (S fuel) s =
      if bool_decide (sc_start (shifted size s) + String.length (sc_data (shifted size s)) = size)%nat then Failed
      else Scan size amount fuel (filled size amount (shifted size s))).
    { cbn [Scan]. rewrite He. unfold split_documents. rewrite Hi. cbn [andb]. by destruct (_ || _). }
    rewrite Hread. destruct (fits_shifted s Hf) as (Hf' & Hd & Hu & He'). case_bool_decide as Hfull.
    + destruct (full_buffer s Hf Hfull) as [Hr Hl]. unfold next_document.
      rewrite Hr in Hi. by rewrite Hi, bool_decide_eq_true_2.
    + rewrite He in He'. assert (Hs : (sc_start (shifted size s) + String.length (sc_data (shifted size s)) < size)%nat)
        by (destruct Hf'; lia).
      destruct (fits_filled _ Hf' He' Hs) as (Hff & Hr & _).
      pose proof (reads_left_filled _ Hf' He' Hs) as Hm.
      assert (Hm' : reads_left (shifted size s) = reads_left s) by (unfold reads_left; by rewrite He, He', Hu).
      specialize (IH _ Hff ltac:(lia)). unfold next_document in *. rewrite Hr, remaining_shifted in IH.
      destruct (Index (remaining s) separator); [|repeat case_bool_decide; try done];
        destruct IH as (s' & ? & ? & ? & ?); exists s'; split_and!; try done; lia.
Qed.

(** All documents of a scanner that has some of the file behind it *)
Lemma scan_pieces rounds fuel s :
  fits_buffer s → (reads_left s < fuel)%nat → (String.length (remaining s) < rounds)%nat →
  (String.length (remaining s) < size)%nat →
  scan_all size amount rounds fuel s = pieces rounds (remaining s).
Proof.
  revert s. induction rounds as [|rounds IH]; intros s Hf Hfuel Hr Hlt; [lia|].
  pose proof (Scan_next fuel s Hf Hfuel) as H. cbn [scan_all pieces]. unfold next_document in H.
  destruct (Index (remaining s) separator) as [i|] eqn:Hi.
  - destruct H as (s' & -> & Hf' & Hr' & Hm). pose proof (Index_bound _ _ _ Hi) as Hb.
    change (String.length separator) with 3%nat in Hb |- *.
    rewrite bool_decide_eq_false_2 by (intros Hn; by rewrite Hn in Hi).
    f_equal. rewrite IH, Hr'; [done|..]; rewrite ?Hr', ?length_drop; try done; lia.
  - rewrite bool_decide_eq_false_2 in H by lia. case_bool_decide as Hn; [by rewrite H|].
    destruct H as (s' & -> & Hf' & Hr' & Hm). pose proof (length_pos _ Hn). f_equal.
    rewrite IH, Hr'; rewrite ?Hr'; try done; cbn; try lia. by destruct rounds.
Qed.

End Scans.

(** The pieces do not depend on fuel that is enough. *)
Lemma pieces_enough fuel s :
  (String.length s < fuel)%nat → pieces fuel s = pieces (S (String.length s)) s.
Proof.
  revert s. induction fuel as [fuel IH] using lt_wf_ind. intros s Hs. destruct fuel as [|fuel]; [lia|]. cbn [pieces].
  case_bool_decide as Hn; [done|]. destruct (Index s separator) as [i|] eqn:Hi; [|done].
  pose proof (Index_bound _ _ _ Hi) as Hb. change (String.length separator) with 3%nat in *. f_equal.
  assert (Hd : (String.length (str_drop (i + 3) s) < String.length s)%nat) by (rewrite length_drop; lia).
  rewrite (IH fuel), (IH (String.length s)); try lia; done.
Qed.

(** C36: the generator goes over the documents of its file, in order and in full,
    however much the reads return at a time, if the file has a separator: they are
    the texts between the separators, without an empty last one.  A file without
    one, that is of a single document, fills the buffer before its end is seen,
    and is skipped without an error. *)
Theorem documents_of_file amount file :
  reads_something amount →
  documents_in amount file = if Contains file separator then split_all file else [].
Proof.
  intros Hamount. unfold documents_in, documents, split_all. set (n := String.length file).
  set (s := {| sc_start := 0; sc_data := ""; sc_unread := file; sc_eof := false |}).
  assert (Hr : remaining s = file) by done.
  assert (Hf : fits_buffer n s).
  { unfold fits_buffer. rewrite Hr. subst s. cbn. split_and!; [lia|done|]. by right. }
  pose proof (Scan_next n amount Hamount (S (S n)) s Hf) as H. specialize (H ltac:(subst s; cbn; lia)).
  unfold next_document in H. rewrite Hr in H. rewrite Contains_Index.
  cbn [scan_all pieces]. destruct (Index file separator) as [i|] eqn:Hi.
  - destruct H as (s' & -> & Hf' & Hr' & Hm). pose proof (Index_bound _ _ _ Hi) as Hb.
    change (String.length separator) with 3%nat in *.
    rewrite bool_decide_eq_false_2 by (intros Hn; by rewrite Hn in Hi). cbn [is_Some]. f_equal.
    assert (Hl : (String.length (remaining s') < n)%nat) by (rewrite Hr', length_drop; lia).
    rewrite (scan_pieces n amount Hamount) by (try done; subst s; cbn in Hm; lia). by rewrite Hr'.
  - rewrite bool_decide_eq_true_2 in H by done. by rewrite H.
Qed.

(** Reads of one byte, and reads of whatever fits *)
Definition byte_reads (space left : nat) : nat := 1.
Definition whole_reads (space left : nat) : nat := Nat.min space left.

Lemma documents_of_file_witness :
  documents_in byte_reads "kind: A---kind: B" = ["kind: A"; "kind: B"] ∧ documents_in whole_reads "kind: A" = [] ∧
  documents_in whole_reads "---kind: A---" = [""; "kind: A"].
Proof.
  split_and!; (rewrite (documents_of_file _ _); [vm_compute; reflexivity|intros space left ? ?; unfold byte_reads, whole_reads; lia]).
Defined.
