(* ===== verification/Generator.v ===== *)
(** * The CRD generator

    tools/crd-generator/crd-generator.go turns the manifest of the operator into Go
    files: one with the CustomResourceDefinition, one each with the operator's
    ClusterRole, Role and Deployment, as raw strings (which tools/helper/helper.go
    and tools/csv-generator.go decode again).  Its environment is the file system,
    [greq]; the YAML packages are parameters.  Its reader is Scanner.v. *)
From S2P Require Import Prelude GoStrings Prog Scanner.

(** ** Go source *)

Definition backtick : ascii := "`"%char.
Definition newline : string := String (ascii_of_nat 10) "".

(** ** The environment *)

Inductive greq : Type → Type :=
| StatFile (path : string) : greq (result nat)
| OpenSource (path : string) : greq (result string)
| CloseSource : greq error
| RemoveFile (path : string) : greq unit
| CreateFile (path : string) : greq error
| WriteString (text : string) : greq unit
| CloseFile : greq error.

Abbreviation gprog := (prog greq).

(** The files it writes *)
Inductive artefact := CrdFile | ClusterRoleFile | RoleFile | DeploymentFile.

#[global] Instance artefact_eq_dec : EqDecision artefact.
Proof. solve_decision. Defined.

(** The YAML decoder of apimachinery on a text, into the struct of the artefact
    ([None] is an error: the text is empty, not YAML, or of other types), what is
    read of the struct, and [yaml.Marshal] of it; [unstated] empties the status of a
    CRD.  [kind] is [Kind], [id] the name it is asked for ([Spec.Names.Singular] of a
    CRD), [rules] the number of rules of a role. *)
Class Manifests := {
  manifest : Type;
  Decode : artefact → string → option manifest;
  id_of : artefact → manifest → string;
  kind : manifest → string;
  rules : manifest → nat;
  unstated : manifest → manifest;
  Marshal : manifest → string }.

Section Generator.
Context `{MF : Manifests}.

Definition file_name (a : artefact) : string :=
  match a with
  | CrdFile => "crd_generated.go"
  | ClusterRoleFile => "cluster_role_generated.go"
  | RoleFile => "role_generated.go"
  | DeploymentFile => "operator_deployment_generated.go"
  end.

(** The name and the description of the variable *)
Definition variable (a : artefact) : string * string :=
  match a with
  | CrdFile => ("hppCRD", "hpp CRD")
  | ClusterRoleFile => ("HppOperatorClusterRole", "hpp operator cluster role")
  | RoleFile => ("HppOperatorRole", "hpp operator role")
  | DeploymentFile => ("HppOperatorDeployment", "hpp operator deployment")
  end.

(** The text of a manifest; only that of the CRD is freed of backticks. *)
Definition text_of (a : artefact) (m : manifest) : string :=
  match a with
  | CrdFile => replace_byte (Marshal (unstated m)) backtick "'"%char
  | _ => Marshal m
  end.

(** What is written, piece by piece *)
Definition go_file (a : artefact) (m : manifest) : list string :=
  ["package helper" +:+ newline +:+ newline;
   "//" +:+ (variable a).1 +:+ " is a string yaml of the " +:+ (variable a).2 +:+ newline;
   "var " +:+ (variable a).1 +:+ " string = " +:+ newline +:+ String backtick "";
   text_of a m;
   String backtick "" +:+ newline].

Fixpoint write_all (pieces : list string) : gprog unit :=
  match pieces with
  | [] => mret tt
  | p :: pieces => request (WriteString p);; write_all pieces
  end.

(** [generateCrdGoFile] and its likes.  The deferred Close runs on the nil file too,
    if it could not be created: it fails, and [log.Fatal] exits before the panic. *)
Definition generate (outputDir : string) (a : artefact) (m : manifest) : gprog unit :=
  let path := filepath_Join [outputDir; file_name a] in
  request (RemoveFile path);;
  on_err (request (CreateFile path)) (λ _, Exit 1)
    (write_all (go_file a m);; on_err (request CloseFile) (λ _, Exit 1) (mret tt)).

(** Is a decoded text what the file is generated of? *)
Definition wanted (a : artefact) (m : manifest) : bool :=
  negb (bool_decide (id_of a m = "")) &&
  match a with
  | CrdFile => true
  | ClusterRoleFile => bool_decide (0 < rules m)%nat && bool_decide (kind m = "ClusterRole")
  | RoleFile => bool_decide (0 < rules m)%nat && bool_decide (kind m = "Role")
  | DeploymentFile => bool_decide (kind m = "Deployment")
  end.

Definition what (a : artefact) : string :=
  match a with
  | CrdFile => "crd" | ClusterRoleFile => "cluster role" | RoleFile => "role" | DeploymentFile => "deployment"
  end.

(** One of the four steps of the loop: decode (or panic), and write *)
Definition generate_if (outputDir : string) (a : artefact) (item : string) : gprog unit :=
  match Decode a item with
  | None => Panic ("failed to parse " +:+ what a +:+ " from text")
  | Some m => if wanted a m then generate outputDir a m else mret tt
  end.

Fixpoint over {A} (l : list A) (body : A → gprog unit) : gprog unit :=
  match l with
  | [] => mret tt
  | a :: l => body a;; over l body
  end.

Definition artefacts : list artefact := [CrdFile; ClusterRoleFile; RoleFile; DeploymentFile].

(** [defer file.Close()] with [log.Fatal] *)
Fixpoint closing (p : gprog unit) : gprog unit :=
  match p with
  | Ret a => on_err (request CloseSource) (λ _, Exit 1) (Ret a)
  | Panic m => on_err (request CloseSource) (λ _, Exit 1) (Panic m)
  | Exit c => Exit c
  | Do r k => Do r (λ x, closing (k x))
  end.

(** [main]; [amount] is how much the reads of the source file return. *)
Definition main (amount : nat → nat → nat) (sourcefile outputDir : string) : gprog unit :=
  with_ok (request (StatFile sourcefile)) (λ _, Panic "failed to stat file")
    (λ size, with_ok (request (OpenSource sourcefile)) (λ _, Panic "failed to read file")
      (λ text, closing (over (documents amount size text) (λ item, over artefacts (λ a, generate_if outputDir a item))))).

End Generator.

(** ** A disk *)

(** The files, and the one that is open for writing, with the place of the next byte *)
Record disk := { files : gmap string string; writing : option (string * nat) }.

Definition overwrite (content : string) (offset : nat) (text : string) : string :=
  str_take offset content +:+ text +:+ str_drop (offset + String.length text) content.

Definition disk_handler : handler greq disk := λ T r d,
  match r in greq T return T * disk with
  | StatFile p => (match files d !! p with Some c => Ok (String.length c) | None => Err (Errorf "no such file") end, d)
  | OpenSource p => (match files d !! p with Some c => Ok c | None => Err (Errorf "no such file") end, d)
  | CloseSource => (None, d)
  | RemoveFile p => (tt, {| files := delete p (files d); writing := writing d |})
  | CreateFile p =>
      (None, {| files := <[p := default "" (files d !! p)]> (files d); writing := Some (p, O) |})
  | WriteString text =>
      (tt, match writing d with
           | Some (p, n) =>
               {| files := <[p := overwrite (default "" (files d !! p)) n text]> (files d);
                  writing := Some (p, n + String.length text)%nat |}
           | None => d
           end)
  | CloseFile => (None, {| files := files d; writing := None |})
  end.

(** ** Lemmas *)

Fixpoint concat_all (l : list string) : string := match l with [] => "" | s :: l => s +:+ concat_all l end.

Lemma run_write_all pieces p fs content :
  fs !! p = Some content →
  run disk_handler (write_all pieces) {| files := fs; writing := Some (p, String.length content) |} =
    (Returned tt, {| files := <[p := content +:+ concat_all pieces]> fs;
                     writing := Some (p, String.length (content +:+ concat_all pieces)) |}).
Proof.
  revert fs content. induction pieces as [|t pieces IH]; intros fs content Hp; cbn [write_all concat_all].
  - rewrite append_nil_r, insert_id by done. done.
  - cbn. rewrite Hp. cbn [default from_option id].
    assert (Ho : overwrite content (String.length content) t = content +:+ t).
    { unfold overwrite. rewrite str_take_all by done.
      replace (str_drop _ content) with ""; [by rewrite append_nil_r|].
      symmetry. apply len_0. unfold len. rewrite length_drop. lia. }
    rewrite Ho, <-length_append. change (prog_bind _ _) with (write_all pieces).
    rewrite (IH _ (content +:+ t)) by apply lookup_insert_eq.
    by rewrite insert_insert_eq, append_assoc.
Qed.

Section Generated.
Context `{MF : Manifests}.

Definition path_of (outputDir : string) (a : artefact) : string := filepath_Join [outputDir; file_name a].

Lemma run_generate outputDir a m d :
  run disk_handler (generate outputDir a m) d =
    (Returned tt, {| files := <[path_of outputDir a := concat_all (go_file a m)]> (files d); writing := None |}).
Proof.
  unfold generate. fold (path_of outputDir a). unfold on_err. rewrite run_bind, run_request. cbn [disk_handler fst snd].
  rewrite run_bind, run_request. cbn [disk_handler fst snd files]. rewrite lookup_delete_eq. cbn [default from_option id].
  rewrite run_bind. rewrite (run_write_all _ _ _ "") by apply lookup_insert_eq.
  rewrite run_bind, run_request. cbn [disk_handler fst snd files]. by rewrite insert_insert_eq, insert_delete_eq.
Qed.

(** A step of the loop on the files, if the text decodes *)
Definition generated (outputDir : string) (item : string) (fs : gmap string string) (a : artefact) : gmap string string :=
  match Decode a item with
  | Some m => if wanted a m then <[path_of outputDir a := concat_all (go_file a m)]> fs else fs
  | None => fs
  end.

Definition decodes (item : string) : Prop := ∀ a, is_Some (Decode a item).

Lemma run_step outputDir item a d :
  decodes item →
  ∃ w, run disk_handler (generate_if outputDir a item) d =
    (Returned tt, {| files := generated outputDir item (files d) a; writing := w |}).
Proof.
  intros Hd. destruct (Hd a) as [m Hm]. unfold generate_if, generated. rewrite Hm.
  destruct (wanted a m); [eexists; apply run_generate|]. exists (writing d). by destruct d.
Qed.

Lemma run_over {A} (l : list A) (body : A → gprog unit) (f : gmap string string → A → gmap string string) d :
  (∀ a d, a ∈ l → ∃ w, run disk_handler (body a) d = (Returned tt, {| files := f (files d) a; writing := w |})) →
  ∃ w, run disk_handler (over l body) d = (Returned tt, {| files := foldl f (files d) l; writing := w |}).
Proof.
  revert d. induction l as [|a l IH]; intros d Hl.
  - exists (writing d). by destruct d.
  - cbn [over foldl]. destruct (Hl a d ltac:(left)) as [w Hw]. rewrite run_bind, Hw.
    destruct (IH {| files := f (files d) a; writing := w |}) as [w' Hw']; [|by exists w'].
    intros b d' Hb. apply Hl. by right.
Qed.

Lemma run_closing (p : gprog unit) d d' : run disk_handler p d = (Returned tt, d') → run disk_handler (closing p) d = (Returned tt, d').
Proof.
  revert d. induction p as [[]| | |T r k IH]; intros d; cbn [run closing]; try done.
  destruct (disk_handler T r d) as [x d1]. apply IH.
Qed.

(** The files after a document, and after all *)
Definition after_item (outputDir : string) (fs : gmap string string) (item : string) : gmap string string :=
  foldl (generated outputDir item) fs artefacts.

(** The manifest a file is made of: the last of the documents it is wanted of *)
Definition last_wanted (a : artefact) (items : list string) : option manifest :=
  last (omap (λ item, m ← Decode a item; if wanted a m then Some m else None) items).

Lemma generated_other outputDir item fs b p : p ≠ path_of outputDir b → generated outputDir item fs b !! p = fs !! p.
Proof. intros Hp. unfold generated. destruct (Decode b item) as [m|]; [|done]. destruct (wanted b m); [|done]. by apply lookup_insert_ne. Qed.

Lemma generated_own outputDir item fs a :
  generated outputDir item fs a !! path_of outputDir a =
    match (m ← Decode a item; if wanted a m then Some m else None) with
    | Some m => Some (concat_all (go_file a m))
    | None => fs !! path_of outputDir a
    end.
Proof. unfold generated. destruct (Decode a item) as [m|]; [|done]. cbn. destruct (wanted a m); [apply lookup_insert_eq|done]. Qed.

(** The files have different paths (which [filepath.Join] could only fail at for
    names with dots or slashes). *)
Definition outputs_differ (outputDir : string) : Prop := ∀ a b, path_of outputDir a = path_of outputDir b → a = b.

Lemma generated_list outputDir item l fs a :
  outputs_differ outputDir → NoDup l →
  foldl (generated outputDir item) fs l !! path_of outputDir a =
    if bool_decide (a ∈ l) then generated outputDir item fs a !! path_of outputDir a else fs !! path_of outputDir a.
Proof.
  intros Hp. revert fs. induction l as [|b l IH]; intros fs Hl; [done|].
  apply NoDup_cons in Hl as [Hb Hl]. cbn [foldl]. rewrite IH by done.
  destruct (decide (a = b)) as [->|Hab].
  - rewrite bool_decide_eq_false_2, bool_decide_eq_true_2; [done|left|done].
  - assert (Hne : path_of outputDir a ≠ path_of outputDir b) by (intros H; by apply Hp in H).
    rewrite !generated_own, generated_other by done.
    by rewrite (bool_decide_ext (a ∈ b :: l) (a ∈ l)) by set_solver.
Qed.

Lemma after_item_lookup outputDir fs item a :
  outputs_differ outputDir →
  after_item outputDir fs item !! path_of outputDir a = generated outputDir item fs a !! path_of outputDir a.
Proof.
  intros Hp. unfold after_item. rewrite generated_list by (try done; apply (bool_decide_unpack _); vm_compute; exact I).
  rewrite bool_decide_eq_true_2; [done|]. destruct a; set_solver.
Qed.

Lemma files_lookup outputDir fs items a :
  outputs_differ outputDir →
  foldl (after_item outputDir) fs items !! path_of outputDir a =
    match last_wanted a items with
    | Some m => Some (concat_all (go_file a m))
    | None => fs !! path_of outputDir a
    end.
Proof.
  intros Hp. revert fs. unfold last_wanted. induction items as [|item items IH] using rev_ind; intros fs; [done|].
  rewrite foldl_app, omap_app, last_app. cbn [foldl omap list_omap].
  rewrite after_item_lookup, generated_own, IH by done.
  destruct (m ← Decode a item; _); [done|]. done.
Qed.

(** The generator on a disk.  If the manifest has a separator and all of its documents
    decode, it ends well, and every Go file holds the variable with the last of the
    documents it is wanted of; a file no document is wanted of stays as it was.  (The
    source is read before anything is written: it is none of the files.) *)
Theorem generator_writes amount src outputDir text d :
  reads_something amount → files d !! src = Some text → Contains text separator = true →
  (∀ item, item ∈ split_all text → decodes item) → outputs_differ outputDir →
  ∃ d', run disk_handler (main amount src outputDir) d = (Returned tt, d') ∧
    ∀ a, files d' !! path_of outputDir a =
      match last_wanted a (split_all text) with
      | Some m => Some (concat_all (go_file a m))
      | None => files d !! path_of outputDir a
      end.
Proof.
  intros Hreads Hsrc Hsep Hdec Hpaths. unfold main, with_ok.
  rewrite run_bind, run_request. cbn [disk_handler fst snd]. rewrite Hsrc.
  rewrite run_bind, run_request. cbn [disk_handler fst snd]. rewrite Hsrc.
  fold (documents_in amount text). rewrite (documents_of_file amount text Hreads), Hsep.
  destruct (run_over (split_all text) (λ item, over artefacts (λ a, generate_if outputDir a item))
    (after_item outputDir) d) as [w Hw].
  { intros item d' Hi. apply (run_over artefacts (λ a, generate_if outputDir a item) (generated outputDir item)).
    intros a d'' _. by apply run_step, Hdec. }
  eexists. split; [by apply run_closing|]. intros a. cbn [files]. by apply files_lookup.
Qed.

End Generated.

(** ** The Go files *)

(** What a Go compiler reads as the value of the variable: a raw string ends at the
    first backtick and has no carriage returns. *)
Fixpoint raw_string (s : string) : option string :=
  match s with
  | EmptyString => None
  | String c s =>
      if Ascii.eqb c backtick then Some ""
      else rest ← raw_string s; Some (if Ascii.eqb c (ascii_of_nat 13) then rest else String c rest)
  end.

Definition plain (s : string) : Prop := ∀ c, c ∈ String.list_ascii_of_string s → c ≠ backtick ∧ c ≠ ascii_of_nat 13.

Lemma plain_check s :
  forallb (λ c, negb (Ascii.eqb c backtick) && negb (Ascii.eqb c (ascii_of_nat 13))) (String.list_ascii_of_string s) = true → plain s.
Proof.
  rewrite forallb_forall. intros H c Hc%list_elem_of_In. apply H, andb_true_iff in Hc as [Hb Hr].
  by split; intros ->.
Qed.

Lemma raw_string_plain s rest : plain s → raw_string (s +:+ String backtick rest) = Some s.
Proof.
  induction s as [|c s IH]; intros Hs; [done|].
  change (String c s +:+ ?t) with (String c (s +:+ t)). cbn [raw_string].
  destruct (Hs c ltac:(left)) as [Hb Hr].
  destruct (Ascii.eqb_spec c backtick); [done|]. destruct (Ascii.eqb_spec c (ascii_of_nat 13)); [done|].
  rewrite IH; [done|]. intros c' Hc. apply Hs. by right.
Qed.

Lemma replaced_plain s b : b ≠ backtick → b ≠ ascii_of_nat 13 →
  (∀ c, c ∈ String.list_ascii_of_string s → c ≠ ascii_of_nat 13) → plain (replace_byte s backtick b).
Proof.
  intros Hb Hr. induction s as [|c s IH]; intros Hs; [by intros ? ?%not_elem_of_nil|].
  cbn [replace_byte]. intros c' [->|Hc]%elem_of_cons.
  - destruct (Ascii.eqb_spec c backtick); [done|]. split; [done|]. apply Hs. left.
  - apply IH; [|done]. intros c'' ?. apply Hs. by right.
Qed.

(** The value of the variable of a file *)
Fixpoint variable_value (file : string) : option string :=
  match file with
  | EmptyString => None
  | String c s => if Ascii.eqb c backtick then raw_string s else variable_value s
  end.

Lemma variable_value_skip s t : plain s → variable_value (s +:+ String backtick t) = raw_string t.
Proof.
  induction s as [|c s IH]; intros Hs; [done|].
  change (String c s +:+ ?t) with (String c (s +:+ t)). cbn [variable_value].
  destruct (Hs c ltac:(left)) as [Hb _]. destruct (Ascii.eqb_spec c backtick); [done|].
  apply IH. intros c' Hc. apply Hs. by right.
Qed.

(** The CRD's file holds the manifest, backticks replaced, whatever it says (YAML is
    written without carriage returns).  The other files hold theirs if it has no
    backticks: the generator does not look. *)
Theorem variable_reads_back `{MF : Manifests} a m :
  match a with
  | CrdFile => ∀ c, c ∈ String.list_ascii_of_string (Marshal (unstated m)) → c ≠ ascii_of_nat 13
  | _ => plain (Marshal m)
  end →
  variable_value (concat_all (go_file a m)) = Some (text_of a m).
Proof.
  intros Ha.
  assert (Ht : plain (text_of a m)) by (destruct a; [apply replaced_plain; [done..|exact Ha]|exact Ha..]).
  set (preamble := "package helper" +:+ newline +:+ newline +:+ "//" +:+ (variable a).1 +:+ " is a string yaml of the " +:+
    (variable a).2 +:+ newline +:+ "var " +:+ (variable a).1 +:+ " string = " +:+ newline).
  assert (Hp : plain preamble).
  { apply plain_check. subst preamble. destruct a; vm_compute; reflexivity. }
  assert (Hf : concat_all (go_file a m) = preamble +:+ String backtick (text_of a m +:+ String backtick newline)).
  { subst preamble. cbn [concat_all go_file]. rewrite !append_assoc. by destruct a. }
  rewrite Hf, variable_value_skip by exact Hp. by apply raw_string_plain.
Qed.

(** ** Examples *)

(** Manifests of one line, [kind: <kind> <text>] *)
#[local] Instance line_manifests : Manifests := {|
  manifest := string;
  Decode := λ _ s, if bool_decide (s = "") then None else Some s;
  id_of := λ a s, match a with CrdFile => if HasPrefix s "CustomResourceDefinition" then "hpp" else "" | _ => "operator" end;
  kind := λ s, default "" (head (Split s " "));
  rules := λ _, 1%nat;
  unstated := λ s, s;
  Marshal := λ s, s |}.

Definition two_documents : string := "Role a---CustomResourceDefinition the `path`---Role b".

Lemma generator_writes_witness :
  ∃ d', run disk_handler (main whole_reads "operator.yaml" "tools/helper")
          {| files := {["operator.yaml" := two_documents]}; writing := None |} = (Returned tt, d') ∧
    files d' !! "tools/helper/cluster_role_generated.go" = None ∧
    (files d' !! "tools/helper/role_generated.go" ≫= variable_value) = Some "Role b" ∧
    (files d' !! "tools/helper/crd_generated.go" ≫= variable_value) = Some "CustomResourceDefinition the 'path'".
Proof.
  destruct (generator_writes whole_reads "operator.yaml" "tools/helper" two_documents
    {| files := {["operator.yaml" := two_documents]}; writing := None |}) as (d' & Hrun & Hfiles).
  - intros space left ? ?. unfold whole_reads. lia.
  - reflexivity.
  - reflexivity.
  - intros item Hi a. apply (bool_decide_unpack _). revert item Hi.
    apply (proj1 (Forall_forall _ _)). vm_compute. repeat constructor.
  - intros [] []; vm_compute; congruence.
  - exists d'. split; [exact Hrun|].
    change "tools/helper/cluster_role_generated.go" with (path_of "tools/helper" ClusterRoleFile).
    change "tools/helper/role_generated.go" with (path_of "tools/helper" RoleFile).
    change "tools/helper/crd_generated.go" with (path_of "tools/helper" CrdFile).
    rewrite !Hfiles. vm_compute. repeat split.
Defined.

Lemma backtick_in_a_role :
  variable_value (concat_all (go_file RoleFile "Role `a`")) = Some "Role " ∧
  run disk_handler (main whole_reads "operator.yaml" "out") {| files := {["operator.yaml" := "Role a"]}; writing := None |} =
    (Returned tt, {| files := {["operator.yaml" := "Role a"]}; writing := None |}).
Proof. split; vm_compute; reflexivity. Qed.
