(* ===== verification/Marshaller.v ===== *)
(** * How the generators print manifests

    tools/util/marshaller.go: MarshallObject takes the document of an object,
    removes what only a server sets, and writes it as YAML with some quotes
    taken off.  It works with the helpers of vendor/k8s.io/apimachinery/
    pkg/apis/meta/v1/unstructured/helpers.go; the JSON and YAML packages are
    parameters.  The theorems say that nothing else is lost and that printing what
    was printed changes nothing. *)
From S2P Require Import Prelude GoStrings Json.

(** ** Nested fields *)

(** [NestedFieldNoCopy]: nothing where the way to the field leaves the objects (where
    the code also has an error, which its callers here do not look at) *)
Fixpoint NestedField (d : json) (fields : list string) : option json :=
  match fields with
  | [] => Some d
  | f :: fields => match d with JObj m => m !! f ≫= λ d, NestedField d fields | _ => None end
  end.

(** [NestedSlice] and [NestedString]: only of that type *)
Definition NestedSlice (m : jdoc) (fields : list string) : option (list json) :=
  match NestedField (JObj m) fields with Some (JArr l) => Some l | _ => None end.
Definition NestedString (m : jdoc) (fields : list string) : option string :=
  match NestedField (JObj m) fields with Some (JStr s) => Some s | _ => None end.

(** [RemoveNestedField] ([fields] is not empty) *)
Fixpoint RemoveNestedField (m : jdoc) (fields : list string) : jdoc :=
  match fields with
  | [] => m
  | [f] => delete f m
  | f :: fields => match m !! f with Some (JObj x) => <[f := JObj (RemoveNestedField x fields)]> m | _ => m end
  end.

(** [SetNestedSlice]: objects that are missing on the way are made; where something
    else is in the way, the error is ignored and nothing is set. *)
Fixpoint SetNestedSlice (m : jdoc) (l : list json) (fields : list string) : jdoc :=
  match fields with
  | [] => m
  | [f] => <[f := JArr l]> m
  | f :: fields =>
      match m !! f with
      | Some (JObj x) => <[f := JObj (SetNestedSlice x l fields)]> m
      | Some _ => m
      | None => <[f := JObj (SetNestedSlice ∅ l fields)]> m
      end
  end.

(** ** MarshallObject *)

(** [x.(map[string]interface{})] of every element: a panic ([None]) otherwise *)
Definition each_object (f : jdoc → jdoc) (l : list json) : option (list json) :=
  mapM (λ d, match d with JObj m => Some (JObj (f m)) | _ => None end) l.

(** A list at a path, with its elements changed and set back; [None] is a panic. *)
Definition in_slice (path : list string) (f : jdoc → jdoc) (m : jdoc) : option jdoc :=
  match NestedSlice m path with
  | Some l => l ← each_object f l; Some (SetNestedSlice m l path)
  | None => Some m
  end.

(** A data source that is not a text goes (it never is one: it is an object). *)
Definition without_dataSource (path : list string) (m : jdoc) : jdoc :=
  match NestedString m path with Some _ => m | None => RemoveNestedField m path end.

Definition clean_template : jdoc → jdoc := without_dataSource ["spec"; "pvc"; "dataSource"].

Definition clean_object (m : jdoc) : jdoc :=
  if bool_decide (NestedString m ["kind"] = Some "PersistentVolumeClaim")
  then without_dataSource ["spec"; "dataSource"] m else m.

Definition clean_deployment (m : jdoc) : jdoc :=
  let m := RemoveNestedField m ["metadata"; "creationTimestamp"] in
  let m := RemoveNestedField m ["spec"; "template"; "metadata"; "creationTimestamp"] in
  RemoveNestedField m ["status"].

(** What is printed of a document *)
Definition cleaned (m : jdoc) : option jdoc :=
  let m := RemoveNestedField m ["metadata"; "creationTimestamp"] in
  let m := RemoveNestedField m ["template"; "metadata"; "creationTimestamp"] in
  let m := RemoveNestedField m ["spec"; "template"; "metadata"; "creationTimestamp"] in
  let m := RemoveNestedField m ["status"] in
  m ← in_slice ["spec"; "dataVolumeTemplates"] clean_template m;
  m ← in_slice ["objects"] clean_object m;
  in_slice ["spec"; "install"; "spec"; "deployments"] clean_deployment m.

(** [strings.Replace(s, old, new, -1)] for a text that is not empty: [skip] bytes of
    an occurrence are still to be passed. *)
Fixpoint replace_all (skip : nat) (old new s : string) : string :=
  match s with
  | EmptyString => EmptyString
  | String c s' =>
      match skip with
      | S skip => replace_all skip old new s'
      | O => if HasPrefix s old then new +:+ replace_all (String.length old - 1) old new s'
             else String c (replace_all O old new s')
      end
  end.

Definition Replace (s old new : string) : string := replace_all 0 old new s.

(** The quotes that are taken off *)
Definition unquoted (s : string) : string :=
  let s := Replace s "'{{" "{{" in
  let s := Replace s "}}'" "}}" in
  let s := Replace s (" '" +:+ dquote) (" " +:+ dquote) in
  Replace s (dquote +:+ "'" +:+ String (ascii_of_nat 10) "") (dquote +:+ String (ascii_of_nat 10) "").

(** How printing ends *)
Inductive printed :=
| Printed (text : string)
| PrintError (e : goerror)
| PrintPanic.

(** [encoding/json] of the object, and the YAML package *)
Class Yaml := JSONToYAML : json → result string.

(** The document of a nil object is null; one that is no object is an error. *)
Definition MarshallObject `{Y : Yaml} (document : result json) : printed :=
  let write (d : json) :=
    match JSONToYAML d with
    | Err e => PrintError e
    | Ok text => Printed ("---" +:+ String (ascii_of_nat 10) "" +:+ unquoted text)
    end in
  match document with
  | Err e => PrintError e
  | Ok JNull => write JNull
  | Ok (JObj m) => match cleaned m with Some m => write (JObj m) | None => PrintPanic end
  | Ok _ => PrintError (Errorf "json: cannot unmarshal value into Go value of type map[string]interface {}")
  end.

(** ** Laws of nested fields *)

(** Change the field at a path, if the objects on the way to it are there. *)
Fixpoint alter_at (fields : list string) (g : option json → option json) (m : jdoc) : jdoc :=
  match fields with
  | [] => m
  | [f] => partial_alter g f m
  | f :: fields => match m !! f with Some (JObj x) => <[f := JObj (alter_at fields g x)]> m | _ => m end
  end.

Lemma RemoveNestedField_alter fields m : RemoveNestedField m fields = alter_at fields (λ _, None) m.
Proof.
  revert m. induction fields as [|f [|f' fields] IH]; intros m; [done|done|].
  change (match m !! f with Some (JObj x) => <[f := JObj (RemoveNestedField x (f' :: fields))]> m | _ => m end =
          match m !! f with Some (JObj x) => <[f := JObj (alter_at (f' :: fields) (λ _, None) x)]> m | _ => m end).
  destruct (m !! f) as [[]|]; try done. by rewrite IH.
Qed.

(** Setting a field that is there *)
Lemma SetNestedSlice_alter fields m l d :
  fields ≠ [] → NestedField (JObj m) fields = Some d → SetNestedSlice m l fields = alter_at fields (λ _, Some (JArr l)) m.
Proof.
  revert m. induction fields as [|f [|f' fields] IH]; intros m Hne; [done|done|].
  intros Hd. cbn [NestedField] in Hd.
  change (match m !! f with Some (JObj x) => <[f := JObj (SetNestedSlice x l (f' :: fields))]> m | Some _ => m
          | None => <[f := JObj (SetNestedSlice ∅ l (f' :: fields))]> m end =
          match m !! f with Some (JObj x) => <[f := JObj (alter_at (f' :: fields) (λ _, Some (JArr l)) x)]> m | _ => m end).
  destruct (m !! f) as [[| | | | |x]|]; try done. cbn [mbind option_bind] in Hd. by rewrite IH.
Qed.

(** Two paths that part somewhere *)
Definition apart (p q : list string) : Prop := ¬ p `prefix_of` q ∧ ¬ q `prefix_of` p.

Lemma apart_cons f p q : apart (f :: p) (f :: q) → apart p q.
Proof. intros [H1 H2]. split; intros H; [apply H1|apply H2]; by apply prefix_cons. Qed.

Lemma alter_elsewhere p q g m :
  apart p q → NestedField (JObj (alter_at p g m)) q = NestedField (JObj m) q.
Proof.
  revert q m. induction p as [|f [|f' p] IH]; intros q m Ha.
  - done.
  - destruct q as [|k q]; [by destruct Ha as [_ []]; apply prefix_nil|]. cbn [alter_at NestedField].
    destruct (decide (f = k)) as [->|Hne]; [|by rewrite lookup_partial_alter_ne].
    destruct Ha as [[] _]. apply prefix_cons, prefix_nil.
  - destruct q as [|k q]; [by destruct Ha as [_ []]; apply prefix_nil|].
    change (NestedField (JObj (match m !! f with Some (JObj x) => <[f := JObj (alter_at (f' :: p) g x)]> m | _ => m end)) (k :: q) =
            NestedField (JObj m) (k :: q)).
    destruct (m !! f) as [[| | | | |x]|] eqn:Hf; try done. cbn [NestedField].
    destruct (decide (f = k)) as [->|Hne]; [|by rewrite lookup_insert_ne].
    rewrite lookup_insert_eq, Hf. cbn [mbind option_bind]. by apply IH, (apart_cons k).
Qed.

(** The step of [alter_at] at an object *)
Lemma alter_at_cons f f' p g m :
  alter_at (f :: f' :: p) g m = match m !! f with Some (JObj x) => <[f := JObj (alter_at (f' :: p) g x)]> m | _ => m end.
Proof. done. Qed.

(** The field itself, if it was there *)
Lemma alter_there p g m d :
  p ≠ [] → NestedField (JObj m) p = Some d → NestedField (JObj (alter_at p g m)) p = g (Some d).
Proof.
  revert m. induction p as [|f [|f' p] IH]; intros m Hp Hd; [done| |].
  - cbn [alter_at NestedField] in *. rewrite lookup_partial_alter_eq. destruct (m !! f); [|done]. cbn in Hd.
    injection Hd as ->. by destruct (g (Some d)).
  - rewrite alter_at_cons. change (m !! f ≫= (λ d, NestedField d (f' :: p)) = Some d) in Hd.
    destruct (m !! f) as [[| | | | |x]|]; try done. cbn [mbind option_bind] in Hd.
    change (<[f:=JObj (alter_at (f' :: p) g x)]> m !! f ≫= (λ d, NestedField d (f' :: p)) = g (Some d)).
    rewrite lookup_insert_eq. cbn [mbind option_bind]. by apply IH.
Qed.

Lemma alter_compose p g h m : alter_at p g (alter_at p h m) = alter_at p (g ∘ h) m.
Proof.
  revert m. induction p as [|f [|f' p] IH]; intros m; [done| |].
  - cbn [alter_at]. by rewrite partial_alter_partial_alter_eq.
  - rewrite !alter_at_cons. destruct (m !! f) as [[| | | | |x]|] eqn:Hf; rewrite ?alter_at_cons, ?Hf; try done.
    by rewrite lookup_insert_eq, insert_insert_eq, IH.
Qed.

(** As an alteration of one entry *)
Definition step (p : list string) (g : option json → option json) (o : option json) : option json :=
  match p with
  | [] => g o
  | _ => match o with Some (JObj x) => Some (JObj (alter_at p g x)) | o => o end
  end.

Lemma alter_at_step f p g m : alter_at (f :: p) g m = partial_alter (step p g) f m.
Proof.
  destruct p as [|f' p]; [done|]. rewrite alter_at_cons.
  destruct (m !! f) as [[| | | | |x]|] eqn:Hf; try (symmetry; apply partial_alter_id; by rewrite Hf).
  apply partial_alter_ext. intros o <-. by rewrite Hf.
Qed.

Lemma alter_commute p q g h m : apart p q → alter_at p g (alter_at q h m) = alter_at q h (alter_at p g m).
Proof.
  revert q m. induction p as [|f p IH]; intros q m Ha; [by destruct Ha as [[] _]; apply prefix_nil|].
  destruct q as [|k q]; [by destruct Ha as [_ []]; apply prefix_nil|].
  destruct (decide (f = k)) as [->|Hne].
  - apply apart_cons in Ha. destruct p as [|f p]; [by destruct Ha as [[] _]; apply prefix_nil|].
    destruct q as [|k' q]; [by destruct Ha as [_ []]; apply prefix_nil|]. rewrite !alter_at_cons.
    destruct (m !! k) as [[| | | | |x]|] eqn:Hk; rewrite ?Hk; try done.
    by rewrite !lookup_insert_eq, !insert_insert_eq, IH.
  - clear IH Ha. rewrite !alter_at_step. by apply partial_alter_partial_alter_ne.
Qed.

Lemma alter_id p m d : NestedField (JObj m) p = Some d → alter_at p (λ _, Some d) m = m.
Proof.
  revert m. induction p as [|f [|f' p] IH]; intros m Hd; [done| |].
  - cbn [NestedField] in Hd. apply partial_alter_id. by destruct (m !! f).
  - change (m !! f ≫= (λ d, NestedField d (f' :: p)) = Some d) in Hd.
    rewrite alter_at_cons. destruct (m !! f) as [[| | | | |x]|] eqn:Hf; try done. cbn [mbind option_bind] in Hd.
    by rewrite IH, insert_id.
Qed.

Lemma Remove_idempotent p m : RemoveNestedField (RemoveNestedField m p) p = RemoveNestedField m p.
Proof. rewrite !RemoveNestedField_alter. by rewrite alter_compose. Qed.

(** ** What a step of the cleaning leaves in place *)

(** The steps are alterations at a path. *)
Definition alters (p : list string) (m m' : jdoc) : Prop := m' = m ∨ ∃ g, m' = alter_at p g m.

Lemma Remove_alters p m : alters p m (RemoveNestedField m p).
Proof. right. eexists. apply RemoveNestedField_alter. Qed.

Lemma in_slice_alters p f m m' : p ≠ [] → in_slice p f m = Some m' → alters p m m'.
Proof.
  unfold in_slice, NestedSlice. intros Hp H. destruct (NestedField (JObj m) p) as [[| | | |l|]|] eqn:Hd; try (left; congruence).
  destruct (each_object f l) as [l'|]; [|done]. injection H as <-. right. eexists. by eapply SetNestedSlice_alter.
Qed.

Lemma alters_elsewhere p q m m' : apart p q → alters p m m' → NestedField (JObj m') q = NestedField (JObj m) q.
Proof. intros Ha [->|[g ->]]; [done|]. by apply alter_elsewhere. Qed.

(** A field that was removed stays removed. *)
Lemma removed_stays p q m m' : apart p q → alters p m m' → RemoveNestedField m q = m → RemoveNestedField m' q = m'.
Proof.
  intros Ha [->|[g ->]] Hm; [done|]. rewrite RemoveNestedField_alter in *.
  rewrite alter_commute; [by rewrite Hm|]. destruct Ha. by split.
Qed.

(** A list that was gone through stays so. *)
Lemma slice_stays p q f m m' :
  q ≠ [] → apart p q → alters p m m' → in_slice q f m = Some m → in_slice q f m' = Some m'.
Proof.
  intros Hq Ha Halt Hm. pose proof (alters_elsewhere p q m m' Ha Halt) as Hsame.
  unfold in_slice, NestedSlice in *. rewrite Hsame.
  destruct (NestedField (JObj m) q) as [[| | | |l|]|] eqn:Hd; try done.
  destruct (each_object f l) as [l'|]; [|done]. cbn [mbind option_bind] in *. f_equal.
  injection Hm as Hm. rewrite (SetNestedSlice_alter _ _ _ _ Hq Hd) in Hm.
  assert (Hl : Some (JArr l') = Some (JArr l)).
  { rewrite <-Hd. rewrite <-Hm at 1. symmetry. by rewrite (alter_there _ _ _ _ Hq Hd). }
  injection Hl as ->. rewrite (SetNestedSlice_alter _ _ _ (JArr l)); [|done|by rewrite Hsame].
  apply alter_id. by rewrite Hsame.
Qed.

(** Going through a list twice *)
Lemma each_object_idempotent f l l' : (∀ m, f (f m) = f m) → each_object f l = Some l' → each_object f l' = Some l'.
Proof.
  intros Hf Hl%mapM_Some. apply mapM_Some. induction Hl as [|d d' l l' Hd _ IH]; constructor; [|done].
  destruct d; try done. injection Hd as <-. by rewrite Hf.
Qed.

Lemma in_slice_idempotent p f m m' :
  p ≠ [] → (∀ m, f (f m) = f m) → in_slice p f m = Some m' → in_slice p f m' = Some m'.
Proof.
  intros Hp Hf. unfold in_slice, NestedSlice.
  destruct (NestedField (JObj m) p) as [[| | | |l|]|] eqn:Hd; try (intros [= <-]; by rewrite Hd).
  destruct (each_object f l) as [l'|] eqn:Hl; [|done]. intros [= <-].
  rewrite (SetNestedSlice_alter _ _ _ _ Hp Hd).
  assert (Hd' : NestedField (JObj (alter_at p (λ _, Some (JArr l')) m)) p = Some (JArr l')) by by erewrite alter_there.
  rewrite Hd', (each_object_idempotent _ _ _ Hf Hl). cbn. f_equal.
  rewrite (SetNestedSlice_alter _ _ _ _ Hp Hd'). by apply alter_id.
Qed.

(** Closed paths part. *)
Ltac paths_part := split; apply (bool_decide_unpack _); vm_compute; exact I.

Lemma without_dataSource_idempotent p m : p ≠ [] → without_dataSource p (without_dataSource p m) = without_dataSource p m.
Proof.
  intros Hp. unfold without_dataSource. destruct (NestedString m p) eqn:Hs; [by rewrite Hs|].
  destruct (NestedString (RemoveNestedField m p) p); [done|]. apply Remove_idempotent.
Qed.

Lemma clean_object_idempotent m : clean_object (clean_object m) = clean_object m.
Proof.
  destruct (decide (NestedString m ["kind"] = Some "PersistentVolumeClaim")) as [Hk|Hk];
    [|assert (Hc : clean_object m = m) by (unfold clean_object; by rewrite bool_decide_eq_false_2); by rewrite !Hc].
  assert (Hc : clean_object m = without_dataSource ["spec"; "dataSource"] m) by (unfold clean_object; by rewrite bool_decide_eq_true_2).
  assert (Hk' : NestedString (without_dataSource ["spec"; "dataSource"] m) ["kind"] = NestedString m ["kind"]).
  { unfold without_dataSource. destruct (NestedString m ["spec"; "dataSource"]); [done|].
    unfold NestedString. rewrite (alters_elsewhere ["spec"; "dataSource"] ["kind"] m); [done| |apply Remove_alters].
    paths_part. }
  rewrite Hc. unfold clean_object. rewrite Hk', bool_decide_eq_true_2 by done. by apply without_dataSource_idempotent.
Qed.

Lemma clean_deployment_idempotent m : clean_deployment (clean_deployment m) = clean_deployment m.
Proof.
  unfold clean_deployment. set (m1 := RemoveNestedField m _). set (m2 := RemoveNestedField m1 _).
  set (m3 := RemoveNestedField m2 _).
  assert (H1 : RemoveNestedField m3 ["metadata"; "creationTimestamp"] = m3).
  { apply (removed_stays ["status"] ["metadata"; "creationTimestamp"] m2); [paths_part|apply Remove_alters|].
    apply (removed_stays ["spec"; "template"; "metadata"; "creationTimestamp"] ["metadata"; "creationTimestamp"] m1);
      [paths_part|apply Remove_alters|apply Remove_idempotent]. }
  assert (H2 : RemoveNestedField m3 ["spec"; "template"; "metadata"; "creationTimestamp"] = m3).
  { apply (removed_stays ["status"] ["spec"; "template"; "metadata"; "creationTimestamp"] m2);
      [paths_part|apply Remove_alters|apply Remove_idempotent]. }
  rewrite H1, H2. apply Remove_idempotent.
Qed.

(** ** Theorems *)

(** The paths MarshallObject looks at *)
Definition touched : list (list string) := [
  ["metadata"; "creationTimestamp"]; ["template"; "metadata"; "creationTimestamp"];
  ["spec"; "template"; "metadata"; "creationTimestamp"]; ["status"];
  ["spec"; "dataVolumeTemplates"]; ["objects"]; ["spec"; "install"; "spec"; "deployments"]].

(** A run of [cleaned] is seven steps, each an alteration at its path. *)
Lemma cleaned_steps m m' :
  cleaned m = Some m' → ∃ m1 m2 m3 m4 m5 m6,
    m1 = RemoveNestedField m ["metadata"; "creationTimestamp"] ∧
    m2 = RemoveNestedField m1 ["template"; "metadata"; "creationTimestamp"] ∧
    m3 = RemoveNestedField m2 ["spec"; "template"; "metadata"; "creationTimestamp"] ∧
    m4 = RemoveNestedField m3 ["status"] ∧
    in_slice ["spec"; "dataVolumeTemplates"] clean_template m4 = Some m5 ∧
    in_slice ["objects"] clean_object m5 = Some m6 ∧
    in_slice ["spec"; "install"; "spec"; "deployments"] clean_deployment m6 = Some m'.
Proof.
  unfold cleaned. intros H. do 4 eexists.
  destruct (in_slice _ clean_template _) as [m5|] eqn:H5; [|done]. cbn [mbind option_bind] in H.
  destruct (in_slice _ clean_object m5) as [m6|] eqn:H6; [|done]. exists m5, m6. by split_and!.
Qed.

Lemma steps_alter m m' :
  cleaned m = Some m' → ∃ m1 m2 m3 m4 m5 m6,
    alters ["metadata"; "creationTimestamp"] m m1 ∧ alters ["template"; "metadata"; "creationTimestamp"] m1 m2 ∧
    alters ["spec"; "template"; "metadata"; "creationTimestamp"] m2 m3 ∧ alters ["status"] m3 m4 ∧
    alters ["spec"; "dataVolumeTemplates"] m4 m5 ∧ alters ["objects"] m5 m6 ∧
    alters ["spec"; "install"; "spec"; "deployments"] m6 m'.
Proof.
  intros (m1 & m2 & m3 & m4 & m5 & m6 & H1 & H2 & H3 & H4 & H5 & H6 & H7)%cleaned_steps.
  apply in_slice_alters in H5, H6, H7; try done. exists m1, m2, m3, m4, m5, m6.
  split_and!; [rewrite H1; apply Remove_alters|rewrite H2; apply Remove_alters|rewrite H3; apply Remove_alters|
    rewrite H4; apply Remove_alters|done..].
Qed.

(** Nothing but those fields is lost: what is at a path that parts from all of them is
    printed as it is. *)
Theorem printed_elsewhere m m' q :
  cleaned m = Some m' → (∀ p, p ∈ touched → apart p q) → NestedField (JObj m') q = NestedField (JObj m) q.
Proof.
  intros (m1 & m2 & m3 & m4 & m5 & m6 & H1 & H2 & H3 & H4 & H5 & H6 & H7)%steps_alter Hq.
  unfold touched in Hq. repeat setoid_rewrite elem_of_cons in Hq.
  repeat match goal with H : alters ?p ?n ?n' |- _ =>
    apply (λ Ha, alters_elsewhere p q n n' Ha) in H; [|apply Hq; tauto] end.
  congruence.
Qed.

(** What the steps are to leave: removed fields, lists that were gone through *)
Inductive cleanup := Removed (p : list string) | Through (p : list string) (f : jdoc → jdoc).

Definition place (c : cleanup) : list string := match c with Removed p | Through p _ => p end.
Definition settled (m : jdoc) (c : cleanup) : Prop :=
  match c with Removed p => RemoveNestedField m p = m | Through p f => in_slice p f m = Some m end.

Lemma settled_stays p c m m' :
  apart p (place c) → place c ≠ [] → alters p m m' → settled m c → settled m' c.
Proof. destruct c as [q|q f]; cbn; intros Ha Hq Halt; [by eapply removed_stays|by eapply slice_stays]. Qed.

Definition cleanups : list cleanup := [
  Removed ["metadata"; "creationTimestamp"]; Removed ["template"; "metadata"; "creationTimestamp"];
  Removed ["spec"; "template"; "metadata"; "creationTimestamp"]; Removed ["status"];
  Through ["spec"; "dataVolumeTemplates"] clean_template; Through ["objects"] clean_object;
  Through ["spec"; "install"; "spec"; "deployments"] clean_deployment].

Lemma settled_cleaned m : Forall (settled m) cleanups → cleaned m = Some m.
Proof.
  unfold cleanups. rewrite !Forall_cons. cbn [settled]. intros (H1 & H2 & H3 & H4 & H5 & H6 & H7 & _).
  unfold cleaned. rewrite H1, H2, H3, H4, H5. cbn [mbind option_bind]. by rewrite H6.
Qed.

(** A step keeps what the others left. *)
Ltac keep := repeat match goal with
  | Halt : alters ?p ?n ?n', Hs : settled ?n ?c |- _ =>
      lazymatch goal with H : settled n' c |- _ => fail | _ =>
        pose proof (settled_stays p c n n' ltac:(paths_part) ltac:(done) Halt Hs) end
  end.

(** Printing what was printed changes nothing. *)
Theorem printed_once m m' : cleaned m = Some m' → cleaned m' = Some m'.
Proof.
  intros (m1 & m2 & m3 & m4 & m5 & m6 & H1 & H2 & H3 & H4 & H5 & H6 & H7)%cleaned_steps.
  apply settled_cleaned.
  assert (S1 : settled m1 (Removed ["metadata"; "creationTimestamp"])) by (rewrite H1; apply Remove_idempotent).
  assert (S2 : settled m2 (Removed ["template"; "metadata"; "creationTimestamp"])) by (rewrite H2; apply Remove_idempotent).
  assert (S3 : settled m3 (Removed ["spec"; "template"; "metadata"; "creationTimestamp"])) by (rewrite H3; apply Remove_idempotent).
  assert (S4 : settled m4 (Removed ["status"])) by (rewrite H4; apply Remove_idempotent).
  assert (S5 : settled m5 (Through ["spec"; "dataVolumeTemplates"] clean_template))
    by (eapply in_slice_idempotent; [done|intros; by apply without_dataSource_idempotent|exact H5]).
  assert (S6 : settled m6 (Through ["objects"] clean_object))
    by (eapply in_slice_idempotent; [done|apply clean_object_idempotent|exact H6]).
  assert (S7 : settled m' (Through ["spec"; "install"; "spec"; "deployments"] clean_deployment))
    by (eapply in_slice_idempotent; [done|apply clean_deployment_idempotent|exact H7]).
  apply in_slice_alters in H5, H6, H7; try done.
  pose proof (Remove_alters ["template"; "metadata"; "creationTimestamp"] m1) as A2. rewrite <-H2 in A2.
  pose proof (Remove_alters ["spec"; "template"; "metadata"; "creationTimestamp"] m2) as A3. rewrite <-H3 in A3.
  pose proof (Remove_alters ["status"] m3) as A4. rewrite <-H4 in A4. clear H1 H2 H3 H4.
  keep. unfold cleanups. by repeat constructor.
Qed.

(** ** Examples *)

(** A data source is taken off a claim also if it is not empty: it is an object, and
    only a text would be seen. *)
Lemma claims_lose_their_source :
  clean_object {["kind" := JStr "PersistentVolumeClaim"; "spec" := JObj {["dataSource" := JObj {["name" := JStr "snap"]}; "volumeName" := JStr "v"]}]} =
    {["kind" := JStr "PersistentVolumeClaim"; "spec" := JObj {["volumeName" := JStr "v"]}]}.
Proof. vm_compute. reflexivity. Qed.

Definition sample_deployment : jdoc := {[
  "kind" := JStr "Deployment"; "status" := JObj ∅;
  "metadata" := JObj {["name" := JStr "operator"; "creationTimestamp" := JNull]} ]}.

Lemma printed_elsewhere_witness :
  ∃ m, cleaned sample_deployment = Some m ∧ NestedField (JObj m) ["metadata"; "name"] = Some (JStr "operator") ∧
       NestedField (JObj m) ["metadata"; "creationTimestamp"] = None.
Proof.
  eexists. split; [vm_compute; reflexivity|]. split; [|vm_compute; reflexivity].
  rewrite (printed_elsewhere sample_deployment); [vm_compute; reflexivity|vm_compute; reflexivity|].
  unfold touched. intros p Hp. repeat (apply elem_of_cons in Hp as [->|Hp]; [paths_part|]). by apply not_elem_of_nil in Hp.
Defined.

Lemma printed_once_witness : ∃ m, cleaned sample_deployment = Some m ∧ cleaned m = Some m.
Proof. eexists. split; [vm_compute; reflexivity|]. apply (printed_once sample_deployment). vm_compute. reflexivity. Defined.

(** A list of texts where deployments are expected is a panic. *)
Lemma texts_are_no_deployments :
  cleaned {["spec" := JObj {["install" := JObj {["spec" := JObj {["deployments" := JArr [JStr "d"]]}]}]}]} = None.
Proof. vm_compute. reflexivity. Qed.
