(* ===== verification/Csv.v ===== *)
(** * The ClusterServiceVersion

    tools/csv-generator.go: the manifest the operator lifecycle manager installs the
    operator from, and the other manifests the generator prints.  The manifest is
    made of what Install.v has (the Deployment and the rules), the webhook, the
    description of the custom resource and an example of it; the theorems say that
    these parts fit each other, and the parts of the program they describe.  The
    example is the document its text is. *)
From S2P Require Import Prelude GoStrings Prog Semver VersionText Names Api K8s Json JsonMerge Rbac Prometheus Meta DaemonSet Install Webhook GoTypes GoJson CrdSchema CrdTypes Marshaller.

(** ** The parts of the manifest *)

Record RuleWithOperations := {
  ro_Operations : list string; ro_APIGroups : list string; ro_APIVersions : list string; ro_Resources : list string }.

Record WebhookDescription := {
  wh_DeploymentName : string; wh_GenerateName : string; wh_Type : string; wh_ContainerPort : Z; wh_TargetPort : Z;
  wh_FailurePolicy : string; wh_SideEffects : string; wh_WebhookPath : string; wh_AdmissionReviewVersions : list string;
  wh_Rules : list RuleWithOperations }.

Record CRDDescription := {
  owned_Name : string; owned_Version : string; owned_Kind : string; owned_DisplayName : string; owned_Description : string }.

Record ClusterServiceVersion := {
  csv_APIVersion : string; csv_Kind : string; csv_Name : string; csv_Namespace : string;
  csv_Annotations : gmap string string; csv_Examples : json;
  csv_Webhooks : list WebhookDescription;
  csv_DisplayName : string; csv_Description : string; csv_Keywords : list string;
  csv_Version : Version; csv_Maturity : string; csv_Replaces : string;
  csv_Maintainers : list (string * string); csv_Provider : string; csv_Links : list (string * string);
  csv_Icon : list (string * string); csv_Labels : gmap string string; csv_Selector : LabelSelector;
  csv_InstallModes : list (string * bool);
  csv_StrategyName : string; csv_Deployments : list (string * DeploymentSpec);
  csv_Permissions : list (string * list PolicyRule); csv_ClusterPermissions : list (string * list PolicyRule);
  csv_Owned : list CRDDescription }.

(** The arguments of the manifest *)
Record NewClusterServiceVersionData := {
  data_CsvVersion : string; data_ReplacesCsvVersion : string; data_IconBase64 : string; data_OperatorArgs : OperatorArgs }.

Definition csv_deployment (data : NewClusterServiceVersionData) : Deployment :=
  CreateOperatorDeployment (data_OperatorArgs data).

(** ** The manifest *)

Definition webhookPath : string := "/validate-hostpathprovisioner-kubevirt-io-v1beta1-hostpathprovisioner".

Definition csv_webhook (deployment_name : string) : WebhookDescription := {|
  wh_DeploymentName := deployment_name; wh_GenerateName := "validate-hostpath-provisioner.kubevirt.io";
  wh_Type := "ValidatingAdmissionWebhook"; wh_ContainerPort := 9443; wh_TargetPort := 9443;
  wh_FailurePolicy := "Fail"; wh_SideEffects := "None"; wh_WebhookPath := webhookPath;
  wh_AdmissionReviewVersions := ["v1beta1"];
  wh_Rules := [{| ro_Operations := ["CREATE"; "DELETE"; "UPDATE"]; ro_APIGroups := ["hostpathprovisioner.kubevirt.io"];
                  ro_APIVersions := ["v1beta1"]; ro_Resources := ["hostpathprovisioners"] |}] |}.

(** The document of the annotation [alm-examples] *)
Definition example_pool : json := JObj {[
  "name" := JStr "local";
  "pvcTemplate" := JObj {[
    "accessModes" := JArr [JStr "ReadWriteOnce"];
    "resources" := JObj {[ "requests" := JObj {[ "storage" := JStr "50Gi" ]} ]} ]};
  "path" := JStr "/var/hpvolumes" ]}.

Definition alm_example : json := JObj {[
  "apiVersion" := JStr "hostpathprovisioner.kubevirt.io/v1beta1";
  "kind" := JStr "HostPathProvisioner";
  "metadata" := JObj {[ "name" := JStr "hostpath-provisioner" ]};
  "spec" := JObj {[
    "imagePullPolicy" := JStr "IfNotPresent";
    "storagePools" := JArr [example_pool];
    "workload" := JObj {[ "nodeSelector" := JObj {[ "kubernetes.io/os" := JStr "linux" ]} ]} ]} ]}.

Definition csv_labels : gmap string string :=
  {[ "alm-owner-hostpath-provisioner" := "hostpath-provisioner-operator";
     "operated-by" := "hostpath-provisioner-operator" ]}.

Definition csv_description : string :=
  String (ascii_of_nat 10) ("Hostpath provisioner is a local storage provisioner that uses kubernetes hostpath support to create directories on the host that map to a PV. These PVs are dynamically created when a new PVC is requested." +:+
  String (ascii_of_nat 10) "").

Definition csv_owned : CRDDescription := {|
  owned_Name := "hostpathprovisioners.hostpathprovisioner.kubevirt.io"; owned_Version := "v1beta1";
  owned_Kind := "HostPathProvisioner"; owned_DisplayName := "HostPathProvisioner Deployment";
  owned_Description := "Represents the deployment of HostPathProvisioner" |}.

Definition createClusterServiceVersion (data : NewClusterServiceVersionData) : result ClusterServiceVersion :=
  let deployment := csv_deployment data in
  match Parse (data_CsvVersion data) with
  | None => Err (Errorf "invalid version")
  | Some csvVersion => Ok {|
      csv_APIVersion := "operators.coreos.com/v1alpha1"; csv_Kind := "ClusterServiceVersion";
      csv_Name := "hostpathprovisioneroperator." +:+ data_CsvVersion data;
      csv_Namespace := op_Namespace (data_OperatorArgs data);
      csv_Annotations := {[ "capabilities" := "Full Lifecycle"; "categories" := "Storage";
        "description" := "Creates and maintains hostpath provisioner deployments" ]};
      csv_Examples := JArr [alm_example];
      csv_Webhooks := [csv_webhook (Name (o_meta deployment))];
      csv_DisplayName := "Hostpath Provisioner"; csv_Description := csv_description;
      csv_Keywords := ["Hostpath Provisioner"; "Storage"];
      csv_Version := csvVersion; csv_Maturity := "beta"; csv_Replaces := data_ReplacesCsvVersion data;
      csv_Maintainers := [("KubeVirt project", "kubevirt-dev@googlegroups.com")];
      csv_Provider := "KubeVirt/Hostpath-provisioner project";
      csv_Links := [("Hostpath Provisioner", "https://github.com/kubevirt/hostpath-provisioner/blob/main/README.md");
                    ("Source Code", "https://github.com/kubevirt/hostpath-provisioner")];
      csv_Icon := [(data_IconBase64 data, "image/png")];
      csv_Labels := csv_labels; csv_Selector := match_labels csv_labels;
      csv_InstallModes := [("OwnNamespace", true); ("SingleNamespace", true); ("MultiNamespace", false); ("AllNamespaces", false)];
      csv_StrategyName := "deployment";
      csv_Deployments := [("hostpath-provisioner-operator", dep_Spec deployment)];
      csv_Permissions := [csv_permissions]; csv_ClusterPermissions := [csv_cluster_permissions];
      csv_Owned := [csv_owned] |}
  end.

(** ** The program *)

Record flags := { fl_data : NewClusterServiceVersionData; fl_dumpCRDs : bool; fl_dumpNetworkPolicies : bool }.

(** What it prints *)
Inductive manifest :=
| TheCsv (csv : ClusterServiceVersion)
| TheCrd (c : crd)
| ThePolicy (np : NetworkPolicy).

(** [MarshallObject(x, os.Stdout)] on one after the other: the program panics at the
    first that fails. *)
Fixpoint print_manifests `{Y : Yaml} (marshal : manifest → result json) (ms : list manifest) : string * outcome unit :=
  match ms with
  | [] => ("", Returned tt)
  | m :: ms =>
      match MarshallObject (marshal m) with
      | Printed text => let '(rest, o) := print_manifests marshal ms in (text +:+ rest, o)
      | PrintError e => ("", Panicked (err_text e))
      | PrintPanic => ("", Panicked "interface conversion")
      end
  end.

(** What is to be printed, or the error [main] panics with *)
Definition manifests (f : flags) : result (list manifest) :=
  match createClusterServiceVersion (fl_data f) with
  | Err e => Err e
  | Ok csv => Ok (TheCsv csv :: (if fl_dumpCRDs f then [TheCrd CreateCRDDef] else []) ++
      (if fl_dumpNetworkPolicies f
       then ThePolicy <$> CreateNetworkPolicies (op_Namespace (data_OperatorArgs (fl_data f))) else []))
  end.

Definition main `{Y : Yaml} (marshal : manifest → result json) (f : flags) : string * outcome unit :=
  match manifests f with
  | Err e => ("", Panicked (err_text e))
  | Ok ms => print_manifests marshal ms
  end.

(** ** tools/yaml-dumper *)

(** [main]: the definition of the resource, printed to a file of its name below the
    export path; what [os.Mkdir] and [os.Create] say is given.  The result is what
    was written where ([MarshallObject]'s own errors are ignored). *)
Definition yaml_dumper `{Y : Yaml} (marshal : manifest → result json) (exportPath : string) (mkdir : error)
    (create : string → error) : outcome (list (string * printed)) :=
  let is_exist := match mkdir with Some e => bool_decide (err_kind e = KAlreadyExists) | None => false end in
  if negb (bool_decide (exportPath = "")) && negb is_exist then Panicked (match mkdir with Some e => err_text e | None => "nil" end)
  else
    let crdPath := filepath_Join [exportPath; crd_name CreateCRDDef] in
    match create crdPath with
    | Some e => Panicked (err_text e)
    | None => Returned [(crdPath, MarshallObject (marshal (TheCrd CreateCRDDef)))]
    end.

(** It only works with a directory that is there already: making it is a panic. *)
Lemma dumper_panics_on_a_new_directory `{Y : Yaml} marshal exportPath create :
  exportPath ≠ "" → yaml_dumper marshal exportPath None create = Panicked "nil".
Proof. intros H. unfold yaml_dumper. by rewrite bool_decide_eq_false_2. Qed.

(** ** The parts fit *)

(** [generateValidatePath] of controller-runtime (vendor, pkg/builder/webhook.go): where
    the operator's webhook listens for a kind *)
Definition generateValidatePath (group version kind : string) : string :=
  "/validate-" +:+ replace_byte group "."%char "-"%char +:+ "-" +:+ version +:+ "-" +:+ ToLower kind.

Lemma operator_selects_itself a :
  default ∅ (MatchLabels (dep_Selector (dep_Spec (CreateOperatorDeployment a)))) ⊆
  default ∅ (Labels (template_Meta (dep_Template (dep_Spec (CreateOperatorDeployment a))))).
Proof.
  change (<["operator.hostpath-provisioner.kubevirt.io" := ""]> operator_name_label ⊆
          <["operator.hostpath-provisioner.kubevirt.io" := ""]> operator_pod_labels).
  apply insert_mono, insert_subseteq. vm_compute. reflexivity.
Qed.

Lemma webhook_is_reachable a ns :
  ∃ np, np ∈ CreateNetworkPolicies ns ∧ ("TCP", 9443) ∈ np_Ports np ∧
        selected_by np (dep_Template (dep_Spec (CreateOperatorDeployment a))).
Proof.
  exists (newIngressToOperatorWebhookServer ns). split_and!; [by right; left|by left|].
  apply map_singleton_subseteq_l. vm_compute. reflexivity.
Qed.

(** The manifest installs an operator that can work.  A version is all it needs; its
    text names the manifest.  The Deployment it installs is the one
    [CreateOperatorDeployment] makes, under its name, and selects its own pods; the
    rules are granted to the account these pods run as; the webhook is that
    Deployment's, listens on a port the network policies open, at the path the
    operator serves, and is called for the creation, update and deletion of the
    resource of the CustomResourceDefinition, which is the one the manifest owns. *)
Theorem csv_installs_the_operator data csv :
  createClusterServiceVersion data = Ok csv →
  (∃ v, Parse (data_CsvVersion data) = Some v ∧ csv_Version csv = v ∧
        csv_Name csv = "hostpathprovisioneroperator." +:+ Version_String v) ∧
  csv_Deployments csv = [(Name (o_meta (csv_deployment data)), dep_Spec (csv_deployment data))] ∧
  (∀ n spec, (n, spec) ∈ csv_Deployments csv →
     default ∅ (MatchLabels (dep_Selector spec)) ⊆ default ∅ (Labels (template_Meta (dep_Template spec))) ∧
     csv_Permissions csv = [(ServiceAccountName (template_Spec (dep_Template spec)), getOperatorRules)] ∧
     csv_ClusterPermissions csv = [(ServiceAccountName (template_Spec (dep_Template spec)), getOperatorClusterRules)] ∧
     ∃ w, csv_Webhooks csv = [w] ∧ wh_DeploymentName w = n ∧ wh_ContainerPort w = wh_TargetPort w ∧
       (∃ np, np ∈ CreateNetworkPolicies (csv_Namespace csv) ∧ ("TCP", wh_TargetPort w) ∈ np_Ports np ∧
              selected_by np (dep_Template spec)) ∧
       wh_WebhookPath w = generateValidatePath (crd_group CreateCRDDef) (crd_version CreateCRDDef) (crd_kind CreateCRDDef) ∧
       wh_Rules w = [{| ro_Operations := ["CREATE"; "DELETE"; "UPDATE"]; ro_APIGroups := [crd_group CreateCRDDef];
                        ro_APIVersions := [crd_version CreateCRDDef]; ro_Resources := [crd_plural CreateCRDDef] |}]) ∧
  (owned_Name <$> csv_Owned csv) = [crd_name CreateCRDDef] ∧ (owned_Version <$> csv_Owned csv) = [crd_version CreateCRDDef] ∧
  (owned_Kind <$> csv_Owned csv) = [crd_kind CreateCRDDef].
Proof.
  unfold createClusterServiceVersion. intros H. destruct (Parse (data_CsvVersion data)) as [v|] eqn:Hv; [|done].
  injection H as <-. cbn [csv_Version csv_Name csv_Deployments csv_Permissions csv_ClusterPermissions csv_Webhooks csv_Namespace csv_Owned].
  split_and!; [|done| |reflexivity..].
  - exists v. split_and!; [done..|]. by destruct (Parse_inv _ _ Hv) as [_ <-].
  - intros n spec [= -> ->]%list_elem_of_singleton.
    split_and!; [apply operator_selects_itself|reflexivity..|].
    eexists. split; [reflexivity|]. split_and!; [reflexivity|reflexivity|apply webhook_is_reachable| |reflexivity].
    vm_compute. reflexivity.
Qed.

(** Without a version there is no manifest, and nothing is printed. *)
Lemma csv_needs_a_version `{Y : Yaml} marshal f :
  Parse (data_CsvVersion (fl_data f)) = None →
  main marshal f = ("", Panicked "invalid version").
Proof. unfold main, manifests, createClusterServiceVersion. by intros ->. Qed.

(** ** The example *)

(** A field of a struct, by its Go name *)
Definition get_field (t : gotype) (name : string) (v : goval) : option goval :=
  match t, v with
  | TStruct fields, VStruct l => list_to_map (M := gmap string goval) (zip ((λ f, f_name f.1) <$> fields) l) !! name
  | _, _ => None
  end.

Definition text_field (t : gotype) (name : string) (v : goval) : string :=
  match get_field t name v with Some (VString s) => s | _ => "" end.

(** What the webhook looks at of a resource: the path configuration, and the names
    and paths of the storage pools *)
Definition reviewed (v : goval) : HostPathProvisioner :=
  let spec := default (VStruct []) (get_field HostPathProvisioner_t "Spec" v) in
  Obj (k:=KHostPathProvisioner) {| APIVersion := ""; Kind := "" |} (object_meta "" "" None)
    ({| cr_ImagePullPolicy := "";
        cr_PathConfig := match get_field HostPathProvisionerSpec_t "PathConfig" spec with
                         | Some (VPtr (Some p)) => Some {| pc_Path := text_field PathConfig_t "Path" p; UseNamingPrefix := false |}
                         | _ => None
                         end;
        Workload := {| place_NodeSelector := None; place_Affinity := None; place_Tolerations := [] |}; FeatureGates := [];
        StoragePools := match get_field HostPathProvisionerSpec_t "StoragePools" spec with
                        | Some (VSlice (Some l)) =>
                            (λ p, {| pool_Name := text_field StoragePool_t "Name" p; PVCTemplate := None;
                                     pool_Path := text_field StoragePool_t "Path" p; SnapshotProvider := None;
                                     OverlayClassName := "" |}) <$> l
                        | _ => []
                        end |},
     {| Conditions := []; OperatorVersion := ""; TargetVersion := ""; ObservedVersion := ""; StoragePoolStatuses := None |}).

(** The example of the manifest is one a user can apply: it is a resource of the
    CustomResourceDefinition, its schema admits it, the operator reads it, and the
    webhook has no objection; 50Gi only has to be a quantity. *)
Theorem example_is_accepted `{CJ : CustomJson} `{F : Formats} data csv d :
  createClusterServiceVersion data = Ok csv → csv_Examples csv = JArr [d] →
  match quantity_schema with SIntOrString p => matches p "50Gi" = true | _ => False end →
  is_Some (unmarshal "Quantity" (JStr "50Gi")) →
  NestedField d ["kind"] = Some (JStr (crd_kind CreateCRDDef)) ∧
  NestedField d ["apiVersion"] = Some (JStr (crd_group CreateCRDDef +:+ "/" +:+ crd_version CreateCRDDef)) ∧
  validates (crd_schema CreateCRDDef) d = true ∧
  ∃ v, decode HostPathProvisioner_t d = Some v ∧ ValidateCreate (reviewed v) = None.
Proof.
  unfold createClusterServiceVersion. destruct (Parse (data_CsvVersion data)); [|done]. intros [= <-] [= <-] Hm [q Hq].
  split_and!; [reflexivity..| |].
  - vm_compute in Hm |- *. by rewrite Hm.
  - eexists. split; [vm_compute in Hq |- *; rewrite Hq; reflexivity|]. vm_compute. reflexivity.
Qed.

(** ** Witnesses *)

Definition example_data : NewClusterServiceVersionData := {|
  data_CsvVersion := "0.21.0"; data_ReplacesCsvVersion := ""; data_IconBase64 := ""; data_OperatorArgs := example_args |}.

Definition example_csv : ClusterServiceVersion :=
  match createClusterServiceVersion example_data with
  | Ok csv => csv
  | Err _ => (* not reached *) {|
      csv_APIVersion := ""; csv_Kind := ""; csv_Name := ""; csv_Namespace := ""; csv_Annotations := ∅; csv_Examples := JNull;
      csv_Webhooks := []; csv_DisplayName := ""; csv_Description := ""; csv_Keywords := [];
      csv_Version := {| Major := 0; Minor := 0; Patch := 0; Pre := []; Build := [] |}; csv_Maturity := ""; csv_Replaces := "";
      csv_Maintainers := []; csv_Provider := ""; csv_Links := []; csv_Icon := []; csv_Labels := ∅;
      csv_Selector := match_labels ∅; csv_InstallModes := []; csv_StrategyName := ""; csv_Deployments := [];
      csv_Permissions := []; csv_ClusterPermissions := []; csv_Owned := [] |}
  end.

Lemma csv_installs_the_operator_witness :
  csv_Name example_csv = "hostpathprovisioneroperator.0.21.0" ∧
  (owned_Name <$> csv_Owned example_csv) = ["hostpathprovisioners.hostpathprovisioner.kubevirt.io"].
Proof.
  assert (H : createClusterServiceVersion example_data = Ok example_csv) by (vm_compute; reflexivity).
  destruct (csv_installs_the_operator example_data example_csv H) as ((v & Hv & _ & Hname) & _ & _ & Howned & _).
  split; [|exact Howned]. rewrite Hname. vm_compute in Hv. injection Hv as <-. reflexivity.
Defined.

(** Every quantity is zero bytes, and every text matches. *)
Lemma example_is_accepted_witness :
  ∃ v, decode (CJ:={| marshal := λ _ _, JNull; unmarshal := λ _ _, Some (zero_value Quantity_t); is_zero := λ _ _, true;
                      canonical := λ _ v, v |}) HostPathProvisioner_t alm_example = Some v ∧ ValidateCreate (reviewed v) = None.
Proof.
  assert (H : createClusterServiceVersion example_data = Ok example_csv) by (vm_compute; reflexivity).
  assert (He : csv_Examples example_csv = JArr [alm_example]) by (vm_compute; reflexivity).
  destruct (example_is_accepted (CJ:={| marshal := λ _ _, JNull; unmarshal := λ _ _, Some (zero_value Quantity_t);
      is_zero := λ _ _, true; canonical := λ _ v, v |}) (F:={| has_format := λ _ _, true; matches := λ _ _, true |})
    example_data example_csv alm_example H He eq_refl (ex_intro _ _ eq_refl)) as (_ & _ & _ & Hv).
  exact Hv.
Defined.
