(* ===== verification/Metrics.v ===== *)
(** * Metrics

    pkg/monitoring/metrics: the gauge of the operator and its registration, over the
    vendored registry of operatormetrics (wrapper_registry.go) and the two registries
    of the Prometheus client behind it; and the tools that describe the metrics,
    tools/metricsdocs and tools/prom-metrics-collector.  That the gauge follows the
    conditions of the resource is part of the reconciler's theorems. *)
From S2P Require Import Prelude GoStrings Prog Names Api K8s Meta Rules.

(** ** Metrics *)

Record Metric := { m_Name : string; m_Help : string; m_Type : string }.

#[global] Instance Metric_eq_dec : EqDecision Metric.
Proof. solve_decision. Defined.

Definition readyGauge : Metric := {| m_Name := "kubevirt_hpp_cr_ready"; m_Help := "HPP CR Ready"; m_Type := "Gauge" |}.
Definition operatorMetrics : list Metric := [readyGauge].

(** ** Registration *)

(** A registry of the Prometheus client, as the names it has *)
Abbreviation registry := (gset string).

(** The registries of the process: that of controller-runtime, which is served, and
    the default one; what operatormetrics registered; and whether its variable
    [Register] was pointed to controller-runtime's ([Unregister] never is) *)
Record monitoring := {
  controller_registry : registry; default_registry : registry; registered : gmap string Metric; redirected : bool }.

(** [Register(metric.GetCollector())]: a collector that is there is an error. *)
Definition Register (m : Metric) (s : monitoring) : error * monitoring :=
  let target := if redirected s then controller_registry s else default_registry s in
  if bool_decide (m_Name m ∈ target) then (Some (Errorf "duplicate metrics collector registration attempted"), s)
  else (None,
    {| controller_registry := if redirected s then {[ m_Name m ]} ∪ controller_registry s else controller_registry s;
       default_registry := if redirected s then default_registry s else {[ m_Name m ]} ∪ default_registry s;
       registered := registered s; redirected := redirected s |}).

(** [Unregister], which is [prometheus.Unregister]: false if it is not there *)
Definition Unregister (m : Metric) (s : monitoring) : bool * monitoring :=
  (bool_decide (m_Name m ∈ default_registry s),
   {| controller_registry := controller_registry s; default_registry := default_registry s ∖ {[ m_Name m ]};
      registered := registered s; redirected := redirected s |}).

Definition unregisterMetric (m : Metric) (s : monitoring) : error * monitoring :=
  let '(succeeded, s) := Unregister m s in
  if succeeded
  then (None, {| controller_registry := controller_registry s; default_registry := default_registry s;
                 registered := delete (m_Name m) (registered s); redirected := redirected s |})
  else (Some (Errorf ("failed to unregister from Prometheus client metric " +:+ m_Name m)), s).

Definition registerMetric (m : Metric) (s : monitoring) : error * monitoring :=
  let '(err, s) := Register m s in
  match err with
  | Some e => (Some e, s)
  | None => (None, {| controller_registry := controller_registry s; default_registry := default_registry s;
                      registered := <[m_Name m := m]> (registered s); redirected := redirected s |})
  end.

Fixpoint RegisterMetrics (ms : list Metric) (s : monitoring) : error * monitoring :=
  match ms with
  | [] => (None, s)
  | m :: ms =>
      let '(err, s) := if bool_decide (is_Some (registered s !! m_Name m)) then unregisterMetric m s else (None, s) in
      match err with
      | Some e => (Some e, s)
      | None =>
          let '(err, s) := registerMetric m s in
          match err with Some e => (Some e, s) | None => RegisterMetrics ms s end
      end
  end.

(** metrics.go *)
Definition SetupMetrics (s : monitoring) : error * monitoring :=
  RegisterMetrics operatorMetrics
    {| controller_registry := controller_registry s; default_registry := default_registry s;
       registered := registered s; redirected := true |}.

(** [slices.SortFunc] by name; the names differ. *)
Fixpoint insert_metric (m : Metric) (l : list Metric) : list Metric :=
  match l with
  | [] => [m]
  | q :: l => if str_lt (m_Name q) (m_Name m) then q :: insert_metric m l else m :: q :: l
  end.

Definition ListMetrics (s : monitoring) : list Metric := foldr insert_metric [] (map_to_list (registered s)).*2.

(** A process that has registered nothing, whatever other packages registered *)
Definition fresh (s : monitoring) : Prop :=
  registered s = ∅ ∧ m_Name readyGauge ∉ controller_registry s ∧ m_Name readyGauge ∉ default_registry s.

Lemma set_up s : fresh s →
  SetupMetrics s = (None,
    {| controller_registry := {[ m_Name readyGauge ]} ∪ controller_registry s; default_registry := default_registry s;
       registered := {[ m_Name readyGauge := readyGauge ]}; redirected := true |}) ∧ m_Name readyGauge ∉ default_registry s.
Proof.
  intros (Hr & Hc & Hd). split; [|done].
  unfold SetupMetrics, operatorMetrics. cbn [RegisterMetrics registered]. rewrite Hr, lookup_empty.
  rewrite (bool_decide_eq_false_2 (is_Some None)) by (by intros []). unfold registerMetric, Register.
  cbn [redirected controller_registry default_registry registered]. by rewrite (bool_decide_eq_false_2 _ Hc).
Qed.

(** The first set-up registers the gauge where metrics are served from, and lists it.
    A second one fails: it takes the gauge out of the default registry, where it
    never was. *)
Theorem metrics_are_set_up_once s :
  fresh s →
  (SetupMetrics s).1 = None ∧ m_Name readyGauge ∈ controller_registry (SetupMetrics s).2 ∧
  ListMetrics (SetupMetrics s).2 = operatorMetrics ∧
  (SetupMetrics (SetupMetrics s).2).1 = Some (Errorf "failed to unregister from Prometheus client metric kubevirt_hpp_cr_ready").
Proof.
  intros [Hs Hd]%set_up. rewrite Hs. cbn [fst snd controller_registry].
  split_and!; [done|set_solver|vm_compute; reflexivity|].
  unfold SetupMetrics, operatorMetrics. cbn [RegisterMetrics registered controller_registry default_registry].
  rewrite lookup_singleton_eq, bool_decide_eq_true_2 by eauto. unfold unregisterMetric, Unregister.
  cbn [default_registry]. by rewrite (bool_decide_eq_false_2 _ Hd).
Qed.

(** ** prom-metrics-collector *)

(** [dto.MetricType] *)
Inductive family_type := COUNTER | GAUGE | SUMMARY | UNTYPED | HISTOGRAM.

Record MetricFamily := { mf_Name : string; mf_Help : string; mf_Type : family_type }.

(** vendor/github.com/kubevirt/monitoring/pkg/metrics/parser *)
Definition CreateMetricFamily (m : Metric) : MetricFamily :=
  {| mf_Name := m_Name m; mf_Help := m_Help m;
     mf_Type := if bool_decide (m_Type m = "Counter") then COUNTER
                else if bool_decide (m_Type m = "Gauge") then GAUGE
                else if bool_decide (m_Type m = "Histogram") then HISTOGRAM
                else if bool_decide (m_Type m = "Summary") then SUMMARY else UNTYPED |}.

(** [strings.ToUpper], of ASCII text *)
Definition upper (c : ascii) : ascii :=
  let n := nat_of_ascii c in
  if ((97 <=? n) && (n <=? 122))%nat then ascii_of_nat (n - 32) else c.
Fixpoint ToUpper (s : string) : string :=
  match s with "" => "" | String c s => String (upper c) (ToUpper s) end.

(** A recording rule with its type, which is Gauge for all of the operator's *)
Record RecordingRule := { rr_Record : string; rr_Expr : string; rr_Type : string }.

Definition ListRecordingRules (namespace : string) : list RecordingRule :=
  (λ r, {| rr_Record := rule_Record r; rr_Expr := rule_Expr r; rr_Type := "Gauge" |}) <$>
    sort_rules (operatorRecordingRules namespace).

Record Output := { MetricFamilies : list MetricFamily; RecordingRules : list RecordingRule }.

Definition excludedMetrics : gset string := ∅.

(** What the loops of [main] make of the metrics and rules *)
Definition collect (metricsList : list Metric) (rulesList : list RecordingRule) : Output :=
  let metricFamilies :=
    (λ m, CreateMetricFamily {| m_Name := m_Name m; m_Help := m_Help m; m_Type := ToUpper (m_Type m) |}) <$>
      filter (λ m, m_Name m ∉ excludedMetrics) metricsList in
  let rules := filter (λ r, rr_Record r ∉ excludedMetrics) rulesList in
  let recNames : gset string := list_to_set (rr_Record <$> rules) in
  {| MetricFamilies := filter (λ mf, mf_Name mf ∉ recNames) metricFamilies;
     RecordingRules := (λ r, {| rr_Record := rr_Record r; rr_Expr := rr_Expr r; rr_Type := ToUpper (rr_Type r) |}) <$> rules |}.

(** [main]: an error of the set-up is a panic. *)
Definition collector_main (s : monitoring) : option Output :=
  let '(err, s) := SetupMetrics s in
  match err with Some _ => None | None => Some (collect (ListMetrics s) (ListRecordingRules "test")) end.

Lemma upper_not_lower c n : upper c = ascii_of_nat n → ¬ (97 ≤ n ∧ n ≤ 122)%nat.
Proof.
  intros H [H1 H2]. apply (f_equal nat_of_ascii) in H. rewrite nat_ascii_embedding in H by lia.
  unfold upper in H. destruct (_ && _) eqn:Hc.
  - apply andb_true_iff in Hc as [?%Nat.leb_le ?%Nat.leb_le]. rewrite nat_ascii_embedding in H; lia.
  - apply andb_false_iff in Hc as [?%Nat.leb_gt|?%Nat.leb_gt]; lia.
Qed.

Lemma ToUpper_second s a b t : ToUpper s = String a (String b t) → ∃ c, upper c = b.
Proof. destruct s as [|c [|d s]]; try done. intros [= _ Hb _]. by exists d. Qed.

(** No metric is described with its type: the type is passed in capitals, and the
    parser knows types that begin with one. *)
Lemma families_are_untyped ms rs mf : mf ∈ MetricFamilies (collect ms rs) → mf_Type mf = UNTYPED.
Proof.
  unfold collect. cbn [MetricFamilies]. intros [_ (m & -> & _)%list_elem_of_fmap]%list_elem_of_filter.
  unfold CreateMetricFamily. cbn [mf_Type m_Type].
  assert (Hno : ∀ a n t, (97 ≤ n ∧ n ≤ 122)%nat → ToUpper (m_Type m) ≠ String a (String (ascii_of_nat n) t)).
  { intros a n t Hn H. destruct (ToUpper_second _ _ _ _ H) as [c Hc]. by apply (upper_not_lower _ _ Hc). }
  rewrite !bool_decide_eq_false_2; [done|..].
  - exact (Hno "S"%char 117%nat "mmary" ltac:(lia)).
  - exact (Hno "H"%char 105%nat "stogram" ltac:(lia)).
  - exact (Hno "G"%char 97%nat "uge" ltac:(lia)).
  - exact (Hno "C"%char 111%nat "unter" ltac:(lia)).
Qed.

(** Every metric that is not a recording rule's is described once, in the order of
    the list, under its name, and no other. *)
Lemma families_are_the_metrics ms rs :
  mf_Name <$> MetricFamilies (collect ms rs) = filter (λ n, n ∉ rr_Record <$> rs) (m_Name <$> ms).
Proof.
  unfold collect. cbn [MetricFamilies]. set (rules := filter _ rs).
  assert (Hr : rules = rs).
  { subst rules. induction rs as [|r rs IH]; [done|]. rewrite filter_cons_True by (unfold excludedMetrics; set_solver). by rewrite IH. }
  clearbody rules. subst rules.
  assert (Hrs : ∀ n, n ∈ (list_to_set (rr_Record <$> rs) : gset string) ↔ n ∈ rr_Record <$> rs)
    by (intros n; apply elem_of_list_to_set).
  induction ms as [|m ms IH]; [done|]. rewrite (filter_cons_True _ m) by (unfold excludedMetrics; set_solver).
  rewrite !fmap_cons, !filter_cons. cbn [mf_Name CreateMetricFamily m_Name].
  destruct (decide (m_Name m ∉ rr_Record <$> rs)) as [Hn|Hn].
  - rewrite decide_True by (by rewrite Hrs). cbn [fmap list_fmap mf_Name CreateMetricFamily m_Name]. f_equal. exact IH.
  - rewrite decide_False by (by rewrite Hrs). exact IH.
Qed.

(** The tool describes the gauge and the two recording rules. *)
Lemma collector_output s : fresh s → collector_main s = Some {|
  MetricFamilies := [{| mf_Name := "kubevirt_hpp_cr_ready"; mf_Help := "HPP CR Ready"; mf_Type := UNTYPED |}];
  RecordingRules := (λ r, {| rr_Record := rr_Record r; rr_Expr := rr_Expr r; rr_Type := "GAUGE" |}) <$> ListRecordingRules "test" |}.
Proof.
  intros Hf. destruct (set_up s Hf) as [Hs _]. unfold collector_main. rewrite Hs. vm_compute. reflexivity.
Qed.

(** ** metricsdocs *)

(** A row of the table of vendor/.../docs/metrics.go: name, kind, type, description *)
Record row := { row_Name : string; row_Kind : string; row_Type : string; row_Description : string }.

Fixpoint insert_row (r : row) (l : list row) : list row :=
  match l with
  | [] => [r]
  | q :: l => if str_lt (row_Name q) (row_Name r) then q :: insert_row r l else r :: q :: l
  end.

(** [buildMetricsDocs]: the first of every name, sorted by name; no type here is a
    vector. *)
Fixpoint unique_rows (seen : gset string) (l : list row) : list row :=
  match l with
  | [] => []
  | r :: l => if bool_decide (row_Name r ∈ seen) then unique_rows seen l else r :: unique_rows ({[ row_Name r ]} ∪ seen) l
  end.

Definition sorted_rows (l : list row) : list row := foldr insert_row [] (unique_rows ∅ l).

(** The help texts of the recording rules *)
Definition rule_help (name : string) : string :=
  if bool_decide (name = "kubevirt_hpp_operator_up")
  then "[Deprecated] The number of running hostpath-provisioner-operator pods"
  else "The number of hostpath-provisioner-operator pods that are up".

(** [main], up to the text around the rows *)
Definition docs_main (s : monitoring) : option (list row) :=
  let '(err, s) := SetupMetrics s in
  match err with
  | Some _ => None
  | None => Some (sorted_rows ((λ m, {| row_Name := m_Name m; row_Kind := "Metric"; row_Type := m_Type m;
                                        row_Description := m_Help m |}) <$> ListMetrics s) ++
                  sorted_rows ((λ r, {| row_Name := rr_Record r; row_Kind := "Recording rule"; row_Type := rr_Type r;
                                        row_Description := rule_help (rr_Record r) |}) <$> ListRecordingRules "test"))
  end.

(** The documentation has a row for every metric and rule the operator exposes. *)
Lemma docs_output s : fresh s → ∃ rows, docs_main s = Some rows ∧ (λ r, (row_Name r, row_Type r)) <$> rows =
  [("kubevirt_hpp_cr_ready", "Gauge"); ("cluster:kubevirt_hpp_operator_up:sum", "Gauge"); ("kubevirt_hpp_operator_up", "Gauge")].
Proof. intros Hf. destruct (set_up s Hf) as [Hs _]. unfold docs_main. rewrite Hs. eexists. split; [reflexivity|vm_compute; reflexivity]. Qed.

(** The alert on the resource watches the gauge. *)
Lemma not_ready_alert_watches_the_gauge :
  ∃ a, a ∈ operatorAlerts ∧ rule_Alert a = "HPPNotReady" ∧ rule_Expr a = m_Name readyGauge +:+ " == 0".
Proof. eexists. split_and!; [right; left|reflexivity|reflexivity]. Qed.
