(* ===== verification/Clientset.v ===== *)
(** * Setting up the clients, and listers

    pkg/client/clientset/versioned/clientset.go and the constructors of its typed
    client: from a configuration to the REST clients requests go through (Clients.v);
    the constructors of client-go (rest/config.go, discovery_client.go) as far as they
    decide about rate limits and paths.  And the lister of pkg/client/listers, over the
    store of an informer.  Transports and URLs are parameters. *)
From S2P Require Import Prelude GoStrings Api Watches Clients.

(** ** Configurations *)

(** A rate limiter: one that was given, or a token bucket, each a bucket of its own *)
Inductive limiter :=
| Given (id : nat)
| TokenBucket (id : nat) (qps burst : Z).

#[global] Instance limiter_eq_dec : EqDecision limiter.
Proof. solve_decision. Defined.

(** [rest.Config], as far as it is looked at; of QPS, a float, the sign and whether it
    is zero *)
Record Config := {
  APIPath : string; GroupVersion : option (string * string); serializer : option string; UserAgent : string;
  RateLimiter : option limiter; QPS : Z; Burst : Z; ConfigTimeout : Z; config_rest : string }.

(** The transports and addresses a configuration leads to *)
Class Transports := {
  http_client : Type;
  HTTPClientFor : Config → result http_client;
  base_of : Config → result string;
  DefaultKubernetesUserAgent : string }.

Record RESTClient `{T : Transports} := {
  rc_base : string; rc_versionedAPIPath : string; rc_limiter : option limiter; rc_client : http_client;
  rc_GroupVersion : string * string }.

Section Setup.
Context `{T : Transports}.

(** Making a bucket takes the next identity. *)
Definition fresh_bucket (n : nat) (qps burst : Z) : limiter * nat := (TokenBucket n qps burst, S n).

Definition DefaultQPS : Z := 5.
Definition DefaultBurst : Z := 10.

(** The limiter of [RESTClientForConfigAndClient] and of its unversioned sibling *)
Definition limiter_for (c : Config) (n : nat) : option limiter * nat :=
  match RateLimiter c with
  | Some l => (Some l, n)
  | None =>
      let qps := if QPS c =? 0 then DefaultQPS else QPS c in
      let burst := if Burst c =? 0 then DefaultBurst else Burst c in
      if 0 <? qps then let '(l, n) := fresh_bucket n qps burst in (Some l, n) else (None, n)
  end.

Definition rest_client (c : Config) (h : http_client) (gv : string * string) (n : nat) : result RESTClient * nat :=
  match base_of c with
  | Err e => (Err e, n)
  | Ok base =>
      let '(group, version) := default ("", "") (GroupVersion c) in
      let '(l, n) := limiter_for c n in
      (Ok {| rc_base := base; rc_versionedAPIPath := DefaultVersionedAPIPath (APIPath c) group version;
             rc_limiter := l; rc_client := h; rc_GroupVersion := gv |}, n)
  end.

Definition RESTClientForConfigAndClient (c : Config) (h : http_client) (n : nat) : result RESTClient * nat :=
  match GroupVersion c, serializer c with
  | None, _ => (Err (Errorf "GroupVersion is required when initializing a RESTClient"), n)
  | _, None => (Err (Errorf "NegotiatedSerializer is required when initializing a RESTClient"), n)
  | Some gv, Some _ => rest_client c h gv n
  end.

Definition UnversionedRESTClientForConfigAndClient (c : Config) (h : http_client) (n : nat) : result RESTClient * nat :=
  match serializer c with
  | None => (Err (Errorf "NegotiatedSerializer is required when initializing a RESTClient"), n)
  | Some _ => rest_client c h (default ("meta.k8s.io", "v1") (GroupVersion c)) n
  end.

(** ** The typed client *)

Definition setConfigDefaults (c : Config) : Config :=
  {| APIPath := "/apis"; GroupVersion := Some (hpp_group, hpp_version); serializer := Some "scheme.Codecs";
     UserAgent := if bool_decide (UserAgent c = "") then DefaultKubernetesUserAgent else UserAgent c;
     RateLimiter := RateLimiter c; QPS := QPS c; Burst := Burst c; ConfigTimeout := ConfigTimeout c; config_rest := config_rest c |}.

Definition typed_NewForConfigAndClient (c : Config) (h : http_client) (n : nat) : result RESTClient * nat :=
  RESTClientForConfigAndClient (setConfigDefaults c) h n.

Definition typed_NewForConfig (c : Config) (n : nat) : result RESTClient * nat :=
  let config := setConfigDefaults c in
  match HTTPClientFor config with
  | Err e => (Err e, n)
  | Ok h => typed_NewForConfigAndClient config h n
  end.

(** ** The discovery client *)

Definition setDiscoveryDefaults (c : Config) : Config :=
  {| APIPath := ""; GroupVersion := None; serializer := Some "noop";
     UserAgent := if bool_decide (UserAgent c = "") then DefaultKubernetesUserAgent else UserAgent c;
     RateLimiter := RateLimiter c; QPS := QPS c; Burst := if Burst c =? 0 then 300 else Burst c;
     ConfigTimeout := if ConfigTimeout c =? 0 then 32 else ConfigTimeout c; config_rest := config_rest c |}.

Definition NewDiscoveryClientForConfigAndClient (c : Config) (h : http_client) (n : nat) : result RESTClient * nat :=
  UnversionedRESTClientForConfigAndClient (setDiscoveryDefaults c) h n.

(** ** The clientset *)

Record Clientset := { cs_hostpathprovisionerV1beta1 : RESTClient; cs_discovery : RESTClient }.

Definition with_limiter (l : option limiter) (agent : string) (c : Config) : Config :=
  {| APIPath := APIPath c; GroupVersion := GroupVersion c; serializer := serializer c; UserAgent := agent; RateLimiter := l;
     QPS := QPS c; Burst := Burst c; ConfigTimeout := ConfigTimeout c; config_rest := config_rest c |}.

Definition burst_error : goerror :=
  Errorf "burst is required to be greater than 0 when RateLimiter is not set and QPS is set to greater than 0".

Definition NewForConfigAndClient (c : Config) (h : http_client) (n : nat) : result Clientset * nat :=
  let limits := match RateLimiter c with None => 0 <? QPS c | Some _ => false end in
  if limits && (Burst c <=? 0) then (Err burst_error, n)
  else
    let '(c, n) := if limits
                   then let '(l, n) := fresh_bucket n (QPS c) (Burst c) in (with_limiter (Some l) (UserAgent c) c, n)
                   else (c, n) in
    let '(typed, n) := typed_NewForConfigAndClient c h n in
    match typed with
    | Err e => (Err e, n)
    | Ok typed =>
        let '(disco, n) := NewDiscoveryClientForConfigAndClient c h n in
        match disco with
        | Err e => (Err e, n)
        | Ok disco => (Ok {| cs_hostpathprovisionerV1beta1 := typed; cs_discovery := disco |}, n)
        end
    end.

Definition NewForConfig (c : Config) (n : nat) : result Clientset * nat :=
  let c := with_limiter (RateLimiter c) (if bool_decide (UserAgent c = "") then DefaultKubernetesUserAgent else UserAgent c) c in
  match HTTPClientFor c with
  | Err e => (Err e, n)
  | Ok h => NewForConfigAndClient c h n
  end.

(** [NewForConfigOrDie]; [None] is the panic. *)
Definition NewForConfigOrDie (c : Config) (n : nat) : option Clientset * nat :=
  match NewForConfig c n with
  | (Ok cs, n) => (Some cs, n)
  | (Err _, n) => (None, n)
  end.

(** ** Theorems *)

(** With rates in the configuration, everything a clientset sends comes out of one
    budget: its clients share a rate limiter, the given one or a bucket of the
    configured rate.  Without, each client has a bucket of its own at the default rate;
    with a negative rate there is no limit. *)
Theorem clients_share_a_budget c h n cs n' :
  NewForConfigAndClient c h n = (Ok cs, n') →
  match RateLimiter c with
  | Some l => rc_limiter (cs_hostpathprovisionerV1beta1 cs) = Some l ∧ rc_limiter (cs_discovery cs) = Some l
  | None =>
      if 0 <? QPS c
      then rc_limiter (cs_hostpathprovisionerV1beta1 cs) = Some (TokenBucket n (QPS c) (Burst c)) ∧
           rc_limiter (cs_discovery cs) = Some (TokenBucket n (QPS c) (Burst c)) ∧ 0 < Burst c
      else if QPS c =? 0
      then ∃ b b', rc_limiter (cs_hostpathprovisionerV1beta1 cs) = Some (TokenBucket n DefaultQPS b) ∧
           rc_limiter (cs_discovery cs) = Some (TokenBucket (S n) DefaultQPS b')
      else rc_limiter (cs_hostpathprovisionerV1beta1 cs) = None ∧ rc_limiter (cs_discovery cs) = None
  end.
Proof.
  unfold NewForConfigAndClient, typed_NewForConfigAndClient, NewDiscoveryClientForConfigAndClient,
    RESTClientForConfigAndClient, UnversionedRESTClientForConfigAndClient, rest_client, limiter_for, fresh_bucket.
  destruct c as [path gv ser agent [l|] qps burst time other]; cbn -[Z.ltb Z.leb Z.eqb].
  - destruct (base_of _); [|done]. cbn. destruct (base_of _); [|done]. cbn. by intros [= <- _].
  - destruct (Z.ltb_spec 0 qps) as [Hq|Hq].
    + destruct (Z.leb_spec burst 0); [done|]. cbn -[Z.ltb Z.leb Z.eqb].
      destruct (base_of _); [|done]. cbn. destruct (base_of _); [|done]. cbn. by intros [= <- _].
    + cbn -[Z.ltb Z.leb Z.eqb]. destruct (Z.eqb_spec qps 0) as [->|H0].
      * destruct (base_of _); [|done]. cbn. destruct (base_of _); [|done]. cbn. intros [= <- _]. cbn. eauto.
      * assert (Hn : (0 <? qps) = false) by (apply Z.ltb_ge; lia). rewrite Hn.
        destruct (base_of _); [|done]. cbn. destruct (base_of _); [|done]. cbn. by intros [= <- _].
Qed.

(** A rate without a burst is refused, before anything is made. *)
Lemma rate_needs_a_burst c h n :
  RateLimiter c = None → 0 < QPS c → Burst c <= 0 → NewForConfigAndClient c h n = (Err burst_error, n).
Proof.
  intros Hl Hq Hb. unfold NewForConfigAndClient. rewrite Hl. by rewrite (proj2 (Z.ltb_lt _ _) Hq), (proj2 (Z.leb_le _ _) Hb).
Qed.

(** The typed client sends to the path of its group and version, whatever the
    configuration says. *)
Lemma typed_path c h n rc n' :
  typed_NewForConfigAndClient c h n = (Ok rc, n') →
  rc_versionedAPIPath rc = DefaultVersionedAPIPath "/apis" hpp_group hpp_version ∧ rc_GroupVersion rc = (hpp_group, hpp_version).
Proof.
  unfold typed_NewForConfigAndClient, RESTClientForConfigAndClient, rest_client. cbn [setConfigDefaults GroupVersion serializer default from_option id].
  destruct (base_of _); [|done]. destruct (limiter_for _ _). by intros [= <- _].
Qed.

(** The defaults are idempotent, so that both constructors of the typed client agree. *)
Lemma defaults_idempotent c : setConfigDefaults (setConfigDefaults c) = setConfigDefaults c.
Proof. unfold setConfigDefaults. cbn. f_equal. repeat case_bool_decide; congruence. Qed.

End Setup.

(** ** The lister *)

(** The store of an informer: its objects, by key *)
Abbreviation indexer := (gmap string HostPathProvisioner).

(** A selector, as far as a lister asks it *)
Record Selector := { MatchesNothing : bool; Empty : bool; Matches : gomap → bool }.

(** [cache.ListAll]; the order of the store is not determined. *)
Definition lister_List (s : indexer) (selector : Selector) : list HostPathProvisioner :=
  if MatchesNothing selector then []
  else filter (λ o, Empty selector || Matches selector (Labels (o_meta o))) (map_to_list s).*2.

Definition lister_Get (s : indexer) (name : string) : result HostPathProvisioner :=
  match s !! name with
  | Some o => Ok o
  | None => Err (GoError KNotFound ("hostpathprovisioner." +:+ hpp_group +:+ " " +:+ dquote +:+ name +:+ dquote +:+ " not found"))
  end.

(** Objects are stored under the keys of [MetaNamespaceKeyFunc]: for an object without
    a namespace, its name. *)
Definition keyed (s : indexer) : Prop := map_Forall (λ k o, Name (o_meta o) = k ∧ Namespace (o_meta o) = "") s.

(** What is listed is what can be got and matches. *)
Theorem lister_lists_what_it_gets s selector o :
  keyed s → MatchesNothing selector = false →
  o ∈ lister_List s selector ↔
    lister_Get s (Name (o_meta o)) = Ok o ∧ (Empty selector = true ∨ Matches selector (Labels (o_meta o)) = true).
Proof.
  intros Hk Hm. unfold lister_List, lister_Get. rewrite Hm, list_elem_of_filter, list_elem_of_fmap.
  rewrite orb_True, !Is_true_true. split.
  - intros [Hs ((k & o') & -> & Ho%elem_of_map_to_list)]. cbn in *. destruct (Hk k o' Ho) as [-> _].
    by rewrite Ho.
  - intros [Hg Hs]. split; [done|]. destruct (s !! Name (o_meta o)) as [o'|] eqn:Ho; [|done].
    injection Hg as ->. exists (Name (o_meta o), o). split; [done|]. by apply elem_of_map_to_list.
Qed.

(** ** Witnesses *)

#[local] Instance local_transports : Transports := {|
  http_client := unit; HTTPClientFor := λ _, Ok tt; base_of := λ _, Ok "/"; DefaultKubernetesUserAgent := "client" |}.

Definition config_of (l : option limiter) (qps burst : Z) : Config :=
  {| APIPath := ""; GroupVersion := None; serializer := None; UserAgent := ""; RateLimiter := l; QPS := qps; Burst := burst;
     ConfigTimeout := 0; config_rest := "" |}.

Lemma clients_share_a_budget_witness :
  ∀ cs n, NewForConfigAndClient (T:=local_transports) (config_of None 20 30) tt 0 = (Ok cs, n) →
    rc_limiter (cs_hostpathprovisionerV1beta1 cs) = rc_limiter (cs_discovery cs).
Proof.
  intros cs n H. destruct (clients_share_a_budget (T:=local_transports) (config_of None 20 30) tt 0 cs n H) as (Ht & Hd & _).
  exact (eq_trans Ht (eq_sym Hd)).
Defined.

Lemma a_clientset_is_made : ∃ cs n, NewForConfig (config_of None 20 30) 0 = (Ok cs, n).
Proof. eexists _, _. reflexivity. Qed.

Lemma lister_lists_what_it_gets_witness :
  ∃ o : HostPathProvisioner, Name (o_meta o) = "hpp" ∧
    o ∈ lister_List {["hpp" := o]} {| MatchesNothing := false; Empty := true; Matches := λ _, false |}.
Proof.
  exists (Obj (k:=KHostPathProvisioner) {| APIVersion := ""; Kind := "" |} (object_meta "hpp" "" None)
    ({| cr_ImagePullPolicy := ""; cr_PathConfig := None;
        Workload := {| place_NodeSelector := None; place_Affinity := None; place_Tolerations := [] |};
        FeatureGates := []; StoragePools := [] |},
     {| Conditions := []; OperatorVersion := ""; TargetVersion := ""; ObservedVersion := ""; StoragePoolStatuses := None |})).
  split; [reflexivity|]. apply lister_lists_what_it_gets; [|reflexivity|].
  - apply map_Forall_singleton. split; reflexivity.
  - split; [reflexivity|left; reflexivity].
Defined.
